(* ===== verification/_CoqProject ===== *)
-Q . S2P
Prelude.v
Effects.v
Logger.v
LockActuator.v
Vision.v
Enrollment.v
Gate.v
Camera.v
PresenceLoop.v
Scenarios.v
PresenceTurn.v
PresenceRun.v
PresenceTime.v
Turns.v
GuardTree.v
TreeRuns.v
GuardedTree.v
Representation.v
PresenceMain.v
Signals.v
Observable.v
TypeSafety.v
Authority.v
FaceDetectLoop.v
FaceDetectRun.v
Versions.v
FaceDetectTime.v
MainTree.v
Floats.v
Specials.v
Metric.v
Cascades.v
