(* ===== verification/Prelude.v ===== *)
(** * Presence guard: a verification development

    The repository holds two versions of one program, a presence guard
    that watches a webcam and locks the desktop session unless exactly
    one enrolled face is in front of it:

    - [src/presence_guard.py], the version the specification describes:
      optional Bluetooth gate, buffer flushing, HOG detection with CNN
      fallback, an absence timeout, identity sampling every N frames;
    - [src/face_detect.py], the first version: one detector, no timeout,
      every frame that does not show exactly one enrolled face locks.

    Both are a startup ([main] checks the enrollment directory, loads the
    enrolled encodings, opens the camera) followed by an endless loop
    inside [try/except/finally].  A turn of the loop senses (phone,
    frame, faces, identity), decides, and acts by calling [lock_session],
    a cascade over four lock commands, and sleeping.

    ** How the code is modelled

    The development is a shallow embedding.  A Python function is a
    Rocq function of the same name that returns a [Prog A]: the list of
    external events it performed, in order, and its outcome, a value or
    the exception it raised.  What the outside world does is an input:
    every external call takes the answer of the environment as an
    argument ([Returns v] or [Raises e]) and records an event.  So a
    definition is executable, a theorem quantified over the answers
    holds for every behaviour of the camera, the detector, the commands
    and the clock, and a scenario is checked by [vm_compute].

    ** Files, in the order of their dependencies

    - [Prelude] (this file): numbers as the code has them (time stamps
      as microseconds in [Z], durations and distances as rationals [Q]),
      decidable comparisons, list lemmas, the hint database [guard] and
      the tactics shared below.
    - [Effects]: exceptions [exn] with the class test [is_Exception];
      [Prog] with its monad laws; [try_except], [except_Exception],
      [finally], [sys_exit]; [call], [log], [sleep], [py_mod]; the
      logger with its file, [log_with]; [exit_status], the status of
      the process; [budget] and [blocking], the time a trace may wait
      on commands and sleeps; [for_each], a loop of a step over a list
      of answers, with what it inherits from its step.
    - [Logger]: the text of the log (src/presence_guard.py:33-41,
      src/face_detect.py:28-36).  [DateTime] and [strftime] are the
      stamp, [line] the line, the definitions [text_...] the text of
      each [log(...)] call at its line of the sources, [render] the
      text of a message, with [format_3f] for [{best:.3f}], [written]
      what goes to the
      standard output and to the file.  [strptime], [parse_line] and
      [read_line] are the reader the round trips are stated with.
    - [LockActuator]: [lock_session] of both scripts
      ([PresenceGuard.lock_session], src/presence_guard.py:53-68;
      [FaceDetect.lock_session], src/face_detect.py:56-75) as the shared
      loop [for_cmds] over the script's [attempt].  [cascade] and
      [cascade_trace] are the cascade of the specification; the class
      [Attempt] abstracts the two [try] statements, the class
      [LockActuator] is what a decision loop may assume of an actuator.
    - [Vision]: frames, the class [Vision] of the capabilities
      ([face_locations], [face_encodings], [norm]), the face locator
      [detect_faces_rgb] (src/presence_guard.py:117-127) and the identity
      matcher [identify] (lines 197-204).
    - [Enrollment]: [load_known_encodings] of both scripts
      (src/presence_guard.py:98-115, src/face_detect.py:38-53) as the
      shared loop [for_files] over the script's [enroll], on a file
      system [Files]; [verdict] and [enrolled] specify the encodings a
      directory holds, the class [EnrollBody] what the loop needs of a
      body.
    - [Gate]: [is_phone_present] (src/presence_guard.py:43-51) with
      Python's substring test [contains].
    - [Camera]: [open_camera] (lines 70-86) and [latest_frame] (lines
      88-96); [held] counts the captures a trace leaves open.
    - [PresenceLoop]: the loop of src/presence_guard.py.  [Config] is
      the block of constants, [State] the two variables of the loop,
      [Obs] the answers of the environment during one turn.
      [iteration] is the body of [while True] (lines 152-217) with its
      branches [phone_missing], [not_one_face], [verify], [one_face]
      and [lock_and_cool]; [loop] runs it over a list of observations;
      [guarded_loop] is the [try/except/finally] (lines 147-224).  The
      presence state machine of the specification is [Sample], [phase],
      [spec_lock], [spec_seen]; [sense] and [react] split a turn in its
      sensing and deciding halves, and [iteration_sense_react] shows the
      turn is their sequence.
    - [Scenarios]: stand-ins for the capabilities and example
      observations, used by the witnesses.
    - [PresenceTurn]: theorems on one turn of src/presence_guard.py.
    - [PresenceRun]: theorems on runs: the cooldown invariant, the
      simulation of the state machine, latching, the guard.
    - [PresenceTime]: the deadline of the absence lock on a paced clock
      ([paced], [overdue]), the time a run blocks ([turn_budget]), the
      rate of the lock attempts ([slept]) and the run whose reads all
      fail ([unread], [retries]).
    - [Turns]: the contract between a loop and its turn, the class
      [Turn] over [kept]: the cooldown after every cascade, the budget
      of a turn, the captures left alone.  The theorems on the runs of
      a loop, [for_each] of [Effects], are proved against it, and the
      turns of both scripts are instances.
    - [GuardTree]: [while True] itself, [guard_tree], an interaction
      tree without a leaf over the events [guardE], the exceptions of
      the library of interaction trees and the two events of the world;
      [exec] and [run_tree] run a tree with fuel; [always_performs],
      defined with Paco, is a property of every turn of an endless run.
    - [TreeRuns]: [try/except] and [try/finally] as trees
      ([try_tree], [finally_tree], built from [try_catch] of the
      library) and the theory of their runs: [exec] respects the
      bisimulation of trees, [exec_bind] and [exec_try_catch] run a
      sequence and a [try] from the runs of their parts, [runs_as] and
      [waits] relate a tree to a run of [Prog].
    - [GuardedTree]: the [try] statement around the endless loop,
      [guarded_by], and the guard of src/presence_guard.py as a tree,
      [guarded_tree] (lines 147-224).
    - [Representation]: the constants up to their value: traces up to
      the fractions of the sleeps ([trace_equiv], [prog_equiv]),
      configurations up to the fractions of their constants
      ([same_config]), with their [Equivalence] and [Proper] instances.
    - [PresenceMain]: [PresenceGuard.main] (lines 129-224) over a
      [World], its startup [PresenceGuard.starting] (lines 129-145),
      with the cases of the startup, [startup];
      [PresenceGuard.script] (lines 226-227) with [exit_status] of
      [Effects], the status of the process.
    - [Signals]: SIGINT at any point: [interrupt_after k m], the run
      of [m] on which the signal arrives after its [k]-th event, with
      its laws, the [try] statement of [main] around any body,
      [guard_of], and [main] interrupted in its loop and in its
      startup.
    - [Observable]: the standard output of a run read back,
      [read_log].
    - [TypeSafety]: the shapes of the identity check ([matrix], with
      [shaped] and [Encoder] of [Vision]), the subtraction of [numpy]
      with its broadcasting and its [ValueError] ([broadcast_sub],
      [identify_checked]) and the provenance of the exceptions of a
      turn ([answered]).
    - [Authority]: the footprint of src/presence_guard.py, [permitted].
    - [FaceDetectLoop]: the loop and [main] of src/face_detect.py
      ([FaceDetect.turn], lines 101-139; [FaceDetect.guarded], lines
      96-146; [FaceDetect.main], lines 77-146, and its startup
      [FaceDetect.starting], lines 77-94; [FaceDetect.script], lines
      148-149) and its rule [FaceDetect.strict_lock].
    - [FaceDetectRun]: the runs of src/face_detect.py: what its turns
      sensed, [samples], the decisions of a trace, [strict_verdicts],
      and its log read back, [read_strict_log].
    - [Versions]: the two scripts on the same samples: [grace], the
      turns on which alone they differ.
    - [FaceDetectTime]: the turn of src/face_detect.py as a [Turn],
      with its budget [frame_budget], its endless loop [frames_tree]
      and the [try] statement around it, [guarded_frames_tree].
    - [MainTree]: the two scripts as interaction trees, [main_tree]
      and [face_detect_main_tree]: the startup followed by the guard.
    - [Floats]: the doubles of Python on the rationals: [round], the
      rounding to the nearest double, [literal], the value of a
      decimal literal, [total_seconds_float], [absence_test] and
      [within_tolerance], the two comparisons of the loop as Python
      computes them.
    - [Specials]: the doubles with their infinities and [nan]
      ([Double]) at lines 200-202: [np_min_d], [format_3f_d], [dle]
      and the three lines together, [judge].
    - [Metric]: the laws of a distance the matcher relies on, the
      class [Metric] over the norm of [Vision].
    - [Cascades]: the lock actuator inside the loops: [lock_events],
      the events of the lock actuator in a trace, and [lockers], the
      turns of a run that attempt a lock.

    ** What the theorems show

    - Refinement of the specification's state machine: a turn locks
      exactly when rules 1 to 4 say so and moves [last_seen_someone] as
      they say ([iteration_refines_spec], with the corollaries for
      several faces, absence, one face and the gate); along a run the time of the last sighting, the
      decisions logged and the number of cascades are those of the rules
      ([loop_simulates_spec]), and so for [main] as a whole once the
      startup has passed ([main_guards]); absence latches
      ([absence_latches]).
    - The lock actuator inside the loop: the events of the lock
      actuator in a run are one whole cascade for each turn that locks,
      from the first command on and with the answers of that turn
      ([loop_runs_cascades], [frames_lock_events]); two turns that lock
      on the same answers perform the same attempts
      ([lock_attempts_idempotent]).
    - Authority: every event of every run of [main] is [permitted]:
      the lock commands, the Bluetooth query when the gate is on, the
      files of the enrollment directory, the devices probed, the two
      sleeps; no command unlocks ([main_only_permitted]).
    - Liveness: in an empty room the lock comes at the first turn past
      the timeout, less than [ABSENCE_TIMEOUT + gap] after the last
      sighting when the turns are at most [gap] apart, and at every
      turn after it ([absence_locks_by_deadline]).
    - Termination and the endless loop: [guard_tree] run on a list of
      observations ends within three steps a turn, with the events and
      the exception of [loop] ([guard_tree_runs]); every turn of the
      endless run keeps the cooldown, the budget and the capture
      ([guard_tree_every_turn]).
    - The guard as a tree: the [try/except/finally] around the endless
      loop, run on a list of observations, waits for the next frame
      with the events of the turns performed, or ends with the events
      and the outcome of [guarded_loop] ([guarded_tree_runs], and
      [guarded_frames_tree_runs] for src/face_detect.py); whatever the
      fuel, a run that has come to its end released the capture as its
      last event and a run that waits has not released it, and the
      guard ends only when a turn raises ([guarded_tree_release],
      [guarded_frames_tree_release]).
    - The scripts as trees: [main_tree] is the startup followed by the
      guard; a startup that fails ends it as it ends [main], with no
      observation read, and after a startup that succeeds it waits or
      ends as the guard does ([main_tree_runs],
      [face_detect_main_tree_runs]); a run of the tree that has come to
      its end is the run of [main] ([main_tree_ends],
      [face_detect_main_tree_ends]), so that what is shown of [main]
      holds of the tree that has ended.
    - The doubles: [round] is the rounding of the standard
      ([round_representable], [round_fix], [round_mono],
      [round_nearest]) and agrees with the division of the library's
      binary64 on the numbers of the configurations; rounding the
      seconds changes no absence decision ([absence_test_exact]); the
      tolerance test in doubles is the test on the decimal number but
      for one double ([identify_literal], [tolerance_boundary]).
    - A signal at any point: wherever SIGINT arrives in the loop,
      the guard logs the stop, releases the capture and [main] returns
      ([signal_stops_guard], [main_interrupted_exits]); a signal during
      the startup ends the process with the status 130 and leaves the
      capture as it is: once created it is never released
      ([signal_leaks_capture], [signal_during_warm_up]).
      The [except Exception] clauses let the interrupt pass
      ([interrupt_try_except]) and a sequence is interrupted in one of
      its parts ([interrupt_bind]).
    - The special values fail closed: a [nan] among the distances is
      logged and rejected, a face is accepted exactly when no distance
      is a [nan] and one is within the tolerance, and on finite
      distances the lines are the rational matcher
      ([special_distances_fail_closed], [identify_judge]); [dle] is
      the comparison of the binary64 of the standard library on every
      valid float ([dle_SFleb]).
    - The distance: with a norm that obeys the laws of a distance an
      enrolled encoding is accepted ([enrolled_accepted]) and the best
      distance moves by at most the distance between two encodings
      ([best_distance_stable], [identify_stable]).
    - Bounds: every wait of the loop has a timeout or is a sleep, and a
      run of [n] turns blocks for at most [n] times [turn_budget]
      ([run_blocking_bounded], reached by [turn_budget_reached]); the
      cascades of a run times the cooldown are at most the time the run
      slept ([lock_rate_bounded]).  For any [Turn], and so for the loop
      of src/face_detect.py too: [for_each_kept], [frames_kept],
      [frames_tree_runs], [frames_tree_every_turn].
    - Types: the enrolled set is a matrix and each identity check
      subtracts rows of equal length and finds a minimum
      ([identity_check_well_shaped]), so the matcher over the checked
      arrays of [numpy], which broadcast or raise when two shapes do
      not fit, is [identify] ([identity_check_sound]); a turn raises
      only what the environment answered
      ([turn_raises_only_answers]).
    - Round trips: a line of the log is read back to its stamp and its
      message ([line_roundtrip]); the decisions of the state machine are
      read back from the standard output of a run
      ([log_tells_decisions]).
    - Invariants of the traces: every cascade that came to its end is
      followed at once by the cooldown, in both scripts
      ([cooldown_follows_every_lock],
      [face_detect_cooldown_follows_every_lock]); the capture is
      released once, last ([guarded_loop_releases_once]); [main] leaves
      no capture open ([main_releases_every_capture]).
    - Functional correctness of the components: the lock cascade
      ([lock_session_refines_cascade], [lock_session_all_fail],
      [lock_sessions_agree]), the enrollment
      ([load_known_encodings_enrolled]), the gate
      ([is_phone_present_iff]), the camera
      ([open_camera_returns_first], [latest_frame_freshest]), the
      locator and the matcher ([detect_faces_rgb_fallback],
      [verify_true_iff]), the startup ([main_runs_guard],
      [main_startup_failure]).
    - Error paths: which exceptions are absorbed and which escape
      ([lock_session_contains_exceptions],
      [load_known_encodings_contains_exceptions],
      [main_contains_exceptions], [guarded_loop_exit],
      [log_writes_line]); the status the process exits with
      ([script_exit_status], [face_detect_script_exit_status]).
    - Where the code departs from the specification or from its own
      comments, as theorems: the frame reaches the detector in BGR order
      ([to_rgb_is_identity]); a failing detector ends the guard without
      a lock ([detector_failure_no_lock]); a locking turn sleeps the
      cooldown and the poll interval ([locking_turn_sleeps_twice]);
      [frame_i] counts single-face turns only
      ([frame_i_counts_single_faces]); sampling with N >= 2 locks a user
      who stays ([sampling_locks_stationary_face]); a sampling interval
      of 0 crashes ([verify_zero_interval]); [last_lock_time] is never
      read ([face_detect_last_lock_time_unused]); a camera whose reads
      all fail is never answered by a lock
      ([unread_run_never_locks]).
    - src/face_detect.py against the state machine: its rule is the
      rule of the specification once the absence timeout has passed
      ([face_detect_turn_refines_rules]); a run that returns has
      announced the decision of the rule on every sample, carried out a
      cascade for each sample that is not one authorized face and keeps
      the time of the last of them ([frames_simulate_rules]), and the
      standard output of [main] read back gives these decisions
      ([face_detect_main_implements_rule]).  On runs that sense the
      same samples src/presence_guard.py locks only where
      src/face_detect.py locks, and as often when somebody is in every
      frame: the versions differ on the grace period of the absence
      alone ([spec_lock_grace], [guard_locks_where_strict_locks]).
    - Adequacy of the rationals: a run under two configurations whose
      constants have the same values reaches the same state, announces
      the same decisions and locks as often
      ([decisions_same_config]).

    ** Bounds

    The loops of the scripts do not end.  [loop] and
    [FaceDetect.frames] run as many turns as they are given
    observations and return the state reached; a run that an exception
    ends is a list whose last observation raises it, and the theorems on
    runs hold for every list.  [guard_tree] and [frames_tree] are the
    loops of the two scripts without this bound, and [guard_tree_runs]
    and [frames_tree_runs] show the runs of [loop] and of
    [FaceDetect.frames] are their runs.  The only definition that
    takes fuel is [exec] (and [run_tree], its projection), one unit for
    each step of a tree: a turn is three steps (the observation, the
    events, the step back to the head of the loop), so [3 * n + 1] is
    enough for [n] observations.  A [try] doubles the steps of its body
    (a silent step after each event) and adds those of its handler, so
    the two [try] statements of the guard and the line "Starting" need
    [12 * n + 16] ([12 * n + 14] in src/face_detect.py), and the
    startup, which is one sequence of events, two more.  The theorems
    are stated for every larger amount, and more fuel never changes a
    run ([exec_mono], [exec_deterministic]).  All other recursion is
    structural, on the list of observations, of lock commands, of files
    or of devices.

    The doubles are those of binary64 below the overflow threshold: 53
    bits of mantissa, exponents from -1074 on.  The absence test is
    shown exact for times less than [2^32] seconds apart, 136 years,
    where two numbers of microseconds that differ are further apart
    than the rounding moves them.

    [strftime] prints the year in four digits: the round trip of the
    stamp is stated for the years 1000 to 9999, where the format of the
    C library and the four digits agree.

    ** What is not modelled

    The face detector, the face encoder, [cv2.resize], OpenCV and the
    file system are capabilities: the development takes their answers
    as inputs and proves what the program does with them.  The
    components compute with exact rationals, the configurations read
    the literals as decimal numbers, and [Floats] states what the
    doubles change and [Specials] what the infinities and [nan] do at
    the three lines that read a distance.  The arithmetic inside
    [numpy] stays a capability: the subtraction, the squares, the sum
    and the square root of [np.linalg.norm] are code of numpy and of
    the BLAS it is linked with, and the order in which the 128 squares
    are added, on which the last bit of a distance depends, is in
    neither source; what the guard needs of the norm is stated as the
    laws of [Metric].  A finite float is the rational it denotes, so
    [format_3f] rounds the rational and the two zeros are one number.
    [log] prints the line and appends it to the log file, two events
    of every call.  The answer of the file is not an input of the
    components: [log_with] is the same program whether the file takes
    the line or raises an [Exception] ([log_swallows_file_errors]), and
    an interrupt of the write is a signal of [Signals].  [Logger] gives
    the text of the two events, for a clock reading that is an input;
    [print] is taken to succeed and the encoding of the standard output
    to be UTF-8.  In the components an
    interrupt is an answer of the environment (of a sleep, a command, a
    capability); [Signals] adds the signal that arrives between two
    events, for the statements that have no clause for it, and takes
    the handler of the interrupt and the release themselves not to be
    interrupted: a second signal is not modelled.  [grab], [set],
    [release], the warm-up reads and the creation of a capture are
    taken to return: OpenCV reports a failure by the value it returns
    ([isOpened], the [ok] of [read]), which the model reads.  The
    detector is a function of the image it is given: two calls on the
    same pixels give the same boxes.  An image is rows of pixels of
    three channels, the shape the sources give to [cv2.cvtColor] and to
    the detector.  A time is an integer number of microseconds without
    a bound, where [time.time()] is a double; [Floats] states what the
    doubles change.  In the components the subtraction of two
    encodings, [row_sub], is total and stops at the shorter row, where
    numpy broadcasts or raises [ValueError]; [TypeSafety] has the
    subtraction of numpy, [broadcast_sub], and under the contract of
    the encoder (every encoding has the dimension [d]) the two agree
    and no comparison raises ([identity_check_sound]).  The startup of the scripts ends: in the trees of
    [MainTree] it is the sequence of events of [PresenceGuard.starting]
    and of [FaceDetect.starting], performed at once, and the clock of
    line 148 is read from the world.  The two scripts look at
    different images of a frame, so [Versions] compares them on the
    samples they sense and not on a stream of frames.

    Every function and every statement of the two sources is a
    definition of the development; what is left out is listed above,
    and is code of the libraries or of the interpreter. *)

From Stdlib Require Export ZArith QArith Qminmax Lia.
From stdpp Require Export base tactics option list strings.

#[global] Open Scope Z_scope.

(** ** Scope of the development's notations *)

Declare Scope guard_scope.
Delimit Scope guard_scope with guard.
#[global] Open Scope guard_scope.

(** ** Hint database

    [guard] collects the lemmas that close the routine side goals of the
    components: comparisons of rationals, facts on traces. *)

Create HintDb guard discriminated.
Create Rewrite HintDb guard.

(** ** Time

    [datetime] has microsecond resolution: a time stamp is the number of
    microseconds since the epoch and a [timedelta] is a difference of two
    of them.  [total_seconds] is [timedelta.total_seconds()], the exact
    rational number of seconds. *)

Abbreviation Time := Z (only parsing).
Abbreviation Timedelta := Z (only parsing).

Definition time_sub (a b : Time) : Timedelta := a - b.

Definition total_seconds (d : Timedelta) : Q := d # 1000000.

(** ** Comparisons of rationals

    [x <=? y] on [Q] is the test the code writes [x <= y]; the instances
    make [decide] available for the order of [Q]. *)

Notation "x <=? y" := (Qle_bool x y) : Q_scope.

#[export] Instance Qle_decision (x y : Q) : Decision (x <= y)%Q.
Proof. destruct (Qlt_le_dec y x); [right; by apply Qlt_not_le | by left]. Defined.

#[export] Instance Qlt_decision (x y : Q) : Decision (x < y)%Q.
Proof. destruct (Qlt_le_dec x y); [by left | right; by apply Qle_not_lt]. Defined.

#[export] Instance Qeq_decision (x y : Q) : Decision (x == y)%Q.
Proof. apply Qeq_dec. Defined.

Lemma Qle_bool_true (x y : Q) : (x <=? y)%Q = true <-> (x <= y)%Q.
Proof. apply Qle_bool_iff. Qed.

Lemma Qle_bool_false (x y : Q) : (x <=? y)%Q = false <-> (y < x)%Q.
Proof.
  rewrite <- not_true_iff_false, Qle_bool_iff. split.
  - apply Qnot_le_lt.
  - apply Qlt_not_le.
Qed.

Lemma Qle_bool_refl (x : Q) : (x <=? x)%Q = true.
Proof. apply Qle_bool_iff, Qle_refl. Qed.

#[export] Hint Resolve Qle_refl Qle_bool_refl : guard.
#[export] Hint Rewrite Qle_bool_refl : guard.

(** [total_seconds] compared with a whole number of seconds is a
    comparison of microseconds. *)
Lemma total_seconds_ge (d : Timedelta) (s : Z) :
  (inject_Z s <= total_seconds d)%Q <-> s * 1000000 <= d.
Proof. unfold total_seconds, Qle, inject_Z; simpl. lia. Qed.

Lemma total_seconds_mono (d1 d2 : Timedelta) :
  d1 <= d2 -> (total_seconds d1 <= total_seconds d2)%Q.
Proof. unfold total_seconds, Qle; simpl. lia. Qed.

Lemma total_seconds_plus (d1 d2 : Timedelta) :
  (total_seconds (d1 + d2) == total_seconds d1 + total_seconds d2)%Q.
Proof. unfold total_seconds, Qeq, Qplus; simpl. lia. Qed.

(** ** Tactics *)

(** [case_test]: case analysis on the first boolean test of the goal,
    keeping its equation. *)
Ltac case_test :=
  match goal with
  | |- context [if ?b then _ else _] =>
      let E := fresh "Htest" in destruct b eqn:E
  end.

(** [Qtest]: turn the boolean comparisons of rationals in the context
    and the goal into their propositions. *)
Ltac Qtest :=
  repeat match goal with
  | H : (_ <=? _)%Q = true |- _ => apply Qle_bool_true in H
  | H : (_ <=? _)%Q = false |- _ => apply Qle_bool_false in H
  | |- (_ <=? _)%Q = true => apply Qle_bool_true
  | |- (_ <=? _)%Q = false => apply Qle_bool_false
  end.

(** ** Lists *)

Section Lists.
Context {A : Type}.
Implicit Types (l k : list A) (x : A) (p : A -> bool).

(** [count_b p l]: how many elements of [l] pass the test [p]. *)
Fixpoint count_b p l : nat :=
  match l with
  | [] => 0
  | x :: l => (if p x then 1 else 0) + count_b p l
  end%nat.

Lemma count_b_app p l k : count_b p (l ++ k) = (count_b p l + count_b p k)%nat.
Proof. induction l as [|x l IH]; simpl; [done | rewrite IH; lia]. Qed.

Lemma count_b_zero p l : count_b p l = 0%nat <-> Forall (fun x => p x = false) l.
Proof.
  induction l as [|x l IH]; simpl; [by split; [constructor|]|].
  rewrite Forall_cons, <- IH. destruct (p x); intuition (try lia; try done).
Qed.

Lemma existsb_count_b p l : existsb p l = true <-> (0 < count_b p l)%nat.
Proof.
  induction l as [|x l IH]; simpl; [split; [done | lia]|].
  rewrite orb_true_iff, IH. destruct (p x); intuition (try lia; try done).
Qed.

Lemma existsb_false_count_b p l : existsb p l = false <-> count_b p l = 0%nat.
Proof.
  rewrite <- not_true_iff_false, existsb_count_b. lia.
Qed.

Lemma filter_none (P : A -> Prop) `{!forall x, Decision (P x)} l :
  Forall (fun x => ~ P x) l -> filter P l = [].
Proof. induction 1 as [|x l Hx _ IH]; [done|]. by rewrite filter_cons_False. Qed.

(** A prefix of [l ++ x :: k] that stops before the first [x] is a
    prefix of [l], and one that holds it is [l], [x] and a prefix of
    [k]. *)
Lemma take_before n l x k : (n <= length l)%nat -> take n (l ++ x :: k) = take n l.
Proof. intros Hn. by rewrite take_app_le. Qed.

Lemma take_past n l x k :
  (length l < n)%nat -> take n (l ++ x :: k) = l ++ x :: take (n - S (length l)) k.
Proof.
  intros Hn. rewrite take_app_ge by lia. f_equal.
  replace (n - length l)%nat with (S (n - S (length l))) by lia. done.
Qed.
End Lists.

#[export] Hint Rewrite @count_b_app : guard.
