(* ===== verification/Effects.v ===== *)
(** * Effects: exceptions, events and the [Prog] monad

    Both scripts are sequential Python: they call the operating system,
    OpenCV and the face recogniser, write log lines, sleep, and raise or
    catch exceptions.  This file gives those effects as values.

    - [exn]: the exceptions the scripts can see, with [is_Exception], the
      test an [except Exception] clause performs ([KeyboardInterrupt] and
      [SystemExit] derive from [BaseException] only).
    - [outcome A]: what a call does, [Returns a] or [Raises e].  It is
      both the answer of the environment to an external call and the
      result of a program.
    - [Event]: the calls that leave the process, in the order they are
      made; [trace] is a list of them.
    - [Prog A]: a program is the trace it performed and its outcome.
      [call ev ans] is an external call, [log] the scripts' [log],
      [try_except] and [finally] Python's statements.
    - [log_with]: [log(msg)] for an answer of the log file, and [log],
      what the components call; by the last theorem of the file
      [log_with] is one program whatever the file answers, an interrupt
      of the write apart.
    - [budget] and [blocking]: the longest a trace waits on commands
      and sleeps. *)

From Stdlib Require Import Lqa.
From S2P Require Import Prelude.

(** ** Exceptions *)

Inductive exn : Type :=
| KeyboardInterrupt
| SystemExit (code : Z)
| FileNotFoundError
| CalledProcessError (returncode : Z)
| TimeoutExpired
| ZeroDivisionError
| IndexError
| ValueError
| OtherException (what : string).

#[export] Instance exn_eq_dec : EqDecision exn.
Proof. solve_decision. Defined.

(** [isinstance(e, Exception)]: what [except Exception] catches. *)
Definition is_Exception (e : exn) : bool :=
  match e with
  | KeyboardInterrupt | SystemExit _ => false
  | _ => true
  end.

Inductive outcome (A : Type) : Type :=
| Returns (a : A)
| Raises (e : exn).
Arguments Returns {A} a.
Arguments Raises {A} e.

#[export] Instance outcome_eq_dec `{EqDecision A} : EqDecision (outcome A).
Proof. solve_decision. Defined.

Definition returned {A} (r : outcome A) : bool :=
  match r with Returns _ => true | Raises _ => false end.

(** ** Events *)

(** A command line, as [subprocess.run] takes it. *)
Abbreviation Cmd := (list string) (only parsing).

(** The two models of [face_recognition.face_locations]. *)
Inductive detector : Type := HOG | CNN.

#[export] Instance detector_eq_dec : EqDecision detector.
Proof. solve_decision. Defined.

(** The properties [open_camera] sets on a capture. *)
Inductive cap_prop : Type :=
| CAP_PROP_FRAME_WIDTH
| CAP_PROP_FRAME_HEIGHT
| CAP_PROP_BUFFERSIZE.

#[export] Instance cap_prop_eq_dec : EqDecision cap_prop.
Proof. solve_decision. Defined.

(** The lines the scripts log, one constructor per text of a
    [log(...)] call of the sources, with the values the line
    interpolates.  [MCannotOpenWebcams] and [MAuthorized] are the lines
    of src/presence_guard.py, [MCannotOpenWebcam], [MNotExactlyOne],
    [MUnknownFace] and [MAuthorizedOnly] the lines of
    src/face_detect.py. *)
Inductive Msg : Type :=
| MBluetoothError (e : exn)
| MLockedVia (cmd : Cmd)
| MLockAttemptError (cmd : Cmd) (e : exn)
| MAllLockFailed
| MNoFaceInEnroll (file : string)
| MLoadedEnroll (file : string)
| MErrorLoading (file : string) (e : exn)
| MEnrollDirMissing (dir : string)
| MNoKnownEncodings
| MCannotOpenWebcam
| MCannotOpenWebcams
| MOpenedCamera (idx w h : Z)
| MStarting
| MPhoneNotPresent
| MReadFailed
| MDetected (n_faces : nat)
| MNotExactlyOne
| MNoFacesTimeout
| MWaiting
| MMultipleFaces
| MBestDistance (best : Q)
| MNoEncoding
| MAuthorized
| MAuthorizedOnly
| MUnknownFace
| MSingleNotAuthorized
| MStopped
| MCrashed (e : exn).

Inductive Event : Type :=
| EvLog (m : Msg)
| EvSleep (seconds : Q)
| EvRun (cmd : Cmd) (timeout : Z)
| EvOpen (idx : Z)
| EvIsOpened (idx : Z)
| EvSet (idx : Z) (p : cap_prop) (v : Z)
| EvRead (idx : Z)
| EvGrab (idx : Z)
| EvRetrieve (idx : Z)
| EvRelease (idx : Z)
| EvLoadImage (file : string)
| EvFaceLocations (model : detector) (upsample : Z)
| EvFaceEncodings
| EvAppend (m : Msg).

Abbreviation trace := (list Event) (only parsing).

(** ** Programs *)

Definition Prog (A : Type) : Type := (trace * outcome A)%type.

Definition trace_of {A} (m : Prog A) : trace := fst m.
Definition result_of {A} (m : Prog A) : outcome A := snd m.

(** [prepend t m]: [m] after the events [t] have happened. *)
Definition prepend {A} (t : trace) (m : Prog A) : Prog A :=
  (t ++ trace_of m, result_of m).

Definition ret {A} (a : A) : Prog A := ([], Returns a).

Definition bind {A B} (m : Prog A) (f : A -> Prog B) : Prog B :=
  match result_of m with
  | Returns a => prepend (trace_of m) (f a)
  | Raises e => (trace_of m, Raises e)
  end.

#[export] Instance Prog_ret : MRet Prog := @ret.
#[export] Instance Prog_bind : MBind Prog := fun A B f m => bind m f.

(** [raise e]: the statement [raise]. *)
Definition raise {A} (e : exn) : Prog A := ([], Raises e).

(** [sys.exit(code)]: raises [SystemExit]. *)
Definition sys_exit {A} (code : Z) : Prog A := raise (SystemExit code).

(** [eval o]: a computation inside the process that returns or raises,
    such as a division or the minimum of an array. *)
Definition eval {A} (o : outcome A) : Prog A := ([], o).

(** [a % b] on Python's integers: the remainder has the sign of [b], as
    [Z.modulo] has, and a zero divisor raises. *)
Definition py_mod (a b : Z) : outcome Z :=
  if decide (b = 0) then Raises ZeroDivisionError else Returns (a `mod` b).

(** [emit ev]: a call that cannot fail. *)
Definition emit (ev : Event) : Prog unit := ([ev], Returns tt).

(** [call ev ans]: an external call.  The event is recorded, then the
    call returns or raises what the environment answers. *)
Definition call {A} (ev : Event) (ans : outcome A) : Prog A := ([ev], ans).

(** [try: body except <classes>: handler].  [handler e] is [Some h] when
    one of the clauses matches [e]. *)
Definition try_except {A} (body : Prog A) (handler : exn -> option (Prog A)) : Prog A :=
  match result_of body with
  | Returns _ => body
  | Raises e =>
      match handler e with
      | Some h => prepend (trace_of body) h
      | None => body
      end
  end.

(** The clause [except Exception as e: h e]. *)
Definition except_Exception {A} (h : exn -> Prog A) (e : exn) : option (Prog A) :=
  if is_Exception e then Some (h e) else None.

(** [try: body finally: cleanup]: the cleanup runs on every path; when it
    raises, its exception replaces the outcome of the body. *)
Definition finally {A} (body : Prog A) (cleanup : Prog unit) : Prog A :=
  match result_of cleanup with
  | Returns _ => (trace_of body ++ trace_of cleanup, result_of body)
  | Raises e => (trace_of body ++ trace_of cleanup, Raises e)
  end.

(** [log(msg)] of both scripts, src/presence_guard.py:33-41 and
    src/face_detect.py:28-36, with the answer of the file: the line is
    printed, then appended to the log file, and an [Exception] of the
    file is dropped.  [append] is what opening and writing the file
    answers. *)
Definition log_with (append : outcome unit) (m : Msg) : Prog unit :=
  emit (EvLog m);;
  try_except
    (call (EvAppend m) append)
    (except_Exception (fun _ => mret tt)).

(** [log(msg)] as the components call it.  Whether the file takes the
    line or raises an [Exception], [log_with] is the same program
    ([log_swallows_file_errors]), so the answer of the file is not a
    parameter of the components: [log] is [log_with] of a file that
    takes the line. *)
Definition log (m : Msg) : Prog unit := log_with (Returns tt) m.

(** The events of one call of [log]. *)
Abbreviation logs m := ([EvLog m; EvAppend m]) (only parsing).

(** [time.sleep(seconds)]: returns, or is interrupted. *)
Definition sleep (seconds : Q) (ans : outcome unit) : Prog unit :=
  call (EvSleep seconds) ans.

(** The status the interpreter exits with: 0 when the script returns,
    the code of a [SystemExit], 130 after an interrupt nobody caught
    (the process ends by the signal), 1 after any other exception, which
    it prints. *)
Definition exit_status (r : outcome unit) : Z :=
  match r with
  | Returns _ => 0
  | Raises (SystemExit code) => code
  | Raises KeyboardInterrupt => 130
  | Raises _ => 1
  end.

(** ** Laws *)

Section Prepend.
Context {A : Type}.
Implicit Types (m : Prog A) (t : trace).

Lemma prepend_nil m : prepend [] m = m.
Proof. by destruct m. Qed.

Lemma prepend_prepend t t' m : prepend t (prepend t' m) = prepend (t ++ t') m.
Proof. unfold prepend; simpl. by rewrite app_assoc. Qed.

Lemma trace_prepend t m : trace_of (prepend t m) = t ++ trace_of m.
Proof. done. Qed.

Lemma result_prepend t m : result_of (prepend t m) = result_of m.
Proof. done. Qed.
End Prepend.

Section Laws.
Context {A B C : Type}.
Implicit Types (m : Prog A) (f : A -> Prog B) (g : B -> Prog C) (t : trace).

Lemma bind_ret_l (a : A) f : (mret a ≫= f) = f a.
Proof. unfold mbind, Prog_bind, bind; simpl. apply prepend_nil. Qed.

Lemma bind_ret_r m : (m ≫= mret) = m.
Proof.
  destruct m as [t [a|e]]; unfold mbind, mret, Prog_bind, Prog_ret, bind, prepend; simpl;
    [by rewrite app_nil_r | done].
Qed.

Lemma bind_assoc m f g : ((m ≫= f) ≫= g) = (m ≫= fun a => f a ≫= g).
Proof.
  destruct m as [t [a|e]]; unfold mbind, Prog_bind, bind; simpl; [|done].
  destruct (f a) as [t' [b|e]]; simpl; [|done].
  by rewrite prepend_prepend.
Qed.

Lemma bind_returns t (a : A) f : ((t, Returns a) ≫= f) = prepend t (f a).
Proof. done. Qed.

Lemma bind_raises t e f : ((t, Raises e) : Prog A) ≫= f = (t, Raises e).
Proof. done. Qed.

Lemma bind_prepend t m f : (prepend t m ≫= f) = prepend t (m ≫= f).
Proof.
  destruct m as [t' [a|e]]; unfold mbind, Prog_bind, bind, prepend; simpl; [|done].
  by rewrite app_assoc.
Qed.

(** Two sequences with the same first part are equal when their
    continuations agree on what the first part returns. *)
Lemma bind_ext m (f f' : A -> Prog B) :
  (forall a, result_of m = Returns a -> f a = f' a) -> (m ≫= f) = (m ≫= f').
Proof.
  destruct m as [t [a|e]]; unfold mbind, Prog_bind, bind; simpl; [|done].
  intros Hf. by rewrite Hf.
Qed.

(** The trace and the result of a sequence. *)
Lemma trace_bind m f :
  trace_of (m ≫= f) =
  trace_of m ++ match result_of m with Returns a => trace_of (f a) | Raises _ => [] end.
Proof.
  destruct m as [t [a|e]]; unfold mbind, Prog_bind, bind; simpl; [done|].
  by rewrite app_nil_r.
Qed.

Lemma result_bind m f :
  result_of (m ≫= f) =
  match result_of m with Returns a => result_of (f a) | Raises e => Raises e end.
Proof. by destruct m as [t [a|e]]. Qed.

(** A property of events holds of a sequence when it holds of its
    parts. *)
Lemma trace_bind_Forall (P : Event -> Prop) m f :
  Forall P (trace_of m) ->
  (forall a, result_of m = Returns a -> Forall P (trace_of (f a))) ->
  Forall P (trace_of (m ≫= f)).
Proof.
  intros Hm Hf. rewrite trace_bind. apply Forall_app. split; [done|].
  destruct (result_of m); [by apply Hf | constructor].
Qed.

(** A sequence returns exactly when both parts do. *)
Lemma bind_returns_inv m f (b : B) :
  result_of (m ≫= f) = Returns b ->
  exists a, result_of m = Returns a /\ result_of (f a) = Returns b.
Proof. rewrite result_bind. destruct (result_of m); [eauto | done]. Qed.

(** The trace of a sequence starts with the trace of its first part. *)
Lemma trace_bind_prefix m f : trace_of m `prefix_of` trace_of (m ≫= f).
Proof.
  destruct m as [t [a|e]]; unfold mbind, Prog_bind, bind; simpl.
  - by apply prefix_app_r.
  - done.
Qed.
End Laws.

Section Statements.
Context {A : Type}.
Implicit Types (m : Prog A) (t : trace).

Lemma try_except_returns t (a : A) h : try_except (t, Returns a) h = (t, Returns a).
Proof. done. Qed.

Lemma try_except_caught t e (h : exn -> option (Prog A)) k :
  h e = Some k -> try_except (t, Raises e) h = prepend t k.
Proof. unfold try_except; simpl. by intros ->. Qed.

Lemma try_except_passed t e (h : exn -> option (Prog A)) :
  h e = None -> try_except (t, Raises e) h = (t, Raises e).
Proof. unfold try_except; simpl. by intros ->. Qed.

Lemma try_except_trace m (h : exn -> option (Prog A)) :
  trace_of (try_except m h) =
  trace_of m ++
  match result_of m with
  | Returns _ => []
  | Raises e => match h e with Some k => trace_of k | None => [] end
  end.
Proof.
  unfold try_except. destruct (result_of m) as [a|e]; [by rewrite app_nil_r|].
  destruct (h e); [done | by rewrite app_nil_r].
Qed.

Lemma try_except_result m (h : exn -> option (Prog A)) :
  result_of (try_except m h) =
  match result_of m with
  | Returns a => Returns a
  | Raises e => match h e with Some k => result_of k | None => Raises e end
  end.
Proof.
  unfold try_except. destruct (result_of m) as [a|e] eqn:Hm; [done|].
  by destruct (h e).
Qed.

(** Discarding the result of a program keeps its trace. *)
Lemma trace_bind_mret {B} m (b : B) : trace_of (m ≫= fun _ => mret b) = trace_of m.
Proof. rewrite trace_bind. destruct (result_of m); by rewrite app_nil_r. Qed.

(** Computing on the result of a program keeps its trace. *)
Lemma trace_bind_pure {B} m (g : A -> B) : trace_of (m ≫= fun a => mret (g a)) = trace_of m.
Proof. rewrite trace_bind. destruct (result_of m); by rewrite app_nil_r. Qed.

(** [except Exception] never catches an interrupt. *)
Lemma except_Exception_interrupt (h : exn -> Prog A) :
  except_Exception h KeyboardInterrupt = None.
Proof. done. Qed.

Lemma except_Exception_caught (h : exn -> Prog A) e :
  is_Exception e = true -> except_Exception h e = Some (h e).
Proof. unfold except_Exception. by intros ->. Qed.

Lemma finally_trace m (c : Prog unit) :
  trace_of (finally m c) = trace_of m ++ trace_of c.
Proof. unfold finally. by destruct (result_of c). Qed.

Lemma finally_result m t : result_of (finally m (t, Returns tt)) = result_of m.
Proof. done. Qed.

Lemma finally_emit m ev : finally m (emit ev) = (trace_of m ++ [ev], result_of m).
Proof. done. Qed.

(** A branch that is sequenced is the branch of the sequences. *)
Lemma bind_if {B} (b : bool) (m m' : Prog A) (f : A -> Prog B) :
  ((if b then m else m') ≫= f) = if b then m ≫= f else m' ≫= f.
Proof. by destruct b. Qed.
End Statements.

(** The trace and the result of the basic programs. *)
Section Basic.
Context {A : Type}.

Lemma trace_mret (a : A) : trace_of (mret a) = [].
Proof. done. Qed.
Lemma result_mret (a : A) : result_of (mret a) = Returns a.
Proof. done. Qed.
Lemma trace_call ev (ans : outcome A) : trace_of (call ev ans) = [ev].
Proof. done. Qed.
Lemma result_call ev (ans : outcome A) : result_of (call ev ans) = ans.
Proof. done. Qed.
Lemma trace_eval (o : outcome A) : trace_of (eval o) = [].
Proof. done. Qed.
Lemma result_eval (o : outcome A) : result_of (eval o) = o.
Proof. done. Qed.
Lemma trace_log m : trace_of (log m) = [EvLog m; EvAppend m].
Proof. done. Qed.
Lemma result_log m : result_of (log m) = Returns tt.
Proof. done. Qed.
(** [log] as a pair, for rewriting under binders. *)
Lemma log_eq : log = fun m => ([EvLog m; EvAppend m], Returns tt).
Proof. done. Qed.
Lemma bind_log {B} m (f : unit -> Prog B) :
  log m ≫= f = prepend [EvLog m; EvAppend m] (f tt).
Proof. done. Qed.
Lemma Forall_log (P : Event -> Prop) m :
  P (EvLog m) -> P (EvAppend m) -> Forall P (trace_of (log m)).
Proof. by repeat constructor. Qed.
Lemma trace_emit ev : trace_of (emit ev) = [ev].
Proof. done. Qed.
Lemma result_emit ev : result_of (emit ev) = Returns tt.
Proof. done. Qed.
Lemma trace_sleep d ans : trace_of (sleep d ans) = [EvSleep d].
Proof. done. Qed.
Lemma result_sleep d ans : result_of (sleep d ans) = ans.
Proof. done. Qed.
End Basic.

#[export] Hint Rewrite @trace_mret @result_mret @trace_call @result_call
  @trace_eval @result_eval @trace_log @result_log @trace_emit @result_emit
  @trace_sleep @result_sleep @trace_bind @result_bind : guard.

(** [trace_simpl]: the trace and the result of a program, part by
    part. *)
Ltac trace_simpl := autorewrite with guard.

#[export] Hint Rewrite @bind_ret_l @bind_ret_r @bind_returns @bind_raises
  @bind_prepend @prepend_nil @prepend_prepend @trace_prepend @result_prepend
  @try_except_returns @finally_trace : guard.

(** [bind_step]: peel the common first part of two sequences, keeping
    what it returned. *)
Ltac bind_step :=
  rewrite ?bind_assoc;
  apply bind_ext; intros ? ?.

(** [prog_norm]: normalise sequences with the laws of the monad. *)
Ltac prog_norm := rewrite ?bind_assoc, ?bind_ret_l, ?bind_ret_r.

(** [prog_simpl]: compute a program as far as the answers of the
    environment are known. *)
Ltac prog_simpl :=
  repeat (progress (
    unfold log, log_with, sleep, emit, call, raise, eval in *;
    cbn [mbind mret Prog_bind Prog_ret bind ret prepend trace_of result_of
         fst snd app try_except finally except_Exception is_Exception] in *)).

(** ** The time a trace may block

    The calls that leave the process and wait are the commands, which
    [subprocess.run] ends after their [timeout], and the sleeps.
    [budget ev] is the longest the call [ev] waits, in seconds, and
    [blocking t] the sum over a trace.  The capture and the recogniser
    have no timeout: their latency is not part of the sum. *)

Definition budget (ev : Event) : Q :=
  match ev with
  | EvRun _ timeout => inject_Z timeout
  | EvSleep seconds => seconds
  | _ => 0
  end.

Definition blocking (t : trace) : Q := foldr (fun ev acc => budget ev + acc)%Q 0%Q t.

Lemma blocking_app t t' : (blocking (t ++ t') == blocking t + blocking t')%Q.
Proof.
  induction t as [|ev t IH]; simpl; [by rewrite Qplus_0_l|].
  by rewrite IH, Qplus_assoc.
Qed.

Lemma blocking_cons ev t : (blocking (ev :: t) == budget ev + blocking t)%Q.
Proof. done. Qed.

(** A trace without a command and without a sleep does not block. *)
Lemma blocking_quiet t : Forall (fun ev => budget ev = 0%Q) t -> (blocking t == 0)%Q.
Proof. induction 1 as [|ev t Hev _ IH]; simpl; [done|]. by rewrite Hev, IH. Qed.

Lemma blocking_bind {A B} (m : Prog A) (f : A -> Prog B) (b : Q) :
  (forall a, result_of m = Returns a -> blocking (trace_of (f a)) <= b)%Q -> (0 <= b)%Q ->
  (blocking (trace_of (m ≫= f)) <= blocking (trace_of m) + b)%Q.
Proof.
  intros Hf Hb. rewrite trace_bind, blocking_app. apply Qplus_le_r.
  destruct (result_of m); [by apply Hf | done].
Qed.

(** ** Loops over a list

    The loops of the scripts run a body on the answers of the
    environment, turn after turn, threading the variables of the loop.
    [for_each step st xs] is such a loop over the list [xs] from the
    state [st]: an exception of a step ends it.  A property of the
    events of every step, a cooldown kept by every step and a bound on
    the time each step blocks are properties of the whole loop. *)

Fixpoint for_each {S X} (step : S -> X -> Prog S) (st : S) (xs : list X) : Prog S :=
  match xs with
  | [] => mret st
  | x :: xs =>
      st ← step st x;
      for_each step st xs
  end.

Section ForEach.
Context {S X : Type} (step : S -> X -> Prog S).
Implicit Types (st : S) (xs : list X).

Lemma for_each_Forall (P : Event -> Prop) :
  (forall st x, Forall P (trace_of (step st x))) ->
  forall xs st, Forall P (trace_of (for_each step st xs)).
Proof.
  intros Hstep. induction xs as [|x xs IH]; intros st; [constructor|].
  cbn [for_each]. apply trace_bind_Forall; auto.
Qed.

(** A loop of [n] steps blocks for at most [n] times what a step
    does. *)
Lemma for_each_blocking (b : Q) :
  (0 <= b)%Q -> (forall st x, blocking (trace_of (step st x)) <= b)%Q ->
  forall xs st,
    (blocking (trace_of (for_each step st xs)) <= inject_Z (Z.of_nat (length xs)) * b)%Q.
Proof.
  intros Hb Hstep. induction xs as [|x xs IH]; intros st; [done|].
  cbn [for_each length]. rewrite Nat2Z.inj_succ, <- Z.add_1_r, inject_Z_plus.
  change (inject_Z 1) with 1%Q.
  assert (0 <= inject_Z (Z.of_nat (length xs)) * b)%Q as Hrest.
  { apply Qmult_le_0_compat; [|done]. change 0%Q with (inject_Z 0). rewrite <- Zle_Qle. lia. }
  eapply Qle_trans; [apply (blocking_bind _ _ (inject_Z (Z.of_nat (length xs)) * b)); auto|].
  pose proof (Hstep st x). lra.
Qed.

(** The result of a loop, turn by turn. *)
Lemma for_each_app st xs ys :
  for_each step st (xs ++ ys) = (for_each step st xs ≫= fun st' => for_each step st' ys).
Proof.
  revert st. induction xs as [|x xs IH]; intros st; cbn [for_each app].
  - by rewrite bind_ret_l.
  - rewrite bind_assoc. apply bind_ext. auto.
Qed.
End ForEach.

(** ** The logger *)

(** [answers_file append]: the file takes the line or raises an
    [Exception]; what is left is an interrupt during the write. *)
Definition answers_file (append : outcome unit) : bool :=
  match append with
  | Returns _ => true
  | Raises e => is_Exception e
  end.

(** C36. The log file cannot stop the guard: [log(msg)] prints the
    line, then tries the file, and returns whatever [Exception] the
    file raises (a missing directory, a full disk, a file that cannot
    be written); only an interrupt of the write escapes.  So [log] is
    one program, a print and an append, whatever the file answers. *)
Theorem log_swallows_file_errors (append : outcome unit) (m : Msg) :
  log_with append m =
  (logs m,
   match append with
   | Raises e => if is_Exception e then Returns tt else Raises e
   | Returns _ => Returns tt
   end) /\
  (answers_file append = true -> log_with append m = log m).
Proof.
  unfold log, log_with, try_except, except_Exception.
  destruct append as [[]|e]; [done|]. cbn. by destruct (is_Exception e).
Qed.

(** A log file that cannot be opened. *)
Lemma log_swallows_file_errors_witness :
  log_with (Raises FileNotFoundError) MStarting = log MStarting.
Proof. exact (proj2 (log_swallows_file_errors (Raises FileNotFoundError) MStarting) eq_refl). Defined.
