(* ===== verification/Logger.v ===== *)
(** * Logger: the text of the log

    [log(msg)] of both scripts (src/presence_guard.py:33-41 and
    src/face_detect.py:28-36) reads the clock, formats it with
    [strftime("%Y-%m-%d %H:%M:%S")], puts it before the message and
    writes the line to the standard output and to the log file.  The
    components record a call of [log] as two events, [EvLog m] for the
    print and [EvAppend m] for the write to the file; this file gives
    the text behind the events.

    - [DateTime] is what [datetime.now()] returns, [strftime] the format
      of line 34, [line] the f-string of line 35.
    - the [text_]s are the texts of the [log(...)] calls of the two
      scripts, one for each call, and [render] the text of a message,
      one case per constructor of [Msg]; [format_3f] is the format
      [{best:.3f}] and [pretty] the decimal a number is interpolated
      with.  [str] is [str(e)], the text of an exception, which the
      raising library chooses.
    - [written] is what the statements recorded as [EvLog] and
      [EvAppend] write, and where.
    - [strptime] and [parse_line] read a line back, [read_decision]
      and [read_line] the decision a line announces ([read_among] and
      [read_line_among] for the decisions of either script), [stdout]
      is the sequence of lines a trace prints.  The readers are not code of the
      scripts: they are the reader of the log the round trip theorems
      are stated with.

    Strings are sequences of bytes: a text of the sources that is not
    ASCII is its UTF-8 encoding. *)

From Stdlib Require Import Ascii Qround Qabs Lqa.
From stdpp Require Import pretty.
From S2P Require Import Prelude Effects.

(** ** Decimal digits *)

(** The character of a digit, [chr(ord("0") + n)], and the digit of a
    character. *)
Definition digit (n : Z) : ascii := ascii_of_N (Z.to_N (48 + n)).

Definition undigit (c : ascii) : option Z :=
  let n := Z.of_N (N_of_ascii c) - 48 in
  if bool_decide (0 <= n <= 9) then Some n else None.

(** The last [w] decimal digits of [n] before [s]. *)
Fixpoint zfill_go (w : nat) (n : Z) (s : string) : string :=
  match w with
  | O => s
  | S w => zfill_go w (n / 10) (String (digit (n mod 10)) s)
  end.

(** [n] in [w] digits with leading zeros, the format of the fields of
    [strftime]: [%m], [%d], [%H], [%M] and [%S] are two digits, and [%Y]
    is four for the years from 1000 on. *)
Definition zfill (w : nat) (n : Z) : string := zfill_go w n EmptyString.

(** Read [w] digits from the front of [s]. *)
Fixpoint number_go (w : nat) (acc : Z) (s : string) : option (Z * string) :=
  match w with
  | O => Some (acc, s)
  | S w =>
      match s with
      | String c s => d ← undigit c; number_go w (acc * 10 + d) s
      | EmptyString => None
      end
  end.

Definition number (w : nat) (s : string) : option (Z * string) := number_go w 0 s.

(** Read the text [p] from the front of [s]. *)
Fixpoint expect (p s : string) : option string :=
  match p, s with
  | EmptyString, _ => Some s
  | String c p, String c' s => if Ascii.eqb c c' then expect p s else None
  | String _ _, EmptyString => None
  end.

(** ** The time stamp *)

(** The fields of a [datetime]. *)
Record DateTime : Type := {
  year : Z;
  month : Z;
  day : Z;
  hour : Z;
  minute : Z;
  second : Z;
  microsecond : Z
}.

#[export] Instance DateTime_eq_dec : EqDecision DateTime.
Proof. solve_decision. Defined.

(** The ranges the class [datetime] keeps its fields in, from the year
    1000 on. *)
Definition wf_datetime (d : DateTime) : Prop :=
  1000 <= year d <= 9999 /\ 1 <= month d <= 12 /\ 1 <= day d <= 31 /\
  0 <= hour d <= 23 /\ 0 <= minute d <= 59 /\ 0 <= second d <= 59 /\
  0 <= microsecond d <= 999999.

#[export] Instance wf_datetime_dec d : Decision (wf_datetime d).
Proof. unfold wf_datetime. apply _. Defined.

(** [ts.strftime("%Y-%m-%d %H:%M:%S")], line 34. *)
Definition strftime (d : DateTime) : string :=
  zfill 4 (year d) +:+ "-" +:+ zfill 2 (month d) +:+ "-" +:+ zfill 2 (day d) +:+ " " +:+
  zfill 2 (hour d) +:+ ":" +:+ zfill 2 (minute d) +:+ ":" +:+ zfill 2 (second d).

(** [f"{ts} - {msg}"], line 35. *)
Definition line (d : DateTime) (msg : string) : string :=
  strftime d +:+ " - " +:+ msg.

(** What the format keeps of the clock: the seconds. *)
Definition to_seconds (d : DateTime) : DateTime :=
  {| year := year d; month := month d; day := day d; hour := hour d;
     minute := minute d; second := second d; microsecond := 0 |}.

(** The reader of the format of [strftime]: the stamp at the front of
    [s] and what follows it. *)
Definition strptime (s : string) : option (DateTime * string) :=
  '(yr, s) ← number 4 s; s ← expect "-" s;
  '(mo, s) ← number 2 s; s ← expect "-" s;
  '(dy, s) ← number 2 s; s ← expect " " s;
  '(hr, s) ← number 2 s; s ← expect ":" s;
  '(mi, s) ← number 2 s; s ← expect ":" s;
  '(se, s) ← number 2 s;
  mret ({| year := yr; month := mo; day := dy; hour := hr; minute := mi; second := se;
           microsecond := 0 |}, s).

(** The reader of a line of the log: its stamp and its message. *)
Definition parse_line (s : string) : option (DateTime * string) :=
  '(d, s) ← strptime s; s ← expect " - " s; mret (d, s).

(** ** The messages *)

(** [f"{best:.3f}"]: the nearest multiple of 1/1000, a tie going to the
    even one, with three decimals. *)
Definition round_half_even (q : Q) : Z :=
  let f := Qfloor q in
  match (q - inject_Z f ?= 1 # 2)%Q with
  | Lt => f
  | Gt => f + 1
  | Eq => if Z.even f then f else f + 1
  end.

Definition format_3f (q : Q) : string :=
  let n := round_half_even (Qabs q * 1000) in
  (if decide (q < 0)%Q then "-" else EmptyString) +:+
  pretty (n / 1000) +:+ "." +:+ zfill 3 (n mod 1000).

(** The dash of src/presence_guard.py:209, U+2014 in UTF-8. *)
Definition em_dash : string :=
  String "226" (String "128" (String "148" EmptyString)).

(** The six bytes src/face_detect.py:130 holds at the place of the dash:
    U+00E2, U+20AC and U+201D, the dash decoded as Windows-1252 and
    encoded again. *)
Definition em_dash_twice : string :=
  String "195" (String "162" (String "226" (String "130" (String "172"
  (String "226" (String "128" (String "157" EmptyString))))))).

(** The texts of the [log(...)] calls, one definition for each call.
    Where both scripts log the same text it is given once, with the line
    of src/presence_guard.py. *)

(** src/presence_guard.py:50; [s] is [str(e)]. *)
Definition text_bluetooth_error (s : string) : string := "bluetooth check error: " +:+ s.
(** src/presence_guard.py:63. *)
Definition text_locked_via (cmd : Cmd) : string := "Locked via: " +:+ String.concat " " cmd.
(** src/face_detect.py:73. *)
Definition text_lock_attempt_error (cmd : Cmd) (s : string) : string :=
  "Lock attempt error for " +:+ String.concat " " cmd +:+ ": " +:+ s.
(** src/presence_guard.py:67. *)
Definition text_all_lock_failed : string := "All lock commands failed.".
(** src/presence_guard.py:107. *)
Definition text_no_face_in_enroll (f : string) : string := "No face found in enroll image: " +:+ f.
(** src/presence_guard.py:112; [f] is the base name of the file. *)
Definition text_loaded_enroll (f : string) : string := "Loaded enrollment face from " +:+ f.
(** src/presence_guard.py:114. *)
Definition text_error_loading (f s : string) : string := "Error loading " +:+ f +:+ ": " +:+ s.
(** src/presence_guard.py:132. *)
Definition text_enroll_dir_missing (dir : string) : string :=
  "Enrollment dir " +:+ dir +:+ " not found. Create it and add photos of your face.".
(** src/presence_guard.py:137. *)
Definition text_no_known_encodings : string := "No known face encodings loaded. Exiting.".
(** src/face_detect.py:93. *)
Definition text_cannot_open_webcam : string := "Cannot open webcam. Exiting.".
(** src/presence_guard.py:143. *)
Definition text_cannot_open_webcams : string := "Cannot open webcam (/dev/video0..3). Exiting.".
(** src/presence_guard.py:145. *)
Definition text_opened_camera (idx w h : Z) : string :=
  "Opened camera /dev/video" +:+ pretty idx +:+ " at " +:+ pretty w +:+ "x" +:+ pretty h.
(** src/presence_guard.py:147. *)
Definition text_starting : string := "Starting presence_guard".
(** src/presence_guard.py:155. *)
Definition text_phone_not_present : string := "Phone not present; locking for safety.".
(** src/presence_guard.py:162. *)
Definition text_read_failed : string := "Failed to read from webcam, retrying...".
(** src/presence_guard.py:171. *)
Definition text_detected (n_faces : nat) : string := "Detected " +:+ pretty n_faces +:+ " face(s)".
(** src/face_detect.py:118. *)
Definition text_not_exactly_one : string :=
  "Condition failed: not exactly one person present -> locking".
(** src/presence_guard.py:181. *)
Definition text_no_faces_timeout : string := "No faces for timeout -> locking".
(** src/presence_guard.py:186. *)
Definition text_waiting : string := "No face seen yet; waiting for timeout...".
(** src/presence_guard.py:188. *)
Definition text_multiple_faces : string := "Multiple faces detected -> locking".
(** src/presence_guard.py:201. *)
Definition text_best_distance (best : Q) : string := "Best face distance: " +:+ format_3f best.
(** src/presence_guard.py:204. *)
Definition text_no_encoding : string :=
  "Could not compute encoding on this frame; treating as unauthorized.".
(** src/presence_guard.py:209. *)
Definition text_authorized : string := "Authorized face present " +:+ em_dash +:+ " all good.".
(** src/face_detect.py:130. *)
Definition text_authorized_only : string :=
  "Authorized face detected and only person present " +:+ em_dash_twice +:+ " all good.".
(** src/face_detect.py:133. *)
Definition text_unknown_face : string := "Unknown face detected (not authorized) -> locking".
(** src/presence_guard.py:212. *)
Definition text_single_not_authorized : string := "Single face not authorized -> locking".
(** src/presence_guard.py:220. *)
Definition text_stopped : string := "presence_guard stopped by user".
(** src/presence_guard.py:222; [s] is [str(e)]. *)
Definition text_crashed (s : string) : string := "presence_guard crashed: " +:+ s.

Section Render.
(** [str(e)], the text of an exception. *)
Context (str : exn -> string).

(** [msg], the argument [log] is called with: the text of the call the
    message stands for. *)
Definition render (m : Msg) : string :=
  match m with
  | MBluetoothError e => text_bluetooth_error (str e)
  | MLockedVia cmd => text_locked_via cmd
  | MLockAttemptError cmd e => text_lock_attempt_error cmd (str e)
  | MAllLockFailed => text_all_lock_failed
  | MNoFaceInEnroll f => text_no_face_in_enroll f
  | MLoadedEnroll f => text_loaded_enroll f
  | MErrorLoading f e => text_error_loading f (str e)
  | MEnrollDirMissing dir => text_enroll_dir_missing dir
  | MNoKnownEncodings => text_no_known_encodings
  | MCannotOpenWebcam => text_cannot_open_webcam
  | MCannotOpenWebcams => text_cannot_open_webcams
  | MOpenedCamera idx w h => text_opened_camera idx w h
  | MStarting => text_starting
  | MPhoneNotPresent => text_phone_not_present
  | MReadFailed => text_read_failed
  | MDetected n => text_detected n
  | MNotExactlyOne => text_not_exactly_one
  | MNoFacesTimeout => text_no_faces_timeout
  | MWaiting => text_waiting
  | MMultipleFaces => text_multiple_faces
  | MBestDistance best => text_best_distance best
  | MNoEncoding => text_no_encoding
  | MAuthorized => text_authorized
  | MAuthorizedOnly => text_authorized_only
  | MUnknownFace => text_unknown_face
  | MSingleNotAuthorized => text_single_not_authorized
  | MStopped => text_stopped
  | MCrashed e => text_crashed (str e)
  end.
End Render.

(** ** What is written *)

(** The end of a line. *)
Definition nl : string := String "010" EmptyString.

Inductive Output : Type :=
| Stdout (text : string)
| FileAppend (path : string) (text : string).

#[export] Instance Output_eq_dec : EqDecision Output.
Proof. solve_decision. Defined.

(** What the statement recorded as [ev] writes when the clock of its
    [log] call read [d]: [print(line)] writes the line and its end to the
    standard output, lines 36 and 31, and [f.write(line + "\n")] writes
    the same to [LOGFILE], lines 38-39 and 33-34. *)
Definition written (str : exn -> string) (LOGFILE : string) (d : DateTime)
    (ev : Event) : list Output :=
  match ev with
  | EvLog m => [Stdout (line d (render str m) +:+ nl)]
  | EvAppend m => [FileAppend LOGFILE (line d (render str m) +:+ nl)]
  | _ => []
  end.

(** ** Reading the digits back *)

Lemma undigit_digit n : 0 <= n < 10 -> undigit (digit n) = Some n.
Proof.
  intros Hn. unfold undigit, digit.
  rewrite N_ascii_embedding by lia. rewrite Z2N.id by lia.
  rewrite bool_decide_eq_true_2 by lia. f_equal. lia.
Qed.

Lemma zfill_go_app w n s r : zfill_go w n s +:+ r = zfill_go w n (s +:+ r).
Proof. revert n s. induction w as [|w IH]; intros n s; [done|]. simpl. by rewrite IH. Qed.

(** Reading the [w] digits of [n] continues the number read so far. *)
Lemma number_go_zfill_go w k acc n s :
  0 <= n < 10 ^ Z.of_nat w ->
  number_go (w + k) acc (zfill_go w n s) = number_go k (acc * 10 ^ Z.of_nat w + n) s.
Proof.
  revert k n s. induction w as [|w IH]; intros k n s Hn.
  { simpl in *. do 2 f_equal. lia. }
  rewrite Nat2Z.inj_succ, Z.pow_succ_r in Hn by lia.
  cbn [zfill_go]. replace (S w + k)%nat with (w + S k)%nat by lia.
  rewrite IH by (split; [apply Z.div_pos | apply Z.div_lt_upper_bound]; lia).
  cbn [number_go]. rewrite undigit_digit by (apply Z.mod_pos_bound; lia). simpl.
  f_equal. rewrite Nat2Z.inj_succ, Z.pow_succ_r by lia.
  pose proof (Z.div_mod n 10). lia.
Qed.

Lemma number_zfill w n r :
  0 <= n < 10 ^ Z.of_nat w -> number w (zfill w n +:+ r) = Some (n, r).
Proof.
  intros Hn. unfold number, zfill. rewrite zfill_go_app.
  rewrite <- (Nat.add_0_r w) at 1. by rewrite number_go_zfill_go.
Qed.

Lemma expect_app p s : expect p (p +:+ s) = Some s.
Proof.
  induction p as [|c p IH]; [done|].
  change (expect (String c p) (String c (p +:+ s)) = Some s). simpl.
  by rewrite Ascii.eqb_refl.
Qed.

Lemma string_app_assoc (s1 s2 s3 : string) : (s1 +:+ s2) +:+ s3 = s1 +:+ (s2 +:+ s3).
Proof.
  induction s1 as [|c s1 IH]; [done|].
  change (String c ((s1 +:+ s2) +:+ s3) = String c (s1 +:+ s2 +:+ s3)). by rewrite IH.
Qed.

(** The stamp at the front of a text is read back to the second. *)
Lemma strptime_strftime d r :
  wf_datetime d -> strptime (strftime d +:+ r) = Some (to_seconds d, r).
Proof.
  intros (Hy & Hm & Hd & HH & HM & HS & _). unfold strptime, strftime.
  rewrite !string_app_assoc.
  repeat (rewrite number_zfill by (simpl; lia); cbn [mbind option_bind];
          rewrite ?expect_app; cbn [mbind option_bind]).
  done.
Qed.

Lemma string_length_app (s1 s2 : string) :
  String.length (s1 +:+ s2) = (String.length s1 + String.length s2)%nat.
Proof.
  induction s1 as [|c s1 IH]; [done|].
  change (S (String.length (s1 +:+ s2)) = S (String.length s1 + String.length s2)).
  by rewrite IH.
Qed.

Lemma zfill_length w n : String.length (zfill w n) = w.
Proof.
  assert (forall w n s, String.length (zfill_go w n s) = (w + String.length s)%nat) as Hgo.
  { clear. induction w as [|w IH]; intros n s; [done|]. simpl. rewrite IH. simpl. lia. }
  unfold zfill. rewrite Hgo. simpl. lia.
Qed.

(** The stamp has nineteen characters. *)
Lemma strftime_length d : String.length (strftime d) = 19%nat.
Proof. unfold strftime. by rewrite !string_length_app, !zfill_length. Qed.

(** The nearest integer is at most one half away. *)
Lemma round_half_even_near q :
  (Qabs (inject_Z (round_half_even q) - q) <= 1 # 2)%Q.
Proof.
  unfold round_half_even. pose proof (Qfloor_le q) as Hlo. pose proof (Qlt_floor q) as Hhi.
  rewrite inject_Z_plus in Hhi. change (inject_Z 1) with 1%Q in Hhi.
  set (f := Qfloor q) in *. apply Qabs_Qle_condition.
  destruct (q - inject_Z f ?= 1 # 2)%Q eqn:Hc.
  - apply Qeq_alt in Hc.
    destruct (Z.even f); rewrite ?inject_Z_plus; change (inject_Z 1) with 1%Q; lra.
  - apply Qlt_alt in Hc. lra.
  - apply Qgt_alt in Hc. rewrite inject_Z_plus. change (inject_Z 1) with 1%Q. lra.
Qed.

(** ** Reading a line back *)

(** A line of the log is read back: its stamp is the clock of the call
    to the second, and its message is the argument of [log]. *)
Lemma parse_line_line d msg :
  wf_datetime d -> parse_line (line d msg) = Some (to_seconds d, msg).
Proof.
  intros Hd. unfold parse_line, line. rewrite strptime_strftime by done.
  cbn [mbind option_bind]. by rewrite expect_app.
Qed.

(** C35. Round trip of a line of the log: for every clock reading of the
    class [datetime] from the year 1000 on and every message, whatever
    characters it holds, reading the line [log] formats gives back the
    clock to the second and the message; so two lines are equal only
    when their stamps agree to the second and their messages are
    equal. *)
Theorem line_roundtrip d msg :
  wf_datetime d ->
  parse_line (line d msg) = Some (to_seconds d, msg) /\
  (forall d' msg', wf_datetime d' -> line d msg = line d' msg' ->
     to_seconds d = to_seconds d' /\ msg = msg').
Proof.
  intros Hd. split; [by apply parse_line_line|]. intros d' msg' Hd' Heq.
  pose proof (parse_line_line d msg Hd) as Hr.
  rewrite Heq, parse_line_line in Hr by done. split; congruence.
Qed.

(** ** The decisions in the text of the log *)

(** The lines by which a turn of src/presence_guard.py announces its
    decision. *)
Definition decisions : list Msg :=
  [MNoFacesTimeout; MWaiting; MMultipleFaces; MAuthorized; MSingleNotAuthorized;
   MPhoneNotPresent].

Definition decision (m : Msg) : option Msg :=
  match m with
  | MNoFacesTimeout | MWaiting | MMultipleFaces | MAuthorized | MSingleNotAuthorized
  | MPhoneNotPresent => Some m
  | _ => None
  end.

(** The message among [ds] whose text is [msg]. *)
Definition read_among (ds : list Msg) (msg : string) : option Msg :=
  find (fun m => String.eqb msg (render (fun _ => EmptyString) m)) ds.

(** The decision a message of the log announces, read from its text. *)
Definition read_decision (msg : string) : option Msg := read_among decisions msg.

(** The messages a trace logs, in order. *)
Definition logged (t : trace) : list Msg :=
  omap (fun ev => match ev with EvLog m => Some m | _ => None end) t.

(** The lines a trace prints, the [k]-th with the clock [clock k]. *)
Definition stdout (str : exn -> string) (clock : nat -> DateTime) (t : trace) : list string :=
  imap (fun k m => line (clock k) (render str m)) (logged t).

(** The message among [ds] a line of the log announces. *)
Definition read_line_among (ds : list Msg) (l : string) : option Msg :=
  '(_, msg) ← parse_line l; read_among ds msg.

(** The decision a line of the log announces. *)
Definition read_line (l : string) : option Msg := read_line_among decisions l.

(** [differ p l]: the texts [p] and [l] differ at a place both have. *)
Fixpoint differ (p l : string) : bool :=
  match p, l with
  | String a p, String b l => if Ascii.eqb a b then differ p l else true
  | _, _ => false
  end.

Lemma differ_app p x l : differ p l = true -> String.eqb (p +:+ x) l = false.
Proof.
  revert l. induction p as [|a p IH]; intros [|b l]; try done.
  change (String a p +:+ x) with (String a (p +:+ x)). simpl.
  destruct (Ascii.eqb a b); [apply IH | done].
Qed.

(** No text of a line with an interpolated value is the text of a
    message of [ds] it differs from before the value. *)
Lemma read_among_app ds p x :
  forallb (fun m => differ p (render (fun _ => EmptyString) m)) ds = true ->
  read_among ds (p +:+ x) = None.
Proof.
  intros Hall. unfold read_among.
  induction ds as [|m ms IH]; [done|]. simpl in Hall.
  apply andb_prop in Hall as [Hm Hms]. cbn [find]. by rewrite differ_app, IH.
Qed.

Section Reading.
Context (str : exn -> string).

(** The text of a message announces the decision the message is. *)
Lemma read_decision_render m : read_decision (render str m) = decision m.
Proof. unfold read_decision. destruct m; try done; by apply read_among_app. Qed.

Section Among.
Context (ds : list Msg) (which : Msg -> option Msg).
Context (Hrender : forall m, read_among ds (render str m) = which m).

Lemma read_line_among_line d m :
  wf_datetime d -> read_line_among ds (line d (render str m)) = which m.
Proof.
  intros Hd. unfold read_line_among. rewrite parse_line_line by done. apply Hrender.
Qed.

(** Reading the lines a trace prints gives the messages of [ds] it
    logged. *)
Lemma read_among_stdout clock t :
  (forall k, wf_datetime (clock k)) ->
  omap (read_line_among ds) (stdout str clock t) = omap which (logged t).
Proof.
  intros Hclock. unfold stdout. generalize (logged t). intros ms. revert clock Hclock.
  induction ms as [|m ms IH]; intros clock Hclock; [done|].
  rewrite imap_cons. cbn [omap list_omap]. rewrite read_line_among_line by done.
  by rewrite <- (IH (clock ∘ S)) by (intros k; apply Hclock).
Qed.
End Among.

Lemma read_line_line d m : wf_datetime d -> read_line (line d (render str m)) = decision m.
Proof. apply read_line_among_line, read_decision_render. Qed.

(** Reading the lines a trace prints gives the decisions it logged. *)
Lemma read_stdout clock t :
  (forall k, wf_datetime (clock k)) ->
  omap read_line (stdout str clock t) = omap decision (logged t).
Proof. apply read_among_stdout, read_decision_render. Qed.
End Reading.

(** ** The logger writes one line twice *)

(** [log] writes the same line, stamp and message
    and the end of the line, first to the standard output and then to
    the log file; an [Exception] of the file is dropped, anything else
    the write raises leaves [log]. *)
Theorem log_writes_line str LOGFILE d (append : outcome unit) m :
  let l := line d (render str m) +:+ nl in
  trace_of (log_with append m) ≫= written str LOGFILE d
  = [Stdout l; FileAppend LOGFILE l] /\
  result_of (log_with append m)
  = match append with
    | Raises e => if is_Exception e then Returns tt else Raises e
    | Returns _ => Returns tt
    end.
Proof.
  unfold log_with, try_except, except_Exception.
  destruct append as [[]|e]; [done|]. cbn. by destruct (is_Exception e).
Qed.

(** ** Examples *)

Definition noon : DateTime :=
  {| year := 2024; month := 3; day := 9; hour := 12; minute := 0; second := 7;
     microsecond := 250000 |}.

Example line_noon :
  line noon (render (fun _ => EmptyString) (MDetected 2))
  = "2024-03-09 12:00:07 - Detected 2 face(s)".
Proof. by vm_compute. Qed.

(** Three decimals, the tie to the even digit, the sign of the value. *)
Example format_3f_values :
  format_3f (65 # 100) = "0.650" /\ format_3f (6504 # 10000) = "0.650" /\
  format_3f (625 # 10000) = "0.062" /\ format_3f (1875 # 10000) = "0.188" /\
  format_3f (12 # 1) = "12.000" /\ format_3f (- (4 # 10000)) = "-0.000".
Proof. by vm_compute. Qed.

Lemma line_roundtrip_witness :
  parse_line (line noon "Detected 2 face(s)") = Some (to_seconds noon, "Detected 2 face(s)") /\
  (forall d' msg', wf_datetime d' -> line noon "Detected 2 face(s)" = line d' msg' ->
     to_seconds noon = to_seconds d' /\ "Detected 2 face(s)" = msg').
Proof. apply (line_roundtrip noon). by vm_compute. Defined.

(** The UTF-8 encoding of a code point below U+10000, and the
    characters Windows-1252 reads the bytes of the dash as. *)
Definition utf8 (c : N) : list N :=
  if (c <? 128)%N then [c]
  else if (c <? 2048)%N then [192 + c / 64; 128 + c mod 64]%N
  else [224 + c / 4096; 128 + (c / 64) mod 64; 128 + c mod 64]%N.

Definition cp1252 (b : N) : N :=
  match b with
  | 128 => 8364
  | 148 => 8221
  | _ => b
  end%N.

(** The text of src/face_detect.py:130 holds the dash of
    src/presence_guard.py:209 read as Windows-1252 and encoded again. *)
Example dash_encoded_twice :
  String.list_ascii_of_string em_dash_twice
  = ascii_of_N <$> (N_of_ascii <$> String.list_ascii_of_string em_dash) ≫= (utf8 ∘ cp1252).
Proof. by vm_compute. Qed.
