(* ===== verification/LockActuator.v ===== *)
(** * Lock actuator: [lock_session]

    Both scripts lock the session by trying four commands in order until
    one succeeds.  [PresenceGuard.lock_session] is
    src/presence_guard.py:53-68, where every [Exception] of a command
    means "try the next one"; [FaceDetect.lock_session] is
    src/face_detect.py:56-75, which handles a missing executable and a
    failure status the same way and logs any other [Exception] before it
    goes on.

    The environment is [run : Cmd -> outcome unit], what
    [subprocess.run(cmd, check=True, timeout=5)] does for each command:
    it returns (exit status 0), or raises [FileNotFoundError],
    [CalledProcessError], [TimeoutExpired], another exception, or
    [KeyboardInterrupt] when the user interrupts the wait.

    [cascade] is the specification of the cascade as a function of these
    answers and [attempted] the commands it runs; the theorems show that
    both implementations compute [cascade], run exactly [attempted],
    never let an [Exception] escape, and differ only in the lines they
    log.  [LockActuator] is the interface the decision loops rely on. *)

From Stdlib Require Import Lqa.
From S2P Require Import Prelude Effects.

(** ** The commands *)

(** The list [cmds] of both [lock_session]s (src/presence_guard.py:54-59,
    src/face_detect.py:57-62). *)
Definition cmds : list Cmd :=
  [ ["loginctl"; "lock-sessions"];
    ["gnome-screensaver-command"; "--lock"];
    ["xdg-screensaver"; "lock"];
    ["dm-tool"; "lock"] ]%string.

(** [subprocess.run(cmd, check=True, timeout=...)]. *)
Definition subprocess_run (run : Cmd -> outcome unit) (cmd : Cmd) (timeout : Z) : Prog unit :=
  call (EvRun cmd timeout) (run cmd).

(** ** Specification of the cascade *)

(** [skipped o]: the command failed with an [Exception], the cascade goes
    on to the next one. *)
Definition skipped (o : outcome unit) : bool :=
  match o with
  | Returns _ => false
  | Raises e => is_Exception e
  end.

(** [cascade run cs]: the outcome of trying [cs] in order. *)
Fixpoint cascade (run : Cmd -> outcome unit) (cs : list Cmd) : outcome bool :=
  match cs with
  | [] => Returns false
  | c :: cs =>
      match run c with
      | Returns _ => Returns true
      | Raises e => if is_Exception e then cascade run cs else Raises e
      end
  end.

(** [attempted run cs]: the commands the cascade runs, in order. *)
Fixpoint attempted (run : Cmd -> outcome unit) (cs : list Cmd) : list Cmd :=
  match cs with
  | [] => []
  | c :: cs => if skipped (run c) then c :: attempted run cs else [c]
  end.

(** [used run cs]: the command that locked the session, if one did. *)
Fixpoint used (run : Cmd -> outcome unit) (cs : list Cmd) : option Cmd :=
  match cs with
  | [] => None
  | c :: cs =>
      match run c with
      | Returns _ => Some c
      | Raises e => if is_Exception e then used run cs else None
      end
  end.

(** ** Observations on traces *)

(** The commands a trace ran, in order. *)
Fixpoint runs_of (t : trace) : list Cmd :=
  match t with
  | [] => []
  | EvRun c _ :: t => c :: runs_of t
  | _ :: t => runs_of t
  end.

(** [lock_event ev]: an event of the lock actuator, a run of one of its
    commands or one of its lines. *)
Definition lock_event (ev : Event) : bool :=
  match ev with
  | EvRun c _ => bool_decide (c ∈ cmds)
  | EvLog (MLockedVia _) | EvLog (MLockAttemptError _ _) | EvLog MAllLockFailed
  | EvAppend (MLockedVia _) | EvAppend (MLockAttemptError _ _) | EvAppend MAllLockFailed => true
  | _ => false
  end.

(** [lock_done ev]: the event that ends a cascade, the append of its
    last line to the log file. *)
Definition lock_done (ev : Event) : bool :=
  match ev with
  | EvAppend (MLockedVia _) | EvAppend MAllLockFailed => true
  | _ => false
  end.

(** [is_attempt_error ev]: the line only src/face_detect.py logs. *)
Definition is_attempt_error (ev : Event) : bool :=
  match ev with
  | EvLog (MLockAttemptError _ _) | EvAppend (MLockAttemptError _ _) => true
  | _ => false
  end.

(** ** The loop of both scripts

    [for cmd in cmds: <attempt>] followed by the two statements after the
    loop (src/presence_guard.py:60-68, src/face_detect.py:63-75).  The
    body [attempt] is the [try] statement, which differs between the
    scripts: [Some b] is [return b], [None] is the next turn. *)
Fixpoint for_cmds (attempt : Cmd -> Prog (option bool)) (cs : list Cmd) : Prog bool :=
  match cs with
  | [] =>
      log MAllLockFailed;;
      mret false
  | cmd :: cs =>
      r ← attempt cmd;
      match r with
      | Some b => mret b
      | None => for_cmds attempt cs
      end
  end.

(** ** src/presence_guard.py *)

Module PresenceGuard.

(** The [try] statement of lines 61-66. *)
Definition attempt (run : Cmd -> outcome unit) (cmd : Cmd) : Prog (option bool) :=
  try_except
    (subprocess_run run cmd 5;;
     log (MLockedVia cmd);;
     mret (Some true))
    (except_Exception (fun _ => mret None)).

Definition lock_session (run : Cmd -> outcome unit) : Prog bool :=
  for_cmds (attempt run) cmds.

End PresenceGuard.

(** ** src/face_detect.py *)

Module FaceDetect.

(** The three [except] clauses of lines 68-73, in order. *)
Definition handler (cmd : Cmd) (e : exn) : option (Prog (option bool)) :=
  match e with
  | FileNotFoundError => Some (mret None)
  | CalledProcessError _ => Some (mret None)
  | _ =>
      except_Exception
        (fun e => log (MLockAttemptError cmd e);; mret None) e
  end.

(** The [try] statement of lines 64-73. *)
Definition attempt (run : Cmd -> outcome unit) (cmd : Cmd) : Prog (option bool) :=
  try_except
    (subprocess_run run cmd 5;;
     log (MLockedVia cmd);;
     mret (Some true))
    (handler cmd).

Definition lock_session (run : Cmd -> outcome unit) : Prog bool :=
  for_cmds (attempt run) cmds.

End FaceDetect.

(** ** The interface of an actuator

    What a decision loop needs of [lock_session]: it runs the first
    command whatever happens, only an interrupt escapes it, its events
    are its own, and when it returns its last event is the line that says
    how the cascade ended. *)

Class LockActuator (lock : (Cmd -> outcome unit) -> Prog bool) : Prop := {
  lock_attempts : forall run,
    exists c t, trace_of (lock run) = EvRun c 5 :: t /\ c ∈ cmds;
  lock_contains : forall run e,
    result_of (lock run) = Raises e -> is_Exception e = false;
  lock_footprint : forall run,
    Forall (fun ev => lock_event ev = true) (trace_of (lock run));
  lock_ends : forall run b,
    result_of (lock run) = Returns b ->
    exists t ev, trace_of (lock run) = t ++ [ev] /\ lock_done ev = true /\
                 Forall (fun ev => lock_done ev = false) t;
  lock_interrupted : forall run e,
    result_of (lock run) = Raises e ->
    Forall (fun ev => lock_done ev = false) (trace_of (lock run));
  lock_budget : forall run, (blocking (trace_of (lock run)) <= 20)%Q
}.

(** ** What a [try] statement of the loop does

    Both bodies run the command; on success they log the command and
    return [True]; on an [Exception] they log [errlog cmd e] (nothing in
    src/presence_guard.py) and go on; anything else escapes. *)

Class Attempt (run : Cmd -> outcome unit) (attempt : Cmd -> Prog (option bool))
    (errlog : Cmd -> exn -> trace) : Prop := {
  attempt_ok : forall c u, run c = Returns u ->
    attempt c = (EvRun c 5 :: logs (MLockedVia c), Returns (Some true));
  attempt_skip : forall c e, run c = Raises e -> is_Exception e = true ->
    attempt c = (EvRun c 5 :: errlog c e, Returns None);
  attempt_pass : forall c e, run c = Raises e -> is_Exception e = false ->
    attempt c = ([EvRun c 5], Raises e);
  errlog_lines : forall c e,
    Forall (fun ev => is_attempt_error ev = true) (errlog c e)
}.

(** The lines src/face_detect.py logs for a command that raised [e]. *)
Definition attempt_errors (c : Cmd) (e : exn) : trace :=
  match e with
  | FileNotFoundError | CalledProcessError _ => []
  | _ => logs (MLockAttemptError c e)
  end.

(** [cascade_trace errlog run cs]: the events of the cascade. *)
Fixpoint cascade_trace (errlog : Cmd -> exn -> trace) (run : Cmd -> outcome unit)
    (cs : list Cmd) : trace :=
  match cs with
  | [] => logs MAllLockFailed
  | c :: cs =>
      match run c with
      | Returns _ => EvRun c 5 :: logs (MLockedVia c)
      | Raises e =>
          if is_Exception e then EvRun c 5 :: errlog c e ++ cascade_trace errlog run cs
          else [EvRun c 5]
      end
  end.

(** [case_run c]: the three cases of a command's answer. *)
Ltac case_run c :=
  let e := fresh "e" in let He := fresh "He" in
  destruct c as [[]|e] eqn:?; [|destruct (is_Exception e) eqn:He];
  simpl; rewrite ?He; simpl.

(** *** The specification functions *)

Section Spec.
Context (run : Cmd -> outcome unit).
Implicit Types (cs : list Cmd) (c : Cmd).

Lemma attempted_prefix cs : attempted run cs `prefix_of` cs.
Proof.
  induction cs as [|c cs IH]; simpl; [done|].
  destruct (skipped (run c)); apply prefix_cons; [done | apply prefix_nil].
Qed.

Lemma attempted_all cs :
  Forall (fun c => skipped (run c) = true) cs -> attempted run cs = cs.
Proof. induction 1 as [|c cs Hc _ IH]; simpl; [done|]. by rewrite Hc, IH. Qed.

Lemma cascade_all cs :
  Forall (fun c => skipped (run c) = true) cs -> cascade run cs = Returns false.
Proof.
  induction 1 as [|c cs Hc _ IH]; simpl; [done|].
  unfold skipped in Hc. destruct (run c); [done|]. by rewrite Hc.
Qed.

Lemma used_all cs :
  Forall (fun c => skipped (run c) = true) cs -> used run cs = None.
Proof.
  induction 1 as [|c cs Hc _ IH]; simpl; [done|].
  unfold skipped in Hc. destruct (run c); [done|]. by rewrite Hc.
Qed.

Lemma attempted_app_decisive l c cs :
  Forall (fun c => skipped (run c) = true) l -> skipped (run c) = false ->
  attempted run (l ++ c :: cs) = l ++ [c].
Proof. induction 1 as [|? ? Hc _ IH]; simpl; intros Hd; [by rewrite Hd | by rewrite Hc, IH]. Qed.

Lemma cascade_app l cs :
  Forall (fun c => skipped (run c) = true) l -> cascade run (l ++ cs) = cascade run cs.
Proof.
  induction 1 as [|c l Hc _ IH]; simpl; [done|].
  unfold skipped in Hc. destruct (run c); [done|]. by rewrite Hc.
Qed.

Lemma used_app l cs :
  Forall (fun c => skipped (run c) = true) l -> used run (l ++ cs) = used run cs.
Proof.
  induction 1 as [|c l Hc _ IH]; simpl; [done|].
  unfold skipped in Hc. destruct (run c); [done|]. by rewrite Hc.
Qed.

(** The cascade returns [True] exactly when a command locked. *)
Lemma cascade_true_used cs : cascade run cs = Returns true <-> is_Some (used run cs).
Proof.
  induction cs as [|c cs IH]; simpl.
  - split; [done | by intros [? ?]].
  - case_run (run c); done.
Qed.

Lemma used_In cs c : used run cs = Some c -> c ∈ cs /\ run c = Returns tt.
Proof.
  induction cs as [|c' cs IH]; simpl; [done|].
  case_run (run c'); try done.
  - intros [= <-]. split; [left | done].
  - intros H. destruct (IH H). split; [by right | done].
Qed.

Section Traces.
Context (errlog : Cmd -> exn -> trace).
Context (Herr : forall c e, Forall (fun ev => is_attempt_error ev = true) (errlog c e)).

Lemma runs_of_app t t' : runs_of (t ++ t') = runs_of t ++ runs_of t'.
Proof. induction t as [|[] t IH]; simpl; by rewrite ?IH. Qed.

Lemma runs_of_errors t :
  Forall (fun ev => is_attempt_error ev = true) t -> runs_of t = [].
Proof. induction 1 as [|[] t Hev _ IH]; simpl; done. Qed.

Lemma cascade_trace_runs cs :
  runs_of (cascade_trace errlog run cs) = attempted run cs.
Proof.
  induction cs as [|c cs IH]; simpl; [done|].
  case_run (run c); try done.
  by rewrite runs_of_app, runs_of_errors, IH.
Qed.

Lemma errors_lock_event t :
  Forall (fun ev => is_attempt_error ev = true) t ->
  Forall (fun ev => lock_event ev = true) t.
Proof.
  intros H. eapply Forall_impl; [exact H|].
  intros ev Hev. destruct ev; try done; by destruct m.
Qed.

Lemma errors_not_done t :
  Forall (fun ev => is_attempt_error ev = true) t ->
  Forall (fun ev => lock_done ev = false) t.
Proof.
  intros H. eapply Forall_impl; [exact H|].
  intros ev Hev. destruct ev; try done; by destruct m.
Qed.

Lemma errors_budget t :
  Forall (fun ev => is_attempt_error ev = true) t -> (blocking t == 0)%Q.
Proof.
  intros H. apply blocking_quiet. eapply Forall_impl; [exact H|]. by intros [].
Qed.

(** Every command of the cascade waits for five seconds at most. *)
Lemma cascade_trace_blocking cs :
  (blocking (cascade_trace errlog run cs) <= 5 * inject_Z (Z.of_nat (length cs)))%Q.
Proof.
  induction cs as [|c cs IH]; [done|]. cbn [cascade_trace length].
  rewrite Nat2Z.inj_succ, <- Z.add_1_r, inject_Z_plus.
  pose proof (Qle_refl 0) as H0.
  assert (0 <= inject_Z (Z.of_nat (length cs)))%Q as Hn
    by (change 0%Q with (inject_Z 0); rewrite <- Zle_Qle; lia).
  case_run (run c); rewrite ?blocking_cons, ?blocking_app, ?errors_budget by done;
    cbn [budget blocking foldr]; change (inject_Z 5) with 5%Q; change (inject_Z 1) with 1%Q;
    lra.
Qed.

Lemma cascade_trace_footprint cs :
  cs ⊆ cmds ->
  Forall (fun ev => lock_event ev = true) (cascade_trace errlog run cs).
Proof.
  induction cs as [|c cs IH]; intros Hcs; [by repeat constructor|].
  assert (lock_event (EvRun c 5) = true) by (apply bool_decide_eq_true, Hcs; left).
  assert (cs ⊆ cmds) by (intros ??; apply Hcs; by right).
  cbn [cascade_trace]. case_run (run c); repeat constructor; try done.
  apply Forall_app; auto using errors_lock_event.
Qed.

Lemma cascade_trace_head c cs :
  exists t, cascade_trace errlog run (c :: cs) = EvRun c 5 :: t.
Proof. simpl. case_run (run c); eauto. Qed.

(** A cascade that returns ends with the line that says how. *)
Lemma cascade_trace_ends cs b :
  cascade run cs = Returns b ->
  exists t ev, cascade_trace errlog run cs = t ++ [ev] /\ lock_done ev = true /\
               Forall (fun ev => lock_done ev = false) t.
Proof.
  induction cs as [|c cs IH]; simpl.
  - intros _. exists [EvLog MAllLockFailed], (EvAppend MAllLockFailed). by repeat constructor.
  - case_run (run c); try done.
    + intros _. exists [EvRun c 5; EvLog (MLockedVia c)], (EvAppend (MLockedVia c)).
      by repeat constructor.
    + intros (t & ev & -> & ? & ?)%IH.
      exists (EvRun c 5 :: errlog c e ++ t), ev. split_and!; [|done|].
      * by rewrite app_comm_cons, app_assoc.
      * constructor; [done|]. apply Forall_app; auto using errors_not_done.
Qed.

(** An interrupted cascade logs no outcome. *)
Lemma cascade_trace_interrupted cs e :
  cascade run cs = Raises e ->
  Forall (fun ev => lock_done ev = false) (cascade_trace errlog run cs).
Proof.
  induction cs as [|c cs IH]; simpl; [done|].
  case_run (run c); try done.
  - intros H. constructor; [done|]. apply Forall_app; auto using errors_not_done.
  - intros _. by repeat constructor.
Qed.

Lemma cascade_contains cs e : cascade run cs = Raises e -> is_Exception e = false.
Proof.
  induction cs as [|c cs IH]; simpl; [done|].
  case_run (run c); try done. by intros [= <-].
Qed.

(** The line "Locked via" names the command that locked. *)
Lemma cascade_trace_locked cs c :
  EvLog (MLockedVia c) ∈ cascade_trace errlog run cs <-> used run cs = Some c.
Proof.
  induction cs as [|c' cs IH]; simpl.
  - split; [|done]. rewrite !elem_of_cons, elem_of_nil. by intros [|[|]].
  - case_run (run c'); rewrite ?elem_of_cons, ?elem_of_app, ?elem_of_nil.
    + split; [intros [|[[= ->]|[|[]]]]; done | intros [= ->]; auto].
    + rewrite IH. split; [intros [|[Hin|]]; try done | auto].
      pose proof (Herr c' e) as Hf. rewrite Forall_forall in Hf.
      by apply Hf in Hin.
    + split; [intros [|[]]; done | done].
Qed.

(** Without the lines of failed attempts, every cascade logs what the
    one of src/presence_guard.py logs. *)
Lemma cascade_trace_filter cs :
  filter (fun ev => is_attempt_error ev = false) (cascade_trace errlog run cs)
  = cascade_trace (fun _ _ => []) run cs.
Proof.
  induction cs as [|c cs IH]; [done|]. cbn [cascade_trace].
  destruct (run c) as [[]|e]; [done|]. destruct (is_Exception e); [|done].
  rewrite filter_cons_True by done. rewrite filter_app, IH. f_equal.
  rewrite filter_none; [done|].
  eapply Forall_impl; [apply Herr|]. simpl. by intros ? ->.
Qed.
End Traces.
End Spec.

(** *** The loop computes the specification *)

Section Loop.
Context (run : Cmd -> outcome unit) (attempt : Cmd -> Prog (option bool))
  (errlog : Cmd -> exn -> trace) `{!Attempt run attempt errlog}.

Lemma for_cmds_cascade cs :
  for_cmds attempt cs = (cascade_trace errlog run cs, cascade run cs).
Proof.
  induction cs as [|c cs IH]; [done|]. cbn [for_cmds cascade_trace cascade].
  destruct (run c) as [u|e] eqn:Hc.
  - by rewrite (attempt_ok c u Hc).
  - destruct (is_Exception e) eqn:He.
    + by rewrite (attempt_skip c e Hc He), bind_returns, IH.
    + by rewrite (attempt_pass c e Hc He).
Qed.
End Loop.

(** *** The two [try] statements *)

Lemma attempt_errors_lines c e :
  Forall (fun ev => is_attempt_error ev = true) (attempt_errors c e).
Proof. destruct e; by repeat constructor. Qed.

#[export] Instance PresenceGuard_attempt run :
  Attempt run (PresenceGuard.attempt run) (fun _ _ => []).
Proof.
  split; unfold PresenceGuard.attempt, subprocess_run.
  - by intros c u ->.
  - intros c e -> He. by destruct e.
  - intros c e -> He. by destruct e.
  - done.
Qed.

#[export] Instance FaceDetect_attempt run :
  Attempt run (FaceDetect.attempt run) attempt_errors.
Proof.
  split; unfold FaceDetect.attempt, subprocess_run.
  - by intros c u ->.
  - intros c e -> He. by destruct e.
  - intros c e -> He. by destruct e.
  - apply attempt_errors_lines.
Qed.

(** *** Both [lock_session]s are actuators *)

Lemma for_cmds_actuator (attempt : (Cmd -> outcome unit) -> Cmd -> Prog (option bool))
    (errlog : Cmd -> exn -> trace) :
  (forall run, Attempt run (attempt run) errlog) ->
  LockActuator (fun run => for_cmds (attempt run) cmds).
Proof.
  intros Hatt. split; intros run; pose proof (Hatt run);
    rewrite (for_cmds_cascade run _ errlog); cbn [trace_of result_of fst snd].
  - destruct (cascade_trace_head run errlog (hd [] cmds) (tl cmds)) as [t Ht].
    eexists _, t. split; [exact Ht | by left].
  - apply cascade_contains.
  - apply cascade_trace_footprint; [apply errlog_lines | done].
  - apply cascade_trace_ends, errlog_lines.
  - apply cascade_trace_interrupted, errlog_lines.
  - eapply Qle_trans; [apply cascade_trace_blocking, errlog_lines | done].
Qed.

#[export] Instance PresenceGuard_actuator : LockActuator PresenceGuard.lock_session.
Proof. apply (for_cmds_actuator _ (fun _ _ => [])), _. Qed.

#[export] Instance FaceDetect_actuator : LockActuator FaceDetect.lock_session.
Proof. apply (for_cmds_actuator _ attempt_errors), _. Qed.

(** ** Theorems on [lock_session] *)

(** Both [lock_session]s as pairs of the specification's trace and
    result. *)
Lemma lock_session_eq run :
  PresenceGuard.lock_session run = (cascade_trace (fun _ _ => []) run cmds, cascade run cmds).
Proof. apply for_cmds_cascade, _. Qed.

Lemma face_detect_lock_session_eq run :
  FaceDetect.lock_session run = (cascade_trace attempt_errors run cmds, cascade run cmds).
Proof. apply for_cmds_cascade, _. Qed.

(** C11. Refinement: [lock_session] of src/presence_guard.py performs
    exactly the events of the specified cascade over [cmds], in their
    order and with nothing logged for a command that failed, and returns
    what [cascade] says, for every behaviour of the commands. *)
Theorem lock_session_refines_cascade run :
  PresenceGuard.lock_session run = (cascade_trace (fun _ _ => []) run cmds, cascade run cmds).
Proof.
  unfold PresenceGuard.lock_session.
  apply (for_cmds_cascade run (PresenceGuard.attempt run) (fun _ _ => [])).
Qed.

(** Refinement: [lock_session] of src/face_detect.py computes the
    same cascade; the lines it logs for failed attempts are
    [attempt_errors]: one line for a timeout or an unexpected exception,
    none for a missing executable or a failure status. *)
Theorem face_detect_lock_session_refines_cascade run :
  FaceDetect.lock_session run = (cascade_trace attempt_errors run cmds, cascade run cmds).
Proof.
  unfold FaceDetect.lock_session.
  apply (for_cmds_cascade run (FaceDetect.attempt run) attempt_errors).
Qed.

(** The commands [lock_session] runs are the commands of [cmds] up
    to and including the first that does not fail with an [Exception],
    in the order of [cmds], each once. *)
Theorem lock_session_runs_attempted run :
  runs_of (trace_of (PresenceGuard.lock_session run)) = attempted run cmds /\
  attempted run cmds `prefix_of` cmds.
Proof.
  rewrite lock_session_eq. split.
  - apply cascade_trace_runs. by intros.
  - apply attempted_prefix.
Qed.

(** Short circuit: when the commands before [c] fail with an
    [Exception] and [c] succeeds, the loop runs them and [c] in order,
    never runs what follows [c], logs [c] as the command used and returns
    [True]. *)
Theorem for_cmds_first_success run l c cs :
  Forall (fun c => skipped (run c) = true) l ->
  run c = Returns tt ->
  result_of (for_cmds (PresenceGuard.attempt run) (l ++ c :: cs)) = Returns true /\
  runs_of (trace_of (for_cmds (PresenceGuard.attempt run) (l ++ c :: cs))) = l ++ [c] /\
  last (trace_of (for_cmds (PresenceGuard.attempt run) (l ++ c :: cs)))
    = Some (EvAppend (MLockedVia c)).
Proof.
  intros Hl Hc. rewrite (for_cmds_cascade run _ (fun _ _ => [])). cbn [trace_of result_of fst snd].
  rewrite cascade_app, cascade_trace_runs, attempted_app_decisive by (by rewrite ?Hc).
  simpl. rewrite Hc. split_and!; [done..|].
  induction Hl as [|c' l Hc' _ IH]; simpl; [by rewrite Hc|].
  unfold skipped in Hc'. destruct (run c'); [done|]. rewrite Hc'.
  simpl. by rewrite last_cons, IH.
Qed.

(** The commands [A], [B], [C] where [A] exits with status 1 and [B]
    succeeds: [A] then [B] run, [C] does not. *)
Lemma for_cmds_first_success_witness :
  let run := fun c : Cmd =>
    if decide (c = ["A"]%string) then Raises (CalledProcessError 1) else Returns tt in
  let m := for_cmds (PresenceGuard.attempt run) [["A"]; ["B"]; ["C"]]%string in
  result_of m = Returns true /\
  runs_of (trace_of m) = [["A"]; ["B"]]%string /\
  last (trace_of m) = Some (EvAppend (MLockedVia ["B"]%string)).
Proof.
  intros run m.
  apply (for_cmds_first_success run [["A"]%string] ["B"]%string [["C"]%string]).
  - by repeat constructor.
  - reflexivity.
Defined.

(** Total failure: when every command fails with an [Exception],
    [lock_session] runs the four commands once each in order, logs
    nothing for any of them, logs "All lock commands failed." and
    returns [False] without raising. *)
Theorem lock_session_all_fail run :
  Forall (fun c => skipped (run c) = true) cmds ->
  PresenceGuard.lock_session run
  = (map (fun c => EvRun c 5) cmds ++ logs MAllLockFailed, Returns false).
Proof.
  intros H. rewrite lock_session_eq, cascade_all by done. f_equal.
  induction H as [|c cs Hc _ IH]; simpl; [done|].
  unfold skipped in Hc. destruct (run c); [done|]. by rewrite Hc, IH.
Qed.

Lemma lock_session_all_fail_witness :
  PresenceGuard.lock_session (fun _ => Raises FileNotFoundError)
  = (map (fun c => EvRun c 5) cmds ++ logs MAllLockFailed, Returns false).
Proof. apply lock_session_all_fail. by repeat constructor. Defined.

(** C13. Error containment: no [Exception] of a lock command escapes
    [lock_session], in either script; what escapes is an interrupt
    ([KeyboardInterrupt], [SystemExit]) raised while a command ran. *)
Theorem lock_session_contains_exceptions run e :
  result_of (PresenceGuard.lock_session run) = Raises e \/
  result_of (FaceDetect.lock_session run) = Raises e ->
  is_Exception e = false /\ exists c, c ∈ cmds /\ run c = Raises e.
Proof.
  rewrite lock_session_eq, face_detect_lock_session_eq.
  cbn [result_of snd]. intros H. assert (cascade run cmds = Raises e) as Hc by tauto.
  split; [by eapply cascade_contains|]. clear H. revert Hc.
  induction cmds as [|c cs IH]; simpl; [done|].
  case_run (run c); try done.
  - intros (c' & ? & ?)%IH. exists c'. split; [by right | done].
  - intros [= <-]. exists c. split; [by left | done].
Qed.

Lemma lock_session_contains_exceptions_witness :
  is_Exception KeyboardInterrupt = false /\
  exists c, c ∈ cmds /\ (fun _ : Cmd => Raises KeyboardInterrupt) c = Raises (A:=unit) KeyboardInterrupt.
Proof.
  apply (lock_session_contains_exceptions (fun _ => Raises KeyboardInterrupt)).
  by left.
Defined.

(** Equivalence of the two scripts' actuators: for every behaviour of
    the commands they return the same result and run the same commands
    in the same order, and the trace of src/face_detect.py without its
    "Lock attempt error" lines is the trace of src/presence_guard.py. *)
Theorem lock_sessions_agree run :
  result_of (FaceDetect.lock_session run) = result_of (PresenceGuard.lock_session run) /\
  runs_of (trace_of (FaceDetect.lock_session run))
    = runs_of (trace_of (PresenceGuard.lock_session run)) /\
  filter (fun ev => is_attempt_error ev = false) (trace_of (FaceDetect.lock_session run))
    = trace_of (PresenceGuard.lock_session run).
Proof.
  rewrite lock_session_eq, face_detect_lock_session_eq.
  cbn [trace_of result_of fst snd]. split_and!; [done| |].
  - rewrite !cascade_trace_runs; [done| by intros |apply attempt_errors_lines].
  - apply cascade_trace_filter, attempt_errors_lines.
Qed.

(** [lock_session] returns [True] exactly when it logged "Locked
    via" for a command of [cmds], and that command exited with status
    0. *)
Theorem lock_session_true_iff_locked run :
  result_of (PresenceGuard.lock_session run) = Returns true <->
  exists c, EvLog (MLockedVia c) ∈ trace_of (PresenceGuard.lock_session run) /\
            c ∈ cmds /\ run c = Returns tt.
Proof.
  rewrite lock_session_eq. cbn [trace_of result_of fst snd].
  rewrite cascade_true_used. setoid_rewrite cascade_trace_locked; [|by intros].
  split.
  - intros [c Hc]. exists c. split; [done|]. by apply used_In.
  - intros (c & -> & _). eauto.
Qed.

(** A timeout of a lock command is logged by src/face_detect.py and
    passed over in silence by src/presence_guard.py: when every command
    times out, the first logs one "Lock attempt error" line per command
    and the second none; both go through the four commands and return
    [False]. *)
Theorem lock_session_timeouts :
  FaceDetect.lock_session (fun _ => Raises TimeoutExpired)
  = (flat_map (fun c => EvRun c 5 :: logs (MLockAttemptError c TimeoutExpired)) cmds
       ++ logs MAllLockFailed, Returns false) /\
  PresenceGuard.lock_session (fun _ => Raises TimeoutExpired)
  = (map (fun c => EvRun c 5) cmds ++ logs MAllLockFailed, Returns false).
Proof. done. Qed.
