(* ===== verification/Vision.v ===== *)
(** * Vision: frames, the face locator and the identity matcher

    The detector and the encoder of [face_recognition] and the norm of
    [numpy] are capabilities: [Vision] is their interface, functions of
    the image they are given.  What the scripts do around them is
    modelled here:

    - [reverse_channels] and [cvtColor_BGR2RGB], the two conversions
      src/presence_guard.py:166-167 applies to a frame;
    - [detect_faces_rgb], src/presence_guard.py:117-127, the HOG detector
      with the CNN fallback;
    - [best_distance] and [identify], src/presence_guard.py:197-204, the
      minimum distance to the enrolled encodings and its comparison with
      the tolerance.

    A frame is a list of rows of three-channel pixels.  An encoding is a
    list of rationals. *)

From S2P Require Import Prelude Effects.

(** ** Frames *)

(** A pixel of a three-channel frame, in the order of the array. *)
Definition Pixel : Type := (Z * Z * Z)%type.

Abbreviation Image := (list (list Pixel)) (only parsing).

(** [frame[:, :, ::-1]]: the last axis reversed. *)
Definition reverse_channels (img : Image) : Image :=
  map (map (fun '(c0, c1, c2) => (c2, c1, c0))) img.

(** [cv2.cvtColor(img, cv2.COLOR_BGR2RGB)] on a three-channel frame:
    the first and the third channel change places. *)
Definition cvtColor_BGR2RGB (img : Image) : Image :=
  map (map (fun '(b, g, r) => (r, g, b))) img.

(** ** The capabilities *)

(** A face location, [(top, right, bottom, left)]. *)
Definition Location : Type := (Z * Z * Z * Z)%type.

Abbreviation Encoding := (list Q) (only parsing).

Class Vision : Type := {
  (** [face_recognition.face_locations(img, number_of_times_to_upsample, model)] *)
  face_locations : Image -> Z -> detector -> outcome (list Location);
  (** [face_recognition.face_encodings(img, known_face_locations)] *)
  face_encodings : Image -> list Location -> outcome (list Encoding);
  (** [np.linalg.norm] of one row *)
  norm : list Q -> Q
}.

(** ** The face locator *)

Section Locator.
Context `{Vision}.

(** [detect_faces_rgb(rgb)], src/presence_guard.py:117-127. *)
Definition detect_faces_rgb (HOG_UPSAMPLE : Z) (USE_CNN_FALLBACK : bool)
    (rgb : Image) : Prog (list Location) :=
  locs ← call (EvFaceLocations HOG HOG_UPSAMPLE) (face_locations rgb HOG_UPSAMPLE HOG);
  if bool_decide (locs = []) && USE_CNN_FALLBACK then
    call (EvFaceLocations CNN 1) (face_locations rgb 1 CNN)
  else
    mret locs.

(** ** The identity matcher *)

(** [known - enc]: the row [k] of the difference. *)
Definition row_sub (k enc : Encoding) : list Q := zip_with Qminus k enc.

(** [np.linalg.norm(known - enc, axis=1)]. *)
Definition distances (known : list Encoding) (enc : Encoding) : list Q :=
  map (fun k => norm (row_sub k enc)) known.

(** [np.min]: raises [ValueError] on an empty array. *)
Definition np_min (l : list Q) : outcome Q :=
  match l with
  | [] => Raises ValueError
  | x :: l => Returns (fold_left Qmin l x)
  end.

(** Lines 199-200: the best distance of [enc] to the enrolled set. *)
Definition best_distance (known : list Encoding) (enc : Encoding) : outcome Q :=
  np_min (distances known enc).

(** Lines 197-204: encode the face, compare the best distance with the
    tolerance; no encoding means not authorized. *)
Definition identify (ALLOWED_TOLERANCE : Q) (known : list Encoding)
    (rgb : Image) (locs : list Location) : Prog bool :=
  encs ← call EvFaceEncodings (face_encodings rgb locs);
  match encs with
  | enc :: _ =>
      best ← eval (best_distance known enc);
      log (MBestDistance best);;
      mret (best <=? ALLOWED_TOLERANCE)%Q
  | [] =>
      log MNoEncoding;;
      mret false
  end.

End Locator.

(** ** Shapes

    [np.array(encodings)] is a matrix when the encodings have one
    length, and [known - enc] subtracts row by row when [enc] has that
    length too.  [row_sub] is the subtraction of rows of equal length;
    [shaped d] says that rows have the length [d], and an [Encoder d] is
    an encoder whose encodings have [d] numbers (128 for
    [face_recognition]). *)

Definition shaped (d : nat) (encs : list Encoding) : Prop :=
  Forall (fun enc => length enc = d) encs.

Class Encoder (d : nat) `{Vision} : Prop :=
  encoder_dim : forall img locs encs, face_encodings img locs = Returns encs -> shaped d encs.

(** ** Lemmas *)

Section Frames.
Implicit Types (img : Image).

(** Reversing the channels is what the colour conversion does. *)
Lemma cvtColor_is_reverse img : cvtColor_BGR2RGB img = reverse_channels img.
Proof. done. Qed.

Lemma reverse_channels_involutive img : reverse_channels (reverse_channels img) = img.
Proof.
  unfold reverse_channels. rewrite <- list_fmap_compose.
  rewrite <- (list_fmap_id img) at 2. apply list_fmap_ext. intros _ row _.
  simpl. rewrite <- list_fmap_compose.
  rewrite <- (list_fmap_id row) at 2. apply list_fmap_ext. by intros _ [[??]?] _.
Qed.

Lemma reverse_channels_shape img :
  length (reverse_channels img) = length img /\
  Forall2 (fun r r' => length r = length r') (reverse_channels img) img.
Proof.
  split; [apply length_map|]. unfold reverse_channels.
  induction img as [|row img IH]; constructor; [apply length_map | done].
Qed.
End Frames.

Section Minimum.
Implicit Types (l : list Q) (x y : Q).

Lemma fold_Qmin_le l x : (fold_left Qmin l x <= x)%Q.
Proof.
  revert x. induction l as [|y l IH]; intros x; simpl; [apply Qle_refl|].
  eapply Qle_trans; [apply IH | apply Q.le_min_l].
Qed.

Lemma fold_Qmin_lower l x : Forall (fun y => (fold_left Qmin l x <= y)%Q) l.
Proof.
  revert x. induction l as [|y l IH]; intros x; simpl; constructor.
  - eapply Qle_trans; [apply fold_Qmin_le | apply Q.le_min_r].
  - apply IH.
Qed.

Lemma fold_Qmin_In l x : fold_left Qmin l x ∈ x :: l.
Proof.
  revert x. induction l as [|y l IH]; intros x; simpl; [by left|].
  specialize (IH (Qmin x y)). apply elem_of_cons in IH as [->|?].
  - unfold Qmin, GenericMinMax.gmin. destruct (x ?= y)%Q; [left|left|right; left].
  - by do 2 right.
Qed.

(** [np_min] fails on the empty list only. *)
Lemma np_min_returns l : l <> [] -> exists m, np_min l = Returns m.
Proof. destruct l; [done | eauto]. Qed.

(** What [np_min] returns is an element of the list, below all of
    them. *)
Lemma np_min_spec l m :
  np_min l = Returns m -> m ∈ l /\ Forall (fun y => (m <= y)%Q) l.
Proof.
  destruct l as [|x l]; [done|]. intros [= <-]. split; [apply fold_Qmin_In|].
  constructor; [apply fold_Qmin_le | apply fold_Qmin_lower].
Qed.
End Minimum.

Section Rows.
Implicit Types (k enc : Encoding) (known : list Encoding).

Lemma row_sub_length k enc : length (row_sub k enc) = (length k `min` length enc)%nat.
Proof. apply length_zip_with. Qed.

(** Against a matrix of [d] columns a row of [d] numbers loses
    nothing in the subtraction. *)
Lemma row_sub_shaped d known enc :
  shaped d known -> length enc = d -> shaped d ((fun k => row_sub k enc) <$> known).
Proof.
  intros Hk He. apply Forall_fmap. eapply Forall_impl; [exact Hk|].
  intros k Hl. simpl. rewrite row_sub_length, Hl, He. apply Nat.min_id.
Qed.
End Rows.

(** ** The locator and the matcher *)

Section Capabilities.
Context `{Vision}.
Implicit Types (rgb : Image) (locs : list Location) (known : list Encoding) (enc : Encoding).

(** What [detect_faces_rgb] does, by the answer of the HOG detector:
    the CNN detector runs only when HOG found nothing and the fallback
    is on, once, with one upsampling, and its answer replaces the empty
    one. *)
Lemma detect_faces_rgb_cases up fallback rgb :
  detect_faces_rgb up fallback rgb =
  match face_locations rgb up HOG with
  | Returns [] =>
      if fallback
      then ([EvFaceLocations HOG up; EvFaceLocations CNN 1], face_locations rgb 1 CNN)
      else ([EvFaceLocations HOG up], Returns [])
  | Returns locs => ([EvFaceLocations HOG up], Returns locs)
  | Raises e => ([EvFaceLocations HOG up], Raises e)
  end.
Proof.
  unfold detect_faces_rgb. destruct (face_locations rgb up HOG) as [[|l locs]|e]; [|done..].
  by destruct fallback.
Qed.

(** C34. The CNN detector is the fallback and nothing else: it runs
    exactly when the HOG detector returned no face and the fallback is
    switched on, after HOG, once; what the locator returns is then the
    answer of CNN, and otherwise the answer of HOG. *)
Theorem detect_faces_rgb_fallback up fallback rgb :
  let t := trace_of (detect_faces_rgb up fallback rgb) in
  let uses_cnn := bool_decide (face_locations rgb up HOG = Returns []) && fallback in
  t = EvFaceLocations HOG up :: (if uses_cnn then [EvFaceLocations CNN 1] else []) /\
  result_of (detect_faces_rgb up fallback rgb)
  = if uses_cnn then face_locations rgb 1 CNN else face_locations rgb up HOG.
Proof.
  rewrite detect_faces_rgb_cases.
  destruct (face_locations rgb up HOG) as [[|l locs]|e]; [by destruct fallback|done..].
Qed.

(** The best distance is within the tolerance exactly when some enrolled
    encoding is. *)
Lemma best_distance_le known enc best tol :
  best_distance known enc = Returns best ->
  (best <= tol)%Q <-> exists k, k ∈ known /\ (norm (row_sub k enc) <= tol)%Q.
Proof.
  intros [Hin Hlow]%np_min_spec. unfold distances in *. split.
  - intros Hle. apply list_elem_of_fmap in Hin as (k & -> & Hk). eauto.
  - intros (k & Hk & Hle). eapply Qle_trans; [|exact Hle].
    rewrite Forall_forall in Hlow. apply Hlow.
    by apply (list_elem_of_fmap_2 (fun k => norm (row_sub k enc))).
Qed.

(** With an enrolled encoding the best distance exists. *)
Lemma best_distance_returns known enc :
  known <> [] -> exists best, best_distance known enc = Returns best.
Proof. intros Hk. apply np_min_returns. unfold distances. by destruct known. Qed.

Lemma identify_cases tol known rgb locs :
  identify tol known rgb locs =
  match face_encodings rgb locs with
  | Returns (enc :: _) =>
      match best_distance known enc with
      | Returns best =>
          (EvFaceEncodings :: logs (MBestDistance best), Returns (best <=? tol)%Q)
      | Raises e => ([EvFaceEncodings], Raises e)
      end
  | Returns [] => (EvFaceEncodings :: logs MNoEncoding, Returns false)
  | Raises e => ([EvFaceEncodings], Raises e)
  end.
Proof.
  unfold identify. destruct (face_encodings rgb locs) as [[|enc encs]|e]; [done| |done].
  unfold call, eval. rewrite bind_returns. by destruct (best_distance known enc).
Qed.

(** The locator raises only what a detector raised. *)
Lemma detect_faces_rgb_raises up fallback rgb e :
  result_of (detect_faces_rgb up fallback rgb) = Raises e ->
  exists up' model, face_locations rgb up' model = Raises e.
Proof.
  rewrite detect_faces_rgb_cases.
  destruct (face_locations rgb up HOG) as [[|l locs]|e'] eqn:Hhog; [|done|].
  - destruct fallback; [|done]. cbn. eauto.
  - intros [= <-]. eauto.
Qed.

(** Against a non-empty enrolled set the matcher raises only what the
    encoder raised: the minimum exists. *)
Lemma identify_raises tol known rgb locs e :
  known <> [] ->
  result_of (identify tol known rgb locs) = Raises e -> face_encodings rgb locs = Raises e.
Proof.
  intros Hk. rewrite identify_cases.
  destruct (face_encodings rgb locs) as [[|enc encs]|e']; [done| |by intros [= <-]].
  by destruct (best_distance_returns known enc Hk) as [best ->].
Qed.

(** The matcher accepts a face exactly when the encoder returns an
    encoding whose first one lies within the tolerance of an enrolled
    encoding. *)
Lemma identify_true_iff tol known rgb locs :
  known <> [] ->
  result_of (identify tol known rgb locs) = Returns true <->
  exists enc encs k, face_encodings rgb locs = Returns (enc :: encs) /\
                     k ∈ known /\ (norm (row_sub k enc) <= tol)%Q.
Proof.
  intros Hk. rewrite identify_cases.
  destruct (face_encodings rgb locs) as [[|enc encs]|e]; simpl.
  - split; [done | by intros (? & ? & ? & [=] & _)].
  - destruct (best_distance_returns known enc Hk) as [best Hb]. rewrite Hb. simpl.
    split.
    + intros [= Hle%Qle_bool_true]. apply (best_distance_le _ _ _ _ Hb) in Hle as (k & ? & ?).
      by exists enc, encs, k.
    + intros (enc' & encs' & k & [= <- <-] & Hin & Hle). f_equal.
      apply Qle_bool_true, (best_distance_le _ _ _ _ Hb). eauto.
  - split; [done | by intros (? & ? & ? & [=] & _)].
Qed.

(** The matcher is monotone: a face it accepts is accepted under every
    larger tolerance and with every larger enrolled set. *)
Lemma identify_monotone tol tol' known known' rgb locs :
  known <> [] -> (tol <= tol')%Q -> known ⊆ known' ->
  result_of (identify tol known rgb locs) = Returns true ->
  result_of (identify tol' known' rgb locs) = Returns true.
Proof.
  intros Hk Htol Hsub (enc & encs & k & He & Hin & Hle)%identify_true_iff; [|done].
  apply identify_true_iff; [intros ->; apply (not_elem_of_nil k); by apply Hsub|].
  exists enc, encs, k. split_and!; [done | by apply Hsub | by eapply Qle_trans].
Qed.
End Capabilities.
