(* ===== verification/Enrollment.v ===== *)
(** * Enrollment store: [load_known_encodings]

    Both scripts build the set of enrolled encodings at startup from the
    image files of a directory (src/presence_guard.py:98-115,
    src/face_detect.py:38-53).  Each file is loaded, searched for faces
    with the HOG detector and encoded; its first encoding joins the set.
    A file that cannot be loaded, shows no face or cannot be encoded is
    skipped and the loop goes on.

    The file system is the record [Files]: the answers of
    [os.path.isdir], [glob.glob], [os.path.isfile] and
    [face_recognition.load_image_file].  The detector and the encoder
    are the capabilities of [Vision].

    The two loaders share the loop [for_files] and differ in its body,
    [PresenceGuard.enroll] and [FaceDetect.enroll].  [EnrollBody] is
    what the loop needs of a body; [verdict] and [enrolled] say which
    encodings a directory holds. *)

From Stdlib Require Import Ascii.
From S2P Require Import Prelude Effects Vision.

(** ** The file system *)

Record Files : Type := {
  (** [os.path.isdir(path)] *)
  isdir : string -> bool;
  (** [glob.glob(os.path.join(enroll_dir, "*"))] *)
  glob : string -> list string;
  (** [os.path.isfile(path)] *)
  isfile : string -> bool;
  (** [face_recognition.load_image_file(path)] *)
  load_image_file : string -> outcome Image
}.

(** [os.path.basename(path)]: what follows the last separator.
    [basename_from acc p] is the base name of a path that ends with [p],
    [acc] being what follows the last separator seen so far. *)
Fixpoint basename_from (acc p : string) : string :=
  match p with
  | EmptyString => acc
  | String c p' =>
      if Ascii.eqb c "/"%char then basename_from p' p' else basename_from acc p'
  end.

Definition basename (p : string) : string := basename_from p p.

(** ** The loop of both loaders

    [encodings = []; for f in files: <body>] where the body appends to
    [encodings]: the list is threaded through the turns. *)
Fixpoint for_files (body : string -> list Encoding -> Prog (list Encoding))
    (files : list string) (encodings : list Encoding) : Prog (list Encoding) :=
  match files with
  | [] => mret encodings
  | f :: files =>
      encodings ← body f encodings;
      for_files body files encodings
  end.

(** [enc[0]]: indexing an empty list raises [IndexError]. *)
Definition first {A} (l : list A) : outcome A :=
  match l with
  | x :: _ => Returns x
  | [] => Raises IndexError
  end.

(** ** src/presence_guard.py *)

Module PresenceGuard.
Section Loader.
Context `{Vision} (fs : Files).

(** The [try] statement of lines 102-114. *)
Definition enroll (f : string) (encodings : list Encoding) : Prog (list Encoding) :=
  try_except
    (img ← call (EvLoadImage f) (load_image_file fs f);
     locs ← call (EvFaceLocations HOG 1) (face_locations img 1 HOG);
     if bool_decide (locs = []) then
       log (MNoFaceInEnroll f);;
       mret encodings
     else
       enc ← call EvFaceEncodings (face_encodings img locs);
       match enc with
       | enc0 :: _ =>
           log (MLoadedEnroll (basename f));;
           mret (encodings ++ [enc0])
       | [] => mret encodings
       end)
    (except_Exception (fun e => log (MErrorLoading f e);; mret encodings)).

(** [load_known_encodings(enroll_dir)], lines 98-115: [None] when no
    encoding was loaded. *)
Definition load_known_encodings (enroll_dir : string) : Prog (option (list Encoding)) :=
  let files := filter (fun p => isfile fs p = true) (glob fs enroll_dir) in
  encodings ← for_files enroll files [];
  mret (match encodings with [] => None | _ => Some encodings end).

End Loader.
End PresenceGuard.

(** ** src/face_detect.py *)

Module FaceDetect.
Section Loader.
Context `{Vision} (fs : Files).

(** The [try] statement of lines 42-52.  [model="hog"] with the default
    [number_of_times_to_upsample], which is 1. *)
Definition enroll (f : string) (encodings : list Encoding) : Prog (list Encoding) :=
  try_except
    (img ← call (EvLoadImage f) (load_image_file fs f);
     face_locs ← call (EvFaceLocations HOG 1) (face_locations img 1 HOG);
     if bool_decide (face_locs = []) then
       log (MNoFaceInEnroll f);;
       mret encodings
     else
       encs ← call EvFaceEncodings (face_encodings img face_locs);
       enc ← eval (first encs);
       log (MLoadedEnroll (basename f));;
       mret (encodings ++ [enc]))
    (except_Exception (fun e => log (MErrorLoading f e);; mret encodings)).

(** [load_known_encodings(enroll_dir)], lines 38-53. *)
Definition load_known_encodings (enroll_dir : string) : Prog (list Encoding) :=
  let files := glob fs enroll_dir in
  for_files enroll files [].

End Loader.
End FaceDetect.

(** ** What a directory holds

    The specification: a file contributes its first encoding when it
    loads, shows a face and can be encoded; a failure of a capability on
    a file ([Exception]) makes the file contribute nothing; an interrupt
    ends the enrollment. *)

(** [absorb o]: the answer of a capability with its failures mapped to
    "nothing". *)
Definition absorb {A} (o : outcome A) : outcome (option A) :=
  match o with
  | Returns a => Returns (Some a)
  | Raises e => if is_Exception e then Returns None else Raises e
  end.

Section Spec.
Context `{Vision} (fs : Files).

(** The encoding a file contributes. *)
Definition verdict (f : string) : outcome (option Encoding) :=
  match absorb (load_image_file fs f) with
  | Returns (Some img) =>
      match absorb (face_locations img 1 HOG) with
      | Returns (Some (loc :: locs)) =>
          match absorb (face_encodings img (loc :: locs)) with
          | Returns (Some (enc0 :: _)) => Returns (Some enc0)
          | Returns _ => Returns None
          | Raises e => Raises e
          end
      | Returns _ => Returns None
      | Raises e => Raises e
      end
  | Returns None => Returns None
  | Raises e => Raises e
  end.

(** [encodings.append(enc[0])], when the file has an encoding. *)
Definition extend (encs : list Encoding) (v : option Encoding) : list Encoding :=
  match v with
  | Some enc => encs ++ [enc]
  | None => encs
  end.

(** The encodings of the files, in their order, up to the first
    interrupt. *)
Fixpoint enrolled (files : list string) : outcome (list Encoding) :=
  match files with
  | [] => Returns []
  | f :: files =>
      match verdict f with
      | Returns v =>
          match enrolled files with
          | Returns encs => Returns (option_list v ++ encs)
          | Raises e => Raises e
          end
      | Raises e => Raises e
      end
  end.

(** The line that reports an enrolled encoding. *)
Definition is_loaded (ev : Event) : bool :=
  match ev with
  | EvLog (MLoadedEnroll _) => true
  | _ => false
  end.

(** The lines that report a file that was skipped. *)
Definition is_skipped (ev : Event) : bool :=
  match ev with
  | EvLog (MNoFaceInEnroll _) | EvLog (MErrorLoading _ _) => true
  | _ => false
  end.

(** The events of the enrollment: files, detector, encoder and log. *)
Definition is_enroll_event (ev : Event) : bool :=
  match ev with
  | EvLoadImage _ | EvFaceLocations HOG 1 | EvFaceEncodings => true
  | EvLog (MNoFaceInEnroll _) | EvLog (MLoadedEnroll _) | EvLog (MErrorLoading _ _)
  | EvAppend (MNoFaceInEnroll _) | EvAppend (MLoadedEnroll _) | EvAppend (MErrorLoading _ _) => true
  | _ => false
  end.

(** [reads_only f ev]: if [ev] loads an image, the image is the file
    [f]. *)
Definition reads_only (f : string) (ev : Event) : bool :=
  match ev with
  | EvLoadImage g => bool_decide (g = f)
  | _ => true
  end.

(** What the loop needs of its body: the result is the verdict of the
    file appended to the list, one "Loaded" line is logged exactly when
    an encoding is appended, and the events are those of the enrollment. *)
Class EnrollBody (body : string -> list Encoding -> Prog (list Encoding)) : Prop := {
  body_result f encs :
    result_of (body f encs) =
    match verdict f with
    | Returns v => Returns (extend encs v)
    | Raises e => Raises e
    end;
  body_loaded f encs v :
    verdict f = Returns v ->
    count_b is_loaded (trace_of (body f encs)) = length (option_list v);
  body_footprint f encs :
    Forall (fun ev => is_enroll_event ev = true) (trace_of (body f encs));
  body_loads f encs :
    hd_error (trace_of (body f encs)) = Some (EvLoadImage f);
  body_file f encs :
    Forall (fun ev => reads_only f ev = true) (trace_of (body f encs))
}.

End Spec.

(** ** Lemmas *)

(** [basename] computes. *)
Example basename_example :
  basename "/home/u/.face_enroll/me.jpg" = "me.jpg"%string /\
  basename "me.jpg" = "me.jpg"%string /\
  basename "dir/" = EmptyString.
Proof. by vm_compute. Qed.

Lemma basename_from_suffix acc p q :
  (exists d, q = d +:+ acc)%string -> (exists d, q = d +:+ p)%string ->
  exists d, (q = d +:+ basename_from acc p)%string.
Proof.
  revert acc q. induction p as [|c p IH]; intros acc q Hacc Hp; simpl; [done|].
  assert (exists d, q = d +:+ p)%string as Hp'.
  { destruct Hp as [d ->]. exists (d +:+ String c EmptyString)%string.
    clear. induction d as [|a d IHd]; [done|].
    change (String a (d +:+ String c p) = String a ((d +:+ String c EmptyString) +:+ p))%string.
    by f_equal. }
  destruct (Ascii.eqb c "/"%char); by apply IH.
Qed.

(** The base name is a suffix of the path. *)
Lemma basename_suffix p : exists d, (p = d +:+ basename p)%string.
Proof. apply basename_from_suffix; by exists EmptyString. Qed.

Section Bodies.
Context `{Vision} (fs : Files).
Implicit Types (f : string) (encs : list Encoding).

(** [caught e tac]: the handler of a body on the exception [e]. *)
Ltac caught e tac :=
  unfold try_except, except_Exception; cbn; destruct (is_Exception e); cbn; tac.

(** [enroll_cases f tac]: run a body on every answer of the file
    system, the detector and the encoder, and close each case with
    [tac]. *)
Ltac enroll_cases f tac :=
  try unfold verdict, absorb;
  let e := fresh "e" in
  destruct (load_image_file fs f) as [img|e]; [cbn|caught e tac];
  destruct (face_locations img 1 HOG) as [[|loc locs]|e]; [cbn; tac | cbn | caught e tac];
  destruct (face_encodings img (loc :: locs)) as [[|enc0 encs']|e];
    [cbn; tac | cbn; tac | caught e tac].

Ltac by_eq := intros; by simplify_eq.

#[export] Instance PresenceGuard_body : EnrollBody fs (PresenceGuard.enroll fs).
Proof.
  split; intros f encs; unfold PresenceGuard.enroll.
  - enroll_cases f by_eq.
  - intros v. enroll_cases f by_eq.
  - enroll_cases f ltac:(by repeat constructor).
  - enroll_cases f by_eq.
  - enroll_cases f ltac:(repeat constructor; try done; by apply bool_decide_eq_true_2).
Qed.

#[export] Instance FaceDetect_body : EnrollBody fs (FaceDetect.enroll fs).
Proof.
  split; intros f encs; unfold FaceDetect.enroll.
  - enroll_cases f by_eq.
  - intros v. enroll_cases f by_eq.
  - enroll_cases f ltac:(by repeat constructor).
  - enroll_cases f by_eq.
  - enroll_cases f ltac:(repeat constructor; try done; by apply bool_decide_eq_true_2).
Qed.
End Bodies.

(** ** What a directory holds: facts on [verdict] and [enrolled] *)

Section Verdict.
Context `{Vision} (fs : Files).
Implicit Types (f : string) (files : list string) (encs l : list Encoding) (e : exn).

Lemma absorb_raises {A} (o : outcome A) e :
  absorb o = Raises e -> o = Raises e /\ is_Exception e = false.
Proof. destruct o as [a|e']; [done|]. simpl. destruct (is_Exception e') eqn:?; naive_solver. Qed.

(** Only an interrupt ends the examination of a file. *)
Lemma verdict_raises f e : verdict fs f = Raises e -> is_Exception e = false.
Proof.
  unfold verdict. repeat case_match; try done; intros [= <-];
    match goal with Hr : absorb _ = Raises _ |- _ => by apply absorb_raises in Hr as [_ ?] end.
Qed.

(** A file contributes [enc] exactly when it loads, shows a face and
    [enc] is its first encoding. *)
Lemma verdict_some f enc :
  verdict fs f = Returns (Some enc) <->
  exists img loc locs encs',
    load_image_file fs f = Returns img /\
    face_locations img 1 HOG = Returns (loc :: locs) /\
    face_encodings img (loc :: locs) = Returns (enc :: encs').
Proof.
  unfold verdict, absorb. split.
  - destruct (load_image_file fs f) as [img|e]; [|by destruct (is_Exception e)].
    destruct (face_locations img 1 HOG) as [[|loc locs]|e] eqn:Hl;
      [done| |by destruct (is_Exception e)].
    destruct (face_encodings img (loc :: locs)) as [[|enc0 encs']|e] eqn:He;
      [done| |by destruct (is_Exception e)].
    intros [= ->]. by exists img, loc, locs, encs'.
  - intros (img & loc & locs & encs' & Hi & Hl & He).
    rewrite Hi; cbn. rewrite Hl; cbn. by rewrite He.
Qed.

Lemma enrolled_raises files e : enrolled fs files = Raises e -> is_Exception e = false.
Proof.
  induction files as [|f files IH]; [done|]. simpl.
  destruct (verdict fs f) as [v|e'] eqn:Hv; [|intros [= <-]; by eapply verdict_raises].
  destruct (enrolled fs files); [done | intros [= <-]; by apply IH].
Qed.

(** Without an interrupt the enrolled encodings are those of the files
    that have one, in the order of the files. *)
Lemma enrolled_returns files :
  Forall (fun f => returned (verdict fs f) = true) files ->
  enrolled fs files
  = Returns (omap (fun f => match verdict fs f with Returns v => v | Raises _ => None end) files).
Proof.
  induction 1 as [|f files Hf _ IH]; [done|]. simpl. rewrite IH.
  destruct (verdict fs f) as [[enc|]|e]; done.
Qed.

(** At most one encoding per file. *)
Lemma enrolled_length files l : enrolled fs files = Returns l -> (length l <= length files)%nat.
Proof.
  revert l. induction files as [|f files IH]; intros l; simpl; [by intros [= <-]|].
  destruct (verdict fs f) as [v|e]; [|done]. destruct (enrolled fs files) as [l'|e]; [|done].
  intros [= <-]. specialize (IH l' eq_refl). rewrite length_app. destruct v; simpl; lia.
Qed.
End Verdict.

(** ** The shape of the enrolled set *)

Section Shapes.
Context `{Vision} (d : nat) `{!Encoder d} (fs : Files).
Implicit Types (f : string) (files : list string) (enc : Encoding).

Lemma verdict_shaped f enc : verdict fs f = Returns (Some enc) -> length enc = d.
Proof.
  intros (img & loc & locs & encs' & _ & _ & He)%verdict_some.
  apply encoder_dim in He. by apply Forall_cons in He as [? _].
Qed.

(** With an encoder of dimension [d] the enrolled set is a matrix of
    [d] columns. *)
Lemma enrolled_shaped files known : enrolled fs files = Returns known -> shaped d known.
Proof.
  revert known. induction files as [|f files IH]; intros known; simpl.
  { intros [= <-]. constructor. }
  destruct (verdict fs f) as [v|e] eqn:Hv; [|done].
  destruct (enrolled fs files) as [encs|e]; [|done]. intros [= <-].
  apply Forall_app. split; [|by apply IH].
  destruct v as [enc|]; repeat constructor. by eapply verdict_shaped.
Qed.
End Shapes.

(** ** The loop, for every body *)

Section Loop.
Context `{Vision} (fs : Files).
Context (body : string -> list Encoding -> Prog (list Encoding)) `{!EnrollBody fs body}.
Implicit Types (f : string) (files : list string) (encs l : list Encoding).

(** The loop appends the enrolled encodings of the files to its list. *)
Lemma for_files_result files encs :
  result_of (for_files body files encs) =
  match enrolled fs files with
  | Returns l => Returns (encs ++ l)
  | Raises e => Raises e
  end.
Proof.
  revert encs. induction files as [|f files IH]; intros encs; cbn [for_files enrolled].
  - by rewrite result_mret, app_nil_r.
  - rewrite result_bind, (body_result fs). destruct (verdict fs f) as [v|e]; [|done].
    rewrite IH. destruct (enrolled fs files) as [l|e]; [|done].
    f_equal. destruct v; simpl; by rewrite <- ?app_assoc.
Qed.

(** One "Loaded" line per enrolled encoding. *)
Lemma for_files_loaded files encs l :
  enrolled fs files = Returns l ->
  count_b is_loaded (trace_of (for_files body files encs)) = length l.
Proof.
  revert encs l. induction files as [|f files IH]; intros encs l; cbn [for_files enrolled].
  - by intros [= <-].
  - destruct (verdict fs f) as [v|e] eqn:Hv; [|done].
    destruct (enrolled fs files) as [l'|e] eqn:Hl; [|done]. intros [= <-].
    rewrite trace_bind, count_b_app, (body_result fs), Hv, (body_loaded fs _ _ _ Hv), (IH _ l') by done.
    by rewrite length_app.
Qed.

(** The loop touches the files, the detector, the encoder and the log. *)
Lemma for_files_footprint files encs :
  Forall (fun ev => is_enroll_event ev = true) (trace_of (for_files body files encs)).
Proof.
  revert encs. induction files as [|f files IH]; intros encs; cbn [for_files].
  - constructor.
  - apply trace_bind_Forall; [apply (body_footprint fs) | intros ? _; apply IH].
Qed.

(** The loop loads no image but the files it is given. *)
Lemma for_files_reads files encs :
  Forall (fun ev => match ev with EvLoadImage g => g ∈ files | _ => True end)
    (trace_of (for_files body files encs)).
Proof.
  revert encs. induction files as [|f files IH]; intros encs; cbn [for_files].
  - constructor.
  - apply trace_bind_Forall.
    + eapply Forall_impl; [apply (body_file fs)|]. intros [] Hev; try done.
      apply bool_decide_eq_true in Hev as ->. by left.
    + intros encs' _. eapply Forall_impl; [apply IH|]. intros []; try done. by right.
Qed.
End Loop.

(** ** The loaders of the two scripts *)

(** [np.array(encodings) if encodings else None]. *)
Definition array_or_None (encodings : list Encoding) : option (list Encoding) :=
  match encodings with
  | [] => None
  | _ => Some encodings
  end.

Section Loaders.
Context `{Vision} (fs : Files).
Implicit Types (dir f : string) (files : list string) (encs l : list Encoding).

(** The files the loader of src/presence_guard.py examines. *)
Definition regular_files dir : list string :=
  filter (fun p => isfile fs p = true) (glob fs dir).

Lemma load_known_encodings_eq dir :
  PresenceGuard.load_known_encodings fs dir
  = (for_files (PresenceGuard.enroll fs) (regular_files dir) [] ≫= fun encs =>
     mret (array_or_None encs)).
Proof. done. Qed.

(** The result of the loader of src/presence_guard.py. *)
Lemma load_known_encodings_result dir :
  result_of (PresenceGuard.load_known_encodings fs dir) =
  match enrolled fs (regular_files dir) with
  | Returns l => Returns (array_or_None l)
  | Raises e => Raises e
  end.
Proof.
  rewrite load_known_encodings_eq, result_bind, (for_files_result fs _).
  by destruct (enrolled fs (regular_files dir)).
Qed.

Lemma load_known_encodings_footprint dir :
  Forall (fun ev => is_enroll_event ev = true)
    (trace_of (PresenceGuard.load_known_encodings fs dir)).
Proof. rewrite load_known_encodings_eq, trace_bind_pure. apply (for_files_footprint fs _). Qed.

(** The loader loads the regular files of the directory and no other
    image. *)
Lemma load_known_encodings_reads dir :
  Forall (fun ev => match ev with EvLoadImage g => g ∈ regular_files dir | _ => True end)
    (trace_of (PresenceGuard.load_known_encodings fs dir)).
Proof. rewrite load_known_encodings_eq, trace_bind_pure. apply (for_files_reads fs _). Qed.

Lemma face_detect_load_known_encodings_result dir :
  result_of (FaceDetect.load_known_encodings fs dir) = enrolled fs (glob fs dir).
Proof.
  unfold FaceDetect.load_known_encodings. rewrite (for_files_result fs _).
  by destruct (enrolled fs (glob fs dir)).
Qed.

(** C28. The loader of src/presence_guard.py returns the enrolled
    encodings of the regular files of the directory, in the order of
    [glob], [None] when there is none, and raises only what interrupted
    a capability; it logs one "Loaded enrollment face" line per encoding
    it returns; it touches nothing but the files, the detector, the
    encoder and the log. *)
Theorem load_known_encodings_enrolled dir :
  let load := PresenceGuard.load_known_encodings fs dir in
  result_of load = match enrolled fs (regular_files dir) with
                   | Returns l => Returns (array_or_None l)
                   | Raises e => Raises e
                   end /\
  (forall known, result_of load = Returns known ->
                 count_b is_loaded (trace_of load) = length (default [] known)) /\
  Forall (fun ev => is_enroll_event ev = true) (trace_of load).
Proof.
  split_and!; [apply load_known_encodings_result | | apply load_known_encodings_footprint].
  intros known. rewrite load_known_encodings_result, load_known_encodings_eq, trace_bind_pure.
  destruct (enrolled fs (regular_files dir)) as [l|e] eqn:Hl; [|done]. intros [= <-].
  rewrite (for_files_loaded fs _ _ _ l Hl). by destruct l.
Qed.

(** The loader of src/face_detect.py returns the enrolled encodings
    of every path of the directory, in the order of [glob], and logs one
    "Loaded enrollment face" line per encoding it returns. *)
Theorem face_detect_load_known_encodings_enrolled dir :
  let load := FaceDetect.load_known_encodings fs dir in
  result_of load = enrolled fs (glob fs dir) /\
  (forall known, result_of load = Returns known ->
                 count_b is_loaded (trace_of load) = length known).
Proof.
  split; [apply face_detect_load_known_encodings_result|].
  intros known. rewrite face_detect_load_known_encodings_result. intros Hl.
  by apply (for_files_loaded fs _).
Qed.

(** No failure of the file system, the detector or the encoder on
    an enrollment file escapes either loader: what a loader raises is an
    interrupt. *)
Theorem load_known_encodings_contains_exceptions dir e :
  result_of (PresenceGuard.load_known_encodings fs dir) = Raises e \/
  result_of (FaceDetect.load_known_encodings fs dir) = Raises e ->
  is_Exception e = false.
Proof.
  rewrite load_known_encodings_result, face_detect_load_known_encodings_result.
  intros [Hr|Hr]; [|by eapply enrolled_raises].
  destruct (enrolled fs (regular_files dir)) eqn:Hl; [done|].
  injection Hr as ->. by eapply enrolled_raises.
Qed.

(** On a directory that holds regular files only, the two loaders
    enroll the same encodings. *)
Theorem loaders_agree dir :
  Forall (fun p => isfile fs p = true) (glob fs dir) ->
  result_of (PresenceGuard.load_known_encodings fs dir) =
  match result_of (FaceDetect.load_known_encodings fs dir) with
  | Returns l => Returns (array_or_None l)
  | Raises e => Raises e
  end.
Proof.
  intros Hfiles.
  rewrite load_known_encodings_result, face_detect_load_known_encodings_result.
  unfold regular_files. replace (filter _ (glob fs dir)) with (glob fs dir); [done|].
  symmetry. induction Hfiles as [|p ps Hp _ IH]; [done|].
  by rewrite filter_cons_True, IH.
Qed.

(** A face that cannot be encoded is dropped in silence by
    src/presence_guard.py and reported by src/face_detect.py: when the
    detector finds a face in the image and the encoder returns no
    encoding, the first logs nothing for the file and the second logs
    "Error loading" with the [IndexError] of [enc[0]]. *)
Theorem enroll_unencodable f img loc locs encs :
  load_image_file fs f = Returns img ->
  face_locations img 1 HOG = Returns (loc :: locs) ->
  face_encodings img (loc :: locs) = Returns [] ->
  PresenceGuard.enroll fs f encs
  = ([EvLoadImage f; EvFaceLocations HOG 1; EvFaceEncodings], Returns encs) /\
  FaceDetect.enroll fs f encs
  = ([EvLoadImage f; EvFaceLocations HOG 1; EvFaceEncodings;
      EvLog (MErrorLoading f IndexError); EvAppend (MErrorLoading f IndexError)], Returns encs).
Proof.
  intros Hi Hl He. unfold PresenceGuard.enroll, FaceDetect.enroll.
  rewrite Hi; cbn. rewrite Hl; cbn. by rewrite He.
Qed.
End Loaders.

(** ** An example directory

    Three images, the second without a face.  The detector of the
    example finds one face in every image that has a row of pixels, and
    the encoding of an image is the first channel of its first pixel.
    A fourth image, which [glob] does not list, has a row and no pixel:
    a face that cannot be encoded. *)

Definition album_vision : Vision := {|
  face_locations := fun img _ _ => Returns (match img with [] => [] | _ => [(0, 1, 1, 0)] end);
  face_encodings := fun img _ =>
    Returns (match img with
             | ((c, _, _) :: _) :: _ => [[inject_Z c]]
             | _ => []
             end);
  norm := fun _ => 0%Q
|}.

Definition album : Files := {|
  isdir := fun d => String.eqb d "enroll";
  glob := fun _ => ["enroll/a.jpg"; "enroll/b.jpg"; "enroll/c.jpg"]%string;
  isfile := fun _ => true;
  load_image_file := fun p =>
    if String.eqb p "enroll/a.jpg" then Returns [[(1, 1, 1)]]
    else if String.eqb p "enroll/b.jpg" then Returns []
    else if String.eqb p "enroll/c.jpg" then Returns [[(2, 2, 2)]]
    else if String.eqb p "enroll/d.jpg" then Returns [[]]
    else Raises FileNotFoundError
|}.

(** The same directory, when the user interrupts the loading of the
    first image. *)
Definition album_interrupted : Files := {|
  isdir := isdir album;
  glob := glob album;
  isfile := isfile album;
  load_image_file := fun _ => Raises KeyboardInterrupt
|}.

(** Of three images of which one shows no face, the loader enrolls
    two encodings, in the order of the files, and logs one warning. *)
Example enrollment_three_images :
  PresenceGuard.load_known_encodings (H := album_vision) album "enroll"
  = ([EvLoadImage "enroll/a.jpg"; EvFaceLocations HOG 1; EvFaceEncodings;
      EvLog (MLoadedEnroll "a.jpg"); EvAppend (MLoadedEnroll "a.jpg");
      EvLoadImage "enroll/b.jpg"; EvFaceLocations HOG 1;
      EvLog (MNoFaceInEnroll "enroll/b.jpg"); EvAppend (MNoFaceInEnroll "enroll/b.jpg");
      EvLoadImage "enroll/c.jpg"; EvFaceLocations HOG 1; EvFaceEncodings;
      EvLog (MLoadedEnroll "c.jpg"); EvAppend (MLoadedEnroll "c.jpg")],
     Returns (Some [[1]; [2]]%Q)).
Proof. vm_compute. reflexivity. Qed.

Lemma load_known_encodings_contains_exceptions_witness :
  is_Exception KeyboardInterrupt = false.
Proof.
  apply (load_known_encodings_contains_exceptions (H := album_vision)
           album_interrupted "enroll" KeyboardInterrupt).
  left. vm_compute. reflexivity.
Defined.

Lemma loaders_agree_witness :
  result_of (PresenceGuard.load_known_encodings (H := album_vision) album "enroll") =
  match result_of (FaceDetect.load_known_encodings (H := album_vision) album "enroll") with
  | Returns l => Returns (array_or_None l)
  | Raises e => Raises e
  end.
Proof. apply (loaders_agree (H := album_vision) album "enroll"). by repeat constructor. Defined.

Lemma enroll_unencodable_witness :
  PresenceGuard.enroll (H := album_vision) album "enroll/d.jpg" []
  = ([EvLoadImage "enroll/d.jpg"; EvFaceLocations HOG 1; EvFaceEncodings], Returns []) /\
  FaceDetect.enroll (H := album_vision) album "enroll/d.jpg" []
  = ([EvLoadImage "enroll/d.jpg"; EvFaceLocations HOG 1; EvFaceEncodings;
      EvLog (MErrorLoading "enroll/d.jpg" IndexError);
      EvAppend (MErrorLoading "enroll/d.jpg" IndexError)], Returns []).
Proof.
  apply (enroll_unencodable (H := album_vision) album "enroll/d.jpg" [[]] (0, 1, 1, 0) []);
    vm_compute; reflexivity.
Defined.

Lemma load_known_encodings_enrolled_witness :
  let load := PresenceGuard.load_known_encodings (H := album_vision) album "enroll" in
  result_of load = Returns (Some [[1]; [2]]%Q) /\
  (forall known, result_of load = Returns known ->
                 count_b is_loaded (trace_of load) = length (default [] known)) /\
  Forall (fun ev => is_enroll_event ev = true) (trace_of load).
Proof. apply (load_known_encodings_enrolled (H := album_vision) album "enroll"). Defined.

Lemma face_detect_load_known_encodings_enrolled_witness :
  let load := FaceDetect.load_known_encodings (H := album_vision) album "enroll" in
  result_of load = Returns [[1]; [2]]%Q /\
  (forall known, result_of load = Returns known ->
                 count_b is_loaded (trace_of load) = length known).
Proof. apply (face_detect_load_known_encodings_enrolled (H := album_vision) album "enroll"). Defined.
