(* ===== verification/Gate.v ===== *)
(** * Secondary factor: [is_phone_present]

    src/presence_guard.py:43-51 asks [bluetoothctl] about the phone and
    looks for the text "Connected: yes" in what the command printed.  The
    environment is the answer of [subprocess.run] with captured output:
    the pair of [proc.stdout] and [proc.stderr] ([None] when the stream
    was not captured), or the exception it raised.

    [contains] is Python's [needle in hay] on strings; [contains_spec]
    shows it decides the existence of an occurrence. *)

From S2P Require Import Prelude Effects.

(** ** Substring test *)

(** [needle in hay]. *)
Fixpoint contains (needle hay : string) : bool :=
  String.prefix needle hay ||
  match hay with
  | EmptyString => false
  | String _ hay' => contains needle hay'
  end.

(** [s or ""] for a captured stream. *)
Definition or_empty (s : option string) : string := default ""%string s.

(** ** The gate *)

(** What [bluetoothctl info mac] answers: [(stdout, stderr)]. *)
Abbreviation Captured := (option string * option string)%type (only parsing).

Definition bluetoothctl_info (mac : string) : Cmd :=
  ["bluetoothctl"; "info"; mac]%string.

(** [is_phone_present(mac)], lines 43-51. *)
Definition is_phone_present (bt : Cmd -> outcome Captured) (mac : string) : Prog bool :=
  try_except
    (proc ← call (EvRun (bluetoothctl_info mac) 6) (bt (bluetoothctl_info mac));
     let out := (or_empty (fst proc) +:+ or_empty (snd proc))%string in
     mret (contains "Connected: yes" out))
    (except_Exception (fun e =>
       log (MBluetoothError e);;
       mret false)).

(** ** Lemmas *)

Lemma prefix_spec (p s : string) :
  String.prefix p s = true <-> exists post, s = (p +:+ post)%string.
Proof.
  revert s. induction p as [|a p IH]; intros [|b s]; simpl.
  - split; [by exists ""%string | done].
  - split; [by exists (String b s) | done].
  - split; [done | by intros [? ?]].
  - destruct (Ascii.ascii_dec a b) as [->|Hne].
    + rewrite IH. split; intros [post Hp]; exists post; [by rewrite Hp | by injection Hp].
    + split; [done | intros [post [= ? ?]]; done].
Qed.

(** [contains] decides whether [needle] occurs in [hay]. *)
Lemma contains_spec (needle hay : string) :
  contains needle hay = true <->
  exists pre post, hay = (pre +:+ needle +:+ post)%string.
Proof.
  induction hay as [|b hay IH]; cbn [contains]; rewrite orb_true_iff, prefix_spec.
  - split.
    + intros [[post ->]|[=]]. by exists ""%string, post.
    + intros ([|??] & post & Heq); [left; by exists post | done].
  - rewrite IH. split.
    + intros [[post ->]|(pre & post & ->)]; [by exists ""%string, post|].
      by exists (String b pre), post.
    + intros ([|a pre] & post & Heq); [left; by exists post|].
      right. injection Heq as -> ->. by exists pre, post.
Qed.

Section Gate.
Context (bt : Cmd -> outcome Captured) (mac : string).

(** The gate asks once and never raises an [Exception]. *)
Lemma is_phone_present_cases :
  is_phone_present bt mac =
  match bt (bluetoothctl_info mac) with
  | Returns proc =>
      ([EvRun (bluetoothctl_info mac) 6],
       Returns (contains "Connected: yes" (or_empty (fst proc) +:+ or_empty (snd proc))))
  | Raises e =>
      if is_Exception e
      then (EvRun (bluetoothctl_info mac) 6 :: logs (MBluetoothError e), Returns false)
      else ([EvRun (bluetoothctl_info mac) 6], Raises e)
  end.
Proof.
  unfold is_phone_present. destruct (bt _) as [proc|e]; [done|]. by destruct e.
Qed.

(** C32. The gate is fail-closed: [is_phone_present] says the phone is
    present exactly when [bluetoothctl] returned and the text
    "Connected: yes" occurs in what it printed on its two streams; it
    runs the command once, with a timeout of 6 seconds, and no
    [Exception] of the command escapes it. *)
Theorem is_phone_present_iff :
  (result_of (is_phone_present bt mac) = Returns true <->
   exists proc pre post,
     bt (bluetoothctl_info mac) = Returns proc /\
     (or_empty (fst proc) +:+ or_empty (snd proc)
      = pre +:+ "Connected: yes" +:+ post)%string) /\
  head (trace_of (is_phone_present bt mac)) = Some (EvRun (bluetoothctl_info mac) 6) /\
  (forall e, result_of (is_phone_present bt mac) = Raises e -> is_Exception e = false).
Proof.
  rewrite is_phone_present_cases. destruct (bt _) as [proc|e]; cbn [result_of snd].
  - split_and!; [|done..]. split.
    + intros [= (pre & post & Hc)%contains_spec]. by exists proc, pre, post.
    + intros (proc' & pre & post & [= <-] & Hc). f_equal. apply contains_spec. eauto.
  - destruct (is_Exception e) eqn:He; cbn [result_of snd]; (split_and!; [|done|]).
    + split; [done | by intros (? & ? & ? & [=] & _)].
    + done.
    + split; [done | by intros (? & ? & ? & [=] & _)].
    + by intros ? [= <-].
Qed.
End Gate.

(** The phone of the default configuration, connected. *)
Lemma is_phone_present_iff_witness :
  let bt := fun _ : Cmd =>
    Returns (Some "Device AA:BB:CC:11:22:33 Connected: yes"%string, None) in
  let mac := "AA:BB:CC:11:22:33"%string in
  (result_of (is_phone_present bt mac) = Returns true <->
   exists (proc : Captured) pre post,
     bt (bluetoothctl_info mac) = Returns proc /\
     (or_empty (fst proc) +:+ or_empty (snd proc)
      = pre +:+ "Connected: yes" +:+ post)%string) /\
  head (trace_of (is_phone_present bt mac)) = Some (EvRun (bluetoothctl_info mac) 6) /\
  (forall e, result_of (is_phone_present bt mac) = Raises e -> is_Exception e = false).
Proof. intros bt mac. apply (is_phone_present_iff bt mac). Defined.

(** The marker is looked for anywhere in the two streams joined without
    a separator: a device whose alias holds the marker passes the gate
    while it is not connected, and so does a marker that starts at the
    end of the standard output and ends on the standard error. *)
Example marker_in_alias :
  let nl := String (Ascii.ascii_of_nat 10) EmptyString in
  let info := ("Device AA:BB:CC:11:22:33" +:+ nl +:+ "Alias: Connected: yes" +:+ nl
               +:+ "Connected: no")%string in
  result_of (is_phone_present (fun _ => Returns (Some info, None)) "AA:BB:CC:11:22:33")
  = Returns true /\
  result_of (is_phone_present (fun _ => Returns (Some "Connected: "%string, Some "yes"%string))
               "AA:BB:CC:11:22:33")
  = Returns true.
Proof. by vm_compute. Qed.
