(* ===== verification/Camera.v ===== *)
(** * Frame source: [open_camera] and [latest_frame]

    [open_camera], src/presence_guard.py:70-86, probes the device of the
    configuration, or the devices 0 to 3, and returns the first capture
    that opened, configured and warmed up; the captures that did not
    open are released.  The environment is [opened], what [isOpened]
    answers for each device.

    [latest_frame], src/presence_guard.py:88-96, flushes the buffer of
    the capture with three [grab]s, retrieves a frame and falls back to
    [read] when the retrieval fails.  The environment is the answer of
    [cap.retrieve()] and of [cap.read()]: the frame when [ok] is true,
    [None] when it is false, or the exception OpenCV raised.

    A capture is identified by the index of its device.  [held i t] is
    the number of captures of device [i] that the trace [t] opened and
    did not release. *)

From S2P Require Import Prelude Effects Vision.

(** ** Opening the camera *)

(** Line 72: the devices to probe. *)
Definition indices (VIDEO_DEVICE : option Z) : list Z :=
  match VIDEO_DEVICE with
  | Some idx => [idx]
  | None => [0; 1; 2; 3]
  end.

(** [for _ in range(n): m]. *)
Fixpoint times (n : nat) (m : Prog unit) : Prog unit :=
  match n with
  | O => mret tt
  | S n => m;; times n m
  end.

(** Lines 76-82: the resolution, the buffer of one frame, and eight
    frames read and dropped. *)
Definition configure (idx FRAME_WIDTH FRAME_HEIGHT : Z) : Prog unit :=
  emit (EvSet idx CAP_PROP_FRAME_WIDTH FRAME_WIDTH);;
  emit (EvSet idx CAP_PROP_FRAME_HEIGHT FRAME_HEIGHT);;
  emit (EvSet idx CAP_PROP_BUFFERSIZE 1);;
  times 8 (emit (EvRead idx)).

(** The loop of lines 73-85 and the [return None, None] of line 86.
    The result is the index of the capture returned, which stands for
    the capture.  A [VideoCapture] object is true as a condition, so
    line 84 releases every capture that did not open. *)
Fixpoint probe (opened : Z -> bool) (FRAME_WIDTH FRAME_HEIGHT : Z)
    (indices : list Z) : Prog (option Z) :=
  match indices with
  | [] => mret None
  | idx :: indices =>
      emit (EvOpen idx);;
      ok ← call (EvIsOpened idx) (Returns (opened idx));
      if ok : bool then
        configure idx FRAME_WIDTH FRAME_HEIGHT;;
        mret (Some idx)
      else
        emit (EvRelease idx);;
        probe opened FRAME_WIDTH FRAME_HEIGHT indices
  end.

(** [open_camera()], lines 70-86. *)
Definition open_camera (opened : Z -> bool) (VIDEO_DEVICE : option Z)
    (FRAME_WIDTH FRAME_HEIGHT : Z) : Prog (option Z) :=
  probe opened FRAME_WIDTH FRAME_HEIGHT (indices VIDEO_DEVICE).

(** ** Captures held *)

Definition opens (i : Z) (ev : Event) : bool :=
  match ev with EvOpen j => bool_decide (j = i) | _ => false end.

Definition releases (i : Z) (ev : Event) : bool :=
  match ev with EvRelease j => bool_decide (j = i) | _ => false end.

(** [held i t]: the captures of device [i] opened and not released. *)
Definition held (i : Z) (t : trace) : Z :=
  Z.of_nat (count_b (opens i) t) - Z.of_nat (count_b (releases i) t).

(** [is_lifecycle ev]: a capture is created or released. *)
Definition is_lifecycle (ev : Event) : bool :=
  match ev with EvOpen _ | EvRelease _ => true | _ => false end.

(** ** Reading a frame *)

(** The answers of one capture for one turn of the loop. *)
Record Capture : Type := {
  retrieve : outcome (option Image);
  read : outcome (option Image)
}.

(** [latest_frame(cap)], lines 88-96; [cap] is the index of the device
    the capture is bound to. *)
Definition latest_frame (cap : Z) (c : Capture) : Prog (option Image) :=
  emit (EvGrab cap);;
  emit (EvGrab cap);;
  emit (EvGrab cap);;
  f ← call (EvRetrieve cap) (retrieve c);
  match f with
  | Some f => mret (Some f)
  | None => call (EvRead cap) (read c)
  end.

(** ** Lemmas *)

Section LatestFrame.
Context (cap : Z) (c : Capture).

Lemma latest_frame_result :
  result_of (latest_frame cap c) =
  match retrieve c with
  | Returns (Some f) => Returns (Some f)
  | Returns None => read c
  | Raises e => Raises e
  end.
Proof. unfold latest_frame. by destruct (retrieve c) as [[f|]|e]. Qed.

(** [latest_frame] takes the freshest frame: it drops the buffer
    with three [grab]s and retrieves; it reads exactly when the
    retrieval returned no frame; it returns the frame retrieved, else
    the answer of the read. *)
Theorem latest_frame_freshest :
  (exists t, trace_of (latest_frame cap c)
             = [EvGrab cap; EvGrab cap; EvGrab cap; EvRetrieve cap] ++ t) /\
  (EvRead cap ∈ trace_of (latest_frame cap c) <-> retrieve c = Returns None) /\
  result_of (latest_frame cap c) =
  match retrieve c with
  | Returns (Some f) => Returns (Some f)
  | Returns None => read c
  | Raises e => Raises e
  end.
Proof.
  unfold latest_frame. destruct (retrieve c) as [[f|]|e]; simpl; (split_and!; [eauto| |done]).
  all: rewrite ?elem_of_cons, ?elem_of_nil; split; try done; try tauto.
  all: intros H; repeat destruct H as [H|H]; done.
Qed.
End LatestFrame.

(** ** Lemmas on [open_camera] *)

Section Held.
Implicit Types (i : Z) (t : trace).

Lemma held_nil i : held i [] = 0.
Proof. done. Qed.

Lemma held_app i t t' : held i (t ++ t') = held i t + held i t'.
Proof. unfold held. rewrite !count_b_app. lia. Qed.

Lemma held_cons i ev t : held i (ev :: t) = held i [ev] + held i t.
Proof. apply (held_app i [ev]). Qed.

(** A trace that creates and releases no capture holds none. *)
Lemma held_quiet i t : Forall (fun ev => is_lifecycle ev = false) t -> held i t = 0.
Proof.
  induction 1 as [|ev t Hev _ IH]; [done|]. rewrite held_cons, IH.
  by destruct ev.
Qed.

(** A trace without an event of the captures of device [i] holds none
    of them. *)
Lemma held_other i t :
  Forall (fun ev => ev <> EvOpen i /\ ev <> EvRelease i) t -> held i t = 0.
Proof.
  induction 1 as [|ev t [Ho Hr] _ IH]; [done|]. rewrite held_cons, IH.
  unfold held. destruct ev; simpl; try done; case_bool_decide; simplify_eq; done.
Qed.

Lemma held_logs i m : held i (logs m) = 0.
Proof. done. Qed.

Lemma held_open i j : held i [EvOpen j] = if bool_decide (j = i) then 1 else 0.
Proof. unfold held. simpl. by case_bool_decide. Qed.

Lemma held_release i j : held i [EvRelease j] = if bool_decide (j = i) then -1 else 0.
Proof. unfold held. simpl. by case_bool_decide. Qed.
End Held.

#[export] Hint Rewrite held_nil held_app held_open held_release : guard.

Section OpenCamera.
Context (opened : Z -> bool) (w h : Z).
Implicit Types (idx i : Z) (l : list Z).

Lemma times_trace n ev : trace_of (times n (emit ev)) = replicate n ev.
Proof. induction n as [|n IH]; [done|]. cbn [times replicate]. by rewrite trace_bind, IH. Qed.

Lemma times_result n ev : result_of (times n (emit ev)) = Returns tt.
Proof. induction n as [|n IH]; [done|]. cbn [times]. by rewrite result_bind. Qed.

(** What [configure] does. *)
Lemma configure_eq idx :
  configure idx w h
  = ([EvSet idx CAP_PROP_FRAME_WIDTH w; EvSet idx CAP_PROP_FRAME_HEIGHT h;
      EvSet idx CAP_PROP_BUFFERSIZE 1] ++ replicate 8 (EvRead idx), Returns tt).
Proof. done. Qed.

(** The unfolding of [probe] on a device that opened and on one that
    did not. *)
Lemma probe_opened idx l :
  opened idx = true ->
  probe opened w h (idx :: l)
  = (EvOpen idx :: EvIsOpened idx :: trace_of (configure idx w h), Returns (Some idx)).
Proof. intros Ho. cbn [probe]. unfold call. by rewrite Ho. Qed.

Lemma probe_closed idx l :
  opened idx = false ->
  probe opened w h (idx :: l)
  = prepend [EvOpen idx; EvIsOpened idx; EvRelease idx] (probe opened w h l).
Proof. intros Ho. cbn [probe]. unfold call. rewrite Ho. by destruct (probe opened w h l). Qed.

(** [probe] returns the first device of the list that opened. *)
Lemma probe_result l : result_of (probe opened w h l) = Returns (List.find opened l).
Proof.
  induction l as [|idx l IH]; [done|]. cbn [List.find].
  destruct (opened idx) eqn:Ho; [by rewrite probe_opened | by rewrite probe_closed].
Qed.

(** The captures that did not open are released: after [probe] the one
    capture held is the one returned. *)
Lemma probe_held l i :
  held i (trace_of (probe opened w h l))
  = if bool_decide (List.find opened l = Some i) then 1 else 0.
Proof.
  induction l as [|idx l IH]; [done|]. cbn [List.find].
  destruct (opened idx) eqn:Ho.
  - rewrite probe_opened by done. cbn [trace_of fst].
    rewrite held_cons, held_open, held_quiet by by repeat constructor.
    repeat case_bool_decide; simplify_eq; done.
  - rewrite probe_closed, trace_prepend, held_app, IH by done.
    unfold held; simpl. case_bool_decide; lia.
Qed.

(** Before the capture it returns, [probe] has created and released
    the captures that did not open, which are captures of other
    devices. *)
Lemma probe_split l idx :
  List.find opened l = Some idx ->
  exists t, trace_of (probe opened w h l)
            = t ++ [EvOpen idx; EvIsOpened idx] ++ trace_of (configure idx w h) /\
            Forall (fun ev => ev <> EvOpen idx /\ ev <> EvRelease idx) t.
Proof.
  intros Hf. pose proof (find_some _ _ Hf) as [_ Hidx].
  induction l as [|j l IH]; [done|]. cbn [List.find] in Hf. destruct (opened j) eqn:Ho.
  - injection Hf as ->. rewrite probe_opened by done. by exists [].
  - destruct (IH Hf) as (t & Ht & Hother). assert (j <> idx) as Hj by congruence.
    rewrite probe_closed, trace_prepend, Ht by done.
    exists ([EvOpen j; EvIsOpened j; EvRelease j] ++ t). split; [by rewrite <- app_assoc|].
    apply Forall_app. split; [|done]. repeat constructor; congruence.
Qed.

(** [probe] creates captures, asks whether they opened, configures and
    reads the one that did and releases the others: it logs nothing,
    and runs nothing. *)
Lemma probe_footprint l :
  Forall (fun ev => match ev with
                    | EvOpen i | EvIsOpened i | EvRelease i | EvRead i | EvSet i _ _ => i ∈ l
                    | _ => False
                    end) (trace_of (probe opened w h l)).
Proof.
  induction l as [|idx l IH]; [constructor|].
  destruct (opened idx) eqn:Ho.
  - rewrite probe_opened by done. cbn. repeat constructor.
  - rewrite probe_closed, trace_prepend by done. apply Forall_app. split.
    + repeat constructor.
    + eapply Forall_impl; [exact IH|]. intros []; try done; by right.
Qed.

(** C33. [open_camera] returns the first device that opened, in the
    order of the probing: the device of the configuration, or 0 to 3.
    Every capture it created and did not return is released, and the
    capture it returns has its resolution set, a buffer of one frame and
    eight frames read. *)
Theorem open_camera_returns_first (VIDEO_DEVICE : option Z) :
  let cam := open_camera opened VIDEO_DEVICE w h in
  result_of cam = Returns (List.find opened (indices VIDEO_DEVICE)) /\
  (forall i, held i (trace_of cam)
             = if bool_decide (result_of cam = Returns (Some i)) then 1 else 0) /\
  (forall idx, result_of cam = Returns (Some idx) ->
     exists t, trace_of cam
               = t ++ [EvOpen idx; EvIsOpened idx] ++ trace_of (configure idx w h)).
Proof.
  unfold open_camera. split_and!; [apply probe_result | |].
  - intros i. rewrite probe_held, probe_result.
    repeat case_bool_decide; congruence.
  - intros idx. rewrite probe_result. intros [= Hf].
    induction (indices VIDEO_DEVICE) as [|j l IH]; [done|]. cbn [List.find] in Hf.
    destruct (opened j) eqn:Ho.
    + injection Hf as ->. rewrite probe_opened by done. by exists [].
    + destruct (IH Hf) as [t Ht]. rewrite probe_closed, trace_prepend, Ht by done.
      by eexists (_ ++ t); rewrite <- app_assoc.
Qed.
End OpenCamera.

(** The devices 0 and 1 do not open, the device 2 does. *)
Lemma open_camera_returns_first_witness :
  let cam := open_camera (fun i => bool_decide (i = 2)) None 640 480 in
  result_of cam = Returns (Some 2) /\
  (forall i, held i (trace_of cam)
             = if bool_decide (result_of cam = Returns (Some i)) then 1 else 0) /\
  (forall idx, result_of cam = Returns (Some idx) ->
     exists t, trace_of cam
               = t ++ [EvOpen idx; EvIsOpened idx] ++ trace_of (configure idx 640 480)).
Proof. exact (open_camera_returns_first (fun i => bool_decide (i = 2)) 640 480 None). Defined.
