(* ===== verification/PresenceLoop.v ===== *)
(** * The decision loop of src/presence_guard.py

    [iteration] is one turn of the [while True] of [main], lines 152-217:
    the Bluetooth gate, the frame, the detector, the decision and the
    sleeps.  [loop] runs it over a list of observations, one per turn;
    [guarded_loop] is the [try/except/finally] around the loop, lines
    151-224.

    ** State and environment

    [State] holds the two variables the loop updates, [last_seen_someone]
    and [frame_i].  [Config] holds the constants of lines 16-30 and
    [default_config] their values.  An [Obs] is what the environment
    answers during one turn: the output of [bluetoothctl], the frame of
    the capture, the clock when [datetime.now()] is read, the behaviour
    of the lock commands and of the two sleeps.  The detector and the
    encoder are the capabilities of [Vision], applied to the frame.

    The actuator is a parameter, [lock_session], with the laws of
    [LockActuator]: the theorems on the loop use the laws only, and hold
    for the [lock_session] of either script.

    ** The state machine and the first lemmas

    [Sample], [phase], [spec_lock] and [spec_seen] are the presence
    state machine of the specification.  [sense] and [react] are the two
    halves of a turn and [iteration_sense_react] shows a turn is their
    sequence.  The file ends with the lemmas on the sampling of the
    identity check ([verify]) and on the conversion of the frame
    ([to_rgb]).

    ** Bound

    The loop of the script never returns.  [loop] runs as many turns as
    it is given observations and returns the state it reached; a run that
    an exception ends is a list whose last observation raises it. *)

From S2P Require Import Prelude Effects LockActuator Vision Gate Camera.

(** ** Configuration: src/presence_guard.py:16-30 *)

Record Config : Type := {
  ENROLL_DIR : string;
  ALLOWED_TOLERANCE : Q;
  CHECK_INTERVAL : Q;
  LOCK_COOLDOWN : Q;
  ABSENCE_TIMEOUT : Q;
  USE_BLUETOOTH : bool;
  PHONE_MAC : string;
  VIDEO_DEVICE : option Z;
  FRAME_WIDTH : Z;
  FRAME_HEIGHT : Z;
  HOG_UPSAMPLE : Z;
  USE_CNN_FALLBACK : bool;
  ENCODING_EVERY_N : Z
}.

Definition default_config : Config := {|
  ENROLL_DIR := "~/.face_enroll";
  ALLOWED_TOLERANCE := 65 # 100;
  CHECK_INTERVAL := 35 # 100;
  LOCK_COOLDOWN := 4;
  ABSENCE_TIMEOUT := 6;
  USE_BLUETOOTH := false;
  PHONE_MAC := "AA:BB:CC:11:22:33";
  VIDEO_DEVICE := None;
  FRAME_WIDTH := 640;
  FRAME_HEIGHT := 480;
  HOG_UPSAMPLE := 1;
  USE_CNN_FALLBACK := true;
  ENCODING_EVERY_N := 1
|}.

(** ** State: the variables of lines 148-149 *)

Record State : Type := {
  last_seen_someone : Time;
  frame_i : Z
}.

(** ** Observations *)

Record Obs : Type := {
  (** [subprocess.run(["bluetoothctl", "info", mac], ...)] *)
  bt : Cmd -> outcome Captured;
  (** [cap.retrieve()] and [cap.read()] *)
  capture : Capture;
  (** [datetime.now()] at line 173 *)
  now : Time;
  (** [subprocess.run(cmd, check=True, timeout=5)] of the lock commands *)
  run : Cmd -> outcome unit;
  (** [time.sleep(LOCK_COOLDOWN)] *)
  cooldown : outcome unit;
  (** [time.sleep(CHECK_INTERVAL)] *)
  interval : outcome unit
}.

Section Loop.
Context `{Vision}.
Context (lock_session : (Cmd -> outcome unit) -> Prog bool).
Context (cfg : Config) (cap : Z) (known : list Encoding).

(** [lock_session(); time.sleep(LOCK_COOLDOWN)], the two statements of
    lines 156-157, 182-183, 189-190 and 213-214. *)
Definition lock_and_cool (o : Obs) : Prog unit :=
  lock_session (run o);;
  sleep (LOCK_COOLDOWN cfg) (cooldown o).

(** The condition of line 154, [USE_BLUETOOTH and not
    is_phone_present(PHONE_MAC)]: the phone is asked for only when the
    gate is on. *)
Definition phone_missing (o : Obs) : Prog bool :=
  if USE_BLUETOOTH cfg then
    present ← is_phone_present (bt o) (PHONE_MAC cfg);
    mret (negb present)
  else
    mret false.

(** Lines 176-192, the branch [n_faces != 1]. *)
Definition not_one_face (st : State) (o : Obs) (n_faces : nat) : Prog unit :=
  (if bool_decide (n_faces = 0%nat) then
     if (ABSENCE_TIMEOUT cfg <=? total_seconds (time_sub (now o) (last_seen_someone st)))%Q then
       log MNoFacesTimeout;;
       lock_and_cool o
     else
       log MWaiting
   else
     log MMultipleFaces;;
     lock_and_cool o);;
  sleep (CHECK_INTERVAL cfg) (interval o).

(** Lines 195-204: the identity check, every [ENCODING_EVERY_N] turns
    that reach it; a turn that skips the check is not authorized. *)
Definition verify (st : State) (rgb : Image) (locs : list Location) : Prog bool :=
  r ← eval (py_mod (frame_i st) (ENCODING_EVERY_N cfg));
  if bool_decide (r = 0) then
    identify (ALLOWED_TOLERANCE cfg) known rgb locs
  else
    mret false.

(** Lines 194-217, the branch of exactly one face. *)
Definition one_face (st : State) (o : Obs) (rgb : Image) (locs : list Location) : Prog State :=
  authorized ← verify st rgb locs;
  st ← (if authorized : bool then
          let st := {| last_seen_someone := now o; frame_i := frame_i st |} in
          log MAuthorized;;
          mret st
        else
          log MSingleNotAuthorized;;
          lock_and_cool o;;
          mret st);
  let st := {| last_seen_someone := last_seen_someone st; frame_i := frame_i st + 1 |} in
  sleep (CHECK_INTERVAL cfg) (interval o);;
  mret st.

(** Lines 166-167: the two conversions applied to the frame. *)
Definition to_rgb (frame : Image) : Image :=
  cvtColor_BGR2RGB (reverse_channels frame).

(** One turn of [while True], lines 152-217.  Every path ends the turn
    with the state the next turn starts from. *)
Definition iteration (st : State) (o : Obs) : Prog State :=
  missing ← phone_missing o;
  if missing : bool then
    log MPhoneNotPresent;;
    lock_and_cool o;;
    mret st
  else
    frame ← latest_frame cap (capture o);
    match frame with
    | None =>
        log MReadFailed;;
        sleep (CHECK_INTERVAL cfg) (interval o);;
        mret st
    | Some frame =>
        let rgb := to_rgb frame in
        face_locations ← detect_faces_rgb (HOG_UPSAMPLE cfg) (USE_CNN_FALLBACK cfg) rgb;
        let n_faces := length face_locations in
        log (MDetected n_faces);;
        if bool_decide (n_faces <> 1%nat) then
          not_one_face st o n_faces;;
          mret st
        else
          one_face st o rgb face_locations
    end.

(** The turns of the loop over the observations [os]. *)
Fixpoint loop (st : State) (os : list Obs) : Prog State :=
  match os with
  | [] => mret st
  | o :: os =>
      st ← iteration st o;
      loop st os
  end.

(** The two [except] clauses of lines 219-222. *)
Definition on_exit (e : exn) : option (Prog unit) :=
  match e with
  | KeyboardInterrupt => Some (log MStopped)
  | _ => except_Exception (fun e => log (MCrashed e)) e
  end.

(** Lines 147-224: the variables of the loop are initialised with the
    clock [start], the loop runs, and whatever ends it the capture is
    released. *)
Definition guarded_loop (start : Time) (os : list Obs) : Prog unit :=
  log MStarting;;
  let st := {| last_seen_someone := start; frame_i := 0 |} in
  finally
    (try_except (loop st os;; mret tt) on_exit)
    (emit (EvRelease cap)).

End Loop.

(** ** The presence state machine of the specification

    A turn of the loop senses ([sense]), then decides and acts
    ([react]).  The decision is the one the specification gives as its
    rules 1 to 4: [spec_lock] says whether to lock, [spec_seen] what the
    time of the last authorized sighting becomes. *)

(** What a turn has sensed: whether the gate lets the turn through (it
    does when it is switched off), the face count, the verdict of the
    identity check and the clock. *)
Record Sample : Type := {
  companion : bool;
  face_count : nat;
  authorized : bool;
  at_time : Time
}.

Inductive Phase : Type := ABSENT | SINGLE_AUTHORIZED | SINGLE_UNAUTHORIZED | MULTIPLE.

#[export] Instance Phase_eq_dec : EqDecision Phase.
Proof. solve_decision. Defined.

Definition phase (s : Sample) : Phase :=
  match face_count s with
  | O => ABSENT
  | S O => if authorized s then SINGLE_AUTHORIZED else SINGLE_UNAUTHORIZED
  | _ => MULTIPLE
  end.

(** The time since the last authorized sighting, in seconds. *)
Definition elapsed (last : Time) (s : Sample) : Q :=
  total_seconds (time_sub (at_time s) last).

(** Rules 1 to 4: lock or not. *)
Definition spec_lock (cfg : Config) (last : Time) (s : Sample) : bool :=
  if companion s then
    match phase s with
    | MULTIPLE => true
    | ABSENT => (ABSENCE_TIMEOUT cfg <=? elapsed last s)%Q
    | SINGLE_AUTHORIZED => false
    | SINGLE_UNAUTHORIZED => true
    end
  else true.

(** The rules are monotone in the timeout: what locks under a timeout
    locks under every shorter one. *)
Lemma spec_lock_timeout cfg cfg' last s :
  (ABSENCE_TIMEOUT cfg <= ABSENCE_TIMEOUT cfg')%Q ->
  spec_lock cfg' last s = true -> spec_lock cfg last s = true.
Proof.
  unfold spec_lock. intros Hle. destruct (companion s), (phase s); try done.
  intros Ht%Qle_bool_true. apply Qle_bool_true. by eapply Qle_trans.
Qed.

(** Rule 4: the time of the last sighting advances on an authorized
    single face and on nothing else. *)
Definition spec_seen (last : Time) (s : Sample) : Time :=
  if companion s && bool_decide (phase s = SINGLE_AUTHORIZED) then at_time s else last.

Section Machine.
Context `{Vision}.
Context (lock_session : (Cmd -> outcome unit) -> Prog bool).
Context (cfg : Config) (cap : Z) (known : list Encoding).

(** The sensing statements of a turn (lines 154, 160, 166-173 and
    195-204), in their order, with what they log. *)
Definition sense (st : State) (o : Obs) : Prog (option Sample) :=
  missing ← phone_missing cfg o;
  if missing : bool then
    mret (Some {| companion := false; face_count := 0; authorized := false; at_time := now o |})
  else
    frame ← latest_frame cap (capture o);
    match frame with
    | None => mret None
    | Some frame =>
        locs ← detect_faces_rgb (HOG_UPSAMPLE cfg) (USE_CNN_FALLBACK cfg) (to_rgb frame);
        log (MDetected (length locs));;
        if bool_decide (length locs <> 1%nat) then
          mret (Some {| companion := true; face_count := length locs;
                        authorized := false; at_time := now o |})
        else
          a ← verify cfg known st (to_rgb frame) locs;
          mret (Some {| companion := true; face_count := 1;
                        authorized := a; at_time := now o |})
    end.

(** The line a turn logs for its decision. *)
Definition announce (s : Sample) (lock : bool) : Msg :=
  if companion s then
    match phase s with
    | ABSENT => if lock then MNoFacesTimeout else MWaiting
    | MULTIPLE => MMultipleFaces
    | SINGLE_AUTHORIZED => MAuthorized
    | SINGLE_UNAUTHORIZED => MSingleNotAuthorized
    end
  else MPhoneNotPresent.

(** The state after a turn that sensed [s]. *)
Definition next_state (st : State) (s : Sample) : State :=
  {| last_seen_someone := spec_seen (last_seen_someone st) s;
     frame_i := if companion s && bool_decide (face_count s = 1%nat)
                then frame_i st + 1 else frame_i st |}.

(** The deciding statements of a turn (lines 155-158, 161-164, 176-192
    and 207-217): the line, the lock with its cooldown when the rules say
    so, the poll interval on every path but the gate's. *)
Definition react (st : State) (o : Obs) (s : option Sample) : Prog State :=
  match s with
  | None =>
      log MReadFailed;;
      sleep (CHECK_INTERVAL cfg) (interval o);;
      mret st
  | Some s =>
      let lock := spec_lock cfg (last_seen_someone st) s in
      log (announce s lock);;
      (if lock then lock_and_cool lock_session cfg o else mret tt);;
      (if companion s then sleep (CHECK_INTERVAL cfg) (interval o) else mret tt);;
      mret (next_state st s)
  end.

(** *** A turn is sensing followed by the decision of the rules *)

Lemma next_state_gate st s : companion s = false -> next_state st s = st.
Proof. unfold next_state, spec_seen. intros ->. by destruct st. Qed.

Lemma next_state_not_one st s :
  face_count s <> 1%nat -> next_state st s = st.
Proof.
  intros Hn. unfold next_state, spec_seen, phase.
  rewrite (bool_decide_eq_false_2 (face_count s = 1%nat)) by done.
  rewrite andb_false_r. destruct (face_count s) as [|[|n]]; [|done|];
    rewrite bool_decide_eq_false_2, andb_false_r by done; by destruct st.
Qed.

Lemma next_state_one st a t :
  next_state st {| companion := true; face_count := 1; authorized := a; at_time := t |}
  = {| last_seen_someone := if a then t else last_seen_someone st;
       frame_i := frame_i st + 1 |}.
Proof. by destruct a. Qed.

(** [spec_simpl]: compute the rules on a sample whose fields are known. *)
Ltac spec_simpl :=
  unfold spec_lock, announce, phase, elapsed;
  cbn [companion face_count authorized at_time andb].

Lemma iteration_sense_react st o :
  iteration lock_session cfg cap known st o = (sense st o ≫= react st o).
Proof.
  unfold iteration, sense. bind_step. destruct a as [|].
  { rewrite bind_ret_l. cbn. by rewrite next_state_gate. }
  bind_step. destruct a as [frame|]; [|by rewrite bind_ret_l].
  bind_step. bind_step. case_bool_decide as Hn.
  - rewrite bind_ret_l. unfold react, not_one_face.
    rewrite next_state_not_one by done. spec_simpl.
    destruct (length a) as [|[|n]] eqn:Hlen; [|done|].
    + rewrite bool_decide_eq_true_2 by done. destruct (_ <=? _)%Q; by prog_norm.
    + rewrite bool_decide_eq_false_2 by done. by prog_norm.
  - unfold one_face, react. bind_step. rewrite bind_ret_l.
    rewrite next_state_one. spec_simpl. destruct a1; prog_norm; [done|].
    bind_step. by prog_norm.
Qed.

(** The loop is the loop of its turn. *)
Lemma loop_for_each st os :
  loop lock_session cfg cap known st os = for_each (iteration lock_session cfg cap known) st os.
Proof. revert st. induction os as [|o os IH]; intros st; cbn; [done | by apply bind_ext]. Qed.
End Machine.

(** ** The sampling of the identity check *)

Section Sampling.
Context `{Vision}.
Context (cfg : Config) (known : list Encoding).
Implicit Types (st : State) (rgb : Image) (locs : list Location).

Lemma verify_cases st rgb locs :
  verify cfg known st rgb locs =
  if decide (ENCODING_EVERY_N cfg = 0) then ([], Raises ZeroDivisionError)
  else if decide (frame_i st `mod` ENCODING_EVERY_N cfg = 0)
       then identify (ALLOWED_TOLERANCE cfg) known rgb locs
       else ([], Returns false).
Proof.
  unfold verify, py_mod, eval. destruct (decide (ENCODING_EVERY_N cfg = 0)); [done|].
  rewrite bind_returns, prepend_nil. by case_bool_decide; case_decide.
Qed.

(** C31. The identity check accepts a face exactly when the check is due
    on this frame ([frame_i] is a multiple of [ENCODING_EVERY_N]), the
    encoder returns an encoding, and the first encoding lies within
    [ALLOWED_TOLERANCE] of one of the enrolled encodings. *)
Theorem verify_true_iff st rgb locs :
  known <> [] -> ENCODING_EVERY_N cfg <> 0 ->
  result_of (verify cfg known st rgb locs) = Returns true <->
  frame_i st `mod` ENCODING_EVERY_N cfg = 0 /\
  exists enc encs k, face_encodings rgb locs = Returns (enc :: encs) /\
    k ∈ known /\ (norm (row_sub k enc) <= ALLOWED_TOLERANCE cfg)%Q.
Proof.
  intros Hk Hn. rewrite verify_cases. destruct (decide _) as [|_]; [done|].
  destruct (decide _) as [Hm|Hm].
  - rewrite identify_true_iff by done. tauto.
  - split; [done | tauto].
Qed.

(** With an enrolled set and a sampling interval the check raises only
    what the encoder raised. *)
Lemma verify_raises st rgb locs e :
  known <> [] -> ENCODING_EVERY_N cfg <> 0 ->
  result_of (verify cfg known st rgb locs) = Raises e -> face_encodings rgb locs = Raises e.
Proof.
  intros Hk Hn. rewrite verify_cases. destruct (decide _) as [|_]; [done|].
  destruct (decide _); [by apply identify_raises | done].
Qed.

(** Sampling is strict: on a frame where the check is not due
    ([frame_i] is not a multiple of [ENCODING_EVERY_N]) the encoder is
    not called and the face counts as not authorized, whoever it is; the
    verdict of an earlier frame is not carried over. *)
Theorem verify_skipped st rgb locs :
  ENCODING_EVERY_N cfg <> 0 -> frame_i st `mod` ENCODING_EVERY_N cfg <> 0 ->
  verify cfg known st rgb locs = ([], Returns false).
Proof. intros Hn Hm. rewrite verify_cases. by repeat case_decide. Qed.

(** A sampling interval of zero crashes the check: with
    [ENCODING_EVERY_N = 0] the first turn that sees exactly one face
    raises [ZeroDivisionError] before any identity check. *)
Theorem verify_zero_interval st rgb locs :
  ENCODING_EVERY_N cfg = 0 ->
  verify cfg known st rgb locs = ([], Raises ZeroDivisionError).
Proof. intros Hn. rewrite verify_cases. by case_decide. Qed.
End Sampling.

(** C39. The frame reaches the detector in the channel order of the
    camera: [to_rgb] reverses the channels twice, once by slicing and
    once by [cvtColor], and returns the frame unchanged. *)
Theorem to_rgb_is_identity (frame : Image) : to_rgb frame = frame.
Proof. unfold to_rgb. rewrite cvtColor_is_reverse. apply reverse_channels_involutive. Qed.
