(* ===== verification/Scenarios.v ===== *)
(** * Scenarios: stand-ins for the capabilities and example observations

    The theorems on the loop hold for every detector, encoder and norm.
    Their witnesses need concrete ones: [stub_vision] answers with fixed
    face locations and encodings, and measures a difference by the sum of
    the absolute values of its coordinates.  [calm] is an observation in
    which the camera delivers a frame, the phone is connected, the first
    lock command succeeds and no sleep is interrupted. *)

From Stdlib Require Import Qabs.
From S2P Require Import Prelude Effects LockActuator Vision Gate Camera PresenceLoop.

(** A detector that finds [hog] with the HOG model and [cnn] with the
    CNN model in every frame, and an encoder that returns [encs]. *)
Definition stub_vision (hog cnn : list Location) (encs : list Encoding) : Vision := {|
  face_locations := fun _ _ m => Returns (match m with HOG => hog | CNN => cnn end);
  face_encodings := fun _ _ => Returns encs;
  norm := fun v => fold_right (fun x acc => Qabs x + acc)%Q 0%Q v
|}.

(** A detector that raises [e]. *)
Definition broken_vision (e : exn) : Vision := {|
  face_locations := fun _ _ _ => Raises e;
  face_encodings := fun _ _ => Raises e;
  norm := fun _ => 0%Q
|}.

(** A frame of one blue pixel, in the channel order of OpenCV. *)
Definition frame0 : Image := [[(255, 0, 0)]].

Definition face : Location := (10, 60, 60, 10).

(** The enrolled encoding and the encoding of a stranger. *)
Definition me : Encoding := [0; 0]%Q.
Definition near_me : Encoding := [3 # 10; 0]%Q.
Definition stranger : Encoding := [9 # 10; 0]%Q.

(** The observation of a quiet turn at time [t] (microseconds). *)
Definition calm (t : Time) : Obs := {|
  bt := fun _ => Returns (Some "Device AA:BB:CC:11:22:33 Connected: yes"%string, None);
  capture := {| retrieve := Returns (Some frame0); read := Returns None |};
  now := t;
  run := fun _ => Returns tt;
  cooldown := Returns tt;
  interval := Returns tt
|}.

(** The same turn with the phone out of reach. *)
Definition phone_away (t : Time) : Obs := {|
  bt := fun _ => Returns (Some "Device AA:BB:CC:11:22:33 Connected: no"%string, None);
  capture := capture (calm t);
  now := t;
  run := run (calm t);
  cooldown := Returns tt;
  interval := Returns tt
|}.

(** The same turn, interrupted during the poll interval. *)
Definition interrupted (t : Time) : Obs := {|
  bt := bt (calm t);
  capture := capture (calm t);
  now := t;
  run := run (calm t);
  cooldown := Returns tt;
  interval := Raises KeyboardInterrupt
|}.

(** The state of the loop when it starts at time 0. *)
Definition st0 : State := {| last_seen_someone := 0; frame_i := 0 |}.

(** The configuration with the Bluetooth gate switched on. *)
Definition gated_config : Config := {|
  ENROLL_DIR := ENROLL_DIR default_config;
  ALLOWED_TOLERANCE := ALLOWED_TOLERANCE default_config;
  CHECK_INTERVAL := CHECK_INTERVAL default_config;
  LOCK_COOLDOWN := LOCK_COOLDOWN default_config;
  ABSENCE_TIMEOUT := ABSENCE_TIMEOUT default_config;
  USE_BLUETOOTH := true;
  PHONE_MAC := PHONE_MAC default_config;
  VIDEO_DEVICE := VIDEO_DEVICE default_config;
  FRAME_WIDTH := FRAME_WIDTH default_config;
  FRAME_HEIGHT := FRAME_HEIGHT default_config;
  HOG_UPSAMPLE := HOG_UPSAMPLE default_config;
  USE_CNN_FALLBACK := USE_CNN_FALLBACK default_config;
  ENCODING_EVERY_N := ENCODING_EVERY_N default_config
|}.

(** The configuration with the identity check every [n] turns. *)
Definition sampled_config (n : Z) : Config := {|
  ENROLL_DIR := ENROLL_DIR default_config;
  ALLOWED_TOLERANCE := ALLOWED_TOLERANCE default_config;
  CHECK_INTERVAL := CHECK_INTERVAL default_config;
  LOCK_COOLDOWN := LOCK_COOLDOWN default_config;
  ABSENCE_TIMEOUT := ABSENCE_TIMEOUT default_config;
  USE_BLUETOOTH := USE_BLUETOOTH default_config;
  PHONE_MAC := PHONE_MAC default_config;
  VIDEO_DEVICE := VIDEO_DEVICE default_config;
  FRAME_WIDTH := FRAME_WIDTH default_config;
  FRAME_HEIGHT := FRAME_HEIGHT default_config;
  HOG_UPSAMPLE := HOG_UPSAMPLE default_config;
  USE_CNN_FALLBACK := USE_CNN_FALLBACK default_config;
  ENCODING_EVERY_N := n
|}.

(** The scenarios compute. *)
Example scenario_authorized :
  iteration (H := stub_vision [face] [] [near_me]) PresenceGuard.lock_session
    default_config 0 [me] st0 (calm 1000000)
  = ([EvGrab 0; EvGrab 0; EvGrab 0; EvRetrieve 0; EvFaceLocations HOG 1;
      EvLog (MDetected 1); EvAppend (MDetected 1); EvFaceEncodings;
      EvLog (MBestDistance (3 # 10)); EvAppend (MBestDistance (3 # 10));
      EvLog MAuthorized; EvAppend MAuthorized; EvSleep (35 # 100)],
     Returns {| last_seen_someone := 1000000; frame_i := 1 |}).
Proof. vm_compute. reflexivity. Qed.

Example scenario_two_faces :
  iteration (H := stub_vision [face; face] [] [near_me]) PresenceGuard.lock_session
    default_config 0 [me] st0 (calm 1000000)
  = ([EvGrab 0; EvGrab 0; EvGrab 0; EvRetrieve 0; EvFaceLocations HOG 1;
      EvLog (MDetected 2); EvAppend (MDetected 2); EvLog MMultipleFaces; EvAppend MMultipleFaces;
      EvRun ["loginctl"; "lock-sessions"]%string 5;
      EvLog (MLockedVia ["loginctl"; "lock-sessions"]%string);
      EvAppend (MLockedVia ["loginctl"; "lock-sessions"]%string);
      EvSleep 4; EvSleep (35 # 100)],
     Returns st0).
Proof. vm_compute. reflexivity. Qed.
