(* ===== verification/PresenceTurn.v ===== *)
(** * One turn of the decision loop: what it locks and what it keeps

    The theorems of this file are about [iteration] of
    src/presence_guard.py for an arbitrary state and observation.  They
    follow from [iteration_sense_react] and from the laws of the
    actuator: a turn locks exactly when the rules of the specification
    say so and changes the state as they say; the gate comes before the
    camera; a failing detector ends the turn without a lock; a locking
    turn sleeps twice; with a sampling interval of two or more, one of
    two consecutive single-face turns locks.

    [locked] says that a trace holds an event of the lock actuator,
    [sense_event] and [is_vision] classify the events of the sensing
    half, and [Sees] is the hypothesis that a turn got a frame with
    given face locations.  The witnesses of the theorems are at the end
    of the file. *)

From S2P Require Import Prelude Effects LockActuator Vision Gate Camera PresenceLoop Scenarios.

(** ** Observations on traces *)

(** [locked t]: the trace holds an event of the lock actuator. *)
Definition locked (t : trace) : bool := existsb lock_event t.

(** [sense_event cfg cap ev]: an event of the sensing half of a turn. *)
Definition sense_event (cfg : Config) (cap : Z) (ev : Event) : bool :=
  match ev with
  | EvRun c t => bool_decide (c = bluetoothctl_info (PHONE_MAC cfg) /\ t = 6)
  | EvGrab i | EvRetrieve i | EvRead i => bool_decide (i = cap)
  | EvFaceLocations _ _ | EvFaceEncodings => true
  | EvLog (MBluetoothError _) | EvLog (MDetected _)
  | EvLog (MBestDistance _) | EvLog MNoEncoding
  | EvAppend (MBluetoothError _) | EvAppend (MDetected _)
  | EvAppend (MBestDistance _) | EvAppend MNoEncoding => true
  | _ => false
  end.

(** [is_sleep ev]. *)
Definition is_sleep (ev : Event) : bool :=
  match ev with EvSleep _ => true | _ => false end.

Lemma locked_app t t' : locked (t ++ t') = locked t || locked t'.
Proof. apply existsb_app. Qed.

Lemma locked_false t : locked t = false <-> Forall (fun ev => lock_event ev = false) t.
Proof. unfold locked. by rewrite existsb_false_count_b, count_b_zero. Qed.

Lemma sense_event_quiet cfg cap ev :
  sense_event cfg cap ev = true -> lock_event ev = false /\ is_sleep ev = false.
Proof.
  destruct ev as [[]| | | | | | | | | | | | |[]]; try done. simpl.
  intros [-> ->]%bool_decide_eq_true. split; [|done].
  apply bool_decide_eq_false. unfold cmds, bluetoothctl_info.
  rewrite !elem_of_cons, elem_of_nil. intros [|[|[|[|]]]]; done.
Qed.

(** [percept_event cap ev]: an event of looking at a frame, the part of
    the sensing behind the gate. *)
Definition percept_event (cap : Z) (ev : Event) : bool :=
  match ev with
  | EvGrab i | EvRetrieve i | EvRead i => bool_decide (i = cap)
  | EvFaceLocations _ _ | EvFaceEncodings => true
  | EvLog (MDetected _) | EvLog (MBestDistance _) | EvLog MNoEncoding
  | EvAppend (MDetected _) | EvAppend (MBestDistance _) | EvAppend MNoEncoding => true
  | _ => false
  end.

Lemma percept_sense_event cfg cap ev :
  percept_event cap ev = true -> sense_event cfg cap ev = true.
Proof. by destruct ev as [[]| | | | | | | | | | | | |[]]. Qed.

(** Looking at a frame waits on no command and no sleep. *)
Lemma percept_budget cap ev : percept_event cap ev = true -> budget ev = 0%Q.
Proof. by destruct ev. Qed.

(** ** The sensing half *)

Section Sensing.
Context `{Vision}.
Context (cfg : Config) (cap : Z) (known : list Encoding).
Implicit Types (st : State) (o : Obs).

Local Abbreviation sensing m := (Forall (fun ev => sense_event cfg cap ev = true) (trace_of m)).
Local Abbreviation perceiving m := (Forall (fun ev => percept_event cap ev = true) (trace_of m)).

Lemma phone_missing_sensing o : sensing (phone_missing cfg o).
Proof.
  unfold phone_missing. destruct (USE_BLUETOOTH cfg); [|constructor].
  apply trace_bind_Forall; [|constructor]. rewrite is_phone_present_cases.
  destruct (bt o _) as [|e]; [|destruct (is_Exception e)]; repeat constructor;
    by apply bool_decide_eq_true.
Qed.

Lemma latest_frame_perceiving o : perceiving (latest_frame cap (capture o)).
Proof.
  unfold latest_frame.
  destruct (retrieve (capture o)) as [[f|]|e]; repeat constructor;
    by apply bool_decide_eq_true.
Qed.

Lemma detect_faces_rgb_perceiving rgb :
  perceiving (detect_faces_rgb (HOG_UPSAMPLE cfg) (USE_CNN_FALLBACK cfg) rgb).
Proof.
  unfold detect_faces_rgb. apply trace_bind_Forall; [by repeat constructor|].
  intros locs _. destruct (_ && _); by repeat constructor.
Qed.

Lemma identify_perceiving rgb locs :
  perceiving (identify (ALLOWED_TOLERANCE cfg) known rgb locs).
Proof.
  unfold identify. apply trace_bind_Forall; [by repeat constructor|].
  intros [|enc encs] _; [by repeat constructor|].
  apply trace_bind_Forall; [constructor|]. intros best _. by repeat constructor.
Qed.

Lemma verify_perceiving st rgb locs : perceiving (verify cfg known st rgb locs).
Proof.
  unfold verify. apply trace_bind_Forall; [constructor|].
  intros r _. case_bool_decide; [apply identify_perceiving | constructor].
Qed.

(** A turn senses through the gate and then looks at a frame: the
    events of [sense] are those of the gate followed by events of
    looking. *)
Lemma sense_trace_split st o :
  exists t, trace_of (sense cfg cap known st o) = trace_of (phone_missing cfg o) ++ t /\
            Forall (fun ev => percept_event cap ev = true) t.
Proof.
  unfold sense. rewrite trace_bind. eexists. split; [reflexivity|].
  destruct (result_of (phone_missing cfg o)) as [[|]|e]; [constructor| |constructor].
  apply trace_bind_Forall; [apply latest_frame_perceiving|]. intros [frame|] _; [|constructor].
  apply trace_bind_Forall; [apply detect_faces_rgb_perceiving|]. intros locs _.
  apply trace_bind_Forall; [by repeat constructor|]. intros _ _.
  case_bool_decide; [constructor|].
  apply trace_bind_Forall; [apply verify_perceiving | constructor].
Qed.

Lemma sense_sensing st o : sensing (sense cfg cap known st o).
Proof.
  destruct (sense_trace_split st o) as (t & -> & Ht).
  apply Forall_app. split; [apply phone_missing_sensing|].
  eapply Forall_impl; [exact Ht | apply percept_sense_event].
Qed.

(** Sensing neither locks nor sleeps. *)
Lemma sense_not_locked st o : locked (trace_of (sense cfg cap known st o)) = false.
Proof.
  apply locked_false. eapply Forall_impl; [apply sense_sensing|].
  intros ev Hev. by apply (sense_event_quiet cfg cap).
Qed.
End Sensing.

(** ** The deciding half *)

Section Acting.
Context `{Vision}.
Context (lock_session : (Cmd -> outcome unit) -> Prog bool) `{!LockActuator lock_session}.
Context (cfg : Config) (cap : Z) (known : list Encoding).
Implicit Types (st : State) (o : Obs) (s : Sample).

Local Abbreviation iteration := (iteration lock_session cfg cap known).
Local Abbreviation sense := (sense cfg cap known).
Local Abbreviation react := (react lock_session cfg).
Local Abbreviation lock_and_cool := (lock_and_cool lock_session cfg).

Lemma lock_and_cool_locked o : locked (trace_of (lock_and_cool o)) = true.
Proof.
  unfold PresenceLoop.lock_and_cool. rewrite trace_bind, locked_app.
  destruct (lock_attempts (run o)) as (c & t & -> & Hc). simpl.
  by rewrite bool_decide_eq_true_2.
Qed.

(** The cooldown follows the lock whenever the lock returns. *)
Lemma lock_and_cool_trace o b :
  result_of (lock_session (run o)) = Returns b ->
  trace_of (lock_and_cool o) = trace_of (lock_session (run o)) ++ [EvSleep (LOCK_COOLDOWN cfg)].
Proof. intros Hb. unfold PresenceLoop.lock_and_cool. by rewrite trace_bind, Hb. Qed.

Lemma lock_and_cool_result o b :
  result_of (lock_session (run o)) = Returns b ->
  result_of (lock_and_cool o) = cooldown o.
Proof. intros Hb. unfold PresenceLoop.lock_and_cool. by rewrite result_bind, Hb. Qed.

Lemma announce_not_lock s l :
  Forall (fun ev => lock_event ev = false) (logs (announce s l)).
Proof. unfold announce. destruct (companion s), (phase s), l; by repeat constructor. Qed.

Lemma react_locked st o s :
  locked (trace_of (react st o (Some s))) = spec_lock cfg (last_seen_someone st) s.
Proof.
  unfold PresenceLoop.react. rewrite trace_bind, locked_app, trace_log.
  rewrite (proj2 (locked_false _) (announce_not_lock s _)), orb_false_l, result_log.
  rewrite trace_bind, locked_app.
  destruct (spec_lock _ _ _); [by rewrite lock_and_cool_locked|].
  rewrite trace_mret, result_mret, trace_bind, locked_app.
  by destruct (companion s), (interval o).
Qed.

(** [react_event cfg ev]: an event of the deciding half of a turn: the
    line of the decision or of a failed read, an event of the lock
    actuator, the cooldown or the poll interval. *)
Definition react_event (ev : Event) : Prop :=
  lock_event ev = true \/
  ev = EvSleep (LOCK_COOLDOWN cfg) \/ ev = EvSleep (CHECK_INTERVAL cfg) \/
  (exists s l, ev = EvLog (announce s l) \/ ev = EvAppend (announce s l)) \/
  ev = EvLog MReadFailed \/ ev = EvAppend MReadFailed.

Lemma react_footprint st o (r : option Sample) : Forall react_event (trace_of (react st o r)).
Proof.
  assert (Forall react_event (trace_of (sleep (CHECK_INTERVAL cfg) (interval o)))) as Hsleep
    by (constructor; [unfold react_event; tauto | constructor]).
  destruct r as [s|]; unfold PresenceLoop.react.
  - apply trace_bind_Forall; [apply Forall_log; do 3 right; left; eauto|].
    intros _ _. apply trace_bind_Forall.
    + destruct (spec_lock _ _ _); [|constructor]. unfold PresenceLoop.lock_and_cool.
      apply trace_bind_Forall.
      * eapply Forall_impl; [apply lock_footprint|]. intros ev Hev. by left.
      * intros _ _. constructor; [unfold react_event; tauto | constructor].
    + intros _ _. apply trace_bind_Forall; [|constructor].
      destruct (companion s); [exact Hsleep | constructor].
  - apply trace_bind_Forall; [apply Forall_log; unfold react_event; tauto|].
    intros _ _. apply trace_bind_Forall; [exact Hsleep | constructor].
Qed.

Lemma react_unread_quiet st o : locked (trace_of (react st o None)) = false.
Proof. unfold PresenceLoop.react. cbn. by destruct (interval o). Qed.

Lemma react_result st o s st' :
  result_of (react st o (Some s)) = Returns st' -> st' = next_state st s.
Proof.
  unfold PresenceLoop.react.
  intros (_ & _ & (_ & _ & (_ & _ & [= <-])%bind_returns_inv)%bind_returns_inv)%bind_returns_inv.
  done.
Qed.

(** A turn in which neither the lock nor a sleep is interrupted
    completes. *)
Lemma react_completes st o s :
  returned (result_of (lock_session (run o))) = true ->
  cooldown o = Returns tt -> interval o = Returns tt ->
  result_of (react st o (Some s)) = Returns (next_state st s).
Proof.
  intros Hl Hc Hi. unfold PresenceLoop.react. rewrite !result_bind. cbn [log emit result_of snd].
  destruct (spec_lock _ _ _).
  - destruct (result_of (lock_session (run o))) as [b|] eqn:Hb; [|done].
    change (snd (lock_and_cool o)) with (result_of (lock_and_cool o)).
    rewrite (lock_and_cool_result o b Hb), Hc.
    destruct (companion s); cbn; by rewrite ?Hi.
  - destruct (companion s); cbn; by rewrite ?Hi.
Qed.

(** *** The turn against the rules *)

Lemma iteration_trace st o :
  trace_of (iteration st o) =
  trace_of (sense st o) ++
  match result_of (sense st o) with
  | Returns s => trace_of (react st o s)
  | Raises _ => []
  end.
Proof. by rewrite iteration_sense_react, trace_bind. Qed.

Lemma iteration_result st o :
  result_of (iteration st o) =
  match result_of (sense st o) with
  | Returns s => result_of (react st o s)
  | Raises e => Raises e
  end.
Proof. by rewrite iteration_sense_react, result_bind. Qed.

(** [Sees o frame locs]: the gate lets the turn through, the capture
    delivers [frame] and the detector finds [locs] in it. *)
Definition Sees o (frame : Image) (locs : list Location) : Prop :=
  result_of (phone_missing cfg o) = Returns false /\
  result_of (latest_frame cap (capture o)) = Returns (Some frame) /\
  result_of (detect_faces_rgb (HOG_UPSAMPLE cfg) (USE_CNN_FALLBACK cfg) (to_rgb frame))
    = Returns locs.

(** What [sense] returns for what the turn sees. *)
Lemma sense_sees st o frame locs :
  Sees o frame locs ->
  result_of (sense st o) =
  if bool_decide (length locs <> 1%nat) then
    Returns (Some {| companion := true; face_count := length locs;
                     authorized := false; at_time := now o |})
  else
    match result_of (verify cfg known st (to_rgb frame) locs) with
    | Returns a => Returns (Some {| companion := true; face_count := 1;
                                    authorized := a; at_time := now o |})
    | Raises e => Raises e
    end.
Proof.
  intros (Hg & Hf & Hd). unfold PresenceLoop.sense.
  rewrite result_bind, Hg, result_bind, Hf, result_bind, Hd, result_bind, result_log.
  case_bool_decide; [done|]. rewrite result_bind. by destruct (result_of (verify _ _ _ _ _)).
Qed.

Lemma sense_gate st o :
  result_of (phone_missing cfg o) = Returns true ->
  sense st o = prepend (trace_of (phone_missing cfg o))
    (mret (Some {| companion := false; face_count := 0; authorized := false; at_time := now o |})).
Proof.
  intros Hg. unfold PresenceLoop.sense. destruct (phone_missing cfg o) as [t r].
  simpl in Hg. by subst r.
Qed.

(** A turn that senses [s] locks as the rules say and can only return
    the state the rules give. *)
Lemma iteration_of_sample st o s :
  result_of (sense st o) = Returns (Some s) ->
  locked (trace_of (iteration st o)) = spec_lock cfg (last_seen_someone st) s /\
  (forall st', result_of (iteration st o) = Returns st' -> st' = next_state st s).
Proof.
  intros Hs. rewrite iteration_trace, iteration_result, Hs, locked_app.
  rewrite sense_not_locked, react_locked. split; [done | apply react_result].
Qed.

(** A turn that sees one face locks exactly when the identity check
    says no, and counts the frame. *)
Lemma iteration_one_face st o frame loc a :
  Sees o frame [loc] ->
  result_of (verify cfg known st (to_rgb frame) [loc]) = Returns a ->
  locked (trace_of (iteration st o)) = negb a /\
  (forall st', result_of (iteration st o) = Returns st' ->
     st' = {| last_seen_someone := if a then now o else last_seen_someone st;
              frame_i := frame_i st + 1 |}).
Proof.
  intros Hsees Hv. pose proof (sense_sees st o frame [loc] Hsees) as Hs.
  rewrite bool_decide_eq_false_2, Hv in Hs by (by intros []).
  destruct (iteration_of_sample st o _ Hs) as (-> & Hst). split; [by destruct a|].
  intros st' ->%Hst. by destruct a.
Qed.

(** *** Theorems *)

(** C1. Refinement of the presence state machine: in a turn that senses
    the sample [s], [iteration] attempts a lock exactly when the
    decision rules of the specification say so, the state it returns is
    the one the rules give (the time of the last sighting advances to
    the time of the sample on an authorized single face and on nothing
    else), and the turn does return that state unless the lock or a
    sleep is interrupted. *)
Theorem iteration_refines_spec st o s :
  result_of (sense st o) = Returns (Some s) ->
  locked (trace_of (iteration st o)) = spec_lock cfg (last_seen_someone st) s /\
  (forall st', result_of (iteration st o) = Returns st' -> st' = next_state st s) /\
  (returned (result_of (lock_session (run o))) = true ->
   cooldown o = Returns tt -> interval o = Returns tt ->
   result_of (iteration st o) = Returns (next_state st s)).
Proof.
  intros Hs. destruct (iteration_of_sample st o s Hs) as [Hl Hst].
  split_and!; [done..|]. rewrite iteration_result, Hs. by apply react_completes.
Qed.

(** C6. More than one face always locks: when the detector finds two or
    more faces, the turn attempts a lock whatever the clock, the state
    and the identity of the faces are, and leaves the state as it
    was. *)
Theorem multiple_faces_lock st o frame locs :
  Sees o frame locs -> (1 < length locs)%nat ->
  locked (trace_of (iteration st o)) = true /\
  (forall st', result_of (iteration st o) = Returns st' -> st' = st).
Proof.
  intros Hsees Hn. pose proof (sense_sees st o frame locs Hsees) as Hs.
  rewrite bool_decide_eq_true_2 in Hs by lia.
  destruct (iteration_of_sample st o _ Hs) as (-> & Hst). split.
  - unfold spec_lock, phase; cbn. by destruct (length locs) as [|[|n]]; [lia..|].
  - intros st' ->%Hst. apply next_state_not_one. cbn. lia.
Qed.

(** C7. Absence locks at the timeout and not before: when the detector
    finds no face, the turn attempts a lock exactly when the time since
    [last_seen_someone] is at least [ABSENCE_TIMEOUT] seconds; in both
    cases [last_seen_someone] keeps its value, so the turns that follow
    a lock for absence are past the timeout too. *)
Theorem absence_locks_at_timeout st o frame :
  Sees o frame [] ->
  (locked (trace_of (iteration st o)) = true <->
   (ABSENCE_TIMEOUT cfg <= total_seconds (time_sub (now o) (last_seen_someone st)))%Q) /\
  (forall st', result_of (iteration st o) = Returns st' -> st' = st).
Proof.
  intros Hsees. pose proof (sense_sees st o frame [] Hsees) as Hs.
  rewrite bool_decide_eq_true_2 in Hs by done.
  destruct (iteration_of_sample st o _ Hs) as (-> & Hst). split.
  - apply Qle_bool_true.
  - intros st' ->%Hst. by apply next_state_not_one.
Qed.

(** One authorized face does not lock: when the detector finds
    exactly one face and the identity check of this turn accepts it, the
    turn attempts no lock, sets [last_seen_someone] to the time of the
    turn and counts the frame. *)
Theorem authorized_face_passes st o frame loc :
  Sees o frame [loc] ->
  result_of (verify cfg known st (to_rgb frame) [loc]) = Returns true ->
  locked (trace_of (iteration st o)) = false /\
  (forall st', result_of (iteration st o) = Returns st' ->
     st' = {| last_seen_someone := now o; frame_i := frame_i st + 1 |}).
Proof. intros Hsees Hv. apply (iteration_one_face st o frame loc true Hsees Hv). Qed.

(** One face that is not authorized locks at once: when the
    detector finds exactly one face and the identity check rejects it,
    fails to encode it or is skipped by the sampling, the turn attempts
    a lock, with no grace period, and [last_seen_someone] keeps its
    value. *)
Theorem unauthorized_face_locks st o frame loc :
  Sees o frame [loc] ->
  result_of (verify cfg known st (to_rgb frame) [loc]) = Returns false ->
  locked (trace_of (iteration st o)) = true /\
  (forall st', result_of (iteration st o) = Returns st' ->
     st' = {| last_seen_someone := last_seen_someone st; frame_i := frame_i st + 1 |}).
Proof. intros Hsees Hv. apply (iteration_one_face st o frame loc false Hsees Hv). Qed.

(** C8. One face is decided by the identity check of the turn: when
    the detector finds exactly one face, the turn attempts a lock exactly
    when the check does not accept the face (it rejects it, cannot
    encode it or is skipped by the sampling), with no grace period;
    [last_seen_someone] becomes the time of the turn when the face is
    accepted and keeps its value otherwise, and the frame is counted in
    both cases. *)
Theorem one_face_decides st o frame loc accepted :
  Sees o frame [loc] ->
  result_of (verify cfg known st (to_rgb frame) [loc]) = Returns accepted ->
  locked (trace_of (iteration st o)) = negb accepted /\
  (forall st', result_of (iteration st o) = Returns st' ->
     st' = {| last_seen_someone := if accepted then now o else last_seen_someone st;
              frame_i := frame_i st + 1 |}).
Proof. apply iteration_one_face. Qed.
End Acting.

(** ** The gate, the frame and the faults of a turn *)

(** [is_vision ev]: an event of the camera, the detector or the
    encoder. *)
Definition is_vision (ev : Event) : bool :=
  match ev with
  | EvGrab _ | EvRetrieve _ | EvRead _ | EvFaceLocations _ _ | EvFaceEncodings => true
  | _ => false
  end.

Lemma lock_event_not_vision ev : lock_event ev = true -> is_vision ev = false.
Proof. by destruct ev. Qed.

Section Faults.
Context `{Vision}.
Context (lock_session : (Cmd -> outcome unit) -> Prog bool) `{!LockActuator lock_session}.
Context (cfg : Config) (cap : Z) (known : list Encoding).
Implicit Types (st : State) (o : Obs) (s : Sample).

Local Abbreviation iteration := (iteration lock_session cfg cap known).
Local Abbreviation sense := (sense cfg cap known).
Local Abbreviation react := (react lock_session cfg).
Local Abbreviation lock_and_cool := (lock_and_cool lock_session cfg).

(** When the gate is on, the phone is missing unless [bluetoothctl]
    answered and its output says "Connected: yes". *)
Lemma phone_missing_result o :
  result_of (phone_missing cfg o) =
  if USE_BLUETOOTH cfg then
    match bt o (bluetoothctl_info (PHONE_MAC cfg)) with
    | Returns proc =>
        Returns (negb (contains "Connected: yes" (or_empty (fst proc) +:+ or_empty (snd proc))))
    | Raises e => if is_Exception e then Returns true else Raises e
    end
  else Returns false.
Proof.
  unfold phone_missing. destruct (USE_BLUETOOTH cfg); [|done].
  rewrite result_bind, is_phone_present_cases.
  destruct (bt o _) as [|e]; [done|]. by destruct (is_Exception e).
Qed.

Lemma phone_missing_no_vision o :
  Forall (fun ev => is_vision ev = false) (trace_of (phone_missing cfg o)).
Proof.
  unfold phone_missing. destruct (USE_BLUETOOTH cfg); [|constructor].
  rewrite trace_bind, is_phone_present_cases.
  destruct (bt o _) as [|e]; [|destruct (is_Exception e)]; by repeat constructor.
Qed.

Lemma lock_and_cool_no_vision o :
  Forall (fun ev => is_vision ev = false) (trace_of (lock_and_cool o)).
Proof.
  unfold PresenceLoop.lock_and_cool. apply trace_bind_Forall.
  - eapply Forall_impl; [apply lock_footprint|]. apply lock_event_not_vision.
  - intros _ _. by repeat constructor.
Qed.

(** C9. The gate takes precedence: when the Bluetooth gate is on and
    the phone is not reported as connected, the turn attempts a lock
    without touching the camera, the detector or the encoder, whoever is
    in front of the device, and leaves the state as it was. *)
Theorem gate_precedes_faces st o :
  result_of (phone_missing cfg o) = Returns true ->
  locked (trace_of (iteration st o)) = true /\
  Forall (fun ev => is_vision ev = false) (trace_of (iteration st o)) /\
  (forall st', result_of (iteration st o) = Returns st' -> st' = st).
Proof.
  intros Hg. rewrite iteration_sense_react, (sense_gate _ _ _ st o Hg), bind_prepend, bind_ret_l.
  rewrite trace_prepend, result_prepend, locked_app, react_locked by done. split_and!.
  - apply orb_true_r.
  - apply Forall_app. split; [apply phone_missing_no_vision|].
    unfold PresenceLoop.react; cbn [spec_lock companion].
    apply trace_bind_Forall; [by repeat constructor|]. intros _ _.
    apply trace_bind_Forall; [apply lock_and_cool_no_vision | constructor].
  - intros st' ->%react_result. by apply next_state_gate.
Qed.

(** C37. A failure of the detector ends the turn without a lock: when
    [face_locations] raises an [Exception] the turn raises it, and its
    trace holds no event of the lock actuator.  The specification asks
    for the opposite, zero regions and the fail-closed path. *)
Theorem detector_failure_no_lock st o frame e :
  result_of (phone_missing cfg o) = Returns false ->
  result_of (latest_frame cap (capture o)) = Returns (Some frame) ->
  face_locations (to_rgb frame) (HOG_UPSAMPLE cfg) HOG = Raises e ->
  result_of (iteration st o) = Raises e /\
  locked (trace_of (iteration st o)) = false.
Proof.
  intros Hg Hf He.
  assert (result_of (sense st o) = Raises e) as Hs.
  { unfold PresenceLoop.sense. rewrite result_bind, Hg, result_bind, Hf, result_bind.
    by rewrite detect_faces_rgb_cases, He. }
  rewrite iteration_trace, iteration_result, Hs, app_nil_r. split; [done|].
  apply sense_not_locked.
Qed.

(** A turn that locks for a face reason sleeps twice: when the gate
    lets the turn through and the rules say lock, a turn that completes
    ends with the cooldown followed by the poll interval, its only two
    sleeps; the specification lets a locking turn sleep for the cooldown
    alone. *)
Theorem locking_turn_sleeps_twice st o s :
  companion s = true -> spec_lock cfg (last_seen_someone st) s = true ->
  returned (result_of (lock_session (run o))) = true ->
  cooldown o = Returns tt ->
  exists t, trace_of (react st o (Some s))
            = t ++ [EvSleep (LOCK_COOLDOWN cfg); EvSleep (CHECK_INTERVAL cfg)] /\
            Forall (fun ev => is_sleep ev = false) t.
Proof.
  intros Hc Hl Hr Hcool. unfold PresenceLoop.react. rewrite Hl, Hc.
  destruct (result_of (lock_session (run o))) as [b|] eqn:Hb; [|done].
  rewrite !trace_bind, result_log, (lock_and_cool_trace _ _ _ b Hb).
  rewrite (lock_and_cool_result _ _ _ b Hb), Hcool, trace_sleep, trace_log, result_sleep.
  exists (logs (announce s true) ++ trace_of (lock_session (run o))). split.
  - rewrite <- !app_assoc. by destruct (interval o).
  - do 2 (constructor; [done|]). eapply Forall_impl; [apply lock_footprint|]. by intros [].
Qed.
End Faults.

(** ** Sampling along two turns *)

Section Stationary.
Context `{Vision}.
Context (lock_session : (Cmd -> outcome unit) -> Prog bool) `{!LockActuator lock_session}.
Context (cfg : Config) (cap : Z) (known : list Encoding).
Implicit Types (st : State) (o : Obs).

Local Abbreviation iteration := (iteration lock_session cfg cap known).
Local Abbreviation Sees := (Sees cfg cap).

(** C38. Sampling locks a face that stays: when the identity check runs
    every [ENCODING_EVERY_N >= 2] frames, of two consecutive turns that
    each see exactly one face at least one attempts a lock, whoever the
    face belongs to; an enrolled user who does not move is locked on
    every frame on which the check is not due. *)
Theorem sampling_locks_stationary_face st o1 o2 st1 frame1 frame2 loc1 loc2 :
  2 <= ENCODING_EVERY_N cfg ->
  Sees o1 frame1 [loc1] -> result_of (iteration st o1) = Returns st1 ->
  Sees o2 frame2 [loc2] ->
  locked (trace_of (iteration st o1)) = true \/ locked (trace_of (iteration st1 o2)) = true.
Proof.
  intros HN Hs1 Hr Hs2.
  assert (forall st o frame loc, Sees o frame [loc] ->
            frame_i st `mod` ENCODING_EVERY_N cfg <> 0 ->
            locked (trace_of (iteration st o)) = true) as Hskip.
  { intros st2 o frame loc Hs Hm.
    apply (iteration_one_face lock_session cfg cap known st2 o frame loc false Hs).
    rewrite verify_cases. by repeat case_decide; try lia. }
  destruct (decide (frame_i st `mod` ENCODING_EVERY_N cfg = 0)) as [Hm|Hm]; [right | by eauto].
  apply (Hskip _ _ frame2 loc2 Hs2).
  pose proof (sense_sees cfg cap known st o1 frame1 [loc1] Hs1) as Hs.
  rewrite bool_decide_eq_false_2 in Hs by (by intros []).
  rewrite (iteration_result lock_session) in Hr.
  destruct (result_of (verify _ _ st _ _)) as [a|]; rewrite Hs in Hr; [|done].
  apply react_result in Hr as ->.
  cbn [next_state frame_i companion face_count andb]. rewrite bool_decide_eq_true_2 by done.
  rewrite Z.add_mod, Hm, Z.add_0_l, Z.mod_mod, Z.mod_1_l by lia. lia.
Qed.
End Stationary.

(** ** Witnesses *)

(** One enrolled face at distance 0.3, seen one second after the start. *)
Lemma iteration_refines_spec_witness :
  let V := stub_vision [face] [] [near_me] in
  let s := {| companion := true; face_count := 1; authorized := true; at_time := 1000000 |} in
  let turn := iteration (H := V) PresenceGuard.lock_session default_config 0 [me] st0 (calm 1000000) in
  locked (trace_of turn) = spec_lock default_config 0 s /\
  (forall st', result_of turn = Returns st' -> st' = next_state st0 s) /\
  (returned (result_of (PresenceGuard.lock_session (run (calm 1000000)))) = true ->
   cooldown (calm 1000000) = Returns tt -> interval (calm 1000000) = Returns tt ->
   result_of turn = Returns (next_state st0 s)).
Proof.
  intros V s turn.
  apply (iteration_refines_spec (H := V) PresenceGuard.lock_session default_config 0 [me]
           st0 (calm 1000000) s).
  vm_compute. reflexivity.
Defined.

(** Two faces in the frame. *)
Lemma multiple_faces_lock_witness :
  let V := stub_vision [face; face] [] [near_me] in
  let turn := iteration (H := V) PresenceGuard.lock_session default_config 0 [me] st0 (calm 1000000) in
  locked (trace_of turn) = true /\
  (forall st', result_of turn = Returns st' -> st' = st0).
Proof.
  intros V turn.
  apply (multiple_faces_lock (H := V) PresenceGuard.lock_session default_config 0 [me]
           st0 (calm 1000000) frame0 [face; face]).
  - repeat split; vm_compute; reflexivity.
  - simpl. lia.
Defined.

(** Nobody in the frame, seven seconds after the last sighting, with the
    timeout of six seconds. *)
Lemma absence_locks_at_timeout_witness :
  let V := stub_vision [] [] [] in
  let turn := iteration (H := V) PresenceGuard.lock_session default_config 0 [me] st0 (calm 7000000) in
  (locked (trace_of turn) = true <->
   (ABSENCE_TIMEOUT default_config
      <= total_seconds (time_sub (now (calm 7000000)) (last_seen_someone st0)))%Q) /\
  (forall st', result_of turn = Returns st' -> st' = st0).
Proof.
  intros V turn.
  apply (absence_locks_at_timeout (H := V) PresenceGuard.lock_session default_config 0 [me]
           st0 (calm 7000000) frame0).
  repeat split; vm_compute; reflexivity.
Defined.

Lemma authorized_face_passes_witness :
  let V := stub_vision [face] [] [near_me] in
  let turn := iteration (H := V) PresenceGuard.lock_session default_config 0 [me] st0 (calm 1000000) in
  locked (trace_of turn) = false /\
  (forall st', result_of turn = Returns st' ->
     st' = {| last_seen_someone := 1000000; frame_i := 1 |}).
Proof.
  intros V turn.
  apply (authorized_face_passes (H := V) PresenceGuard.lock_session default_config 0 [me]
           st0 (calm 1000000) frame0 face).
  - repeat split; vm_compute; reflexivity.
  - vm_compute. reflexivity.
Defined.

Lemma unauthorized_face_locks_witness :
  let V := stub_vision [face] [] [stranger] in
  let turn := iteration (H := V) PresenceGuard.lock_session default_config 0 [me] st0 (calm 1000000) in
  locked (trace_of turn) = true /\
  (forall st', result_of turn = Returns st' ->
     st' = {| last_seen_someone := 0; frame_i := 1 |}).
Proof.
  intros V turn.
  apply (unauthorized_face_locks (H := V) PresenceGuard.lock_session default_config 0 [me]
           st0 (calm 1000000) frame0 face).
  - repeat split; vm_compute; reflexivity.
  - vm_compute. reflexivity.
Defined.

Lemma one_face_decides_witness :
  let V := stub_vision [face] [] [stranger] in
  let turn := iteration (H := V) PresenceGuard.lock_session default_config 0 [me] st0 (calm 1000000) in
  locked (trace_of turn) = negb false /\
  (forall st', result_of turn = Returns st' ->
     st' = {| last_seen_someone := 0; frame_i := 0 + 1 |}).
Proof.
  intros V turn.
  apply (one_face_decides (H := V) PresenceGuard.lock_session default_config 0 [me]
           st0 (calm 1000000) frame0 face false).
  - repeat split; vm_compute; reflexivity.
  - vm_compute. reflexivity.
Defined.

(** The enrolled face on a frame where the check is due. *)
Lemma verify_true_iff_witness :
  let V := stub_vision [face] [] [near_me] in
  result_of (verify (H := V) default_config [me] st0 frame0 [face]) = Returns true <->
  frame_i st0 `mod` ENCODING_EVERY_N default_config = 0 /\
  exists enc encs k, face_encodings (Vision := V) frame0 [face] = Returns (enc :: encs) /\
    k ∈ [me] /\ (norm (Vision := V) (row_sub k enc) <= ALLOWED_TOLERANCE default_config)%Q.
Proof.
  intros V. apply (verify_true_iff (H := V) default_config [me] st0 frame0 [face]); done.
Defined.

(** The second frame when the check runs every other frame. *)
Lemma verify_skipped_witness :
  verify (H := stub_vision [face] [] [near_me]) (sampled_config 2) [me]
    {| last_seen_someone := 0; frame_i := 1 |} frame0 [face]
  = ([], Returns false).
Proof. apply verify_skipped; done. Defined.

Lemma verify_zero_interval_witness :
  verify (H := stub_vision [face] [] [near_me]) (sampled_config 0) [me] st0 frame0 [face]
  = ([], Raises ZeroDivisionError).
Proof. apply verify_zero_interval; done. Defined.

(** The enrolled face in front of the camera, the phone out of reach. *)
Lemma gate_precedes_faces_witness :
  let V := stub_vision [face] [] [near_me] in
  let turn := iteration (H := V) PresenceGuard.lock_session gated_config 0 [me] st0
                (phone_away 1000000) in
  locked (trace_of turn) = true /\
  Forall (fun ev => is_vision ev = false) (trace_of turn) /\
  (forall st', result_of turn = Returns st' -> st' = st0).
Proof.
  intros V turn.
  apply (gate_precedes_faces (H := V) PresenceGuard.lock_session gated_config 0 [me]
           st0 (phone_away 1000000)).
  vm_compute. reflexivity.
Defined.

(** A detector that raises [OtherException]. *)
Lemma detector_failure_no_lock_witness :
  let V := broken_vision (OtherException "dlib") in
  let turn := iteration (H := V) PresenceGuard.lock_session default_config 0 [me] st0
                (calm 1000000) in
  result_of turn = Raises (OtherException "dlib") /\ locked (trace_of turn) = false.
Proof.
  intros V turn.
  apply (detector_failure_no_lock (H := V) PresenceGuard.lock_session default_config 0 [me]
           st0 (calm 1000000) frame0 (OtherException "dlib")); vm_compute; reflexivity.
Defined.

(** Two faces: the lock, four seconds of cooldown, then the poll
    interval. *)
Lemma locking_turn_sleeps_twice_witness :
  let s := {| companion := true; face_count := 2; authorized := false; at_time := 1000000 |} in
  exists t, trace_of (react PresenceGuard.lock_session default_config st0 (calm 1000000) (Some s))
            = t ++ [EvSleep 4; EvSleep (35 # 100)] /\
            Forall (fun ev => is_sleep ev = false) t.
Proof.
  intros s.
  apply (locking_turn_sleeps_twice PresenceGuard.lock_session
           default_config st0 (calm 1000000) s); reflexivity.
Defined.

Lemma sampling_locks_stationary_face_witness :
  let V := stub_vision [face] [] [near_me] in
  let st1 := {| last_seen_someone := 1000000; frame_i := 1 |} in
  locked (trace_of (iteration (H := V) PresenceGuard.lock_session (sampled_config 2) 0 [me]
                      st0 (calm 1000000))) = true \/
  locked (trace_of (iteration (H := V) PresenceGuard.lock_session (sampled_config 2) 0 [me]
                      st1 (calm 2000000))) = true.
Proof.
  intros V st1.
  apply (sampling_locks_stationary_face (H := V) PresenceGuard.lock_session
           (sampled_config 2) 0 [me] st0 (calm 1000000) (calm 2000000) st1
           frame0 frame0 face face).
  - done.
  - repeat split; vm_compute; reflexivity.
  - vm_compute. reflexivity.
  - repeat split; vm_compute; reflexivity.
Defined.
