(* ===== verification/PresenceRun.v ===== *)
(** * Runs of the decision loop

    A run is a list of observations, one per turn; [loop] computes it.
    [reaches] is the relation between the states of a run and [senses]
    relates a run to the samples its turns sensed.  The theorems are
    invariants of the runs, by induction on [senses] or on the list of
    observations:

    - every lock cascade that came to its end is followed at once by
      the cooldown ([cooled], [settled]);
    - the loop simulates the presence state machine of the
      specification: the time of the last sighting, the decisions
      logged and the number of cascades are [spec_last], [spec_lines]
      and [spec_locks] of the samples sensed;
    - once a run of turns without a face has locked, it locks at every
      turn;
    - [frame_i] counts the turns that saw exactly one face;
    - [guarded_loop] releases the capture once, as its last event,
      whatever ends the loop, and lets no [Exception] escape. *)

From Stdlib Require Import Sorted.
From S2P Require Import Prelude Effects LockActuator Vision Gate Camera.
From S2P Require Import PresenceLoop Scenarios PresenceTurn.

(** ** Cooldown after a lock *)

(** [cooled d t]: in [t] every cascade that came to its end, its last
    line printed and appended to the log file, is followed at once by a
    sleep of [d] seconds. *)
Fixpoint cooled (d : Q) (t : trace) : Prop :=
  match t with
  | [] => True
  | ev :: t => (lock_done ev = true -> head t = Some (EvSleep d)) /\ cooled d t
  end.

(** [settled d t]: [t] is cooled and does not end on such a line, so
    that what follows it cannot break the cooldown. *)
Definition settled (d : Q) (t : trace) : Prop :=
  cooled d t /\ forall ev, last t = Some ev -> lock_done ev = false.

Section Cooled.
Context (d : Q).
Implicit Types (t : trace) (ev : Event).

Lemma cooled_quiet t : Forall (fun ev => lock_done ev = false) t -> cooled d t.
Proof. induction 1 as [|ev t Hev _ IH]; simpl; [done|]. split; [congruence | done]. Qed.

Lemma settled_quiet t : Forall (fun ev => lock_done ev = false) t -> settled d t.
Proof.
  intros Hq. split; [by apply cooled_quiet|]. intros ev Hl.
  rewrite Forall_forall in Hq. apply Hq. apply last_Some in Hl as [t' ->].
  apply elem_of_app. right. by left.
Qed.

Lemma settled_nil : settled d [].
Proof. by apply settled_quiet. Qed.

Lemma cooled_app t t' :
  settled d t -> cooled d t' -> cooled d (t ++ t').
Proof.
  intros [Hc Hl]. induction t as [|ev t IH]; intros Ht'; [done|].
  simpl in *. destruct Hc as [Hev Hc]. split.
  - intros Hd. destruct t as [|ev' t]; [|by apply Hev].
    by rewrite (Hl ev) in Hd.
  - apply IH; [done| |done]. intros ev' Hl'. apply Hl.
    by destruct t.
Qed.

Lemma settled_app t t' : settled d t -> settled d t' -> settled d (t ++ t').
Proof.
  intros Ht [Hc' Hl']. split; [by apply cooled_app|].
  intros ev. destruct t' as [|ev' t'] using rev_ind.
  - rewrite app_nil_r. apply Ht.
  - rewrite app_assoc, !last_snoc. intros [= <-]. apply Hl'. by rewrite last_snoc.
Qed.

(** A cascade that returned, followed by the cooldown. *)
Lemma settled_cascade t ev :
  Forall (fun ev => lock_done ev = false) t -> lock_done ev = true ->
  settled d (t ++ [ev; EvSleep d]).
Proof.
  intros Ht Hev. apply (settled_app t [ev; EvSleep d]); [by apply settled_quiet|].
  split; [by repeat split | by intros ? [= <-]].
Qed.
End Cooled.

(** A program whose parts are settled is settled. *)
Lemma settled_bind {A B} d (m : Prog A) (f : A -> Prog B) :
  settled d (trace_of m) ->
  (forall a, result_of m = Returns a -> settled d (trace_of (f a))) ->
  settled d (trace_of (m ≫= f)).
Proof.
  intros Hm Hf. rewrite trace_bind. apply settled_app; [done|].
  destruct (result_of m); [by apply Hf | apply settled_nil].
Qed.

(** A loop whose steps are settled is settled. *)
Lemma for_each_settled {S X} d (step : S -> X -> Prog S) :
  (forall st x, settled d (trace_of (step st x))) ->
  forall xs st, settled d (trace_of (for_each step st xs)).
Proof.
  intros Hstep. induction xs as [|x xs IH]; intros st; [apply settled_nil|].
  cbn [for_each]. apply settled_bind; auto.
Qed.

Lemma lock_done_event ev : lock_done ev = true -> lock_event ev = true.
Proof. destruct ev as [[]| | | | | | | | | | | | |[]]; done. Qed.

Lemma not_lock_event_not_done t :
  Forall (fun ev => lock_event ev = false) t -> Forall (fun ev => lock_done ev = false) t.
Proof.
  intros Hf. eapply Forall_impl; [exact Hf|].
  intros ev Hev. destruct (lock_done ev) eqn:Hd; [|done].
  apply lock_done_event in Hd. congruence.
Qed.

Section Cooldown.
Context `{Vision}.
Context (lock_session : (Cmd -> outcome unit) -> Prog bool) `{!LockActuator lock_session}.
Context (cfg : Config) (cap : Z) (known : list Encoding).
Implicit Types (st : State) (o : Obs) (os : list Obs).

Local Abbreviation iteration := (iteration lock_session cfg cap known).
Local Abbreviation loop := (loop lock_session cfg cap known).
Local Abbreviation guarded_loop := (guarded_loop lock_session cfg cap known).
Local Abbreviation cool := (settled (LOCK_COOLDOWN cfg)).

Lemma lock_and_cool_settled o : cool (trace_of (lock_and_cool lock_session cfg o)).
Proof.
  unfold lock_and_cool. rewrite trace_bind.
  destruct (result_of (lock_session (run o))) as [b|e] eqn:Hr.
  - destruct (lock_ends (run o) b Hr) as (t & ev & -> & Hev & Ht).
    rewrite <- app_assoc. by apply settled_cascade.
  - rewrite app_nil_r. apply settled_quiet. by apply (lock_interrupted (run o) e).
Qed.

Lemma quiet_settled {A} (m : Prog A) :
  Forall (fun ev => lock_event ev = false) (trace_of m) -> cool (trace_of m).
Proof. intros Hq. by apply settled_quiet, not_lock_event_not_done. Qed.

Lemma react_settled st o s : cool (trace_of (react lock_session cfg st o s)).
Proof.
  destruct s as [s|]; unfold react.
  - apply settled_bind; [apply quiet_settled, announce_not_lock|].
    intros _ _. apply settled_bind.
    + destruct (spec_lock _ _ _); [apply lock_and_cool_settled | apply settled_nil].
    + intros _ _. apply quiet_settled. destruct (companion s), (interval o); by repeat constructor.
  - apply quiet_settled. destruct (interval o); by repeat constructor.
Qed.

Lemma iteration_settled st o : cool (trace_of (iteration st o)).
Proof.
  rewrite iteration_sense_react. apply settled_bind.
  - apply quiet_settled, locked_false, sense_not_locked.
  - intros s _. apply react_settled.
Qed.

Lemma loop_settled os st : cool (trace_of (loop st os)).
Proof. rewrite loop_for_each. apply for_each_settled, iteration_settled. Qed.

(** C4. Cooldown invariant: in every run of the guarded loop, whatever
    the observations are and whatever ends the run, each line that
    closes a lock cascade ("Locked via ..." or "All lock commands
    failed."), once [log] has printed it and appended it to the log
    file, is followed at once by [time.sleep(LOCK_COOLDOWN)]: no frame
    is read and no other lock is attempted in between. *)
Theorem cooldown_follows_every_lock start os :
  cooled (LOCK_COOLDOWN cfg) (trace_of (guarded_loop start os)).
Proof.
  unfold PresenceLoop.guarded_loop. rewrite trace_bind, trace_log, result_log.
  apply (cooled_app _ [_; _]); [by apply settled_quiet; repeat constructor|].
  rewrite finally_trace. apply cooled_app; [|by repeat split].
  rewrite try_except_trace, trace_bind_mret. apply settled_app; [apply loop_settled|].
  apply settled_quiet. destruct (result_of _) as [|e]; [constructor|].
  destruct e; by repeat constructor.
Qed.
End Cooldown.

(** ** The presence state machine over a run *)

(** The time of the last sighting after the samples [ss]. *)
Definition spec_last (last : Time) (ss : list Sample) : Time :=
  fold_left spec_seen ss last.

(** The decisions of the rules on the samples [ss], in order. *)
Fixpoint spec_locks (cfg : Config) (last : Time) (ss : list Sample) : list bool :=
  match ss with
  | [] => []
  | s :: ss => spec_lock cfg last s :: spec_locks cfg (spec_seen last s) ss
  end.

(** The lines that announce the decisions. *)
Definition spec_lines (cfg : Config) (last : Time) (ss : list Sample) : list Msg :=
  zip_with announce ss (spec_locks cfg last ss).

(** ** Observations on the trace of a run *)

(** The line by which a turn announces its decision, if [ev] is one. *)
Definition decided (ev : Event) : option Msg :=
  match ev with
  | EvLog MNoFacesTimeout => Some MNoFacesTimeout
  | EvLog MWaiting => Some MWaiting
  | EvLog MMultipleFaces => Some MMultipleFaces
  | EvLog MAuthorized => Some MAuthorized
  | EvLog MSingleNotAuthorized => Some MSingleNotAuthorized
  | EvLog MPhoneNotPresent => Some MPhoneNotPresent
  | _ => None
  end.

(** The decisions a trace announces, in order. *)
Definition verdicts (t : trace) : list Msg := omap decided t.

(** The number of lock cascades a trace brought to their end. *)
Definition cascades (t : trace) : nat := count_b lock_done t.

Lemma verdicts_app t t' : verdicts (t ++ t') = verdicts t ++ verdicts t'.
Proof. apply omap_app. Qed.

Lemma cascades_app t t' : cascades (t ++ t') = (cascades t + cascades t')%nat.
Proof. apply count_b_app. Qed.

Lemma verdicts_none t : Forall (fun ev => decided ev = None) t -> verdicts t = [].
Proof. induction 1 as [|ev t Hev _ IH]; [done|]. unfold verdicts in *. simpl. by rewrite Hev. Qed.

Lemma cascades_none t : Forall (fun ev => lock_done ev = false) t -> cascades t = 0%nat.
Proof. apply count_b_zero. Qed.

Lemma verdict_announce s l : decided (EvLog (announce s l)) = Some (announce s l).
Proof. unfold announce. by destruct (companion s), (phase s), l. Qed.

Lemma verdicts_announce s l : verdicts (logs (announce s l)) = [announce s l].
Proof. unfold verdicts. cbn [omap list_omap]. by rewrite verdict_announce. Qed.

Lemma announce_not_done s l :
  Forall (fun ev => lock_done ev = false) (logs (announce s l)).
Proof. apply not_lock_event_not_done, announce_not_lock. Qed.

Lemma lock_event_no_verdict ev : lock_event ev = true -> decided ev = None.
Proof. destruct ev as [[]| | | | | | | | | | | | |[]]; done. Qed.

Lemma sense_event_no_verdict cfg cap ev : sense_event cfg cap ev = true -> decided ev = None.
Proof. destruct ev as [[]| | | | | | | | | | | | |[]]; done. Qed.

(** ** Runs *)

Section Runs.
Context `{Vision}.
Context (lock_session : (Cmd -> outcome unit) -> Prog bool) `{!LockActuator lock_session}.
Context (cfg : Config) (cap : Z) (known : list Encoding).
Implicit Types (st : State) (o : Obs) (os : list Obs) (s : Sample) (ss : list Sample).

Local Abbreviation iteration := (iteration lock_session cfg cap known).
Local Abbreviation loop := (loop lock_session cfg cap known).
Local Abbreviation sense := (sense cfg cap known).
Local Abbreviation react := (react lock_session cfg).

(** [reaches st os st']: the loop started in [st] completes the turns
    of [os] and is then in [st']. *)
Inductive reaches : State -> list Obs -> State -> Prop :=
| reaches_nil st : reaches st [] st
| reaches_turn st o st' os st'' :
    result_of (iteration st o) = Returns st' ->
    reaches st' os st'' ->
    reaches st (o :: os) st''.

(** [senses st os ss st']: a run that reaches [st'], with the samples
    its turns sensed; a turn whose frame could not be read senses
    nothing. *)
Inductive senses : State -> list Obs -> list Sample -> State -> Prop :=
| senses_nil st : senses st [] [] st
| senses_sample st o s st' os ss st'' :
    result_of (sense st o) = Returns (Some s) ->
    result_of (iteration st o) = Returns st' ->
    senses st' os ss st'' ->
    senses st (o :: os) (s :: ss) st''
| senses_unread st o st' os ss st'' :
    result_of (sense st o) = Returns None ->
    result_of (iteration st o) = Returns st' ->
    senses st' os ss st'' ->
    senses st (o :: os) ss st''.

(** [loop] computes the runs. *)
Lemma loop_reaches st os st' : result_of (loop st os) = Returns st' <-> reaches st os st'.
Proof.
  split.
  - revert st. induction os as [|o os IH]; intros st; cbn [PresenceLoop.loop].
    + intros [= <-]. constructor.
    + intros (st1 & H1 & H2)%bind_returns_inv. econstructor; eauto.
  - induction 1 as [|st o st1 os st2 H1 _ IH]; [done|].
    cbn [PresenceLoop.loop]. by rewrite result_bind, H1.
Qed.

Lemma loop_cons_trace st o os st' :
  result_of (iteration st o) = Returns st' ->
  trace_of (loop st (o :: os)) = trace_of (iteration st o) ++ trace_of (loop st' os).
Proof. intros Hr. cbn [PresenceLoop.loop]. by rewrite trace_bind, Hr. Qed.

(** Every run senses some list of samples. *)
Lemma reaches_senses st os st' : reaches st os st' -> exists ss, senses st os ss st'.
Proof.
  induction 1 as [|st o st1 os st2 H1 _ [ss IH]]; [exists []; constructor|].
  pose proof H1 as H1'. rewrite iteration_result in H1'.
  destruct (result_of (sense st o)) as [[s|]|] eqn:Hs; [| |done].
  - exists (s :: ss). by econstructor.
  - exists ss. by econstructor 3.
Qed.

Lemma senses_reaches st os ss st' : senses st os ss st' -> reaches st os st'.
Proof. induction 1; econstructor; eauto. Qed.

(** *** What one turn shows in the trace *)

Lemma lock_and_cool_verdicts o : verdicts (trace_of (lock_and_cool lock_session cfg o)) = [].
Proof.
  apply verdicts_none. unfold lock_and_cool. apply trace_bind_Forall.
  - eapply Forall_impl; [apply lock_footprint | apply lock_event_no_verdict].
  - intros _ _. by repeat constructor.
Qed.

Lemma sense_verdicts st o : verdicts (trace_of (sense st o)) = [].
Proof.
  apply verdicts_none. eapply Forall_impl; [apply sense_sensing|].
  apply sense_event_no_verdict.
Qed.

Lemma sense_cascades st o : cascades (trace_of (sense st o)) = 0%nat.
Proof. apply cascades_none, not_lock_event_not_done, locked_false, sense_not_locked. Qed.

Lemma react_verdicts st o s :
  verdicts (trace_of (react st o (Some s)))
  = [announce s (spec_lock cfg (last_seen_someone st) s)].
Proof.
  unfold PresenceLoop.react. rewrite trace_bind, verdicts_app, trace_log, result_log.
  rewrite verdicts_announce. cbn [app]. f_equal.
  rewrite trace_bind, verdicts_app.
  replace (verdicts (trace_of (if spec_lock _ _ _ then _ else _))) with (@nil Msg)
    by (destruct (spec_lock _ _ _); by rewrite ?lock_and_cool_verdicts).
  destruct (result_of _); [|done]. rewrite trace_bind.
  by destruct (companion s), (interval o).
Qed.

(** A turn that returns brought one cascade to its end if it locked,
    none otherwise. *)
Lemma react_cascades st o s st' :
  result_of (react st o (Some s)) = Returns st' ->
  cascades (trace_of (react st o (Some s)))
  = if spec_lock cfg (last_seen_someone st) s then 1%nat else 0%nat.
Proof.
  unfold PresenceLoop.react. rewrite result_bind, result_log, result_bind.
  rewrite trace_bind, cascades_app, trace_log, result_log, trace_bind, cascades_app.
  rewrite (cascades_none [_; _]) by apply announce_not_done.
  destruct (spec_lock _ _ _).
  - unfold lock_and_cool at 1 2 3. rewrite result_bind, trace_bind.
    destruct (result_of (lock_session (run o))) as [b|] eqn:Hb; [|done].
    destruct (lock_ends (run o) b Hb) as (t & ev & -> & Hev & Ht).
    rewrite !cascades_app, (cascades_none t Ht). unfold cascades at 1 2. simpl. rewrite Hev.
    destruct (cooldown o); [|done]. rewrite trace_bind.
    by destruct (companion s), (interval o).
  - rewrite result_mret, trace_mret, trace_bind. by destruct (companion s), (interval o).
Qed.

Lemma react_unread st o st' :
  result_of (react st o None) = Returns st' ->
  st' = st /\ verdicts (trace_of (react st o None)) = [] /\
  cascades (trace_of (react st o None)) = 0%nat.
Proof. unfold PresenceLoop.react. cbn. by destruct (interval o); [intros [= <-]|]. Qed.

(** *** Simulation *)

(** Induction on a run with its samples and its trace: the trace of
    the loop is the sensing and the decision of the first turn, followed
    by the trace of the rest. *)
Lemma senses_trace_ind (P : State -> list Sample -> trace -> Prop) :
  (forall st, P st [] []) ->
  (forall st o s ss t,
     result_of (sense st o) = Returns (Some s) ->
     result_of (react st o (Some s)) = Returns (next_state st s) ->
     P (next_state st s) ss t ->
     P st (s :: ss) (trace_of (sense st o) ++ trace_of (react st o (Some s)) ++ t)) ->
  (forall st o ss t,
     result_of (sense st o) = Returns None ->
     result_of (react st o None) = Returns st ->
     P st ss t ->
     P st ss (trace_of (sense st o) ++ trace_of (react st o None) ++ t)) ->
  forall st os ss st', senses st os ss st' -> P st ss (trace_of (loop st os)).
Proof.
  intros Hnil Hsample Hunread.
  induction 1 as [st|st o s st1 os ss st2 Hs Hr _ IH|st o st1 os ss st2 Hs Hr _ IH];
    [apply Hnil|..];
    rewrite (loop_cons_trace _ _ _ _ Hr), (iteration_trace lock_session), Hs, <- app_assoc;
    rewrite (iteration_result lock_session), Hs in Hr.
  - assert (st1 = next_state st s) as -> by (by apply react_result in Hr). by apply Hsample.
  - destruct (react_unread _ _ _ Hr) as (-> & _). by apply Hunread.
Qed.

Lemma senses_last st os ss st' :
  senses st os ss st' -> last_seen_someone st' = spec_last (last_seen_someone st) ss.
Proof.
  induction 1 as [st|st o s st1 os ss st2 Hs Hr _ IH|st o st1 os ss st2 Hs Hr _ IH];
    [done|..]; rewrite IH; rewrite (iteration_result lock_session), Hs in Hr.
  - by apply react_result in Hr as ->.
  - by destruct (react_unread _ _ _ Hr) as (-> & _).
Qed.

Lemma senses_verdicts st os ss st' :
  senses st os ss st' ->
  verdicts (trace_of (loop st os)) = spec_lines cfg (last_seen_someone st) ss.
Proof.
  intros Hrun. refine (senses_trace_ind
    (fun st ss t => verdicts t = spec_lines cfg (last_seen_someone st) ss)
    _ _ _ st os ss st' Hrun); [done|..].
  - intros st0 o s ss0 t Hs Hr IH.
    by rewrite !verdicts_app, sense_verdicts, react_verdicts, IH.
  - intros st0 o ss0 t Hs Hr IH. destruct (react_unread _ _ _ Hr) as (_ & Hv & _).
    by rewrite !verdicts_app, sense_verdicts, Hv.
Qed.

Lemma senses_cascades st os ss st' :
  senses st os ss st' ->
  cascades (trace_of (loop st os))
  = count_b id (spec_locks cfg (last_seen_someone st) ss).
Proof.
  intros Hrun. refine (senses_trace_ind
    (fun st ss t => cascades t = count_b id (spec_locks cfg (last_seen_someone st) ss))
    _ _ _ st os ss st' Hrun); [done|..].
  - intros st0 o s ss0 t Hs Hr IH.
    rewrite !cascades_app, sense_cascades, (react_cascades _ _ _ _ Hr), IH.
    cbn [spec_locks count_b]. by destruct (spec_lock _ _ _).
  - intros st0 o ss0 t Hs Hr IH. destruct (react_unread _ _ _ Hr) as (_ & _ & Hc).
    by rewrite !cascades_app, sense_cascades, Hc.
Qed.

(** C2. The loop simulates the presence state machine of the
    specification: along every run, [last_seen_someone] is the time the
    rules compute from the samples sensed, the decisions the log
    announces are the decisions of the rules in the same order, and the
    number of lock cascades carried out is the number of lock
    decisions. *)
Theorem loop_simulates_spec st os ss st' :
  senses st os ss st' ->
  last_seen_someone st' = spec_last (last_seen_someone st) ss /\
  verdicts (trace_of (loop st os)) = spec_lines cfg (last_seen_someone st) ss /\
  cascades (trace_of (loop st os))
  = count_b id (spec_locks cfg (last_seen_someone st) ss).
Proof.
  intros Hrun. split_and!.
  - by eapply senses_last.
  - by eapply senses_verdicts.
  - by eapply senses_cascades.
Qed.

(** C40. [frame_i] counts the turns that saw exactly one face: along a
    run it grows by one at each turn the gate let through with a face
    count of one, and at no other turn; it is not the index of the
    turn. *)
Theorem frame_i_counts_single_faces st os ss st' :
  senses st os ss st' ->
  frame_i st' = frame_i st
    + Z.of_nat (count_b (fun s => companion s && bool_decide (face_count s = 1%nat)) ss).
Proof.
  induction 1 as [st|st o s st1 os ss st2 Hs Hr _ IH|st o st1 os ss st2 Hs Hr _ IH];
    [simpl; lia|..]; rewrite IH; rewrite (iteration_result lock_session), Hs in Hr.
  - apply react_result in Hr as ->. cbn [next_state frame_i count_b].
    destruct (_ && _); lia.
  - by destruct (react_unread _ _ _ Hr) as (-> & _).
Qed.
End Runs.

(** ** The rules over a run of samples *)

Section Rules.
Context (cfg : Config).
Implicit Types (last : Time) (s : Sample) (ss : list Sample).

(** [absent s]: the gate let the turn through and nobody was seen. *)
Definition absent (s : Sample) : Prop := companion s = true /\ face_count s = 0%nat.

Lemma spec_seen_absent last s : absent s -> spec_seen last s = last.
Proof. intros [Hc Hn]. unfold spec_seen, phase. by rewrite Hc, Hn. Qed.

Lemma spec_lock_absent last s :
  absent s -> spec_lock cfg last s = (ABSENCE_TIMEOUT cfg <=? elapsed last s)%Q.
Proof. intros [Hc Hn]. unfold spec_lock, phase. by rewrite Hc, Hn. Qed.

Lemma announce_absent s l :
  absent s -> announce s l = if l then MNoFacesTimeout else MWaiting.
Proof. intros [Hc Hn]. unfold announce, phase. by rewrite Hc, Hn. Qed.

Lemma spec_last_absent last ss : Forall absent ss -> spec_last last ss = last.
Proof.
  induction 1 as [|s ss Hs _ IH]; [done|]. unfold spec_last in *. simpl.
  by rewrite spec_seen_absent.
Qed.

(** Later samples have waited longer. *)
Lemma elapsed_mono last s s' :
  at_time s <= at_time s' -> (elapsed last s <= elapsed last s')%Q.
Proof. intros Ht. apply total_seconds_mono. unfold time_sub. lia. Qed.

(** Once the rules lock for absence they lock at every later sample
    without a face. *)
Lemma spec_locks_absent_true last s ss :
  absent s -> spec_lock cfg last s = true ->
  Forall absent ss -> Forall (fun s' => at_time s <= at_time s') ss ->
  spec_locks cfg last ss = replicate (length ss) true.
Proof.
  intros Hs Hl Hss. rewrite spec_lock_absent in Hl by done. apply Qle_bool_true in Hl.
  revert last Hl. induction Hss as [|s' ss Hs' _ IH]; intros last Hl Ht; [done|].
  apply Forall_cons in Ht as [Ht Hts]. cbn [spec_locks length replicate].
  rewrite spec_seen_absent, IH by done. f_equal.
  rewrite spec_lock_absent by done. apply Qle_bool_true.
  eapply Qle_trans; [exact Hl | by apply elapsed_mono].
Qed.

(** On samples without a face in the order of the clock, the rules wait
    for some turns and lock at all the turns after them. *)
Lemma spec_locks_latch last ss :
  Forall absent ss -> StronglySorted Z.le (map at_time ss) ->
  exists k, (k <= length ss)%nat /\
    spec_locks cfg last ss = replicate k false ++ replicate (length ss - k) true.
Proof.
  intros Hss. revert last. induction Hss as [|s ss Hs Hss IH]; intros last Hsort.
  { by exists 0%nat. }
  cbn [map] in Hsort. apply StronglySorted_inv in Hsort as [Hsort Hle].
  cbn [spec_locks length]. rewrite spec_seen_absent by done.
  destruct (spec_lock cfg last s) eqn:Hl.
  - exists 0%nat. split; [lia|]. cbn [replicate app]. rewrite Nat.sub_0_r. cbn [replicate].
    f_equal. apply (spec_locks_absent_true last s); [done..|].
    by rewrite Forall_fmap in Hle.
  - destruct (IH last Hsort) as (k & Hk & ->). exists (S k). split; [lia|]. done.
Qed.
End Rules.

(** ** Consequences for the runs of the loop *)

Lemma spec_lines_absent cfg last ss :
  Forall absent ss ->
  spec_lines cfg last ss
  = (fun l : bool => if l then MNoFacesTimeout else MWaiting) <$> spec_locks cfg last ss.
Proof.
  unfold spec_lines. intros Hss. revert last.
  induction Hss as [|s ss Hs _ IH]; intros last; [done|].
  cbn [spec_locks zip_with fmap list_fmap]. by rewrite IH, (announce_absent s).
Qed.

(** [is_release ev]: the capture is released. *)
Definition is_release (ev : Event) : bool :=
  match ev with EvRelease _ => true | _ => false end.

(** The lines the guarded loop logs when [e] ends the loop. *)
Definition exit_lines (e : exn) : trace :=
  match e with
  | KeyboardInterrupt => logs MStopped
  | SystemExit _ => []
  | e => logs (MCrashed e)
  end.

Section Guard.
Context `{Vision}.
Context (lock_session : (Cmd -> outcome unit) -> Prog bool) `{!LockActuator lock_session}.
Context (cfg : Config) (cap : Z) (known : list Encoding).
Implicit Types (st : State) (o : Obs) (os : list Obs) (s : Sample) (ss : list Sample).

Local Abbreviation iteration := (iteration lock_session cfg cap known).
Local Abbreviation loop := (loop lock_session cfg cap known).
Local Abbreviation guarded_loop := (guarded_loop lock_session cfg cap known).
Local Abbreviation senses := (senses lock_session cfg cap known).
Local Abbreviation Sees := (Sees cfg cap).

(** Absence latches: in a run whose turns all see no face, with a
    clock that does not go back, the loop logs "waiting" for some turns
    and then "No faces for timeout -> locking" at every turn that
    follows, and [last_seen_someone] never moves: after the first lock
    for absence every turn is past the timeout until a face is
    authorized again. *)
Theorem absence_latches st os ss st' :
  senses st os ss st' -> Forall absent ss -> StronglySorted Z.le (map at_time ss) ->
  last_seen_someone st' = last_seen_someone st /\
  exists k, (k <= length ss)%nat /\
    verdicts (trace_of (loop st os))
    = replicate k MWaiting ++ replicate (length ss - k) MNoFacesTimeout.
Proof.
  intros Hrun Habs Hsort.
  rewrite (senses_last _ _ _ _ _ _ _ _ Hrun), (senses_verdicts _ _ _ _ _ _ _ _ Hrun).
  split; [by apply spec_last_absent|].
  destruct (spec_locks_latch cfg (last_seen_someone st) ss Habs Hsort) as (k & Hk & Hl).
  exists k. split; [done|]. rewrite spec_lines_absent, Hl by done.
  by rewrite fmap_app, !fmap_replicate.
Qed.

(** *** The guard around the loop *)

(** A turn creates and releases no capture. *)
Lemma iteration_no_lifecycle st o :
  Forall (fun ev => is_lifecycle ev = false) (trace_of (iteration st o)).
Proof.
  rewrite iteration_sense_react. apply trace_bind_Forall.
  - eapply Forall_impl; [apply sense_sensing|]. by intros [].
  - intros [s|] _; unfold react.
    + apply trace_bind_Forall; [by repeat constructor|]. intros _ _.
      apply trace_bind_Forall.
      * destruct (spec_lock _ _ _); [|constructor]. unfold lock_and_cool.
        apply trace_bind_Forall; [|by repeat constructor].
        eapply Forall_impl; [apply lock_footprint|]. by intros [].
      * intros _ _. destruct (companion s), (interval o); by repeat constructor.
    + destruct (interval o); by repeat constructor.
Qed.

(** What holds of the events of every turn holds of the events of a
    run. *)
Lemma loop_Forall (P : Event -> Prop) :
  (forall st o, Forall P (trace_of (iteration st o))) ->
  forall os st, Forall P (trace_of (loop st os)).
Proof.
  intros Hturn os st. rewrite loop_for_each. by apply for_each_Forall.
Qed.

Lemma loop_no_lifecycle os st :
  Forall (fun ev => is_lifecycle ev = false) (trace_of (loop st os)).
Proof. apply loop_Forall, iteration_no_lifecycle. Qed.

Lemma loop_no_release os st :
  Forall (fun ev => is_release ev = false) (trace_of (loop st os)).
Proof. eapply Forall_impl; [apply loop_no_lifecycle|]. by intros []. Qed.

(** The trace of the guarded loop: the loop, the lines of the exit and
    the release. *)
Lemma guarded_loop_trace start os :
  trace_of (guarded_loop start os)
  = logs MStarting ++ trace_of (loop {| last_seen_someone := start; frame_i := 0 |} os)
    ++ match result_of (loop {| last_seen_someone := start; frame_i := 0 |} os) with
       | Returns _ => []
       | Raises e => exit_lines e
       end ++ [EvRelease cap].
Proof.
  unfold PresenceLoop.guarded_loop. rewrite trace_bind, trace_log, result_log, finally_emit.
  cbn [trace_of fst app]. rewrite try_except_trace, trace_bind_mret, result_bind, <- app_assoc.
  do 3 f_equal. destruct (result_of _) as [|e]; [done|]. by destruct e.
Qed.

(** The guarded loop raises nothing but the [SystemExit] that ended the
    loop. *)
Lemma guarded_loop_result start os :
  result_of (guarded_loop start os)
  = match result_of (loop {| last_seen_someone := start; frame_i := 0 |} os) with
    | Raises (SystemExit c) => Raises (SystemExit c)
    | _ => Returns tt
    end.
Proof.
  unfold PresenceLoop.guarded_loop. rewrite result_bind, result_log, finally_emit.
  cbn [result_of snd]. rewrite try_except_result, result_bind.
  destruct (result_of _) as [|e]; [done|]. by destruct e.
Qed.

(** Guaranteed release: whatever the observations are and whatever
    ends the loop, the guarded loop releases the capture exactly once,
    as its very last event. *)
Theorem guarded_loop_releases_once start os :
  exists t, trace_of (guarded_loop start os) = t ++ [EvRelease cap] /\
            Forall (fun ev => is_release ev = false) t.
Proof.
  unfold PresenceLoop.guarded_loop. rewrite trace_bind, trace_log, result_log, finally_emit.
  cbn [trace_of fst]. eexists (_ :: _ :: _). split; [reflexivity|].
  do 2 (constructor; [done|]). rewrite try_except_trace, trace_bind_mret.
  apply Forall_app. split; [apply loop_no_release|].
  destruct (result_of _) as [|e]; [constructor|]. destruct e; by repeat constructor.
Qed.

(** Exit of the guard: when an exception ends the loop, the guard
    logs "stopped by user" for an interrupt and "crashed" with the cause
    for any [Exception], releases the capture and returns; only
    [SystemExit] passes through it, after the release. *)
Theorem guarded_loop_exit start os e :
  result_of (loop {| last_seen_someone := start; frame_i := 0 |} os) = Raises e ->
  guarded_loop start os
  = (logs MStarting ++ trace_of (loop {| last_seen_someone := start; frame_i := 0 |} os)
       ++ exit_lines e ++ [EvRelease cap],
     match e with SystemExit c => Raises (SystemExit c) | _ => Returns tt end).
Proof.
  intros He. pose proof (guarded_loop_trace start os) as Ht.
  pose proof (guarded_loop_result start os) as Hr. rewrite He in Ht, Hr.
  destruct (guarded_loop start os) as [t r]. cbn [trace_of result_of fst snd] in Ht, Hr.
  subst t r. by destruct e.
Qed.
End Guard.

(** ** Witnesses *)

(** Nobody in front of the camera at seconds 1, 5, 7 and 12. *)
Definition empty_room : list Obs := [calm 1000000; calm 5000000; calm 7000000; calm 12000000].

Definition empty_sample (t : Time) : Sample :=
  {| companion := true; face_count := 0; authorized := false; at_time := t |}.

Definition empty_samples : list Sample :=
  [empty_sample 1000000; empty_sample 5000000; empty_sample 7000000; empty_sample 12000000].

Lemma empty_room_senses :
  senses (H := stub_vision [] [] []) PresenceGuard.lock_session default_config 0 [me]
    st0 empty_room empty_samples st0.
Proof. repeat (econstructor 2; [vm_compute; reflexivity..|]). constructor. Qed.

Lemma cooldown_follows_every_lock_witness :
  cooled (LOCK_COOLDOWN default_config)
    (trace_of (guarded_loop (H := stub_vision [] [] []) PresenceGuard.lock_session
                 default_config 0 [me] 0 empty_room)).
Proof.
  apply (cooldown_follows_every_lock (H := stub_vision [] [] []) PresenceGuard.lock_session).
Defined.

Lemma loop_simulates_spec_witness :
  let V := stub_vision [] [] [] in
  let run := loop (H := V) PresenceGuard.lock_session default_config 0 [me] st0 empty_room in
  last_seen_someone st0 = spec_last (last_seen_someone st0) empty_samples /\
  verdicts (trace_of run) = spec_lines default_config (last_seen_someone st0) empty_samples /\
  cascades (trace_of run)
  = count_b id (spec_locks default_config (last_seen_someone st0) empty_samples).
Proof.
  intros V run.
  apply (loop_simulates_spec (H := V) PresenceGuard.lock_session default_config 0 [me]
           st0 empty_room empty_samples st0).
  apply empty_room_senses.
Defined.

(** The enrolled user at seconds 1 and 2, then an empty room at second
    3: two frames are counted. *)
Lemma frame_i_counts_single_faces_witness :
  let seen t := {| companion := true; face_count := 1; authorized := true; at_time := t |} in
  frame_i {| last_seen_someone := 2000000; frame_i := 2 |} = frame_i st0
    + Z.of_nat (count_b (fun s => companion s && bool_decide (face_count s = 1%nat))
                  [seen 1000000; seen 2000000]).
Proof.
  intros seen.
  apply (frame_i_counts_single_faces (H := stub_vision [face] [] [near_me])
           PresenceGuard.lock_session default_config 0 [me] st0
           [calm 1000000; calm 2000000] [seen 1000000; seen 2000000]
           {| last_seen_someone := 2000000; frame_i := 2 |}).
  repeat (eapply senses_sample; [vm_compute; reflexivity..|]). apply senses_nil.
Defined.

Lemma absence_latches_witness :
  let V := stub_vision [] [] [] in
  last_seen_someone st0 = last_seen_someone st0 /\
  exists k, (k <= length empty_samples)%nat /\
    verdicts (trace_of (loop (H := V) PresenceGuard.lock_session default_config 0 [me]
                          st0 empty_room))
    = replicate k MWaiting ++ replicate (length empty_samples - k) MNoFacesTimeout.
Proof.
  intros V.
  apply (absence_latches (H := V) PresenceGuard.lock_session default_config 0 [me]
           st0 empty_room empty_samples st0).
  - apply empty_room_senses.
  - by repeat constructor.
  - simpl. repeat first [apply SSorted_nil | apply SSorted_cons | apply Forall_nil_2
                        | apply Forall_cons_2]; lia.
Defined.

(** The enrolled face on two consecutive frames, checked every other
    frame. *)
Lemma guarded_loop_releases_once_witness :
  exists t, trace_of (guarded_loop (H := stub_vision [] [] []) PresenceGuard.lock_session
                        default_config 0 [me] 0 empty_room) = t ++ [EvRelease 0] /\
            Forall (fun ev => is_release ev = false) t.
Proof.
  apply (guarded_loop_releases_once (H := stub_vision [] [] []) PresenceGuard.lock_session).
Defined.

(** The user interrupts the first poll interval. *)
Lemma guarded_loop_exit_witness :
  let V := stub_vision [face] [] [near_me] in
  let st := {| last_seen_someone := 0; frame_i := 0 |} in
  guarded_loop (H := V) PresenceGuard.lock_session default_config 0 [me] 0 [interrupted 1000000]
  = (logs MStarting
       ++ trace_of (loop (H := V) PresenceGuard.lock_session default_config 0 [me] st
                      [interrupted 1000000])
       ++ exit_lines KeyboardInterrupt ++ [EvRelease 0],
     Returns tt).
Proof.
  intros V st.
  apply (guarded_loop_exit (H := V) PresenceGuard.lock_session default_config 0 [me] 0
           [interrupted 1000000] KeyboardInterrupt).
  vm_compute. reflexivity.
Defined.
