(* ===== verification/PresenceTime.v ===== *)
(** * Time: the deadline of the absence lock and the time a run blocks

    Properties of src/presence_guard.py that are about time.

    - Liveness with a deadline.  When nobody is in front of the camera,
      the loop locks at the first turn whose clock reads
      [ABSENCE_TIMEOUT] or more after the last sighting.  [paced gap]
      says the turns follow each other at most [gap] apart on a clock
      that does not go back; then the lock comes less than
      [ABSENCE_TIMEOUT + gap] after the last sighting, and every later
      turn locks again.
    - A bound.  Every call of the loop that leaves the process and waits
      has a timeout or is a sleep: a turn blocks for at most
      [turn_budget], the six seconds of the Bluetooth query when the
      gate is on, four lock commands of five seconds, the cooldown and
      the poll interval, and a run of [n] turns for [n] times as much.
      The capture and the recogniser have no timeout and are not part of
      the bound.
    - The rate of the locks.  Each cascade brought to its end is
      followed by a cooldown of its own, so the cascades of a run times
      [LOCK_COOLDOWN] are at most the time the run slept.
    - The limit of the deadline.  The deadline counts turns that saw a
      frame; a run whose reads all fail logs the failures and never
      locks. *)

From Stdlib Require Import Lqa.
From S2P Require Import Prelude Effects LockActuator Vision Gate Camera.
From S2P Require Import PresenceLoop Scenarios PresenceTurn PresenceRun.

(** ** The deadline of the absence lock *)

(** [paced gap t ts]: each clock reading of [ts] is at or after the one
    before it, [t] for the first, and at most [gap] after it. *)
Fixpoint paced (gap : Timedelta) (t : Time) (ts : list Time) : Prop :=
  match ts with
  | [] => True
  | t' :: ts => t <= t' <= t + gap /\ paced gap t' ts
  end.

(** [overdue cfg last s]: the sample is at or past the timeout. *)
Definition overdue (cfg : Config) (last : Time) (s : Sample) : bool :=
  (ABSENCE_TIMEOUT cfg <=? elapsed last s)%Q.

Section Deadline.
Context (cfg : Config).
Implicit Types (last t : Time) (gap : Timedelta) (s : Sample) (ss : list Sample).

(** Without a face the rules decide each turn by its clock alone. *)
Lemma spec_locks_absent last ss :
  Forall absent ss -> spec_locks cfg last ss = overdue cfg last <$> ss.
Proof.
  induction 1 as [|s ss Hs _ IH]; [done|]. cbn [spec_locks fmap list_fmap].
  by rewrite spec_seen_absent, IH, spec_lock_absent.
Qed.

Lemma paced_sorted gap t ss :
  paced gap t (at_time <$> ss) -> Forall (fun s => t <= at_time s) ss.
Proof.
  revert t. induction ss as [|s ss IH]; intros t; [done|]. intros [[Hle _] Hp].
  constructor; [done|]. eapply Forall_impl; [by apply IH|]. simpl. lia.
Qed.

(** Once a turn is overdue every later turn is. *)
Lemma overdue_stays gap last s ss :
  overdue cfg last s = true -> paced gap (at_time s) (at_time <$> ss) ->
  overdue cfg last <$> ss = replicate (length ss) true.
Proof.
  unfold overdue. intros Hs%Qle_bool_true Hp%paced_sorted.
  induction Hp as [|s' ss Hle _ IH]; [done|]. cbn [fmap list_fmap length replicate].
  f_equal; [|done]. apply Qle_bool_true. eapply Qle_trans; [exact Hs|].
  by apply elapsed_mono.
Qed.

(** The first overdue turn: the turns before it wait, and it comes less
    than [gap] after the deadline. *)
Lemma first_overdue gap last t ss :
  paced gap t (at_time <$> ss) ->
  (total_seconds (time_sub t last) < ABSENCE_TIMEOUT cfg)%Q ->
  Exists (fun s => overdue cfg last s = true) ss ->
  exists i s, ss !! i = Some s /\
    overdue cfg last <$> ss = replicate i false ++ replicate (length ss - i) true /\
    (ABSENCE_TIMEOUT cfg <= elapsed last s < ABSENCE_TIMEOUT cfg + total_seconds gap)%Q.
Proof.
  revert t. induction ss as [|s ss IH]; intros t Hp Ht Hex; [by apply Exists_nil in Hex|].
  destruct Hp as [[Hle Hgap] Hp]. destruct (overdue cfg last s) eqn:Hs.
  - exists 0%nat, s. split_and!; [done| |by apply Qle_bool_true|].
    + cbn [fmap list_fmap length replicate app Nat.sub]. rewrite Hs. f_equal.
      by eapply overdue_stays.
    + eapply Qle_lt_trans; [apply (total_seconds_mono _ (time_sub t last + gap))|].
      { unfold time_sub. lia. }
      rewrite total_seconds_plus. lra.
  - apply Exists_cons in Hex as [Hex|Hex]; [congruence|].
    apply Qle_bool_false in Hs. destruct (IH (at_time s) Hp Hs Hex) as (i & s' & Hi & Hl & Hd).
    exists (S i), s'. split_and!; [exact Hi| |apply Hd..].
    cbn [fmap list_fmap length replicate app Nat.sub]. unfold overdue in Hl |- *.
    apply Qle_bool_false in Hs. by rewrite Hs, Hl.
Qed.
End Deadline.

Lemma count_b_replicate (b : bool) n : count_b id (replicate n b) = if b then n else 0%nat.
Proof. induction n as [|n IH]; simpl; [by destruct b|]. rewrite IH. by destruct b. Qed.

Section Liveness.
Context `{Vision}.
Context (lock_session : (Cmd -> outcome unit) -> Prog bool) `{!LockActuator lock_session}.
Context (cfg : Config) (cap : Z) (known : list Encoding).

Local Abbreviation loop := (loop lock_session cfg cap known).
Local Abbreviation senses := (senses lock_session cfg cap known).

(** C10. Liveness with a deadline: in a run
    whose turns all see no face, paced at most [gap] apart from the last
    sighting on, and which lasts until a turn reads the timeout, the
    loop logs "waiting" up to a turn [i], locks at turn [i], less than
    [ABSENCE_TIMEOUT + gap] after the last sighting, and locks again at
    every turn after it: one cascade for each of these turns. *)
Theorem absence_locks_by_deadline st os ss st' gap :
  senses st os ss st' -> Forall absent ss ->
  paced gap (last_seen_someone st) (at_time <$> ss) ->
  (0 < ABSENCE_TIMEOUT cfg)%Q ->
  Exists (fun s => overdue cfg (last_seen_someone st) s = true) ss ->
  exists i s, ss !! i = Some s /\
    (elapsed (last_seen_someone st) s < ABSENCE_TIMEOUT cfg + total_seconds gap)%Q /\
    verdicts (trace_of (loop st os))
    = replicate i MWaiting ++ replicate (length ss - i) MNoFacesTimeout /\
    cascades (trace_of (loop st os)) = (length ss - i)%nat.
Proof.
  intros Hrun Habs Hp Hpos Hex.
  destruct (first_overdue cfg gap (last_seen_someone st) _ ss Hp) as (i & s & Hi & Hl & _ & Hd);
    [unfold time_sub, total_seconds, Qlt in *; simpl in *; lia | done |].
  exists i, s. split_and!; [done..| |].
  - rewrite (senses_verdicts _ _ _ _ _ _ _ _ Hrun), spec_lines_absent by done.
    by rewrite spec_locks_absent, Hl, fmap_app, !fmap_replicate.
  - rewrite (senses_cascades _ _ _ _ _ _ _ _ Hrun), spec_locks_absent, Hl by done.
    by rewrite count_b_app, !count_b_replicate.
Qed.
End Liveness.

(** ** The time a run blocks *)

(** The longest a turn waits on commands and sleeps, in seconds. *)
Definition turn_budget (cfg : Config) : Q :=
  (if USE_BLUETOOTH cfg then 6 else 0) + 20 + LOCK_COOLDOWN cfg + CHECK_INTERVAL cfg.

(** The time a trace asks to sleep, in seconds. *)
Definition nap (ev : Event) : Q :=
  match ev with
  | EvSleep seconds => seconds
  | _ => 0
  end.

Definition slept (t : list Event) : Q := foldr (fun ev acc => nap ev + acc)%Q 0%Q t.

(** In a cooled trace each cascade brought to its end is paid for by a
    sleep of [d] seconds of its own. *)
Lemma cooled_rate d t :
  (0 <= d)%Q -> Forall (fun ev => 0 <= nap ev)%Q t -> cooled d t ->
  (inject_Z (Z.of_nat (cascades t)) * d <= slept t)%Q /\
  (head t = Some (EvSleep d) -> inject_Z (Z.of_nat (cascades t)) * d + d <= slept t)%Q.
Proof.
  intros Hd Hnap. induction Hnap as [|ev t Hev _ IH]; intros Hcool.
  { split; [change (0 * d <= 0)%Q; lra | done]. }
  destruct Hcool as [Hnext Hcool]. destruct (IH Hcool) as [Hall Hhead].
  unfold cascades in *. cbn [count_b slept foldr]. fold (slept t).
  destruct (lock_done ev) eqn:Hdone; cbn [Nat.add].
  - specialize (Hhead (Hnext eq_refl)).
    rewrite Nat2Z.inj_succ, <- Z.add_1_r, inject_Z_plus. change (inject_Z 1) with 1%Q.
    split; [lra|]. intros [= ->]. done.
  - split; [lra|]. intros [= ->]. cbn [nap]. lra.
Qed.

(** A loop whose steps keep the cooldown pays for each cascade with a
    cooldown. *)
Lemma for_each_rate {S X} (step : S -> X -> Prog S) d :
  (0 <= d)%Q ->
  (forall st x, Forall (fun ev => 0 <= nap ev)%Q (trace_of (step st x))) ->
  (forall st x, settled d (trace_of (step st x))) ->
  forall xs st,
    (inject_Z (Z.of_nat (cascades (trace_of (for_each step st xs)))) * d
     <= slept (trace_of (for_each step st xs)))%Q.
Proof.
  intros Hd Hnap Hset xs st.
  apply cooled_rate; [done | by apply for_each_Forall | by apply for_each_settled].
Qed.

Section Budget.
Context `{Vision}.
Context (lock_session : (Cmd -> outcome unit) -> Prog bool) `{!LockActuator lock_session}.
Context (cfg : Config) (cap : Z) (known : list Encoding).
Context (Hcooldown : (0 <= LOCK_COOLDOWN cfg)%Q) (Hinterval : (0 <= CHECK_INTERVAL cfg)%Q).
Implicit Types (st : State) (o : Obs).

Local Abbreviation iteration := (iteration lock_session cfg cap known).
Local Abbreviation loop := (loop lock_session cfg cap known).

Lemma phone_missing_blocking o :
  (blocking (trace_of (phone_missing cfg o)) <= if USE_BLUETOOTH cfg then 6 else 0)%Q.
Proof.
  unfold phone_missing. destruct (USE_BLUETOOTH cfg); [|done].
  rewrite trace_bind_pure, is_phone_present_cases.
  by destruct (bt o _) as [|e]; [|destruct (is_Exception e)].
Qed.

(** What a turn senses behind the gate waits on no command and no
    sleep. *)
Lemma sense_blocking st o :
  (blocking (trace_of (sense cfg cap known st o)) <= if USE_BLUETOOTH cfg then 6 else 0)%Q.
Proof.
  destruct (sense_trace_split cfg cap known st o) as (t & -> & Ht).
  rewrite blocking_app, (blocking_quiet t).
  - pose proof (phone_missing_blocking o). lra.
  - eapply Forall_impl; [exact Ht | apply percept_budget].
Qed.

Lemma lock_and_cool_blocking o :
  (blocking (trace_of (lock_and_cool lock_session cfg o)) <= 20 + LOCK_COOLDOWN cfg)%Q.
Proof.
  unfold lock_and_cool. rewrite trace_bind, blocking_app.
  pose proof (lock_budget (run o)).
  destruct (result_of _); cbn [trace_of sleep call fst blocking foldr budget]; lra.
Qed.

Lemma react_blocking st o s :
  (blocking (trace_of (react lock_session cfg st o s))
   <= 20 + LOCK_COOLDOWN cfg + CHECK_INTERVAL cfg)%Q.
Proof.
  destruct s as [s|]; unfold react.
  - rewrite trace_bind, trace_log, result_log, blocking_app, trace_bind, blocking_app.
    change (blocking [EvLog ?m; EvAppend ?m]) with (0 + (0 + 0))%Q.
    assert (blocking (trace_of (if spec_lock cfg (last_seen_someone st) s
                                then lock_and_cool lock_session cfg o else mret tt))
            <= 20 + LOCK_COOLDOWN cfg)%Q as Hlock.
    { destruct (spec_lock _ _ _); [apply lock_and_cool_blocking | cbn; lra]. }
    destruct (result_of (if spec_lock _ _ _ then _ else _)); [|cbn; lra].
    rewrite trace_bind_mret. destruct (companion s); cbn; lra.
  - cbn. destruct (interval o); cbn; lra.
Qed.

(** A turn blocks for at most [turn_budget]. *)
Lemma iteration_blocking st o : (blocking (trace_of (iteration st o)) <= turn_budget cfg)%Q.
Proof.
  rewrite (iteration_trace lock_session), blocking_app. unfold turn_budget.
  pose proof (sense_blocking st o).
  destruct (result_of (sense cfg cap known st o)) as [s|e].
  - pose proof (react_blocking st o s). lra.
  - cbn [blocking foldr]. destruct (USE_BLUETOOTH cfg); lra.
Qed.

(** C16. Every wait of the loop is bounded: whatever
    the environment answers, a run of [n] turns blocks on commands and
    sleeps for at most [n] times [turn_budget], the timeout of the
    Bluetooth query when the gate is on, of four lock commands, the
    cooldown and the poll interval. *)
Theorem run_blocking_bounded st os :
  (blocking (trace_of (loop st os)) <= inject_Z (Z.of_nat (length os)) * turn_budget cfg)%Q.
Proof.
  rewrite loop_for_each. apply for_each_blocking; [|apply iteration_blocking].
  unfold turn_budget. destruct (USE_BLUETOOTH cfg); lra.
Qed.

(** The sleeps of a turn are the cooldown and the poll interval. *)
Lemma iteration_naps st o :
  Forall (fun ev => 0 <= nap ev)%Q (trace_of (iteration st o)).
Proof.
  rewrite iteration_sense_react. apply trace_bind_Forall.
  - eapply Forall_impl; [apply sense_sensing|]. intros ev Hev%sense_event_quiet.
    destruct ev; try done. by destruct Hev.
  - intros r _. eapply Forall_impl; [apply (react_footprint lock_session)|].
    intros ev [Hev|[->|[->|[(s' & l & [->| ->])|[->| ->]]]]]; try done. by destruct ev.
Qed.

(** The cooldown bounds the rate of the lock attempts: along every
    run of the loop, whatever the environment answers, the number of
    lock cascades brought to their end, times [LOCK_COOLDOWN], is at
    most the time the run asked to sleep; the guard spends one cooldown
    asleep for every cascade. *)
Theorem lock_rate_bounded st os :
  (inject_Z (Z.of_nat (cascades (trace_of (loop st os)))) * LOCK_COOLDOWN cfg
   <= slept (trace_of (loop st os)))%Q.
Proof.
  rewrite loop_for_each.
  apply for_each_rate; [done | apply iteration_naps | apply (iteration_settled lock_session)].
Qed.
End Budget.

(** ** A camera that stops answering

    A read that returns no frame is retried after the poll interval
    (src/presence_guard.py, lines 159-163).  The turn logs the failure,
    leaves the state as it was and locks nothing; the loop counts no
    failures, so a run in which every read fails never locks. *)

(** [retries t]: how many failed reads the trace logs. *)
Definition retries (t : list Event) : nat :=
  count_b (fun ev => match ev with EvLog MReadFailed => true | _ => false end) t.

Section Unread.
Context `{Vision}.
Context (lock_session : (Cmd -> outcome unit) -> Prog bool).
Context (cfg : Config) (cap : Z) (known : list Encoding).
Implicit Types (st : State) (o : Obs).

Local Abbreviation iteration := (iteration lock_session cfg cap known).
Local Abbreviation loop := (loop lock_session cfg cap known).

(** [unread o]: the gate lets the turn pass, the capture returns no
    frame and the poll interval is not interrupted. *)
Definition unread (o : Obs) : Prop :=
  result_of (phone_missing cfg o) = Returns false /\
  result_of (latest_frame cap (capture o)) = Returns None /\
  interval o = Returns tt.

Lemma sense_unread st o : unread o -> result_of (sense cfg cap known st o) = Returns None.
Proof.
  intros (Hgate & Hframe & _). unfold sense. rewrite result_bind, Hgate.
  by rewrite result_bind, Hframe.
Qed.

Lemma sense_retries st o : retries (trace_of (sense cfg cap known st o)) = 0%nat.
Proof.
  apply count_b_zero. eapply Forall_impl; [apply sense_sensing|].
  by intros [[]| | | | | | | | | | | | |[]].
Qed.

Lemma iteration_unread st o :
  unread o ->
  result_of (iteration st o) = Returns st /\
  locked (trace_of (iteration st o)) = false /\
  retries (trace_of (iteration st o)) = 1%nat.
Proof.
  intros Ho. pose proof (sense_unread st o Ho) as Hs. destruct Ho as (_ & _ & Hi).
  rewrite (iteration_result lock_session), (iteration_trace lock_session), Hs.
  rewrite locked_app, sense_not_locked. unfold retries. rewrite count_b_app.
  fold (retries (trace_of (sense cfg cap known st o))). rewrite sense_retries.
  unfold react. cbn. by rewrite Hi.
Qed.

(** C30. A camera that stops delivering frames is never answered by a
    lock: in a run in which the gate passes, every read returns no
    frame and no sleep is interrupted, the loop runs every turn, logs
    one failure a turn, runs no command of the lock cascade and leaves
    its state, the time of the last sighting included, as it was,
    however long the run. *)
Theorem unread_run_never_locks st os :
  Forall unread os ->
  result_of (loop st os) = Returns st /\
  locked (trace_of (loop st os)) = false /\
  retries (trace_of (loop st os)) = length os.
Proof.
  induction 1 as [|o os Ho _ (IHr & IHl & IHn)]; [done|].
  destruct (iteration_unread st o Ho) as (Hr & Hl & Hn).
  cbn [PresenceLoop.loop]. rewrite result_bind, trace_bind, Hr, locked_app, Hl, IHl.
  unfold retries in *. by rewrite count_b_app, Hn, IHn.
Qed.
End Unread.

(** ** Witnesses *)

Lemma absence_locks_by_deadline_witness :
  let V := stub_vision [] [] [] in
  exists i s, empty_samples !! i = Some s /\
    (elapsed (last_seen_someone st0) s
     < ABSENCE_TIMEOUT default_config + total_seconds 5000000)%Q /\
    verdicts (trace_of (loop (H := V) PresenceGuard.lock_session default_config 0 [me]
                          st0 empty_room))
    = replicate i MWaiting ++ replicate (length empty_samples - i) MNoFacesTimeout /\
    cascades (trace_of (loop (H := V) PresenceGuard.lock_session default_config 0 [me]
                          st0 empty_room))
    = (length empty_samples - i)%nat.
Proof.
  intros V.
  apply (absence_locks_by_deadline (H := V) PresenceGuard.lock_session default_config 0 [me]
           st0 empty_room empty_samples st0 5000000).
  - apply empty_room_senses.
  - by repeat constructor.
  - simpl. lia.
  - done.
  - do 2 apply Exists_cons_tl. by apply Exists_cons_hd.
Defined.

Lemma lock_rate_bounded_witness :
  let V := stub_vision [] [] [] in
  (inject_Z (Z.of_nat (cascades (trace_of (loop (H := V) PresenceGuard.lock_session
                                             default_config 0 [me] st0 empty_room))))
   * LOCK_COOLDOWN default_config
   <= slept (trace_of (loop (H := V) PresenceGuard.lock_session default_config 0 [me]
                         st0 empty_room)))%Q.
Proof.
  intros V.
  apply (lock_rate_bounded (H := V) PresenceGuard.lock_session default_config 0 [me]); done.
Defined.

(** The empty room of the default configuration: two cascades, eight
    seconds of cooldown among 9.4 seconds asleep. *)
Example lock_rate_empty_room :
  let t := trace_of (loop (H := stub_vision [] [] []) PresenceGuard.lock_session
                       default_config 0 [me] st0 empty_room) in
  cascades t = 2%nat /\ (slept t == 94 # 10)%Q.
Proof. by vm_compute. Qed.

(** A turn whose capture returns no frame. *)
Definition dark (t : Time) : Obs := {|
  bt := bt (calm t);
  capture := {| retrieve := Returns None; read := Returns None |};
  now := t;
  run := run (calm t);
  cooldown := Returns tt;
  interval := Returns tt
|}.

Lemma unread_run_never_locks_witness :
  let V := stub_vision [] [] [] in
  let p := loop (H := V) PresenceGuard.lock_session default_config 0 [me] st0
             [dark 1000000; dark 9000000; dark 90000000] in
  result_of p = Returns st0 /\ locked (trace_of p) = false /\ retries (trace_of p) = 3%nat.
Proof.
  intros V.
  apply (unread_run_never_locks (H := V) PresenceGuard.lock_session default_config 0 [me]
           st0 [dark 1000000; dark 9000000; dark 90000000]).
  by repeat constructor.
Defined.

(** The deadline is one of the clock the loop reads, [datetime.now()],
    the local time of the machine.  Seventeen turns of an empty room,
    0.35 seconds apart, then the clock set back to where it started and
    seventeen turns more: the loop has slept for almost twelve seconds,
    twice the timeout, and has not locked. *)
Definition ticks : list Time := (fun i => Z.of_nat i * 350000) <$> seq 0 17.

Example clock_set_back_defers_lock :
  let t := trace_of (loop (H := stub_vision [] [] []) PresenceGuard.lock_session
                       default_config 0 [me] st0 (calm <$> ticks ++ ticks)) in
  locked t = false /\
  Qle_bool (2 * ABSENCE_TIMEOUT default_config - (1 # 10)) (slept t) = true.
Proof. by vm_compute. Qed.

(** A turn in which every lock command runs into its timeout. *)
Definition stuck (t : Time) : Obs := {|
  bt := bt (calm t);
  capture := capture (calm t);
  now := t;
  run := fun _ => Raises TimeoutExpired;
  cooldown := Returns tt;
  interval := Returns tt
|}.

Lemma run_blocking_bounded_witness :
  let V := stub_vision [] [] [] in
  (blocking (trace_of (loop (H := V) PresenceGuard.lock_session default_config 0 [me]
                         st0 [calm 1000000; stuck 7000000]))
   <= inject_Z (Z.of_nat 2) * turn_budget default_config)%Q.
Proof.
  intros V.
  apply (run_blocking_bounded (H := V) PresenceGuard.lock_session default_config 0 [me]);
    done.
Defined.

(** The bound is reached: an overdue turn whose four lock commands all
    time out blocks for the whole budget of the default configuration,
    24.35 seconds. *)
Example turn_budget_reached :
  (blocking (trace_of (iteration (H := stub_vision [] [] []) PresenceGuard.lock_session
                         default_config 0 [me] st0 (stuck 7000000)))
   == turn_budget default_config)%Q /\
  (turn_budget default_config == 2435 # 100)%Q.
Proof. by vm_compute. Qed.
