(* ===== verification/Turns.v ===== *)
(** * Turns: what a loop needs of its turn

    Both scripts are a loop around a turn, and what the loops keep they
    keep because every turn does.  [kept d b t] is what is asked of the
    trace of one turn: each lock cascade is followed at once by the
    cooldown of [d] seconds, the turn blocks for at most [b] seconds, it
    sleeps for no negative time, and it neither opens nor releases a
    capture.  The class [Turn d b step] says that every turn of [step]
    keeps this, whatever the state and whatever the environment answers.

    The theorems on runs are proved once, for every [Turn]
    ([for_each_kept]); [iteration_turn] shows the turn of
    src/presence_guard.py is one when the durations of the configuration
    are not negative ([Durations]). *)

From Stdlib Require Import Lqa.
From S2P Require Import Prelude Effects LockActuator Vision Gate Camera.
From S2P Require Import PresenceLoop Scenarios PresenceTurn PresenceRun PresenceTime.

Definition kept (d b : Q) (t : list Event) : Prop :=
  settled d t /\
  (blocking t <= b)%Q /\
  Forall (fun ev => 0 <= nap ev)%Q t /\
  Forall (fun ev => is_lifecycle ev = false) t.

Class Turn {S X : Type} (d b : Q) (step : S -> X -> Prog S) : Prop := {
  turn_cooldown : (0 <= d)%Q;
  turn_bound : (0 <= b)%Q;
  turn_kept : forall st x, kept d b (trace_of (step st x))
}.

(** The durations of a configuration are not negative:
    [time.sleep] raises [ValueError] on a negative one. *)
Class Durations (cfg : Config) : Prop := {
  cooldown_nonneg : (0 <= LOCK_COOLDOWN cfg)%Q;
  interval_nonneg : (0 <= CHECK_INTERVAL cfg)%Q
}.

#[export] Instance default_durations : Durations default_config.
Proof. by split. Qed.

(** ** Runs of a turn *)

Section Runs.
Context {S X : Type} {d b : Q} (step : S -> X -> Prog S) `{!Turn d b step}.
Implicit Types (st : S) (xs : list X).

(** A run of [n] turns keeps the cooldown after every cascade, blocks
    for at most [n] times [b], has slept a cooldown for each of its
    cascades, and leaves the captures as they are. *)
Theorem for_each_kept st xs :
  let t := trace_of (for_each step st xs) in
  settled d t /\
  (blocking t <= inject_Z (Z.of_nat (length xs)) * b)%Q /\
  (inject_Z (Z.of_nat (cascades t)) * d <= slept t)%Q /\
  Forall (fun ev => is_lifecycle ev = false) t.
Proof.
  pose proof turn_cooldown as Hd. pose proof turn_bound as Hb.
  split_and!.
  - apply for_each_settled. intros. apply turn_kept.
  - apply for_each_blocking; [done|]. intros. apply turn_kept.
  - apply for_each_rate; [done|..]; intros; apply turn_kept.
  - apply for_each_Forall. intros. apply turn_kept.
Qed.
End Runs.

(** ** The turn of src/presence_guard.py *)

Section Presence.
Context `{Vision}.
Context (lock_session : (Cmd -> outcome unit) -> Prog bool) `{!LockActuator lock_session}.
Context (cfg : Config) `{!Durations cfg} (cap : Z) (known : list Encoding).

Lemma turn_budget_nonneg : (0 <= turn_budget cfg)%Q.
Proof.
  pose proof cooldown_nonneg. pose proof interval_nonneg.
  unfold turn_budget. destruct (USE_BLUETOOTH cfg); lra.
Qed.

#[export] Instance iteration_turn :
  Turn (LOCK_COOLDOWN cfg) (turn_budget cfg) (iteration lock_session cfg cap known).
Proof.
  pose proof cooldown_nonneg as Hc. pose proof interval_nonneg as Hi.
  split; [done | apply turn_budget_nonneg|]. intros st o. split_and!.
  - by apply iteration_settled.
  - by apply iteration_blocking.
  - by apply iteration_naps.
  - by apply iteration_no_lifecycle.
Qed.

(** The runs of the loop of src/presence_guard.py, by the contract. *)
Corollary loop_kept st os :
  let t := trace_of (loop lock_session cfg cap known st os) in
  settled (LOCK_COOLDOWN cfg) t /\
  (blocking t <= inject_Z (Z.of_nat (length os)) * turn_budget cfg)%Q /\
  (inject_Z (Z.of_nat (cascades t)) * LOCK_COOLDOWN cfg <= slept t)%Q /\
  Forall (fun ev => is_lifecycle ev = false) t.
Proof. rewrite loop_for_each. apply for_each_kept, iteration_turn. Qed.
End Presence.

(** The empty room under the default configuration, whose durations
    are found by the resolution of the instances. *)
Lemma loop_kept_witness :
  let V := stub_vision [] [] [] in
  let t := trace_of (loop (H := V) PresenceGuard.lock_session default_config 0 [me] st0
                       empty_room) in
  settled (LOCK_COOLDOWN default_config) t /\
  (blocking t <= inject_Z (Z.of_nat (length empty_room)) * turn_budget default_config)%Q /\
  (inject_Z (Z.of_nat (cascades t)) * LOCK_COOLDOWN default_config <= slept t)%Q /\
  Forall (fun ev => is_lifecycle ev = false) t.
Proof.
  intros V. apply (loop_kept (H := V) PresenceGuard.lock_session default_config 0 [me]).
Defined.
