(* ===== verification/GuardTree.v ===== *)
(** * The loop as an interaction tree

    [while True:] of src/presence_guard.py:152-217 never returns: the
    loop ends when a statement raises.  [loop] of [PresenceLoop] runs
    the turns of a list of observations; this file gives the loop itself,
    [guard_tree], as an interaction tree without a leaf, and relates the
    two.

    - The events of the tree ([guardE]) are the exceptions of the
      library, [exceptE exn], and the events of the world, [worldE]:
      [Observe] asks the environment for the answers of the next turn,
      [Perform t] carries out the events [t].  [embed m] is a program
      of [Prog] as a tree: it performs the events of [m] and returns
      what [m] returns or throws what [m] raises.
    - [step_tree] and [loop_tree] are the turn and the loop of any
      step function on the observations, of which [turn_tree] and
      [guard_tree] are the instance of [iteration]; the lemmas on trees
      are proved for them.
    - [exec fuel t os] runs a tree against the observations [os], one
      step of the tree for each unit of [fuel]; it gives the events
      performed, the observations left and how the run ended: with a
      value, with an exception, or waiting for the next observation.
      [run_tree] forgets the observations left.
    - [guard_tree_runs]: three steps for each turn and one more are
      enough fuel, and the run of the tree is then the run of [loop]:
      its events, and the exception that ended it if one did.
    - [always_performs P t] holds when every turn of [t] performs a
      trace that satisfies [P], on every branch and at every depth; it
      is defined with Paco.  [guard_tree_always] lifts a property of
      [iteration] to the whole loop, and
      [guard_tree_every_turn] does so for the cooldown after a lock, the
      bound on the time a turn blocks and the capture, which the loop
      neither opens nor releases. *)

From ITree Require Import ITree Events.Exception.
From Paco Require Import paco.
From S2P Require Import Prelude Effects LockActuator Vision Gate Camera.
From S2P Require Import PresenceLoop Scenarios PresenceTurn PresenceRun PresenceTime Turns.

(** ** The tree *)

Variant worldE : Type -> Type :=
| Observe : worldE Obs
| Perform (t : list Event) : worldE unit.

Abbreviation guardE := (exceptE exn +' worldE).

(** A program as a tree: its events, then its value or its exception. *)
Definition embed {A} (m : Prog A) : itree guardE A :=
  ITree.bind (trigger (Perform (trace_of m))) (fun _ =>
  match result_of m with
  | Returns a => Ret a
  | Raises e => throw e
  end).

Section Tree.
Context `{Vision}.
Context (lock_session : (Cmd -> outcome unit) -> Prog bool).
Context (cfg : Config) (cap : Z) (known : list Encoding).

Local Abbreviation iteration := (iteration lock_session cfg cap known).
Local Abbreviation loop := (loop lock_session cfg cap known).

(** One turn of [while True], lines 153-217: the turn runs on what the
    environment answers; it hands the next state to the loop, or its
    exception ends the loop. *)
Definition turn_tree (st : State) : itree guardE (State + void) :=
  ITree.bind (trigger Observe) (fun o =>
  ITree.bind (embed (iteration st o)) (fun st' =>
  Ret (inl st'))).

(** [while True:], line 152. *)
Definition guard_tree : State -> itree guardE void := ITree.iter turn_tree.

End Tree.

(** The tree of any loop over the observations: one turn of [step] and
    its iteration.  [turn_tree] is [step_tree] of [iteration]. *)
Section LoopTree.
Context {S : Type} (step : S -> Obs -> Prog S).

Definition step_tree (st : S) : itree guardE (S + void) :=
  ITree.bind (trigger Observe) (fun o =>
  ITree.bind (embed (step st o)) (fun next =>
  Ret (inl next))).

Definition loop_tree : S -> itree guardE void := ITree.iter step_tree.

End LoopTree.

(** ** Running a tree *)

(** How a run of a program ends as the run of a tree: with its
    exception, or waiting for the next observation. *)
Definition ending {A R} (r : outcome A) : option (outcome R) :=
  match r with
  | Returns _ => None
  | Raises e => Some (Raises e)
  end.

(** What a run gives: the events performed, the observations left,
    and the end: a value, an exception, or [None] for a tree that waits
    for an observation the list does not have. *)
Abbreviation Run R := (list Event * list Obs * option (outcome R))%type.

(** [after tr res]: the run [res] after the events [tr]. *)
Definition after {R} (tr : list Event) (res : Run R) : Run R :=
  (tr ++ res.1.1, res.1.2, res.2).

(** [exec fuel t os]: the run of [t] on the observations [os], if the
    fuel lasts. *)
Fixpoint exec {R} (fuel : nat) (t : itree guardE R) (os : list Obs) : option (Run R) :=
  match fuel with
  | O => None
  | S fuel =>
      match observe t with
      | RetF r => Some ([], os, Some (Returns r))
      | TauF u => exec fuel u os
      | VisF e k =>
          match e with
          | inl1 (Throw e) => Some ([], os, Some (Raises e))
          | inr1 w =>
              match w in worldE X return (X -> itree guardE R) -> option (Run R) with
              | Observe => fun k =>
                  match os with
                  | [] => Some ([], [], None)
                  | o :: os => exec fuel (k o) os
                  end
              | Perform t0 => fun k => after t0 <$> exec fuel (k tt) os
              end k
          end
      end
  end.

(** [run_tree fuel t os]: the events and the end of the run. *)
Definition run_tree {R} (fuel : nat) (t : itree guardE R) (os : list Obs) :
    option (list Event * option (outcome R)) :=
  (fun '(tr, _, x) => (tr, x)) <$> exec fuel t os.

(** ** Properties of every turn *)

(** One step of [always_performs]: what the tree shows next keeps the
    property, and so do the trees that follow. *)
Inductive performsF (P : list Event -> Prop) (r : itree guardE void -> Prop) :
    itree' guardE void -> Prop :=
| performs_tau t : r t -> performsF P r (TauF t)
| performs_observe k : (forall o, r (k o)) -> performsF P r (VisF (inr1 Observe) k)
| performs_perform t k : P t -> r (k tt) -> performsF P r (VisF (inr1 (Perform t)) k)
| performs_throw e k : performsF P r (VisF (inl1 (Throw e)) k).

Definition performs_ (P : list Event -> Prop) (r : itree guardE void -> Prop)
    (t : itree guardE void) : Prop :=
  performsF P r (observe t).

Lemma performs_mon P : monotone1 (performs_ P).
Proof. intros t r r' Hin Hle. unfold performs_ in *. destruct Hin; constructor; auto. Qed.
#[export] Hint Resolve performs_mon : paco.

(** [always_performs P t]: every trace [t] performs satisfies [P],
    whatever the environment answers and however long the run. *)
Definition always_performs (P : list Event -> Prop) (t : itree guardE void) : Prop :=
  paco1 (performs_ P) bot1 t.

Section LoopRuns.
Context {S : Type} (step : S -> Obs -> Prog S).
Implicit Types (st : S) (os : list Obs).

(** The observations a loop leaves: those after the turn that
    raised. *)
Fixpoint remaining (st : S) (os : list Obs) : list Obs :=
  match os with
  | [] => []
  | o :: os =>
      match result_of (step st o) with
      | Returns next => remaining next os
      | Raises _ => os
      end
  end.

(** Three steps of fuel for each observation and one more run the
    tree of a loop to the end of the observations. *)
Lemma loop_tree_exec os st fuel :
  (3 * length os + 1 <= fuel)%nat ->
  exec fuel (loop_tree step st) os
  = Some (trace_of (for_each step st os), remaining st os,
          ending (result_of (for_each step st os))).
Proof.
  revert st fuel. induction os as [|o os IH]; intros st fuel Hfuel.
  { destruct fuel as [|fuel]; [simpl in Hfuel; lia | done]. }
  destruct fuel as [|[|[|fuel]]]; try (simpl in Hfuel; lia).
  cbn [for_each remaining]. rewrite trace_bind, result_bind. unfold loop_tree. cbn.
  destruct (result_of (step st o)) as [st'|e]; cbn; [|done].
  fold (loop_tree step st'). rewrite IH; [done | simpl in *; lia].
Qed.

Lemma loop_tree_runs os st fuel :
  (3 * length os + 1 <= fuel)%nat ->
  run_tree fuel (loop_tree step st) os
  = Some (trace_of (for_each step st os), ending (result_of (for_each step st os))).
Proof. intros Hfuel. unfold run_tree. by rewrite loop_tree_exec. Qed.

(** A property of every turn is a property of the whole loop. *)
Lemma loop_tree_always (P : list Event -> Prop) :
  (forall st o, P (trace_of (step st o))) ->
  forall st, always_performs P (loop_tree step st).
Proof.
  intros Hturn. pcofix CIH. intros st. pfold. unfold performs_. cbn.
  constructor. intros o. left. pfold. unfold performs_. cbn.
  constructor; [apply Hturn|]. left. pfold. unfold performs_.
  destruct (result_of (step st o)) as [st'|e]; cbn; constructor.
  right. apply CIH.
Qed.

(** Every turn of the endless loop of a [Turn] keeps what the turn
    keeps. *)
Lemma loop_tree_kept d b `{!Turn d b step} st : always_performs (kept d b) (loop_tree step st).
Proof. apply loop_tree_always. intros. apply turn_kept. Qed.
End LoopRuns.

Section Runs.
Context `{Vision}.
Context (lock_session : (Cmd -> outcome unit) -> Prog bool).
Context (cfg : Config) (cap : Z) (known : list Encoding).
Implicit Types (st : State) (os : list Obs).

Local Abbreviation iteration := (iteration lock_session cfg cap known).
Local Abbreviation loop := (loop lock_session cfg cap known).
Local Abbreviation guard_tree := (guard_tree lock_session cfg cap known).

(** The loop over a list of observations is the run
    of the loop that never returns: with three steps of fuel for each
    observation and one more, running [guard_tree] on the observations
    ends, with the events [loop] performs and with the exception that
    ended [loop], or waiting for the next observation when [loop]
    completed its turns. *)
Theorem guard_tree_runs os st fuel :
  (3 * length os + 1 <= fuel)%nat ->
  run_tree fuel (guard_tree st) os
  = Some (trace_of (loop st os), ending (result_of (loop st os))).
Proof.
  intros Hfuel. rewrite loop_for_each.
  change (guard_tree st) with (loop_tree iteration st). by apply loop_tree_runs.
Qed.

Lemma guard_tree_loop_tree st : guard_tree st = loop_tree iteration st.
Proof. reflexivity. Qed.

(** A property of every turn is a property of the whole loop. *)
Lemma guard_tree_always (P : list Event -> Prop) :
  (forall st o, P (trace_of (iteration st o))) ->
  forall st, always_performs P (guard_tree st).
Proof. intros Hturn st. rewrite guard_tree_loop_tree. by apply loop_tree_always. Qed.
End Runs.

(** ** What every turn of the loop keeps *)

(** [disciplined cfg t]: each lock cascade of [t] is followed at once by
    the cooldown, [t] blocks for at most the budget of a turn, and [t]
    neither opens nor releases a capture. *)
Definition disciplined (cfg : Config) (t : list Event) : Prop :=
  settled (LOCK_COOLDOWN cfg) t /\
  (blocking t <= turn_budget cfg)%Q /\
  Forall (fun ev => is_lifecycle ev = false) t.

Section Discipline.
Context `{Vision}.
Context (lock_session : (Cmd -> outcome unit) -> Prog bool) `{!LockActuator lock_session}.
Context (cfg : Config) (cap : Z) (known : list Encoding).

(** C15. An invariant of the loop that never
    returns: with a cooldown and a poll interval that are not negative,
    every turn of [guard_tree], at any depth and whatever the
    environment answers, follows each lock cascade with the cooldown,
    blocks on commands and sleeps for at most [turn_budget], and leaves
    the capture open. *)
Theorem guard_tree_every_turn st :
  (0 <= LOCK_COOLDOWN cfg)%Q -> (0 <= CHECK_INTERVAL cfg)%Q ->
  always_performs (disciplined cfg) (guard_tree lock_session cfg cap known st).
Proof.
  intros Hcool Hint. apply guard_tree_always. intros st' o. split_and!.
  - by apply iteration_settled.
  - by apply iteration_blocking.
  - by apply iteration_no_lifecycle.
Qed.
End Discipline.

(** ** Witnesses *)

Lemma guard_tree_runs_witness :
  let V := stub_vision [] [] [] in
  run_tree 13 (guard_tree (H := V) PresenceGuard.lock_session default_config 0 [me] st0)
    empty_room
  = Some (trace_of (loop (H := V) PresenceGuard.lock_session default_config 0 [me]
                      st0 empty_room),
          ending (result_of (loop (H := V) PresenceGuard.lock_session default_config 0 [me]
                               st0 empty_room))).
Proof.
  intros V.
  apply (guard_tree_runs (H := V) PresenceGuard.lock_session default_config 0 [me]
           empty_room st0 13).
  simpl. lia.
Defined.

Lemma guard_tree_every_turn_witness :
  always_performs (disciplined default_config)
    (guard_tree (H := stub_vision [] [] []) PresenceGuard.lock_session default_config 0 [me] st0).
Proof.
  apply (guard_tree_every_turn (H := stub_vision [] [] []) PresenceGuard.lock_session
           default_config 0 [me] st0); done.
Defined.

(** The tree runs: an interrupt of the second poll interval ends the
    run of the loop after six steps. *)
Example guard_tree_interrupted :
  run_tree 6 (guard_tree (H := stub_vision [face] [] [near_me]) PresenceGuard.lock_session
                default_config 0 [me] st0)
    [calm 1000000; interrupted 2000000; calm 3000000]
  = Some ([EvGrab 0; EvGrab 0; EvGrab 0; EvRetrieve 0; EvFaceLocations HOG 1;
           EvLog (MDetected 1); EvAppend (MDetected 1); EvFaceEncodings;
           EvLog (MBestDistance (3 # 10)); EvAppend (MBestDistance (3 # 10));
           EvLog MAuthorized; EvAppend MAuthorized; EvSleep (35 # 100);
           EvGrab 0; EvGrab 0; EvGrab 0; EvRetrieve 0; EvFaceLocations HOG 1;
           EvLog (MDetected 1); EvAppend (MDetected 1); EvFaceEncodings;
           EvLog (MBestDistance (3 # 10)); EvAppend (MBestDistance (3 # 10));
           EvLog MAuthorized; EvAppend MAuthorized; EvSleep (35 # 100)],
          Some (Raises KeyboardInterrupt)).
Proof. by vm_compute. Qed.
