(* ===== verification/TreeRuns.v ===== *)
(** * Runs of the trees of statements

    The statements around the loops of the two scripts as interaction
    trees, and the theory of their runs under [exec] of GuardTree.v.

    [clauses_tree], [try_tree] and [finally_tree] are [try/except] and
    [try/finally], built from [try_catch] of the library of interaction
    trees.  [exec] respects the strong bisimulation of trees
    ([exec_proper]), so the equations of the library ([bind_ret_l],
    [try_catch_exc], ...) rewrite under it, and more fuel runs a tree to
    the same end ([exec_mono], [exec_deterministic]).  [continue] and
    [recover] are the sequence and the [try] of runs; [exec_bind] and
    [exec_try_catch] run a sequence and a [try] from the runs of their
    parts, with the fuel they need.

    [runs_as] relates a tree that comes to its end to a run of the
    monad [Prog], [waits] says that a tree has used up its observations.
    The statements of the trees run as the statements of [Prog]
    ([embed_runs], [bind_runs], [try_tree_runs], [finally_tree_runs]),
    and a statement around a tree that waits waits ([bind_waits],
    [try_tree_waits], [finally_tree_waits]). *)

From Stdlib Require Import Morphisms.
From ITree Require Import ITree ITreeFacts Events.Exception Events.ExceptionFacts.
From S2P Require Import Prelude Effects PresenceLoop GuardTree.

(** ** The statements *)

(** The [except] clauses of a [try] statement: the handler of the
    clause that takes the exception [e], or [e] again when none does. *)
Definition clauses_tree {A} (clauses : exn -> option (Prog A)) (e : exn) : itree guardE A :=
  match clauses e with
  | Some h => embed h
  | None => throw e
  end.

(** [try: body except ...: ...]. *)
Definition try_tree {A} (body : itree guardE A) (clauses : exn -> option (Prog A)) :
    itree guardE A :=
  try_catch body (clauses_tree clauses).

(** [try: body finally: cleanup]: the cleanup runs when the body
    returns and when it raises, and then the exception goes on. *)
Definition finally_tree {R} (body : itree guardE R) (cleanup : itree guardE unit) :
    itree guardE R :=
  ITree.bind (try_catch body (fun e => ITree.bind cleanup (fun _ => throw e))) (fun r =>
  ITree.bind cleanup (fun _ =>
  Ret r)).

(** The run of a sequence from the run of its first part: what
    follows runs on the value returned and on the observations left; an
    exception and the end of the observations end the sequence. *)
Definition continue {R T} (r : option (Run R)) (next : R -> list Obs -> option (Run T)) :
    option (Run T) :=
  match r with
  | Some (tr, rest, Some (Returns v)) => after tr <$> next v rest
  | Some (tr, rest, Some (Raises e)) => Some (tr, rest, Some (Raises e))
  | Some (tr, rest, None) => Some (tr, rest, None)
  | None => None
  end.

(** The run of a [try] from the run of its body: the handler runs on
    the exception raised and on the observations left. *)
Definition recover {R} (r : option (Run R)) (handle : exn -> list Obs -> option (Run R)) :
    option (Run R) :=
  match r with
  | Some (tr, rest, Some (Raises e)) => after tr <$> handle e rest
  | _ => r
  end.

(** The clauses of a [try] as one handler: the exception that no clause
    takes is raised again. *)
Definition clauses_run {A} (clauses : exn -> option (Prog A)) (e : exn) : Prog A :=
  default (raise e) (clauses e).

(** [runs_as fuel t os m rest]: on the observations [os] the tree [t]
    comes to its end within [fuel] steps, with the events and the
    outcome of the run [m], and leaves the observations [rest]. *)
Definition runs_as {A} (fuel : nat) (t : itree guardE A) (os : list Obs)
    (m : Prog A) (rest : list Obs) : Prop :=
  exec fuel t os = Some (trace_of m, rest, Some (result_of m)).

(** [waits fuel t os tr]: the tree [t] uses up the observations [os]
    within [fuel] steps, has performed [tr] and asks for the next
    observation. *)
Definition waits {A} (fuel : nat) (t : itree guardE A) (os : list Obs) (tr : list Event) :
    Prop :=
  exec fuel t os = Some (tr, [], None).

(** ** Running trees *)

Ltac shape t :=
  let e := fresh "e" in let w := fresh "w" in let k := fresh "k" in
  destruct (observe t) as [?r|?u|?X e k];
  [| |destruct e as [e|w]; revert k; [destruct e as [?e]|destruct w]; intros k].

Section Exec.
Context {R : Type}.
Implicit Types (t u : itree guardE R) (os : list Obs) (res : Run R).

(** More fuel runs a tree to the same end. *)
Lemma exec_mono fuel : forall fuel' t os res,
  exec fuel t os = Some res -> (fuel <= fuel')%nat -> exec fuel' t os = Some res.
Proof.
  induction fuel as [|fuel IH]; intros fuel' t os res; [done|].
  destruct fuel' as [|fuel']; [lia|]. cbn [exec]. shape t; intros Hex Hle.
  - done.
  - apply IH; [done|lia].
  - done.
  - destruct os as [|o os]; [done|]. apply IH; [done|lia].
  - destruct (exec fuel (k tt) os) as [[[tr rest] x]|] eqn:Hk; [|done].
    by rewrite (IH fuel' _ _ _ Hk) by lia.
Qed.

(** Two runs of a tree on the same observations agree. *)
Lemma exec_deterministic fuel fuel' t os res res' :
  exec fuel t os = Some res -> exec fuel' t os = Some res' -> res = res'.
Proof.
  intros Hr Hr'. apply (exec_mono _ (fuel `max` fuel')) in Hr, Hr'; [|lia..]. congruence.
Qed.

(** [exec] does not tell bisimilar trees apart. *)
#[export] Instance exec_proper fuel : Proper (eq_itree eq ==> eq ==> eq) (@exec R fuel).
Proof.
  induction fuel as [|fuel IH]; intros t t' Heq os ? <-; [done|].
  cbn [exec]. apply eqit_inv in Heq. unfold observe.
  destruct (_observe t) as [r|u|X e k], (_observe t') as [r'|u'|X' e' k']; cbn in Heq.
  all: try done.
  - by rewrite Heq.
  - by apply IH.
  - destruct Heq as (p & He & Hk). destruct p. cbn in He, Hk. subst e'.
    destruct e as [[e]|w]; [done|]. destruct w.
    + destruct os as [|o os]; [done|]. apply IH; [apply Hk | done].
    + by rewrite (IH _ _ (Hk tt) os os eq_refl).
Qed.

Lemma exec_Ret fuel (r : R) os : exec (S fuel) (Ret r) os = Some ([], os, Some (Returns r)).
Proof. done. Qed.

Lemma exec_Tau fuel t os : exec (S fuel) (Tau t) os = exec fuel t os.
Proof. done. Qed.

Lemma exec_Throw fuel e (k : void -> itree guardE R) os :
  exec (S fuel) (Vis (inl1 (Throw e)) k) os = Some ([], os, Some (Raises e)).
Proof. done. Qed.

Lemma exec_throw fuel e os :
  exec (S fuel) (throw e : itree guardE R) os = Some ([], os, Some (Raises e)).
Proof. done. Qed.

Lemma exec_Observe fuel (k : Obs -> itree guardE R) os :
  exec (S fuel) (Vis (inr1 Observe) k) os =
  match os with [] => Some ([], [], None) | o :: os => exec fuel (k o) os end.
Proof. done. Qed.

Lemma exec_Perform fuel (tr : list Event) (k : unit -> itree guardE R) os :
  exec (S fuel) (Vis (inr1 (Perform tr)) k) os = after tr <$> exec fuel (k tt) os.
Proof. done. Qed.
End Exec.

#[export] Hint Rewrite @exec_Ret @exec_Tau @exec_Throw @exec_Observe @exec_Perform : guard.

#[local] Arguments exec : simpl never.

(** ** Sequences and [try] *)

Lemma after_nil {R} (res : Run R) : after [] res = res.
Proof. by destruct res as [[??]?]. Qed.

Lemma fmap_after_nil {R} (r : option (Run R)) : after [] <$> r = r.
Proof. destruct r; [|done]. simpl. by rewrite after_nil. Qed.

Lemma after_after {R} tr tr' (res : Run R) : after tr (after tr' res) = after (tr ++ tr') res.
Proof. unfold after. simpl. by rewrite app_assoc. Qed.

Lemma continue_after {R T} tr (r : option (Run R)) (next : R -> list Obs -> option (Run T)) :
  continue (after tr <$> r) next = after tr <$> continue r next.
Proof.
  destruct r as [[[tr' rest] [[v|e]|]]|]; try done. simpl.
  destruct (next v rest) as [res|]; [|done]. simpl. by rewrite after_after.
Qed.

Lemma recover_after {R} tr (r : option (Run R)) handle :
  recover (after tr <$> r) handle = after tr <$> recover r handle.
Proof.
  destruct r as [[[tr' rest] [[v|e]|]]|]; try done. simpl.
  destruct (handle e rest) as [res|]; [|done]. simpl. by rewrite after_after.
Qed.

Section Sequence.
Context {R T : Type}.
Implicit Types (t : itree guardE R) (k : R -> itree guardE T) (os : list Obs).

(** A sequence runs on the fuel of its parts. *)
Lemma exec_bind fuel g : forall t k os res,
  continue (exec fuel t os) (fun v rest => exec g (k v) rest) = Some res ->
  exec (fuel + g) (ITree.bind t k) os = Some res.
Proof.
  induction fuel as [|fuel IH]; intros t k os res; [done|].
  rewrite (itree_eta t). change (S fuel + g)%nat with (S (fuel + g)). shape t.
  - rewrite Eqit.bind_ret_l, exec_Ret. simpl. rewrite fmap_after_nil.
    intros Hk. eapply exec_mono; [done|lia].
  - rewrite Eqit.bind_tau, !exec_Tau. apply IH.
  - by rewrite Eqit.bind_vis, !exec_Throw.
  - rewrite Eqit.bind_vis, !exec_Observe. destruct os as [|o os]; [done|]. apply IH.
  - rewrite Eqit.bind_vis, !exec_Perform, continue_after.
    destruct (continue _ _) as [res'|] eqn:Hk; [|done]. by rewrite (IH _ _ _ _ Hk).
Qed.
End Sequence.

Section Try.
Context {R : Type}.
Implicit Types (t : itree guardE R) (h : exn -> itree guardE R) (os : list Obs).

(** A [try] runs on twice the fuel of its body and the fuel of its
    handler. *)
Lemma exec_try_catch fuel g : forall t h os res,
  recover (exec fuel t os) (fun e rest => exec g (h e) rest) = Some res ->
  exec (2 * fuel + g) (try_catch t h) os = Some res.
Proof.
  induction fuel as [|fuel IH]; intros t h os res; [done|].
  rewrite (itree_eta t). replace (2 * S fuel + g)%nat with (S (S (2 * fuel + g))) by lia.
  shape t.
  - by rewrite try_catch_ret, !exec_Ret.
  - rewrite try_catch_tau, !exec_Tau. intros Hr. eapply exec_mono; [by apply IH | lia].
  - rewrite try_catch_exc, exec_Throw. simpl. rewrite fmap_after_nil.
    intros Hh. eapply exec_mono; [done|lia].
  - rewrite try_catch_ev, !exec_Observe. destruct os as [|o os]; [done|].
    rewrite exec_Tau. apply IH.
  - rewrite try_catch_ev, !exec_Perform, exec_Tau, recover_after.
    destruct (recover _ _) as [res'|] eqn:Hr; [|done]. by rewrite (IH _ _ _ _ Hr).
Qed.
End Try.

(** ** The statements of the trees are the statements of the runs *)

Section Statements.
Context {A : Type}.
Implicit Types (t : itree guardE A) (m : Prog A) (os rest : list Obs).

Lemma runs_as_mono fuel fuel' t os m rest :
  runs_as fuel t os m rest -> (fuel <= fuel')%nat -> runs_as fuel' t os m rest.
Proof. apply exec_mono. Qed.

Lemma waits_mono fuel fuel' t os tr :
  waits fuel t os tr -> (fuel <= fuel')%nat -> waits fuel' t os tr.
Proof. apply exec_mono. Qed.

(** A run that is embedded runs as itself. *)
Lemma embed_runs m os : runs_as 2 (embed m) os m os.
Proof.
  unfold runs_as. destruct m as [tr r].
  assert (exec 2 (embed (tr, r)) os = Some (after tr ([], os, Some r))) as ->
    by by destruct r.
  unfold after. simpl. by rewrite app_nil_r.
Qed.

Lemma ret_runs (a : A) os : runs_as 1 (Ret a) os (mret a) os.
Proof. done. Qed.

Lemma throw_runs e os : runs_as 1 (throw e : itree guardE A) os (raise e) os.
Proof. done. Qed.

(** A sequence whose second part reads no observation. *)
Lemma bind_runs {B} fuel g t (k : A -> itree guardE B) os m (f : A -> Prog B) rest :
  runs_as fuel t os m rest ->
  (forall a, result_of m = Returns a -> runs_as g (k a) rest (f a) rest) ->
  runs_as (fuel + g) (ITree.bind t k) os (m ≫= f) rest.
Proof.
  unfold runs_as. intros Ht Hk. apply exec_bind. rewrite Ht, trace_bind, result_bind.
  destruct (result_of m) as [a|e]; cbn [continue]; [|by rewrite app_nil_r].
  by rewrite (Hk a eq_refl).
Qed.

Lemma bind_waits {B} fuel t (k : A -> itree guardE B) os tr :
  waits fuel t os tr -> waits fuel (ITree.bind t k) os tr.
Proof.
  unfold waits. intros Ht. rewrite <- (Nat.add_0_r fuel) at 1.
  apply exec_bind. by rewrite Ht.
Qed.

(** A [try] whose handlers read no observation. *)
Lemma try_catch_runs fuel g t (h : exn -> itree guardE A) os m (hs : exn -> Prog A) rest :
  runs_as fuel t os m rest ->
  (forall e, result_of m = Raises e -> runs_as g (h e) rest (hs e) rest) ->
  runs_as (2 * fuel + g) (try_catch t h) os (try_except m (fun e => Some (hs e))) rest.
Proof.
  unfold runs_as. intros Ht Hh. apply exec_try_catch.
  rewrite Ht, try_except_trace, try_except_result. cbn [recover].
  destruct (result_of m) as [a|e]; [by rewrite app_nil_r|].
  by rewrite (Hh e eq_refl).
Qed.

Lemma try_catch_waits fuel t (h : exn -> itree guardE A) os tr :
  waits fuel t os tr -> waits (2 * fuel) (try_catch t h) os tr.
Proof.
  unfold waits. intros Ht. rewrite <- (Nat.add_0_r (2 * fuel)).
  apply exec_try_catch. by rewrite Ht.
Qed.

Lemma try_except_clauses_run m clauses :
  try_except m (fun e => Some (clauses_run clauses e)) = try_except m clauses.
Proof.
  destruct m as [tr [a|e]]; [done|]. unfold try_except, clauses_run. simpl.
  destruct (clauses e); [done|]. unfold prepend. simpl. by rewrite app_nil_r.
Qed.

(** The [except] clauses run as in [try_except]. *)
Lemma try_tree_runs fuel t os m rest clauses :
  runs_as fuel t os m rest ->
  runs_as (2 * fuel + 2) (try_tree t clauses) os (try_except m clauses) rest.
Proof.
  intros Ht. rewrite <- try_except_clauses_run. apply try_catch_runs; [done|].
  intros e _. unfold clauses_tree, clauses_run. destruct (clauses e) as [h|]; simpl.
  - apply embed_runs.
  - eapply runs_as_mono; [apply throw_runs | lia].
Qed.

Lemma try_tree_waits fuel t os tr clauses :
  waits fuel t os tr -> waits (2 * fuel) (try_tree t clauses) os tr.
Proof. apply try_catch_waits. Qed.

End Statements.

Section Finally.
Context {A : Type}.
Implicit Types (t : itree guardE A) (m : Prog A) (os rest : list Obs).

(** [finally] is a [try] that raises again after the cleanup, followed
    by the cleanup. *)
Lemma finally_try_except m (c : Prog unit) :
  finally m c
  = try_except m (fun e => Some (c;; raise e)) ≫= fun a => c;; mret a.
Proof.
  destruct m as [tr [a|e]], c as [tc [[]|e']]; unfold finally, try_except; cbn;
    unfold prepend; cbn; by rewrite ?app_nil_r.
Qed.

(** The [finally] clause runs as in [finally]. *)
Lemma finally_tree_runs fuel t os m rest (c : Prog unit) :
  runs_as fuel t os m rest ->
  runs_as (2 * fuel + 6) (finally_tree t (embed c)) os (finally m c) rest.
Proof.
  intros Ht. rewrite finally_try_except. unfold finally_tree.
  replace (2 * fuel + 6)%nat with (2 * fuel + 3 + 3)%nat by lia.
  apply bind_runs; [apply try_catch_runs; [done|] |]; intros ? _.
  - apply (bind_runs 2 1); [apply embed_runs | intros; apply throw_runs].
  - apply (bind_runs 2 1); [apply embed_runs | intros; apply ret_runs].
Qed.

Lemma finally_tree_waits fuel t os tr (c : itree guardE unit) :
  waits fuel t os tr -> waits (2 * fuel) (finally_tree t c) os tr.
Proof. intros Ht. by apply bind_waits, try_catch_waits. Qed.
End Finally.
