(* ===== verification/GuardedTree.v ===== *)
(** * The guard around the endless loop

    [try: while True: ... except KeyboardInterrupt: ... except Exception
    as e: ... finally: cap.release()], src/presence_guard.py:151-224 and
    src/face_detect.py:98-146, around the loop that never returns, as an
    interaction tree: [endless] is the loop as the body of the [try],
    [guarded_by] the whole statement around a loop and [guarded_tree]
    the guard of src/presence_guard.py from its line "Starting".

    [guarded_by_runs] and [guarded_by_waits] are the run of the guard
    around any loop: as long as the observations last the tree performs
    the events of the turns and waits; the turn that raises ends it with
    the lines of the exit and the release of the capture, as in
    [guarded_run].  [guarded_tree_runs] states it of
    src/presence_guard.py against [guarded_loop], and
    [guarded_tree_release] that no run of the guard, whatever the fuel,
    ends without the release as its last event, and that no run that
    waits has released the capture. *)

From ITree Require Import ITree Events.Exception.
From S2P Require Import Prelude Effects LockActuator Vision Gate Camera.
From S2P Require Import PresenceLoop Scenarios PresenceTurn PresenceRun PresenceTime Turns.
From S2P Require Import GuardTree TreeRuns.

(** ** The statements *)

(** [while True: ...] as the body of a [try]: the loop has no value to
    hand on. *)
Definition endless (body : itree guardE void) : itree guardE unit :=
  ITree.bind body (fun v : void => match v with end).

(** The [try] statement around a loop, lines 151-224. *)
Definition guarded_by (cap : Z) (body : itree guardE void) : itree guardE unit :=
  finally_tree
    (try_tree (endless body) on_exit)
    (embed (emit (EvRelease cap))).

Section Tree.
Context `{Vision}.
Context (lock_session : (Cmd -> outcome unit) -> Prog bool).
Context (cfg : Config) (cap : Z) (known : list Encoding).

(** Lines 147-224 of src/presence_guard.py. *)
Definition guarded_tree (start : Time) : itree guardE unit :=
  ITree.bind (embed (log MStarting)) (fun _ =>
  let st := {| last_seen_someone := start; frame_i := 0 |} in
  guarded_by cap (guard_tree lock_session cfg cap known st)).

End Tree.

(** The run of the statement of lines 151-224 on the observations
    [os], for the turn [step] of a loop. *)
Definition guarded_run {S} (step : S -> Obs -> Prog S) (cap : Z) (st : S) (os : list Obs) :
    Prog unit :=
  finally (try_except (for_each step st os;; mret tt) on_exit) (emit (EvRelease cap)).

(** An interrupt of the second poll interval, with one more frame
    waiting. *)
Definition interrupted_run : list Obs :=
  [calm 1000000; interrupted 2000000; calm 3000000].

(** ** The guard around a loop *)

Section Guarded.
Context {S : Type} (step : S -> Obs -> Prog S) (cap : Z).
Implicit Types (st : S) (os : list Obs).

(** A loop that has not raised has read every observation. *)
Lemma remaining_returns os st st' :
  result_of (for_each step st os) = Returns st' -> remaining step st os = [].
Proof.
  revert st. induction os as [|o os IH]; intros st; [done|].
  cbn [for_each remaining]. rewrite result_bind.
  destruct (result_of (step st o)) as [next|e]; [apply IH | done].
Qed.

Lemma endless_runs os st e :
  result_of (for_each step st os) = Raises e ->
  runs_as (3 * length os + 1) (endless (loop_tree step st)) os (for_each step st os;; mret tt)
    (remaining step st os).
Proof.
  intros He. unfold runs_as, endless. rewrite <- (Nat.add_0_r (_ + 1)).
  apply exec_bind. rewrite loop_tree_exec by done.
  by rewrite trace_bind_mret, result_bind, He.
Qed.

Lemma endless_waits os st st' :
  result_of (for_each step st os) = Returns st' ->
  waits (3 * length os + 1) (endless (loop_tree step st)) os (trace_of (for_each step st os)).
Proof.
  intros Hr. apply bind_waits. unfold waits.
  by rewrite loop_tree_exec, (remaining_returns _ _ _ Hr), Hr.
Qed.

(** The turn that raises ends the guard around the loop as it ends the
    guarded run. *)
Lemma guarded_by_runs os st e fuel :
  result_of (for_each step st os) = Raises e ->
  (12 * length os + 14 <= fuel)%nat ->
  runs_as fuel (guarded_by cap (loop_tree step st)) os (guarded_run step cap st os)
    (remaining step st os).
Proof.
  intros He Hfuel. eapply runs_as_mono; [|exact Hfuel].
  replace (12 * length os + 14)%nat with (2 * (2 * (3 * length os + 1) + 2) + 6)%nat by lia.
  by eapply finally_tree_runs, try_tree_runs, endless_runs.
Qed.

(** As long as no turn raises, the guard around the loop has performed
    the events of the turns and waits for the next frame. *)
Lemma guarded_by_waits os st st' fuel :
  result_of (for_each step st os) = Returns st' ->
  (12 * length os + 4 <= fuel)%nat ->
  waits fuel (guarded_by cap (loop_tree step st)) os (trace_of (for_each step st os)).
Proof.
  intros Hr Hfuel. eapply waits_mono; [|exact Hfuel].
  replace (12 * length os + 4)%nat with (2 * (2 * (3 * length os + 1)))%nat by lia.
  by eapply finally_tree_waits, try_tree_waits, endless_waits.
Qed.

(** The run of the guard around a loop, with twelve steps of fuel for
    each observation and fourteen more. *)
Lemma guarded_by_exec os st fuel :
  (12 * length os + 14 <= fuel)%nat ->
  exec fuel (guarded_by cap (loop_tree step st)) os
  = Some match result_of (for_each step st os) with
         | Returns _ => (trace_of (for_each step st os), [], None)
         | Raises _ => (trace_of (guarded_run step cap st os), remaining step st os,
                        Some (result_of (guarded_run step cap st os)))
         end.
Proof.
  intros Hfuel. destruct (result_of (for_each step st os)) as [st'|e] eqn:Hr.
  - eapply guarded_by_waits; [done|lia].
  - by eapply guarded_by_runs.
Qed.

(** The events of the guarded run: the turns, the lines of the exit,
    the release. *)
Lemma guarded_run_trace os st :
  trace_of (guarded_run step cap st os)
  = (trace_of (for_each step st os)
     ++ match result_of (for_each step st os) with
        | Returns _ => []
        | Raises e => exit_lines e
        end) ++ [EvRelease cap].
Proof.
  unfold guarded_run. rewrite finally_emit. cbn [trace_of fst].
  rewrite try_except_trace, trace_bind_mret, result_bind. do 2 f_equal.
  destruct (result_of _) as [|e]; [done|]. by destruct e.
Qed.

(** Around a loop whose turns leave the capture alone, the guard ends
    only when a turn raises: a run of the guard that has come to its
    end has seen a turn raise and has released the capture once, as its
    last event, and a run that waits has seen every turn return and has
    not released the capture. *)
Lemma guarded_by_release os st fuel tr rest x :
  (forall st o, Forall (fun ev => is_release ev = false) (trace_of (step st o))) ->
  exec fuel (guarded_by cap (loop_tree step st)) os = Some (tr, rest, x) ->
  match x with
  | Some _ =>
      (exists e, result_of (for_each step st os) = Raises e) /\
      exists t, tr = t ++ [EvRelease cap] /\ Forall (fun ev => is_release ev = false) t
  | None =>
      (exists st', result_of (for_each step st os) = Returns st') /\
      Forall (fun ev => is_release ev = false) tr
  end.
Proof.
  intros Hstep Hex. pose proof (guarded_by_exec os st _ (Nat.le_refl _)) as Hrun.
  rewrite guarded_run_trace in Hrun.
  pose proof (for_each_Forall step _ Hstep os st) as Hloop.
  destruct (result_of (for_each step st os)) as [st'|e];
    injection (exec_deterministic _ _ _ _ _ _ Hex Hrun) as -> _ ->; [by eauto|].
  split; [by eauto|]. eexists. split; [done|]. apply Forall_app. split; [done|].
  destruct e; by repeat constructor.
Qed.
End Guarded.

(** ** The guard of src/presence_guard.py *)

Section Presence.
Context `{Vision}.
Context (lock_session : (Cmd -> outcome unit) -> Prog bool) `{!LockActuator lock_session}.
Context (cfg : Config) (cap : Z) (known : list Encoding).
Implicit Types (st : State) (os : list Obs).

Local Abbreviation iteration := (iteration lock_session cfg cap known).
Local Abbreviation loop := (loop lock_session cfg cap known).
Local Abbreviation guarded_loop := (guarded_loop lock_session cfg cap known).
Local Abbreviation guarded_tree := (guarded_tree lock_session cfg cap known).

Lemma guarded_loop_guarded_run start os :
  guarded_loop start os
  = (log MStarting;;
     guarded_run iteration cap {| last_seen_someone := start; frame_i := 0 |} os).
Proof. unfold PresenceLoop.guarded_loop, guarded_run. by rewrite loop_for_each. Qed.

(** The run of the tree of the guard, in the terms of the loop over
    the turns. *)
Lemma guarded_tree_exec start os fuel :
  let st := {| last_seen_someone := start; frame_i := 0 |} in
  (12 * length os + 16 <= fuel)%nat ->
  exec fuel (guarded_tree start) os
  = Some match result_of (for_each iteration st os) with
         | Returns _ => (logs MStarting ++ trace_of (for_each iteration st os), [], None)
         | Raises _ =>
             (logs MStarting ++ trace_of (guarded_run iteration cap st os),
              remaining iteration st os,
              Some (result_of (guarded_run iteration cap st os)))
         end.
Proof.
  intros st Hfuel. eapply exec_mono; [|exact Hfuel].
  replace (12 * length os + 16)%nat with (2 + (12 * length os + 14))%nat by lia.
  apply exec_bind. rewrite (embed_runs (log MStarting)), result_log, trace_log. cbn [continue].
  rewrite guard_tree_loop_tree, guarded_by_exec by done.
  by destruct (result_of (for_each _ _ _)).
Qed.

(** The guard as a tree: run on the observations [os] with twelve
    steps of fuel for each observation and sixteen more, the tree of
    lines 147-224 of src/presence_guard.py either has performed
    "Starting" and the events of the turns and waits for the next frame,
    when no turn raises, or ends with the events and the outcome of
    [guarded_loop], leaving the observations after the turn that
    raised. *)
Theorem guarded_tree_runs start os fuel :
  let st := {| last_seen_someone := start; frame_i := 0 |} in
  (12 * length os + 16 <= fuel)%nat ->
  exec fuel (guarded_tree start) os
  = Some match result_of (loop st os) with
         | Returns _ => (logs MStarting ++ trace_of (loop st os), [], None)
         | Raises _ => (trace_of (guarded_loop start os), remaining iteration st os,
                        Some (result_of (guarded_loop start os)))
         end.
Proof.
  intros st Hfuel. rewrite guarded_loop_guarded_run, loop_for_each, trace_bind, result_bind.
  by apply guarded_tree_exec.
Qed.

(** C14. The guard ends only on an exception and holds the capture
    until then: whatever the fuel, a run of the tree of the guard that
    has come to its end has seen a turn of the loop raise and has
    released the capture once, as its last event; a run that waits for
    a frame has seen every turn return and has not released the
    capture. *)
Theorem guarded_tree_release start os fuel tr rest x :
  let st := {| last_seen_someone := start; frame_i := 0 |} in
  exec fuel (guarded_tree start) os = Some (tr, rest, x) ->
  match x with
  | Some _ =>
      (exists e, result_of (loop st os) = Raises e) /\
      exists t, tr = t ++ [EvRelease cap] /\ Forall (fun ev => is_release ev = false) t
  | None =>
      (exists st', result_of (loop st os) = Returns st') /\
      Forall (fun ev => is_release ev = false) tr
  end.
Proof.
  intros st Hex. pose proof (guarded_tree_exec start os _ (Nat.le_refl _)) as Hrun.
  cbv zeta in Hrun. fold st in Hrun. rewrite guarded_run_trace in Hrun.
  pose proof (loop_no_release lock_session cfg cap known os st) as Hloop.
  rewrite loop_for_each in *.
  destruct (result_of (for_each iteration st os)) as [st'|e];
    injection (exec_deterministic _ _ _ _ _ _ Hex Hrun) as -> _ ->.
  - split; [by eauto | by repeat constructor].
  - split; [by eauto|].
    exists (logs MStarting ++ trace_of (for_each iteration st os) ++ exit_lines e).
    split; [done|]. do 2 (constructor; [done|]). apply Forall_app. split; [done|].
    destruct e; by repeat constructor.
Qed.
End Presence.

(** ** Witnesses *)

Lemma guarded_tree_runs_witness :
  let V := stub_vision [face] [] [near_me] in
  let st := {| last_seen_someone := 0; frame_i := 0 |} in
  exec 52 (guarded_tree (H := V) PresenceGuard.lock_session default_config 0 [me] 0)
    interrupted_run
  = Some match result_of (loop (H := V) PresenceGuard.lock_session default_config 0 [me]
                            st interrupted_run) with
         | Returns _ =>
             (logs MStarting
                ++ trace_of (loop (H := V) PresenceGuard.lock_session default_config 0 [me]
                               st interrupted_run), [], None)
         | Raises _ =>
             (trace_of (guarded_loop (H := V) PresenceGuard.lock_session default_config 0 [me]
                          0 interrupted_run),
              remaining (iteration (H := V) PresenceGuard.lock_session default_config 0 [me])
                st interrupted_run,
              Some (result_of (guarded_loop (H := V) PresenceGuard.lock_session
                                 default_config 0 [me] 0 interrupted_run)))
         end.
Proof.
  intros V st.
  apply (guarded_tree_runs (H := V) PresenceGuard.lock_session default_config 0 [me]
           0 interrupted_run 52).
  simpl. lia.
Defined.

Lemma guarded_tree_release_witness :
  let V := stub_vision [face] [] [near_me] in
  (exists e, result_of (loop (H := V) PresenceGuard.lock_session default_config 0 [me]
                          {| last_seen_someone := 0; frame_i := 0 |} interrupted_run)
             = Raises e) /\
  exists t,
    [EvLog MStarting; EvAppend MStarting;
     EvGrab 0; EvGrab 0; EvGrab 0; EvRetrieve 0; EvFaceLocations HOG 1;
     EvLog (MDetected 1); EvAppend (MDetected 1); EvFaceEncodings;
     EvLog (MBestDistance (3 # 10)); EvAppend (MBestDistance (3 # 10));
     EvLog MAuthorized; EvAppend MAuthorized; EvSleep (35 # 100);
     EvGrab 0; EvGrab 0; EvGrab 0; EvRetrieve 0; EvFaceLocations HOG 1;
     EvLog (MDetected 1); EvAppend (MDetected 1); EvFaceEncodings;
     EvLog (MBestDistance (3 # 10)); EvAppend (MBestDistance (3 # 10));
     EvLog MAuthorized; EvAppend MAuthorized; EvSleep (35 # 100);
     EvLog MStopped; EvAppend MStopped; EvRelease 0]
    = t ++ [EvRelease 0] /\ Forall (fun ev => is_release ev = false) t.
Proof.
  intros V.
  apply (guarded_tree_release (H := V) PresenceGuard.lock_session default_config 0 [me]
           0 interrupted_run 40 _ [calm 3000000] (Some (Returns tt))).
  vm_compute. reflexivity.
Defined.

(** The interrupt ends the tree of the guard: "stopped by user", the
    release, and the frame after the interrupt is not read. *)
Example guarded_tree_interrupted :
  exec 40 (guarded_tree (H := stub_vision [face] [] [near_me]) PresenceGuard.lock_session
             default_config 0 [me] 0) interrupted_run
  = Some ([EvLog MStarting; EvAppend MStarting;
           EvGrab 0; EvGrab 0; EvGrab 0; EvRetrieve 0; EvFaceLocations HOG 1;
           EvLog (MDetected 1); EvAppend (MDetected 1); EvFaceEncodings;
           EvLog (MBestDistance (3 # 10)); EvAppend (MBestDistance (3 # 10));
           EvLog MAuthorized; EvAppend MAuthorized; EvSleep (35 # 100);
           EvGrab 0; EvGrab 0; EvGrab 0; EvRetrieve 0; EvFaceLocations HOG 1;
           EvLog (MDetected 1); EvAppend (MDetected 1); EvFaceEncodings;
           EvLog (MBestDistance (3 # 10)); EvAppend (MBestDistance (3 # 10));
           EvLog MAuthorized; EvAppend MAuthorized; EvSleep (35 # 100);
           EvLog MStopped; EvAppend MStopped; EvRelease 0],
          [calm 3000000], Some (Returns tt)).
Proof. vm_compute. reflexivity. Qed.

(** Without an interrupt the tree waits, the capture still held. *)
Example guarded_tree_waiting :
  exec 40 (guarded_tree (H := stub_vision [face] [] [near_me]) PresenceGuard.lock_session
             default_config 0 [me] 0) [calm 1000000]
  = Some ([EvLog MStarting; EvAppend MStarting;
           EvGrab 0; EvGrab 0; EvGrab 0; EvRetrieve 0; EvFaceLocations HOG 1;
           EvLog (MDetected 1); EvAppend (MDetected 1); EvFaceEncodings;
           EvLog (MBestDistance (3 # 10)); EvAppend (MBestDistance (3 # 10));
           EvLog MAuthorized; EvAppend MAuthorized; EvSleep (35 # 100)],
          [], None).
Proof. vm_compute. reflexivity. Qed.
