(* ===== verification/Representation.v ===== *)
(** * The constants up to their value

    The constants of the scripts are floats, which the model takes as
    rationals (Floats.v says what the doubles change).  A rational has
    many fractions: [0.35] is [35 # 100] and
    [7 # 20].  This file shows that what the guard does depends on the
    values of the constants only.

    [same_config] relates two configurations whose constants have the
    same values.  [event_equiv] relates two events that differ at most
    in the fraction of a sleep, [trace_equiv] two traces of such events,
    and [prog_equiv] two programs with equivalent traces and the same
    outcome.  The observations on traces ([locked], [verdicts],
    [cascades]) are [Proper] for [trace_equiv], [spec_lock] is [Proper]
    for [same_config], and a turn and a run of the loop under two
    configurations related by [same_config] are [prog_equiv]. *)

From Stdlib Require Import Setoid Morphisms.
From S2P Require Import Prelude Effects LockActuator Vision Gate Camera.
From S2P Require Import PresenceLoop Scenarios PresenceTurn PresenceRun.

(** ** Traces up to the fractions of the sleeps *)

Definition event_equiv (ev ev' : Event) : Prop :=
  match ev, ev' with
  | EvSleep d, EvSleep d' => (d == d')%Q
  | _, _ => ev = ev'
  end.

Definition trace_equiv : relation trace := Forall2 event_equiv.

Definition prog_equiv {A} (m m' : Prog A) : Prop :=
  trace_equiv (trace_of m) (trace_of m') /\ result_of m = result_of m'.

Infix "≈" := prog_equiv (at level 70) : guard_scope.

(** ** Configurations up to the fractions of their constants *)

Record same_config (c c' : Config) : Prop := {
  same_ENROLL_DIR : ENROLL_DIR c = ENROLL_DIR c';
  same_ALLOWED_TOLERANCE : (ALLOWED_TOLERANCE c == ALLOWED_TOLERANCE c')%Q;
  same_CHECK_INTERVAL : (CHECK_INTERVAL c == CHECK_INTERVAL c')%Q;
  same_LOCK_COOLDOWN : (LOCK_COOLDOWN c == LOCK_COOLDOWN c')%Q;
  same_ABSENCE_TIMEOUT : (ABSENCE_TIMEOUT c == ABSENCE_TIMEOUT c')%Q;
  same_USE_BLUETOOTH : USE_BLUETOOTH c = USE_BLUETOOTH c';
  same_PHONE_MAC : PHONE_MAC c = PHONE_MAC c';
  same_VIDEO_DEVICE : VIDEO_DEVICE c = VIDEO_DEVICE c';
  same_FRAME_WIDTH : FRAME_WIDTH c = FRAME_WIDTH c';
  same_FRAME_HEIGHT : FRAME_HEIGHT c = FRAME_HEIGHT c';
  same_HOG_UPSAMPLE : HOG_UPSAMPLE c = HOG_UPSAMPLE c';
  same_USE_CNN_FALLBACK : USE_CNN_FALLBACK c = USE_CNN_FALLBACK c';
  same_ENCODING_EVERY_N : ENCODING_EVERY_N c = ENCODING_EVERY_N c'
}.

(** The default configuration with its constants written as reduced
    fractions. *)
Definition reduced_config : Config := {|
  ENROLL_DIR := ENROLL_DIR default_config;
  ALLOWED_TOLERANCE := 13 # 20;
  CHECK_INTERVAL := 7 # 20;
  LOCK_COOLDOWN := 8 # 2;
  ABSENCE_TIMEOUT := 12 # 2;
  USE_BLUETOOTH := USE_BLUETOOTH default_config;
  PHONE_MAC := PHONE_MAC default_config;
  VIDEO_DEVICE := VIDEO_DEVICE default_config;
  FRAME_WIDTH := FRAME_WIDTH default_config;
  FRAME_HEIGHT := FRAME_HEIGHT default_config;
  HOG_UPSAMPLE := HOG_UPSAMPLE default_config;
  USE_CNN_FALLBACK := USE_CNN_FALLBACK default_config;
  ENCODING_EVERY_N := ENCODING_EVERY_N default_config
|}.

(** ** The relations are equivalences *)

#[export] Instance event_equiv_equivalence : Equivalence event_equiv.
Proof.
  split.
  - intros []; simpl; done.
  - intros [] []; by simpl.
  - intros [] [] []; simpl; try done; try congruence. by etrans.
Qed.

#[export] Instance trace_equiv_equivalence : Equivalence trace_equiv.
Proof. unfold trace_equiv. apply _. Qed.

#[export] Instance prog_equiv_equivalence {A} : Equivalence (@prog_equiv A).
Proof.
  split.
  - by intros m.
  - intros m m' [Ht Hr]. by split.
  - intros m1 m2 m3 [Ht Hr] [Ht' Hr']. split; [by etrans | congruence].
Qed.

#[export] Instance same_config_equivalence : Equivalence same_config.
Proof.
  split.
  - intros c. by split.
  - intros c c' []. by split.
  - intros c1 c2 c3 [] []. split; first [congruence | by etrans].
Qed.

(** ** Observations respect the equivalence *)

(** An observation that does not look at the duration of a sleep does
    not tell equivalent events apart. *)
Lemma event_equiv_obs {B} (f : Event -> B) ev ev' :
  (forall d d', f (EvSleep d) = f (EvSleep d')) -> event_equiv ev ev' -> f ev = f ev'.
Proof. intros Hf. destruct ev, ev'; simpl; try done; congruence. Qed.

#[export] Instance locked_proper : Proper (trace_equiv ==> eq) locked.
Proof.
  intros t t' Ht. unfold locked. induction Ht as [|ev ev' t t' Hev _ IH]; [done|].
  simpl. by rewrite IH, (event_equiv_obs lock_event ev ev').
Qed.

#[export] Instance verdicts_proper : Proper (trace_equiv ==> eq) verdicts.
Proof.
  intros t t' Ht. induction Ht as [|ev ev' t t' Hev _ IH]; [done|].
  change (verdicts ([ev] ++ t) = verdicts ([ev'] ++ t')).
  rewrite !verdicts_app, IH. f_equal.
  unfold verdicts. simpl. by rewrite (event_equiv_obs decided ev ev').
Qed.

#[export] Instance cascades_proper : Proper (trace_equiv ==> eq) cascades.
Proof.
  intros t t' Ht. unfold cascades. induction Ht as [|ev ev' t t' Hev _ IH]; [done|].
  simpl. by rewrite IH, (event_equiv_obs lock_done ev ev').
Qed.

#[export] Instance spec_lock_proper : Proper (same_config ==> eq ==> eq ==> eq) spec_lock.
Proof.
  intros c c' Hc last _ <- s _ <-. unfold spec_lock.
  destruct (companion s), (phase s); try done.
  by rewrite (same_ABSENCE_TIMEOUT _ _ Hc).
Qed.

(** ** Programs *)

Section Programs.
Context {A B : Type}.
Implicit Types (m : Prog A) (f : A -> Prog B).

Lemma prog_equiv_bind m m' f f' :
  m ≈ m' -> (forall a, result_of m = Returns a -> f a ≈ f' a) -> (m ≫= f) ≈ (m' ≫= f').
Proof.
  intros [Ht Hr] Hf. unfold prog_equiv. rewrite !trace_bind, !result_bind, <- Hr.
  destruct (result_of m) as [a|e].
  - destruct (Hf a eq_refl) as [Hft Hfr]. split; [by apply Forall2_app | done].
  - split; [by apply Forall2_app | done].
Qed.

Lemma sleep_equiv d d' ans : (d == d')%Q -> sleep d ans ≈ sleep d' ans.
Proof. intros Hd. split; [by repeat constructor | done]. Qed.
End Programs.

(** ** The loop under two configurations *)

Section Configurations.
Context `{Vision}.
Context (lock_session : (Cmd -> outcome unit) -> Prog bool).
Context (cap : Z) (known : list Encoding).
Context (c c' : Config) (Hc : same_config c c').
Implicit Types (st : State) (o : Obs) (os : list Obs).

Lemma phone_missing_same o : phone_missing c o = phone_missing c' o.
Proof.
  unfold phone_missing. by rewrite (same_USE_BLUETOOTH _ _ Hc), (same_PHONE_MAC _ _ Hc).
Qed.

Lemma verify_same st rgb locs : verify c known st rgb locs = verify c' known st rgb locs.
Proof.
  unfold verify, identify. rewrite (same_ENCODING_EVERY_N _ _ Hc).
  apply bind_ext; intros r _. case_bool_decide; [|done].
  apply bind_ext. intros [|enc encs] _; [done|]. apply bind_ext; intros best _.
  assert ((best <=? ALLOWED_TOLERANCE c)%Q = (best <=? ALLOWED_TOLERANCE c')%Q) as ->; [|done].
  by rewrite (same_ALLOWED_TOLERANCE _ _ Hc).
Qed.

(** The sensing half is the same program. *)
Lemma sense_same st o : sense c cap known st o = sense c' cap known st o.
Proof.
  unfold sense. rewrite phone_missing_same.
  rewrite (same_HOG_UPSAMPLE _ _ Hc), (same_USE_CNN_FALLBACK _ _ Hc).
  apply bind_ext; intros [|] _; [done|]. apply bind_ext; intros [frame|] _; [|done].
  apply bind_ext; intros locs _. apply bind_ext; intros _ _.
  case_bool_decide; [done|]. by rewrite verify_same.
Qed.

Lemma lock_and_cool_equiv o : lock_and_cool lock_session c o ≈ lock_and_cool lock_session c' o.
Proof.
  unfold lock_and_cool. apply prog_equiv_bind; [done|]. intros _ _.
  apply sleep_equiv, (same_LOCK_COOLDOWN _ _ Hc).
Qed.

(** The deciding half differs in the fractions of its sleeps. *)
Lemma react_equiv st o (r : option Sample) :
  react lock_session c st o r ≈ react lock_session c' st o r.
Proof.
  pose proof (sleep_equiv _ _ (interval o) (same_CHECK_INTERVAL _ _ Hc)) as Hi.
  destruct r as [s|]; unfold react.
  - rewrite (spec_lock_proper c c' Hc _ _ eq_refl s s eq_refl).
    apply prog_equiv_bind; [done|]. intros _ _. apply prog_equiv_bind.
    + destruct (spec_lock _ _ _); [apply lock_and_cool_equiv | done].
    + intros _ _. apply prog_equiv_bind; [|done]. by destruct (companion s).
  - apply prog_equiv_bind; [done|]. intros _ _. by apply prog_equiv_bind.
Qed.

(** A turn does the same under both configurations. *)
Theorem iteration_same_config st o :
  iteration lock_session c cap known st o ≈ iteration lock_session c' cap known st o.
Proof.
  rewrite !iteration_sense_react, sense_same.
  apply prog_equiv_bind; [done | intros; apply react_equiv].
Qed.

(** A run does the same under both configurations. *)
Theorem loop_same_config os st :
  loop lock_session c cap known st os ≈ loop lock_session c' cap known st os.
Proof.
  revert st. induction os as [|o os IH]; intros st; [done|].
  cbn [loop]. apply prog_equiv_bind; [apply iteration_same_config | auto].
Qed.

(** What the guard decides depends on the values of the constants only:
    under two configurations with the same values a run reaches the same
    state, announces the same decisions and carries out the same number
    of lock cascades. *)
Corollary decisions_same_config os st :
  result_of (loop lock_session c cap known st os)
  = result_of (loop lock_session c' cap known st os) /\
  verdicts (trace_of (loop lock_session c cap known st os))
  = verdicts (trace_of (loop lock_session c' cap known st os)) /\
  cascades (trace_of (loop lock_session c cap known st os))
  = cascades (trace_of (loop lock_session c' cap known st os)).
Proof. destruct (loop_same_config os st) as [Ht Hr]. by rewrite Ht. Qed.
End Configurations.

(** The default configuration and its reduced fractions. *)
Lemma default_reduced : same_config default_config reduced_config.
Proof. by split. Qed.

Lemma decisions_same_config_witness :
  let V := stub_vision [] [] [] in
  result_of (loop (H := V) PresenceGuard.lock_session default_config 0 [me] st0 [calm 7000000])
  = result_of (loop (H := V) PresenceGuard.lock_session reduced_config 0 [me] st0 [calm 7000000]) /\
  verdicts (trace_of (loop (H := V) PresenceGuard.lock_session default_config 0 [me] st0
                        [calm 7000000]))
  = verdicts (trace_of (loop (H := V) PresenceGuard.lock_session reduced_config 0 [me] st0
                          [calm 7000000])) /\
  cascades (trace_of (loop (H := V) PresenceGuard.lock_session default_config 0 [me] st0
                        [calm 7000000]))
  = cascades (trace_of (loop (H := V) PresenceGuard.lock_session reduced_config 0 [me] st0
                          [calm 7000000])).
Proof.
  intros V.
  apply (decisions_same_config (H := V) PresenceGuard.lock_session 0 [me]
           default_config reduced_config default_reduced [calm 7000000] st0).
Defined.
