(* ===== verification/PresenceMain.v ===== *)
(** * [main] of src/presence_guard.py

    [main], src/presence_guard.py:129-224, checks the enrollment
    directory, loads the enrolled encodings, opens the camera and runs
    the guarded loop.  Each of the three startup checks ends the process
    with [sys.exit(1)], which is the exception [SystemExit 1] raised
    outside of the [try] statement.

    A [World] is what the environment answers during one run: the file
    system, the devices, the clock at line 148 and the observations of
    the turns of the loop.

    The theorems say when [main] stops before the loop and with which
    line, that the loop runs with the encodings of the directory and the
    first device that opened, that every capture [main] creates is
    released on every path, and that no [Exception] leaves [main]. *)

From S2P Require Import Prelude Effects LockActuator Vision Gate Camera Enrollment.
From S2P Require Import PresenceLoop Scenarios PresenceTurn PresenceRun.

Module PresenceGuard.

(** ** The environment of a run *)

Record World : Type := {
  files : Files;
  (** [cap.isOpened()] for each device *)
  opened : Z -> bool;
  (** [datetime.now()] at line 148 *)
  start : Time;
  turns : list Obs
}.

Section Main.
Context `{Vision}.
Context (lock_session : (Cmd -> outcome unit) -> Prog bool).
Context (cfg : Config).

(** Lines 145-224: what [main] does with the capture once it is open. *)
Definition run_guard (known : list Encoding) (cam_idx : Z) (w : World) : Prog unit :=
  log (MOpenedCamera cam_idx (FRAME_WIDTH cfg) (FRAME_HEIGHT cfg));;
  guarded_loop lock_session cfg cam_idx known (start w) (turns w).

(** Lines 141-224: the camera and the loop. *)
Definition with_camera (known : list Encoding) (w : World) : Prog unit :=
  cap ← open_camera (opened w) (VIDEO_DEVICE cfg) (FRAME_WIDTH cfg) (FRAME_HEIGHT cfg);
  match cap with
  | None =>
      log MCannotOpenWebcams;;
      sys_exit 1
  | Some cam_idx => run_guard known cam_idx w
  end.

(** [main()], lines 129-224. *)
Definition main (w : World) : Prog unit :=
  if negb (isdir (files w) (ENROLL_DIR cfg)) then
    log (MEnrollDirMissing (ENROLL_DIR cfg));;
    sys_exit 1
  else
    known ← PresenceGuard.load_known_encodings (files w) (ENROLL_DIR cfg);
    match known with
    | None =>
        log MNoKnownEncodings;;
        sys_exit 1
    | Some known =>
        if bool_decide (length known = 0%nat) then
          log MNoKnownEncodings;;
          sys_exit 1
        else
          with_camera known w
    end.

(** Lines 129-145: the startup of [main], which ends the process or
    hands the enrolled encodings and the device that opened to the
    guard. *)
Definition starting (w : World) : Prog (list Encoding * Z) :=
  if negb (isdir (files w) (ENROLL_DIR cfg)) then
    log (MEnrollDirMissing (ENROLL_DIR cfg));;
    sys_exit 1
  else
    known ← PresenceGuard.load_known_encodings (files w) (ENROLL_DIR cfg);
    match known with
    | None =>
        log MNoKnownEncodings;;
        sys_exit 1
    | Some known =>
        if bool_decide (length known = 0%nat) then
          log MNoKnownEncodings;;
          sys_exit 1
        else
          cap ← open_camera (opened w) (VIDEO_DEVICE cfg) (FRAME_WIDTH cfg) (FRAME_HEIGHT cfg);
          match cap with
          | None =>
              log MCannotOpenWebcams;;
              sys_exit 1
          | Some cam_idx =>
              log (MOpenedCamera cam_idx (FRAME_WIDTH cfg) (FRAME_HEIGHT cfg));;
              mret (known, cam_idx)
          end
    end.

(** [if __name__ == "__main__": main()], lines 226-227: the events of
    the process and the status it exits with. *)
Definition script (w : World) : trace * Z :=
  (trace_of (main w), exit_status (result_of (main w))).

End Main.
End PresenceGuard.
Import PresenceGuard.

(** ** How a run starts

    The specification of the startup: the directory is missing, the
    enrollment is interrupted, no file gives an encoding, no device
    opens, or the guard starts with the enrolled encodings on the first
    device that opened. *)

Inductive Startup : Type :=
| NoDirectory
| Interrupted (e : exn)
| NoEncodings
| NoCamera
| Ready (known : list Encoding) (cam_idx : Z).

Section Startup.
Context `{Vision}.
Context (lock_session : (Cmd -> outcome unit) -> Prog bool) `{!LockActuator lock_session}.
Context (cfg : Config).
Implicit Types (w : World) (known : list Encoding) (i : Z) (e : exn).

Local Abbreviation main := (main lock_session cfg).
Local Abbreviation load w :=
  (PresenceGuard.load_known_encodings (files w) (ENROLL_DIR cfg)).
Local Abbreviation open w :=
  (open_camera (opened w) (VIDEO_DEVICE cfg) (FRAME_WIDTH cfg) (FRAME_HEIGHT cfg)).

Definition startup w : Startup :=
  if isdir (files w) (ENROLL_DIR cfg) then
    match enrolled (files w) (regular_files (files w) (ENROLL_DIR cfg)) with
    | Raises e => Interrupted e
    | Returns [] => NoEncodings
    | Returns known =>
        match List.find (opened w) (indices (VIDEO_DEVICE cfg)) with
        | None => NoCamera
        | Some cam_idx => Ready known cam_idx
        end
    end
  else NoDirectory.

(** The events of a startup that reached the camera. *)
Definition probing w : trace := trace_of (load w) ++ trace_of (open w).

(** [main] is its startup followed by the guard. *)
Lemma main_starting w :
  main w
  = starting cfg w ≫= fun p => guarded_loop lock_session cfg p.2 p.1 (start w) (turns w).
Proof.
  unfold PresenceGuard.main, starting, with_camera, run_guard.
  destruct (isdir _ _); cbn [negb]; [|done].
  rewrite bind_assoc. apply bind_ext. intros [known|] _; [|done].
  case_bool_decide; [done|]. rewrite bind_assoc. apply bind_ext. intros [cam_idx|] _; [|done].
  by rewrite bind_assoc.
Qed.

(** The startup by its cases. *)
Lemma starting_cases w :
  starting cfg w =
  match startup w with
  | NoDirectory => (logs (MEnrollDirMissing (ENROLL_DIR cfg)), Raises (SystemExit 1))
  | Interrupted e => (trace_of (load w), Raises e)
  | NoEncodings => (trace_of (load w) ++ logs MNoKnownEncodings, Raises (SystemExit 1))
  | NoCamera => (probing w ++ logs MCannotOpenWebcams, Raises (SystemExit 1))
  | Ready known cam_idx =>
      (probing w ++ logs (MOpenedCamera cam_idx (FRAME_WIDTH cfg) (FRAME_HEIGHT cfg)),
       Returns (known, cam_idx))
  end.
Proof.
  unfold starting, startup, probing. destruct (isdir _ _); [cbn [negb]|done].
  pose proof (load_known_encodings_result (files w) (ENROLL_DIR cfg)) as Hr.
  destruct (load w) as [t r]. cbn [result_of snd trace_of fst] in *. subst r.
  destruct (enrolled _ _) as [[|k known]|e]; [done| |done].
  rewrite bind_returns. cbn [array_or_None length bool_decide decide_rel].
  rewrite bool_decide_eq_false_2 by done. unfold open_camera.
  pose proof (probe_result (opened w) (FRAME_WIDTH cfg) (FRAME_HEIGHT cfg)
                (indices (VIDEO_DEVICE cfg))) as Ho.
  destruct (probe _ _ _ _) as [t' r]. cbn [result_of snd trace_of fst] in *. subst r.
  rewrite bind_returns, prepend_prepend. by destruct (List.find _ _).
Qed.

(** [main] by the cases of the startup. *)
Lemma main_cases w :
  main w =
  match startup w with
  | NoDirectory => (logs (MEnrollDirMissing (ENROLL_DIR cfg)), Raises (SystemExit 1))
  | Interrupted e => (trace_of (load w), Raises e)
  | NoEncodings => (trace_of (load w) ++ logs MNoKnownEncodings, Raises (SystemExit 1))
  | NoCamera => (probing w ++ logs MCannotOpenWebcams, Raises (SystemExit 1))
  | Ready known cam_idx =>
      prepend (probing w) (run_guard lock_session cfg known cam_idx w)
  end.
Proof.
  rewrite main_starting, starting_cases. destruct (startup w); try done.
  rewrite bind_returns. unfold run_guard. by rewrite <- prepend_prepend.
Qed.

(** The enrollment creates and releases no capture. *)
Lemma load_held w i : held i (trace_of (load w)) = 0.
Proof.
  apply held_quiet. eapply Forall_impl; [apply load_known_encodings_footprint|].
  by intros [[]| | | | | | | | | | | | |[]].
Qed.

(** The guarded loop releases the capture it was given, and no other. *)
Lemma guarded_loop_held known cam_idx start os i :
  held i (trace_of (guarded_loop lock_session cfg cam_idx known start os))
  = if bool_decide (cam_idx = i) then -1 else 0.
Proof.
  rewrite (guarded_loop_trace lock_session), !held_app, held_release, held_logs.
  rewrite (held_quiet _ (trace_of _)) by apply (loop_no_lifecycle lock_session).
  rewrite (held_quiet _ (match _ with Returns _ => _ | Raises _ => _ end)); [done|].
  destruct (result_of _) as [|e]; [constructor|]. destruct e; by repeat constructor.
Qed.

(** Before the guard starts nothing is locked. *)
Lemma quiet_absent (t : trace) :
  Forall (fun ev => ev <> EvLog MStarting /\ lock_event ev = false) t ->
  (EvLog MStarting ∉ t) /\ locked t = false.
Proof.
  intros Hq. split.
  - intros Hin. rewrite Forall_forall in Hq. by destruct (Hq _ Hin).
  - apply locked_false. eapply Forall_impl; [exact Hq|]. by intros ? [_ ?].
Qed.

Lemma load_quiet w :
  Forall (fun ev => ev <> EvLog MStarting /\ lock_event ev = false) (trace_of (load w)).
Proof.
  eapply Forall_impl; [apply load_known_encodings_footprint|].
  by intros [[]| | | | | | | | | | | | |[]].
Qed.

Lemma probing_quiet w :
  Forall (fun ev => ev <> EvLog MStarting /\ lock_event ev = false) (probing w).
Proof.
  apply Forall_app. split; [apply load_quiet|].
  eapply Forall_impl; [apply probe_footprint|]. by intros [].
Qed.

(** C23. Startup failures: when the enrollment directory is missing, when
    no file of it gives an encoding, or when no device opens, [main]
    logs the reason as its last line, printed and appended to the log
    file, and exits with status 1; the guard
    has not started, nothing was locked and no capture is left open. *)
Theorem main_startup_failure w :
  startup w = NoDirectory \/ startup w = NoEncodings \/ startup w = NoCamera ->
  result_of (main w) = Raises (SystemExit 1) /\
  (exists t, trace_of (main w)
             = t ++ logs match startup w with
                         | NoDirectory => MEnrollDirMissing (ENROLL_DIR cfg)
                         | NoEncodings => MNoKnownEncodings
                         | _ => MCannotOpenWebcams
                         end) /\
  (EvLog MStarting ∉ trace_of (main w)) /\
  locked (trace_of (main w)) = false.
Proof.
  intros Hs. rewrite main_cases.
  destruct (quiet_absent _ (load_quiet w)) as [Hl1 Hl2].
  destruct (quiet_absent _ (probing_quiet w)) as [Hp1 Hp2].
  destruct Hs as [->|[->| ->]]; cbn [trace_of result_of fst snd];
    rewrite ?locked_app, ?not_elem_of_app, ?Hl2, ?Hp2; split_and!; try done; eauto.
  1: by exists [].
  all: rewrite !elem_of_cons, elem_of_nil; by intros [|[|]].
Qed.

(** The guard starts with the encodings of the directory on the
    first device that opened: when the directory exists, its regular
    files give the encodings [known], which are not empty, and
    [cam_idx] is the first probed device that opened, [main] is the
    enrollment, the probing, the line "Opened camera" and the guarded
    loop on [cam_idx] with [known]. *)
Theorem main_runs_guard w known cam_idx :
  isdir (files w) (ENROLL_DIR cfg) = true ->
  enrolled (files w) (regular_files (files w) (ENROLL_DIR cfg)) = Returns known ->
  known <> [] ->
  List.find (opened w) (indices (VIDEO_DEVICE cfg)) = Some cam_idx ->
  main w =
  prepend (trace_of (load w) ++ trace_of (open w)
           ++ logs (MOpenedCamera cam_idx (FRAME_WIDTH cfg) (FRAME_HEIGHT cfg)))
    (guarded_loop lock_session cfg cam_idx known (start w) (turns w)).
Proof.
  intros Hd Hk Hne Ho. rewrite main_cases. unfold startup. rewrite Hd, Hk, Ho.
  destruct known; [done|]. unfold run_guard, probing.
  by rewrite bind_log, prepend_prepend, <- app_assoc.
Qed.

(** What [startup] says of the environment. *)
Lemma startup_NoCamera w :
  startup w = NoCamera -> List.find (opened w) (indices (VIDEO_DEVICE cfg)) = None.
Proof. unfold startup. by repeat case_match. Qed.

Lemma startup_Ready w known cam_idx :
  startup w = Ready known cam_idx ->
  enrolled (files w) (regular_files (files w) (ENROLL_DIR cfg)) = Returns known /\
  known <> [] /\
  List.find (opened w) (indices (VIDEO_DEVICE cfg)) = Some cam_idx.
Proof. unfold startup. repeat case_match; try done. by intros [= <- <-]. Qed.

Lemma startup_Interrupted w e : startup w = Interrupted e -> is_Exception e = false.
Proof.
  unfold startup. repeat case_match; try done. intros [= <-]. by eapply enrolled_raises.
Qed.

(** C24. No capture leaks: on every path of [main], whatever the file
    system, the devices and the turns of the loop answer, each capture
    that was created has been released when [main] ends. *)
Theorem main_releases_every_capture w i : held i (trace_of (main w)) = 0.
Proof.
  rewrite main_cases. unfold probing, run_guard, open_camera.
  destruct (startup w) eqn:Hs; cbn [trace_of fst];
    rewrite ?trace_prepend, ?held_app, ?load_held, ?probe_held; try done.
  - by rewrite (startup_NoCamera w Hs).
  - apply startup_Ready in Hs as (_ & _ & ->).
    rewrite trace_bind, trace_log, result_log, held_app, guarded_loop_held, held_logs.
    repeat case_bool_decide; simplify_eq; done.
Qed.

(** No [Exception] leaves [main]: a failure of a capability during
    the enrollment is absorbed, a failure during the loop is caught by
    the guard.  What [main] raises is [SystemExit] or the interrupt of
    the enrollment. *)
Theorem main_contains_exceptions w e :
  result_of (main w) = Raises e -> is_Exception e = false.
Proof.
  rewrite main_cases. destruct (startup w) eqn:Hs; cbn [result_of snd]; try by intros [= <-].
  - intros [= <-]. by eapply startup_Interrupted.
  - rewrite result_prepend. unfold run_guard.
    rewrite result_bind, result_log, (guarded_loop_result lock_session).
    repeat case_match; by intros [= <-].
Qed.

(** The startup announces no decision and carries out no cascade. *)
Lemma probing_silent w :
  verdicts (probing w) = [] /\ cascades (probing w) = 0%nat.
Proof.
  assert (Forall (fun ev => decided ev = None /\ lock_done ev = false) (probing w)) as Hq.
  { apply Forall_app. split.
    - eapply Forall_impl; [apply load_known_encodings_footprint|].
      by intros [[]| | | | | | | | | | | | |[]].
    - eapply Forall_impl; [apply probe_footprint|]. by intros []. }
  split; [apply verdicts_none | apply cascades_none];
    (eapply Forall_impl; [exact Hq | by intros ? [? ?]]).
Qed.

(** C27. The status of the process, by the cases of
    the startup: a missing directory, an empty enrollment and a camera
    that does not open end it with status 1; once the guard runs the
    status is 0 however the loop ends, by an interrupt or by a crash,
    unless the loop was ended by a [SystemExit]; an interrupt during the
    enrollment is caught by nobody and ends the process by the signal,
    without the line of a stop. *)
Theorem script_exit_status w :
  snd (script lock_session cfg w) =
  match startup w with
  | NoDirectory | NoEncodings | NoCamera => 1
  | Interrupted e => exit_status (Raises e)
  | Ready known cam_idx =>
      match result_of (loop lock_session cfg cam_idx known
                         {| last_seen_someone := start w; frame_i := 0 |} (turns w)) with
      | Raises (SystemExit code) => code
      | _ => 0
      end
  end /\
  (forall e, startup w = Interrupted e ->
     Forall (fun ev => ev <> EvLog MStopped) (fst (script lock_session cfg w))).
Proof.
  unfold script. cbn [fst snd]. rewrite main_cases. split.
  - destruct (startup w) as [|e| | |known cam_idx] eqn:Hs; try done.
    unfold run_guard. rewrite result_prepend, result_bind, result_log.
    rewrite (guarded_loop_result lock_session). by repeat case_match.
  - intros e ->. cbn [trace_of fst].
    eapply Forall_impl; [apply load_known_encodings_footprint|].
    by intros [[]| | | | | | | | | | | | |[]].
Qed.

(** A run that passes the startup and completes its turns: the
    startup, the two lines of the start, the turns and the release. *)
Lemma main_ready_trace w known cam_idx st' :
  startup w = Ready known cam_idx ->
  reaches lock_session cfg cam_idx known
    {| last_seen_someone := start w; frame_i := 0 |} (turns w) st' ->
  main w =
  (probing w ++
   logs (MOpenedCamera cam_idx (FRAME_WIDTH cfg) (FRAME_HEIGHT cfg)) ++ logs MStarting ++
   trace_of (loop lock_session cfg cam_idx known
               {| last_seen_someone := start w; frame_i := 0 |} (turns w)) ++
   [EvRelease cam_idx],
   Returns tt).
Proof.
  intros Hs Hr%loop_reaches. rewrite main_cases, Hs. unfold run_guard.
  apply injective_projections; cbn [fst snd].
  - change (fst ?m) with (trace_of m).
    rewrite trace_prepend, trace_bind, result_log, trace_log.
    by rewrite (guarded_loop_trace lock_session), Hr.
  - change (snd ?m) with (result_of m).
    rewrite result_prepend, result_bind, result_log.
    by rewrite (guarded_loop_result lock_session), Hr.
Qed.

(** C3. The program implements the presence state machine: in a run of
    [main] that passes the startup and whose turns all complete, the
    decisions the log announces are the decisions of rules 1 to 4 on
    the samples sensed, in order, from the clock at the start, the
    number of lock cascades carried out is the number of lock
    decisions, and [main] returns when the observations end. *)
Theorem main_guards w known cam_idx ss st' :
  startup w = Ready known cam_idx ->
  senses lock_session cfg cam_idx known
    {| last_seen_someone := start w; frame_i := 0 |} (turns w) ss st' ->
  result_of (main w) = Returns tt /\
  verdicts (trace_of (main w)) = spec_lines cfg (start w) ss /\
  cascades (trace_of (main w)) = count_b id (spec_locks cfg (start w) ss).
Proof.
  intros Hs Hrun. destruct (probing_silent w) as [Hv Hc].
  rewrite (main_ready_trace w known cam_idx st') by (done || by eapply senses_reaches).
  split; [done|]. cbn [trace_of fst].
  rewrite !verdicts_app, !cascades_app, Hv, Hc.
  rewrite (senses_verdicts lock_session cfg cam_idx known _ _ _ _ Hrun).
  rewrite (senses_cascades lock_session cfg cam_idx known _ _ _ _ Hrun).
  cbn. by rewrite app_nil_r, Nat.add_0_r.
Qed.
End Startup.

(** ** Witnesses *)

(** The configuration whose enrollment directory is the example
    directory of [Enrollment]. *)
Definition album_config : Config := {|
  ENROLL_DIR := "enroll";
  ALLOWED_TOLERANCE := ALLOWED_TOLERANCE default_config;
  CHECK_INTERVAL := CHECK_INTERVAL default_config;
  LOCK_COOLDOWN := LOCK_COOLDOWN default_config;
  ABSENCE_TIMEOUT := ABSENCE_TIMEOUT default_config;
  USE_BLUETOOTH := USE_BLUETOOTH default_config;
  PHONE_MAC := PHONE_MAC default_config;
  VIDEO_DEVICE := VIDEO_DEVICE default_config;
  FRAME_WIDTH := FRAME_WIDTH default_config;
  FRAME_HEIGHT := FRAME_HEIGHT default_config;
  HOG_UPSAMPLE := HOG_UPSAMPLE default_config;
  USE_CNN_FALLBACK := USE_CNN_FALLBACK default_config;
  ENCODING_EVERY_N := ENCODING_EVERY_N default_config
|}.

(** A machine on which no camera opens. *)
Definition no_camera_world : World := {|
  files := album;
  opened := fun _ => false;
  start := 0;
  turns := []
|}.

(** A machine whose camera is the device 2, and a user who interrupts
    the first poll interval. *)
Definition ready_world : World := {|
  files := album;
  opened := fun i => bool_decide (i = 2);
  start := 0;
  turns := [interrupted 1000000]
|}.

(** The run of [main] on [ready_world]: the enrollment, the probing of
    the devices 0, 1 and 2, one turn of the loop and the release. *)
Example main_ready_world :
  main (H := album_vision) PresenceGuard.lock_session album_config ready_world
  = ([EvLoadImage "enroll/a.jpg"; EvFaceLocations HOG 1; EvFaceEncodings;
      EvLog (MLoadedEnroll "a.jpg"); EvAppend (MLoadedEnroll "a.jpg");
      EvLoadImage "enroll/b.jpg"; EvFaceLocations HOG 1;
      EvLog (MNoFaceInEnroll "enroll/b.jpg"); EvAppend (MNoFaceInEnroll "enroll/b.jpg");
      EvLoadImage "enroll/c.jpg"; EvFaceLocations HOG 1; EvFaceEncodings;
      EvLog (MLoadedEnroll "c.jpg"); EvAppend (MLoadedEnroll "c.jpg");
      EvOpen 0; EvIsOpened 0; EvRelease 0; EvOpen 1; EvIsOpened 1; EvRelease 1;
      EvOpen 2; EvIsOpened 2;
      EvSet 2 CAP_PROP_FRAME_WIDTH 640; EvSet 2 CAP_PROP_FRAME_HEIGHT 480;
      EvSet 2 CAP_PROP_BUFFERSIZE 1;
      EvRead 2; EvRead 2; EvRead 2; EvRead 2; EvRead 2; EvRead 2; EvRead 2; EvRead 2;
      EvLog (MOpenedCamera 2 640 480); EvAppend (MOpenedCamera 2 640 480);
      EvLog MStarting; EvAppend MStarting;
      EvGrab 2; EvGrab 2; EvGrab 2; EvRetrieve 2; EvFaceLocations HOG 1;
      EvLog (MDetected 1); EvAppend (MDetected 1); EvFaceEncodings;
      EvLog (MBestDistance 0); EvAppend (MBestDistance 0);
      EvLog MAuthorized; EvAppend MAuthorized; EvSleep (35 # 100);
      EvLog MStopped; EvAppend MStopped; EvRelease 2],
     Returns tt).
Proof. vm_compute. reflexivity. Qed.

Lemma main_startup_failure_witness :
  let m := main (H := album_vision) PresenceGuard.lock_session album_config no_camera_world in
  result_of m = Raises (SystemExit 1) /\
  (exists t, trace_of m = t ++ logs MCannotOpenWebcams) /\
  (EvLog MStarting ∉ trace_of m) /\
  locked (trace_of m) = false.
Proof.
  apply (main_startup_failure (H := album_vision) PresenceGuard.lock_session album_config
           no_camera_world).
  right; right. vm_compute. reflexivity.
Defined.

Lemma main_runs_guard_witness :
  let load := PresenceGuard.load_known_encodings (H := album_vision) album "enroll" in
  main (H := album_vision) PresenceGuard.lock_session album_config ready_world =
  prepend (trace_of load ++ trace_of (open_camera (opened ready_world) None 640 480)
           ++ logs (MOpenedCamera 2 640 480))
    (guarded_loop (H := album_vision) PresenceGuard.lock_session album_config 2
       [[1]; [2]]%Q 0 [interrupted 1000000]).
Proof.
  apply (main_runs_guard (H := album_vision) PresenceGuard.lock_session album_config
           ready_world [[1]; [2]]%Q 2); [vm_compute; reflexivity.. | done | vm_compute; reflexivity].
Defined.

Lemma main_contains_exceptions_witness : is_Exception (SystemExit 1) = false.
Proof.
  apply (main_contains_exceptions (H := album_vision) PresenceGuard.lock_session album_config
           no_camera_world).
  vm_compute. reflexivity.
Defined.

Lemma main_releases_every_capture_witness :
  held 2 (trace_of (main (H := album_vision) PresenceGuard.lock_session album_config
                      ready_world)) = 0.
Proof.
  apply (main_releases_every_capture (H := album_vision) PresenceGuard.lock_session
           album_config ready_world 2).
Defined.

(** The enrolled user in front of the camera of [ready_world], for one
    turn that completes. *)
Definition quiet_world : World := {|
  files := album;
  opened := fun i => bool_decide (i = 2);
  start := 0;
  turns := [calm 1000000]
|}.

Lemma main_guards_witness :
  let m := main (H := album_vision) PresenceGuard.lock_session album_config quiet_world in
  let s := {| companion := true; face_count := 1; authorized := true; at_time := 1000000 |} in
  result_of m = Returns tt /\
  verdicts (trace_of m) = spec_lines album_config 0 [s] /\
  cascades (trace_of m) = count_b id (spec_locks album_config 0 [s]).
Proof.
  intros m s.
  apply (main_guards (H := album_vision) PresenceGuard.lock_session album_config quiet_world
           [[1]; [2]]%Q 2 [s] {| last_seen_someone := 1000000; frame_i := 1 |}).
  - vm_compute. reflexivity.
  - eapply senses_sample; [vm_compute; reflexivity.. | apply senses_nil].
Defined.

(** A machine whose user interrupts the loading of the first enrollment
    image. *)
Definition impatient_world : World := {|
  files := album_interrupted;
  opened := fun _ => true;
  start := 0;
  turns := []
|}.

Lemma script_exit_status_witness :
  snd (script (H := album_vision) PresenceGuard.lock_session album_config impatient_world)
  = 130 /\
  Forall (fun ev => ev <> EvLog MStopped)
    (fst (script (H := album_vision) PresenceGuard.lock_session album_config impatient_world)).
Proof.
  pose proof (script_exit_status (H := album_vision) PresenceGuard.lock_session album_config
                impatient_world) as [Hstatus Hquiet].
  split; [exact Hstatus | apply (Hquiet KeyboardInterrupt)]. by vm_compute.
Defined.

(** An interrupt of the loop ends the process with the status 0, an
    interrupt of the enrollment with the status of the signal. *)
Example exit_status_of_interrupts :
  script (H := album_vision) PresenceGuard.lock_session album_config impatient_world
  = ([EvLoadImage "enroll/a.jpg"], 130) /\
  snd (script (H := album_vision) PresenceGuard.lock_session album_config ready_world) = 0 /\
  snd (script (H := album_vision) PresenceGuard.lock_session album_config no_camera_world) = 1.
Proof. by vm_compute. Qed.
