(* ===== verification/Signals.v ===== *)
(** * A signal at any point

    The components model an interrupt where the environment answers:
    a sleep, a command or a capability raises [KeyboardInterrupt].
    Python delivers SIGINT between any two instructions.
    [interrupt_after k m] is the run of [m] on which the signal
    arrives after the [k]-th event of [m]: the events so far, then
    [KeyboardInterrupt]; a run of at most [k] events has ended before
    the signal.

    This is the run of a statement in which no clause catches the
    interrupt.  The clauses inside the loop, in [log],
    [is_phone_present] and [lock_session], are [except Exception]
    clauses, which let it pass ([interrupt_try_except]), and a
    sequence is interrupted in its first part or in its second
    ([interrupt_bind]); so the interrupted runs of the body of the
    [try] statement of [main] are the [interrupt_after k] of the loop.
    The clauses of [main] itself do catch it: [guard_of] is the [try]
    statement, lines 151-224, around any body.

    [signal_stops_guard]: wherever the signal arrives in the loop, the
    guard logs "stopped by user", releases the capture and returns, and
    [main_interrupted_exits] that the process then exits with the
    status 0 and holds no capture.  A signal during the startup is
    caught by nobody: [signal_in_startup] says how the process ends,
    and [signal_leaks_capture] that the capture, once created, is left
    open. *)

From S2P Require Import Prelude Effects LockActuator Vision Gate Camera Enrollment.
From S2P Require Import PresenceLoop Scenarios PresenceTurn PresenceRun PresenceMain.
Import PresenceMain.PresenceGuard.

(** The run of [m] when SIGINT arrives after its [k]-th event. *)
Definition interrupt_after {A} (k : nat) (m : Prog A) : Prog A :=
  if decide (k < length (trace_of m))%nat
  then (take k (trace_of m), Raises KeyboardInterrupt)
  else m.

(** ** Laws *)

Section Laws.
Context {A : Type}.
Implicit Types (m : Prog A) (k : nat).

Lemma interrupt_early k m :
  (k < length (trace_of m))%nat ->
  interrupt_after k m = (take k (trace_of m), Raises KeyboardInterrupt).
Proof. intros Hk. unfold interrupt_after. by rewrite decide_True. Qed.

Lemma interrupt_late k m : (length (trace_of m) <= k)%nat -> interrupt_after k m = m.
Proof. intros Hk. unfold interrupt_after. rewrite decide_False; [done | lia]. Qed.

Lemma interrupt_trace k m : trace_of (interrupt_after k m) = take k (trace_of m).
Proof.
  unfold interrupt_after. case_decide; [done|]. by rewrite take_ge by lia.
Qed.

End Laws.

(** A sequence is interrupted in its first part, or in what follows
    it. *)
Lemma interrupt_bind {A B} k (m : Prog A) (f : A -> Prog B) :
  interrupt_after k (m ≫= f)
  = if decide (k < length (trace_of m))%nat
    then (take k (trace_of m), Raises KeyboardInterrupt)
    else m ≫= fun a => interrupt_after (k - length (trace_of m)) (f a).
Proof.
  destruct m as [t [a|e]]; cbn [trace_of fst].
  - case_decide as Hk.
    + rewrite bind_returns, interrupt_early by (rewrite trace_prepend, length_app; lia).
      by rewrite trace_prepend, take_app_le by lia.
    + rewrite !bind_returns.
      destruct (decide (k - length t < length (trace_of (f a)))%nat) as [Hf|Hf].
      * rewrite (interrupt_early _ (f a)) by done.
        rewrite interrupt_early by (rewrite trace_prepend, length_app; lia).
        by rewrite trace_prepend, take_app_ge by lia.
      * rewrite (interrupt_late _ (f a)) by lia. apply interrupt_late.
        rewrite trace_prepend, length_app. lia.
  - rewrite !bind_raises. unfold interrupt_after. cbn [trace_of fst]. by case_decide.
Qed.

(** A clause that does not catch the interrupt lets it pass: the
    interrupted run of a [try] statement is the [try] statement around
    the interrupted run of its body. *)
Lemma interrupt_try_except {A} k (m : Prog A) (h : exn -> option (Prog A)) :
  h KeyboardInterrupt = None ->
  (k < length (trace_of m))%nat ->
  try_except (interrupt_after k m) h = interrupt_after k (try_except m h).
Proof.
  intros Hh Hk. rewrite (interrupt_early k m Hk). unfold try_except at 1.
  cbn [result_of snd]. rewrite Hh, interrupt_early.
  - rewrite try_except_trace, take_app_le; [done | lia].
  - rewrite try_except_trace, length_app. lia.
Qed.

Lemma except_Exception_passes {A} (h : exn -> Prog A) :
  except_Exception h KeyboardInterrupt = None.
Proof. done. Qed.

(** ** The guard *)

Section Guard.
Context `{Vision}.
Context (lock_session : (Cmd -> outcome unit) -> Prog bool) `{!LockActuator lock_session}.
Context (cfg : Config).
Implicit Types (cap : Z) (known : list Encoding) (start : Time) (os : list Obs) (k : nat).

(** The [try] statement of lines 151-224 around a body. *)
Definition guard_of cap (body : Prog unit) : Prog unit :=
  finally (try_except body on_exit) (emit (EvRelease cap)).

(** Lines 147-224 when the signal arrives after the [k]-th event of
    the loop. *)
Definition guarded_loop_interrupted cap known k start os : Prog unit :=
  log MStarting;;
  let st := {| last_seen_someone := start; frame_i := 0 |} in
  guard_of cap (interrupt_after k (loop lock_session cfg cap known st os;; mret tt)).

(** [main], lines 129-224, when the signal arrives after the [k]-th
    event of the loop. *)
Definition main_interrupted k (w : World) : Prog unit :=
  p ← starting cfg w;
  guarded_loop_interrupted p.2 p.1 k (start w) (turns w).

Lemma guarded_loop_guard_of cap known start os :
  guarded_loop lock_session cfg cap known start os
  = (log MStarting;;
     guard_of cap (loop lock_session cfg cap known
                     {| last_seen_someone := start; frame_i := 0 |} os;; mret tt)).
Proof. done. Qed.

(** A signal that arrives after the last event of the run has not
    interrupted it. *)
Lemma guarded_loop_not_interrupted cap known k start os :
  (length (trace_of (loop lock_session cfg cap known
                       {| last_seen_someone := start; frame_i := 0 |} os)) <= k)%nat ->
  guarded_loop_interrupted cap known k start os
  = guarded_loop lock_session cfg cap known start os.
Proof.
  intros Hk. unfold guarded_loop_interrupted.
  by rewrite interrupt_late by (by rewrite trace_bind_mret).
Qed.

(** Wherever the signal arrives in the loop, the guard performs the
    events of the loop up to the signal, logs "stopped by user",
    releases the capture, which no event before had released, and
    returns. *)
Theorem signal_stops_guard cap known k start os :
  let t := trace_of (loop lock_session cfg cap known
                       {| last_seen_someone := start; frame_i := 0 |} os) in
  (k < length t)%nat ->
  guarded_loop_interrupted cap known k start os
  = (logs MStarting ++ take k t ++ logs MStopped ++ [EvRelease cap], Returns tt) /\
  Forall (fun ev => is_release ev = false) (logs MStarting ++ take k t ++ logs MStopped).
Proof.
  intros t Hk. split.
  - unfold guarded_loop_interrupted, guard_of.
    rewrite interrupt_early by (by rewrite trace_bind_mret). rewrite trace_bind_mret.
    rewrite (try_except_caught _ _ _ (log MStopped)) by done. rewrite finally_emit.
    rewrite bind_log, trace_prepend, result_prepend, trace_log, result_log.
    unfold prepend. cbn [trace_of result_of fst snd]. by rewrite <- !app_assoc.
  - do 2 (constructor; [done|]). apply Forall_app. split; [|by repeat constructor].
    apply Forall_take, (loop_no_release lock_session).
Qed.

Lemma probing_held w known cam_idx i :
  startup cfg w = Ready known cam_idx ->
  held i (probing cfg w) = if bool_decide (cam_idx = i) then 1 else 0.
Proof.
  intros (_ & _ & Hf)%startup_Ready. unfold probing, open_camera.
  rewrite held_app, load_held, probe_held, Hf. repeat case_bool_decide; simplify_eq; done.
Qed.

(** C25. The process interrupted in its loop: wherever the signal arrives,
    [main] returns, so that the process exits with the status 0, its
    last event is the release of the capture, and it holds no
    capture. *)
Theorem main_interrupted_exits w known cam_idx k :
  startup cfg w = Ready known cam_idx ->
  (k < length (trace_of (loop lock_session cfg cam_idx known
                           {| last_seen_someone := start w; frame_i := 0 |} (turns w))))%nat ->
  exit_status (result_of (main_interrupted k w)) = 0 /\
  last (trace_of (main_interrupted k w)) = Some (EvRelease cam_idx) /\
  (forall i, held i (trace_of (main_interrupted k w)) = 0).
Proof.
  intros Hs Hk. unfold main_interrupted. rewrite starting_cases, Hs, bind_returns.
  cbn [fst snd]. destruct (signal_stops_guard cam_idx known k (start w) (turns w) Hk) as [-> Hrel].
  unfold prepend. cbn [trace_of result_of fst snd]. split_and!; [done| |].
  - by rewrite !app_assoc, last_snoc.
  - intros i. rewrite !held_app, (probing_held w known cam_idx i Hs).
    rewrite (held_quiet i (take k _)) by apply Forall_take, (loop_no_lifecycle lock_session).
    rewrite held_release, !held_logs. case_bool_decide; lia.
Qed.

(** [main] when the signal arrives after the [k]-th event of the
    startup, lines 129-145. *)
Definition main_interrupted_early k (w : World) : Prog unit :=
  p ← interrupt_after k (starting cfg w);
  guarded_loop lock_session cfg p.2 p.1 (start w) (turns w).

(** The startup logs no stop and locks nothing. *)
Lemma starting_no_stop w :
  Forall (fun ev => ev <> EvLog MStopped /\ lock_event ev = false) (trace_of (starting cfg w)).
Proof.
  assert (Forall (fun ev => ev <> EvLog MStopped /\ lock_event ev = false)
            (trace_of (PresenceGuard.load_known_encodings (files w) (ENROLL_DIR cfg)))) as Hl.
  { eapply Forall_impl; [apply load_known_encodings_footprint|].
    by intros [[]| | | | | | | | | | | | |[]]. }
  assert (Forall (fun ev => ev <> EvLog MStopped /\ lock_event ev = false) (probing cfg w)) as Hp.
  { apply Forall_app. split; [done|]. eapply Forall_impl; [apply probe_footprint|]. by intros []. }
  rewrite starting_cases.
  destruct (startup cfg w); cbn [trace_of fst]; rewrite ?Forall_app; by repeat constructor.
Qed.

(** A signal during the startup is caught by nobody: the process ends
    by the interrupt, with the status 130, after the events of the
    startup up to the signal; it has logged no stop, and the [try]
    statement that releases the capture was never entered. *)
Theorem signal_in_startup w k :
  (k < length (trace_of (starting cfg w)))%nat ->
  let m := main_interrupted_early k w in
  exit_status (result_of m) = 130 /\
  trace_of m = take k (trace_of (starting cfg w)) /\
  Forall (fun ev => ev <> EvLog MStopped /\ lock_event ev = false) (trace_of m).
Proof.
  intros Hk m. unfold m, main_interrupted_early. rewrite interrupt_early, bind_raises by done.
  split_and!; [done..|]. apply Forall_take, starting_no_stop.
Qed.

(** The events of a startup that found [cam_idx]: what came before
    the capture was created, which has no event of a capture of
    [cam_idx], and what follows, in which no capture is created or
    released. *)
Lemma starting_split w known cam_idx :
  startup cfg w = Ready known cam_idx ->
  exists before after,
    trace_of (starting cfg w) = before ++ EvOpen cam_idx :: after /\
    Forall (fun ev => ev <> EvOpen cam_idx /\ ev <> EvRelease cam_idx) before /\
    Forall (fun ev => is_lifecycle ev = false) after.
Proof.
  intros Hs. rewrite starting_cases, Hs. cbn [trace_of fst]. unfold probing, open_camera.
  apply startup_Ready in Hs as (_ & _ & Hf).
  destruct (probe_split (opened w) (FRAME_WIDTH cfg) (FRAME_HEIGHT cfg) _ _ Hf)
    as (t & -> & Hother).
  exists (trace_of (PresenceGuard.load_known_encodings (files w) (ENROLL_DIR cfg)) ++ t).
  eexists. split_and!.
  - rewrite <- !app_assoc. reflexivity.
  - apply Forall_app. split; [|done].
    eapply Forall_impl; [apply load_known_encodings_footprint|]. by intros [].
  - by repeat constructor.
Qed.

(** C26. A signal during the startup leaks the capture: when the
    startup finds a camera and the signal arrives before the [try]
    statement of line 151, the process ends by the interrupt with the
    status 130 and without the line of a stop, and from the creation of
    the capture of the device it would have watched on, line 74, that
    capture is held and never released: the [finally] clause that
    releases it does not cover lines 141-150. *)
Theorem signal_leaks_capture w known cam_idx k :
  startup cfg w = Ready known cam_idx ->
  (k < length (trace_of (starting cfg w)))%nat ->
  let m := main_interrupted_early k w in
  exit_status (result_of m) = 130 /\
  (EvLog MStopped ∉ trace_of m) /\
  (EvOpen cam_idx ∈ trace_of m -> held cam_idx (trace_of m) = 1) /\
  (EvOpen cam_idx ∉ trace_of m -> held cam_idx (trace_of m) = 0).
Proof.
  intros Hs Hk m. destruct (signal_in_startup w k Hk) as (Hst & Ht & Hq). fold m in Hst, Ht, Hq.
  split; [done|]. split.
  { intros Hin. rewrite Forall_forall in Hq. by destruct (Hq _ Hin). }
  rewrite Ht. destruct (starting_split w known cam_idx Hs) as (t & r & -> & Hother & Hr).
  destruct (decide (k <= length t)%nat) as [Hle|Hgt].
  - rewrite take_before by done. apply (Forall_take _ k) in Hother.
    split; [|by rewrite (held_other _ _ Hother)].
    intros Hin. rewrite Forall_forall in Hother. by destruct (Hother _ Hin).
  - rewrite take_past by lia. split; [|intros []; apply elem_of_app; right; left].
    intros _. rewrite held_app, held_cons, held_open, (held_other _ _ Hother).
    rewrite bool_decide_eq_true_2, held_quiet; [done | by apply Forall_take | done].
Qed.
End Guard.

(** ** Witnesses and examples *)

Lemma signal_stops_guard_witness :
  let V := stub_vision [face] [] [near_me] in
  guarded_loop_interrupted (H := V) PresenceGuard.lock_session default_config 0 [me] 4 0
    [calm 1000000]
  = ([EvLog MStarting; EvAppend MStarting; EvGrab 0; EvGrab 0; EvGrab 0; EvRetrieve 0;
      EvLog MStopped; EvAppend MStopped; EvRelease 0], Returns tt) /\
  Forall (fun ev => is_release ev = false)
    [EvLog MStarting; EvAppend MStarting; EvGrab 0; EvGrab 0; EvGrab 0; EvRetrieve 0;
     EvLog MStopped; EvAppend MStopped].
Proof.
  intros V.
  apply (signal_stops_guard (H := V) PresenceGuard.lock_session default_config 0 [me] 4 0
           [calm 1000000]).
  vm_compute. lia.
Defined.

Lemma main_interrupted_exits_witness :
  let m := main_interrupted (H := album_vision) PresenceGuard.lock_session album_config 7
             quiet_world in
  exit_status (result_of m) = 0 /\
  last (trace_of m) = Some (EvRelease 2) /\
  (forall i, held i (trace_of m) = 0).
Proof.
  intros m.
  apply (main_interrupted_exits (H := album_vision) PresenceGuard.lock_session album_config
           quiet_world [[1]; [2]]%Q 2 7); [by vm_compute | vm_compute; lia].
Defined.

Lemma signal_leaks_capture_witness :
  let m := main_interrupted_early (H := album_vision) PresenceGuard.lock_session album_config
             27 ready_world in
  exit_status (result_of m) = 130 /\
  (EvLog MStopped ∉ trace_of m) /\
  (EvOpen 2 ∈ trace_of m -> held 2 (trace_of m) = 1) /\
  (EvOpen 2 ∉ trace_of m -> held 2 (trace_of m) = 0).
Proof.
  intros m.
  apply (signal_leaks_capture (H := album_vision) PresenceGuard.lock_session album_config
           ready_world [[1]; [2]]%Q 2 27); [by vm_compute | vm_compute; lia].
Defined.

(** A signal during the warm-up reads of the camera: the process ends
    with the status 130 and the capture of the device 2 is open. *)
Example signal_during_warm_up :
  let m := main_interrupted_early (H := album_vision) PresenceGuard.lock_session album_config
             27 ready_world in
  exit_status (result_of m) = 130 /\
  last (trace_of m) = Some (EvRead 2) /\
  held 2 (trace_of m) = 1.
Proof. by vm_compute. Qed.
