(* ===== verification/Observable.v ===== *)
(** * The decisions in the text of the log

    The specification makes the log the only surface of the guard: every
    decision is to be observable from the lines it writes.  This file
    reads the standard output of src/presence_guard.py back:
    [read_log] parses every line with the reader of [Logger] and keeps
    the decisions, and the theorem says that what it reads from a run of
    [main] is the sequence of decisions of the presence state machine. *)

From S2P Require Import Prelude Effects Logger LockActuator Vision Gate Camera Enrollment.
From S2P Require Import PresenceLoop Scenarios PresenceTurn PresenceRun PresenceMain.
Import PresenceGuard.

(** The decisions the lines of a log announce, in order. *)
Definition read_log (lines : list string) : list Msg := omap read_line lines.

(** The decisions a trace announces are those of the messages it
    logs. *)
Lemma verdicts_logged t : verdicts t = omap decision (logged t).
Proof.
  unfold verdicts, logged. induction t as [|ev t IH]; [done|].
  destruct ev as [m| | | | | | | | | | | | |]; cbn [omap list_omap]; rewrite IH; [|done..].
  by destruct m.
Qed.

Lemma read_log_stdout str clock t :
  (forall k, wf_datetime (clock k)) -> read_log (stdout str clock t) = verdicts t.
Proof. intros Hclock. unfold read_log. by rewrite read_stdout, verdicts_logged. Qed.

Section Observable.
Context `{Vision}.
Context (lock_session : (Cmd -> outcome unit) -> Prog bool) `{!LockActuator lock_session}.
Context (cfg : Config).
Context (str : exn -> string) (clock : nat -> DateTime).

Local Abbreviation main := (main lock_session cfg).

(** C22. The log tells what the guard decided: in a
    run of [main] that passes the startup and completes its turns,
    reading the lines of the standard output back, whatever the clock of
    each line and the texts of the exceptions, gives the decisions of
    rules 1 to 4 on the samples sensed, in order.  No line with a file
    name, a command or the text of an exception in it reads as a
    decision. *)
Theorem log_tells_decisions w known cam_idx ss st' :
  (forall k, wf_datetime (clock k)) ->
  startup cfg w = Ready known cam_idx ->
  senses lock_session cfg cam_idx known
    {| last_seen_someone := start w; frame_i := 0 |} (turns w) ss st' ->
  read_log (stdout str clock (trace_of (main w))) = spec_lines cfg (start w) ss.
Proof.
  intros Hclock Hs Hrun. rewrite read_log_stdout by done.
  destruct (probing_silent cfg w) as [Hv _].
  rewrite (main_ready_trace lock_session cfg w known cam_idx st')
    by (done || by eapply senses_reaches).
  cbn [trace_of fst].
  rewrite !verdicts_app, Hv, (senses_verdicts lock_session cfg cam_idx known _ _ _ _ Hrun).
  cbn. by rewrite app_nil_r.
Qed.
End Observable.

(** ** Witness *)

Lemma log_tells_decisions_witness :
  let m := main (H := album_vision) PresenceGuard.lock_session album_config quiet_world in
  let s := {| companion := true; face_count := 1; authorized := true; at_time := 1000000 |} in
  read_log (stdout (fun _ => "error") (fun _ => noon) (trace_of m))
  = spec_lines album_config 0 [s].
Proof.
  intros m s.
  apply (log_tells_decisions (H := album_vision) PresenceGuard.lock_session album_config
           (fun _ => "error") (fun _ => noon) quiet_world
           [[1]; [2]]%Q 2 [s] {| last_seen_someone := 1000000; frame_i := 1 |}).
  - intros _. by vm_compute.
  - vm_compute. reflexivity.
  - eapply senses_sample; [vm_compute; reflexivity.. | apply senses_nil].
Defined.

(** The lines the quiet run prints. *)
Example quiet_run_stdout :
  stdout (fun _ => "error") (fun _ => noon)
    (trace_of (main (H := album_vision) PresenceGuard.lock_session album_config quiet_world))
  = ["2024-03-09 12:00:07 - Loaded enrollment face from a.jpg";
     "2024-03-09 12:00:07 - No face found in enroll image: enroll/b.jpg";
     "2024-03-09 12:00:07 - Loaded enrollment face from c.jpg";
     "2024-03-09 12:00:07 - Opened camera /dev/video2 at 640x480";
     "2024-03-09 12:00:07 - Starting presence_guard";
     "2024-03-09 12:00:07 - Detected 1 face(s)";
     "2024-03-09 12:00:07 - Best face distance: 0.000";
     "2024-03-09 12:00:07 - Authorized face present " +:+ em_dash +:+ " all good."].
Proof. by vm_compute. Qed.
