(* ===== verification/TypeSafety.v ===== *)
(** * Type safety of the identity check and of a turn

    The loop of src/presence_guard.py indexes a list, takes the minimum
    of an array and subtracts arrays: statements that raise in Python
    when a list is empty or two shapes differ.  This file shows that a
    run of [main] meets none of these failures.

    - Shapes.  With an encoder of dimension [d], the enrolled set a run
      starts with is a [matrix]: it has a row, and every row has [d]
      numbers.  Each identity check subtracts the encoding of the frame,
      of [d] numbers too, from rows of its length and takes the minimum
      of as many distances as there are rows.
    - The arrays of [numpy], checked.  [broadcast_sub] is [k - enc] as
      [numpy] computes it, with its broadcasting and its [ValueError]
      when two shapes do not fit; [identify_checked] is the identity
      check over it.  In a run of [main] the checked matcher is
      [identify], the matcher of [Vision] that subtracts without a test
      ([identity_check_sound]): the subtraction never raises and never
      broadcasts.
    - Provenance of exceptions.  With an enrolled set and a sampling
      interval, whatever a turn raises is an exception the environment
      answered one of its calls with ([answered]): the turn adds no
      [IndexError], [ValueError] or [ZeroDivisionError] of its own. *)

From S2P Require Import Prelude Effects LockActuator Vision Gate Camera Enrollment.
From S2P Require Import PresenceLoop Scenarios PresenceTurn PresenceRun PresenceMain.
Import PresenceGuard.

(** [matrix d known]: a two-dimensional array of [d] columns with a
    row. *)
Definition matrix (d : nat) (known : list Encoding) : Prop :=
  known <> [] /\ shaped d known.

(** [k - enc] of two one-dimensional arrays: element by element when
    the lengths agree, broadcast when one of them has one element,
    [ValueError] otherwise. *)
Definition broadcast_sub (k enc : Encoding) : outcome (list Q) :=
  if decide (length k = length enc) then Returns (row_sub k enc)
  else
    match k, enc with
    | _, [y] => Returns (map (fun x => x - y)%Q k)
    | [x], _ => Returns (map (fun y => x - y)%Q enc)
    | _, _ => Raises ValueError
    end.

(** [known - enc], src/presence_guard.py:199: the rows of the
    difference. *)
Fixpoint matrix_sub (known : list Encoding) (enc : Encoding) : outcome (list (list Q)) :=
  match known with
  | [] => Returns []
  | k :: known =>
      match broadcast_sub k enc with
      | Returns row =>
          match matrix_sub known enc with
          | Returns rows => Returns (row :: rows)
          | Raises e => Raises e
          end
      | Raises e => Raises e
      end
  end.

Section Checked.
Context `{Vision}.

(** [np.linalg.norm(known - enc, axis=1)], line 199. *)
Definition distances_checked (known : list Encoding) (enc : Encoding) : outcome (list Q) :=
  match matrix_sub known enc with
  | Returns rows => Returns (map norm rows)
  | Raises e => Raises e
  end.

(** Lines 199-200. *)
Definition best_distance_checked (known : list Encoding) (enc : Encoding) : outcome Q :=
  match distances_checked known enc with
  | Returns dists => np_min dists
  | Raises e => Raises e
  end.

(** Lines 197-204, with the arrays of [numpy] checked. *)
Definition identify_checked (ALLOWED_TOLERANCE : Q) (known : list Encoding)
    (rgb : Image) (locs : list Location) : Prog bool :=
  encs ← call EvFaceEncodings (face_encodings rgb locs);
  match encs with
  | enc :: _ =>
      best ← eval (best_distance_checked known enc);
      log (MBestDistance best);;
      mret (best <=? ALLOWED_TOLERANCE)%Q
  | [] =>
      log MNoEncoding;;
      mret false
  end.
End Checked.

(** [answered lock_session cfg o e]: the environment answered a call of
    the turn with the exception [e]. *)
Definition answered `{Vision} (lock_session : (Cmd -> outcome unit) -> Prog bool)
    (cfg : Config) (o : Obs) (e : exn) : Prop :=
  bt o (bluetoothctl_info (PHONE_MAC cfg)) = Raises e \/
  retrieve (capture o) = Raises e \/ read (capture o) = Raises e \/
  (exists rgb up model, face_locations rgb up model = Raises e) \/
  (exists rgb locs, face_encodings rgb locs = Raises e) \/
  result_of (lock_session (run o)) = Raises e \/
  cooldown o = Raises e \/ interval o = Raises e.

Section Shapes.
Context `{Vision} (d : nat) `{!Encoder d}.
Context (cfg : Config).
Implicit Types (w : World) (known : list Encoding) (rgb : Image) (locs : list Location).

(** The identity check is well typed: in
    a run of [main] that passes the startup, with an encoder of
    dimension [d], the enrolled set is a matrix of [d] columns, and for
    every encoding the encoder returns in the loop the subtraction
    [known - enc] is on rows of equal length, there is one distance per
    enrolled row, and the minimum of the distances exists. *)
Theorem identity_check_well_shaped w known cam_idx rgb locs enc encs :
  startup cfg w = Ready known cam_idx ->
  face_encodings rgb locs = Returns (enc :: encs) ->
  matrix d known /\
  shaped d ((fun k => row_sub k enc) <$> known) /\
  length (distances known enc) = length known /\
  exists best, best_distance known enc = Returns best.
Proof.
  intros (Hk & Hne & _)%startup_Ready He.
  apply (enrolled_shaped d) in Hk. apply encoder_dim, Forall_cons in He as [He _].
  split_and!; [done..|by apply row_sub_shaped|apply length_map|by apply best_distance_returns].
Qed.

(** Rows of one length are subtracted element by element. *)
Lemma broadcast_sub_shaped k enc :
  length k = length enc -> broadcast_sub k enc = Returns (row_sub k enc).
Proof. intros Hl. unfold broadcast_sub. by rewrite decide_True. Qed.

Lemma matrix_sub_shaped known enc :
  shaped (length enc) known ->
  matrix_sub known enc = Returns ((fun k => row_sub k enc) <$> known).
Proof.
  induction 1 as [|k known Hk _ IH]; [done|].
  cbn [matrix_sub]. by rewrite broadcast_sub_shaped, IH.
Qed.

Lemma best_distance_checked_shaped known enc :
  shaped (length enc) known -> best_distance_checked known enc = best_distance known enc.
Proof.
  intros Hk. unfold best_distance_checked, distances_checked.
  rewrite matrix_sub_shaped by done. unfold best_distance, distances.
  by rewrite <- list_fmap_compose.
Qed.

(** Against rows of another length the subtraction broadcasts or
    raises: a mismatch is not subtracted in silence. *)
Lemma broadcast_sub_mismatch k enc :
  length k <> length enc -> (1 < length k)%nat -> (1 < length enc)%nat ->
  broadcast_sub k enc = Raises ValueError.
Proof.
  intros Hl Hk He. unfold broadcast_sub. rewrite decide_False by done.
  destruct k as [|? [|? ?]], enc as [|? [|? ?]]; simpl in *; try lia; done.
Qed.

(** C21. The identity check is sound: in a run of [main] that passes
    the startup, with an encoder of dimension [d], the enrolled set is
    a matrix of [d] columns, and on every frame the matcher over the
    checked arrays of [numpy], which raises [ValueError] when two
    shapes do not fit, is the matcher [identify]: no subtraction of the
    loop raises or broadcasts. *)
Theorem identity_check_sound w known cam_idx tol rgb locs :
  startup cfg w = Ready known cam_idx ->
  matrix d known /\
  identify_checked tol known rgb locs = identify tol known rgb locs.
Proof.
  intros (Hk & Hne & _)%startup_Ready. apply (enrolled_shaped d) in Hk. split; [done|].
  unfold identify_checked, identify, call.
  destruct (face_encodings rgb locs) as [[|enc encs]|e] eqn:He; [done| |done].
  apply encoder_dim, Forall_cons in He as [He _]. simpl in He. subst d.
  rewrite !bind_returns. by rewrite best_distance_checked_shaped.
Qed.
End Shapes.

Section Provenance.
Context `{Vision}.
Context (lock_session : (Cmd -> outcome unit) -> Prog bool).
Context (cfg : Config) (cap : Z) (known : list Encoding).
Context (Hknown : known <> []) (Hevery : ENCODING_EVERY_N cfg <> 0).
Implicit Types (st : State) (o : Obs) (e : exn).

Local Abbreviation iteration := (iteration lock_session cfg cap known).
Local Abbreviation answered := (answered lock_session cfg).

Lemma phone_missing_raises o e :
  result_of (phone_missing cfg o) = Raises e ->
  bt o (bluetoothctl_info (PHONE_MAC cfg)) = Raises e.
Proof.
  unfold phone_missing. destruct (USE_BLUETOOTH cfg); [|done].
  rewrite result_bind, is_phone_present_cases.
  destruct (bt o _) as [|e']; [done|]. destruct (is_Exception e'); [done | by intros [= <-]].
Qed.

(** What looking at a frame raises: the detector's or the encoder's
    exception. *)
Lemma look_raises st o frame e :
  result_of
    (locs ← detect_faces_rgb (HOG_UPSAMPLE cfg) (USE_CNN_FALLBACK cfg) (to_rgb frame);
     log (MDetected (length locs));;
     if bool_decide (length locs <> 1%nat) then
       mret (Some {| companion := true; face_count := length locs;
                     authorized := false; at_time := now o |})
     else
       a ← verify cfg known st (to_rgb frame) locs;
       mret (Some {| companion := true; face_count := 1;
                     authorized := a; at_time := now o |})) = Raises e ->
  answered o e.
Proof.
  rewrite result_bind. intros Hraise. right; right; right.
  destruct (result_of (detect_faces_rgb _ _ _)) as [locs|e'] eqn:Hl.
  - rewrite result_bind, result_log in Hraise. case_bool_decide; [done|].
    rewrite result_bind in Hraise.
    destruct (result_of (verify _ _ _ _ _)) eqn:Hv; [done|]. injection Hraise as <-.
    right; left. apply verify_raises in Hv; eauto.
  - injection Hraise as <-. left. apply detect_faces_rgb_raises in Hl as (? & ? & ?). eauto.
Qed.

Lemma sense_raises st o e :
  result_of (sense cfg cap known st o) = Raises e -> answered o e.
Proof.
  unfold sense. rewrite result_bind.
  destruct (result_of (phone_missing cfg o)) as [[|]|e'] eqn:Hg; [done| |].
  2: { intros [= <-]. left. by apply phone_missing_raises. }
  rewrite result_bind, latest_frame_result.
  destruct (retrieve (capture o)) as [[frame|]|e'] eqn:Hr;
    [apply look_raises| |intros [= <-]; unfold answered; tauto].
  destruct (read (capture o)) as [[frame|]|e'] eqn:Hd;
    [apply look_raises | done | intros [= <-]; unfold answered; tauto].
Qed.

Lemma react_raises st o s e :
  result_of (react lock_session cfg st o s) = Raises e -> answered o e.
Proof.
  unfold answered. destruct s as [s|]; unfold react, lock_and_cool; rewrite !result_bind, result_log.
  - destruct (spec_lock _ _ _).
    + rewrite result_bind. destruct (result_of (lock_session (run o))); [|intros [= <-]; tauto].
      rewrite result_sleep. destruct (cooldown o) as [[]|]; [|intros [= <-]; tauto].
      destruct (companion s); [|done]. rewrite result_sleep.
      destruct (interval o); [done | intros [= <-]; tauto].
    + rewrite result_mret. destruct (companion s); [|done]. rewrite result_sleep.
      destruct (interval o); [done | intros [= <-]; tauto].
  - rewrite result_sleep. destruct (interval o); [done | intros [= <-]; tauto].
Qed.

(** C20. A turn adds no failure of its own: with
    an enrolled set and a sampling interval, an exception that ends a
    turn is one the environment answered a call of the turn with, the
    Bluetooth query, the capture, the detector, the encoder, a lock
    command or a sleep.  Indexing the encodings, the minimum of the
    distances and the remainder of the frame counter never raise. *)
Theorem turn_raises_only_answers st o e :
  result_of (iteration st o) = Raises e -> answered o e.
Proof.
  rewrite iteration_sense_react, result_bind.
  destruct (result_of (sense cfg cap known st o)) as [s|e'] eqn:Hs.
  - apply react_raises.
  - intros [= <-]. by eapply sense_raises.
Qed.
End Provenance.

(** ** Witnesses *)

(** The encoder of the example directory has dimension one. *)
Lemma album_encoder : @Encoder 1 album_vision.
Proof.
  intros img locs encs [= <-]. destruct img as [|[|[[c ?] ?] ?] ?]; by repeat constructor.
Qed.

Lemma identity_check_well_shaped_witness :
  matrix 1 [[1]; [2]]%Q /\
  shaped 1 ((fun k => row_sub k [inject_Z 1]) <$> [[1]; [2]]%Q) /\
  length (distances (H := album_vision) [[1]; [2]]%Q [inject_Z 1]) = 2%nat /\
  exists best, best_distance (H := album_vision) [[1]; [2]]%Q [inject_Z 1] = Returns best.
Proof.
  apply (identity_check_well_shaped (H := album_vision) (Encoder0 := album_encoder) 1
           album_config quiet_world [[1]; [2]]%Q 2 [[(1, 1, 1)]] [] [inject_Z 1] []).
  - vm_compute. reflexivity.
  - reflexivity.
Defined.

Lemma identity_check_sound_witness :
  matrix 1 [[1]; [2]]%Q /\
  identify_checked (H := album_vision) (1 # 2) [[1]; [2]]%Q [[(1, 1, 1)]] []
  = identify (H := album_vision) (1 # 2) [[1]; [2]]%Q [[(1, 1, 1)]] [].
Proof.
  apply (identity_check_sound (H := album_vision) (Encoder0 := album_encoder) 1
           album_config quiet_world [[1]; [2]]%Q 2 (1 # 2) [[(1, 1, 1)]] []).
  vm_compute. reflexivity.
Defined.

(** Two rows against three numbers: [numpy] raises. *)
Example matrix_sub_mismatch :
  matrix_sub [[1; 2]; [3; 4]]%Q [1; 2; 3]%Q = Raises ValueError.
Proof. reflexivity. Qed.

(** Two rows against one number: [numpy] broadcasts. *)
Example matrix_sub_broadcast :
  matrix_sub [[1; 2]; [3; 4]]%Q [1]%Q = Returns [[1 - 1; 2 - 1]; [3 - 1; 4 - 1]]%Q.
Proof. reflexivity. Qed.

Lemma turn_raises_only_answers_witness :
  answered (H := stub_vision [face] [] [near_me]) PresenceGuard.lock_session default_config
    (interrupted 1000000) KeyboardInterrupt.
Proof.
  apply (turn_raises_only_answers (H := stub_vision [face] [] [near_me])
           PresenceGuard.lock_session default_config 0 [me] ltac:(done) ltac:(done)
           st0 (interrupted 1000000) KeyboardInterrupt).
  vm_compute. reflexivity.
Defined.
