(* ===== verification/Authority.v ===== *)
(** * Authority: what the guard does to the outside world

    The script announces that it locks and never unlocks.  This file
    states the whole footprint of src/presence_guard.py as one predicate
    on events, [permitted], and shows that every event of every run of
    [main] satisfies it: the commands are the four lock commands and,
    when the gate is on, the Bluetooth query; the images loaded are the
    regular files of the enrollment directory; the captures are those of
    the devices probed; the sleeps are the cooldown and the poll
    interval; what it writes are the lines of its log, to the standard
    output and to the log file ([written] of [Logger] gives the file of
    an [EvAppend]: it is [LOGFILE]). *)

From S2P Require Import Prelude Effects LockActuator Vision Gate Camera Enrollment.
From S2P Require Import PresenceLoop Scenarios PresenceTurn PresenceRun PresenceMain.
Import PresenceGuard.

(** [permitted cfg fs ev]: an event the guard may perform under the
    configuration [cfg] on the file system [fs]. *)
Definition permitted `{Vision} (cfg : Config) (fs : Files) (ev : Event) : Prop :=
  match ev with
  | EvRun c t =>
      c ∈ cmds \/
      (USE_BLUETOOTH cfg = true /\ c = bluetoothctl_info (PHONE_MAC cfg) /\ t = 6)
  | EvOpen i | EvIsOpened i | EvSet i _ _ | EvRead i | EvGrab i | EvRetrieve i | EvRelease i =>
      i ∈ indices (VIDEO_DEVICE cfg)
  | EvLoadImage f => f ∈ regular_files fs (ENROLL_DIR cfg)
  | EvSleep d => d = LOCK_COOLDOWN cfg \/ d = CHECK_INTERVAL cfg
  | EvLog _ | EvAppend _ | EvFaceLocations _ _ | EvFaceEncodings => True
  end.

#[export] Instance Q_eq_dec : EqDecision Q.
Proof. solve_decision. Defined.

#[export] Instance permitted_dec `{Vision} cfg fs ev : Decision (permitted cfg fs ev).
Proof. destruct ev; simpl; apply _. Defined.

Section Authority.
Context `{Vision}.
Context (lock_session : (Cmd -> outcome unit) -> Prog bool) `{!LockActuator lock_session}.
Context (cfg : Config) (fs : Files).
Implicit Types (st : State) (o : Obs) (w : World) (cap : Z).

Local Abbreviation allowed t := (Forall (permitted cfg fs) t).

Lemma phone_missing_permitted o : allowed (trace_of (phone_missing cfg o)).
Proof.
  unfold phone_missing. destruct (USE_BLUETOOTH cfg) eqn:Hbt; [|constructor].
  rewrite trace_bind_pure, is_phone_present_cases.
  destruct (bt o _) as [|e]; [|destruct (is_Exception e)]; repeat constructor;
    simpl; rewrite ?Hbt; tauto.
Qed.

Lemma percept_permitted cap ev :
  cap ∈ indices (VIDEO_DEVICE cfg) -> percept_event cap ev = true -> permitted cfg fs ev.
Proof.
  intros Hcap. destruct ev; try done; simpl; by intros ->%bool_decide_eq_true.
Qed.

Lemma lock_event_permitted ev : lock_event ev = true -> permitted cfg fs ev.
Proof. destruct ev; try done; simpl; intros ?%bool_decide_eq_true; by left. Qed.

Lemma react_permitted st o s : allowed (trace_of (react lock_session cfg st o s)).
Proof.
  eapply Forall_impl; [apply (react_footprint lock_session)|].
  intros ev [Hev|[->|[->|[(s' & l & [->| ->])|[->| ->]]]]]; simpl; auto using lock_event_permitted.
Qed.

Lemma iteration_permitted cap known st o :
  cap ∈ indices (VIDEO_DEVICE cfg) ->
  allowed (trace_of (iteration lock_session cfg cap known st o)).
Proof.
  intros Hcap. rewrite iteration_sense_react. apply trace_bind_Forall.
  - destruct (sense_trace_split cfg cap known st o) as (t & -> & Ht).
    apply Forall_app. split; [apply phone_missing_permitted|].
    eapply Forall_impl; [exact Ht | intros ev; by apply percept_permitted].
  - intros s _. apply react_permitted.
Qed.

Lemma guarded_loop_permitted cap known start os :
  cap ∈ indices (VIDEO_DEVICE cfg) ->
  allowed (trace_of (guarded_loop lock_session cfg cap known start os)).
Proof.
  intros Hcap. rewrite (guarded_loop_trace lock_session). do 2 (constructor; [done|]).
  apply Forall_app. split; [apply (loop_Forall lock_session); intros; by apply iteration_permitted|].
  apply Forall_app. split; [|by repeat constructor].
  destruct (result_of _) as [|e]; [constructor|]. destruct e; by repeat constructor.
Qed.
End Authority.

Section Main.
Context `{Vision}.
Context (lock_session : (Cmd -> outcome unit) -> Prog bool) `{!LockActuator lock_session}.
Context (cfg : Config).
Implicit Types (w : World).

Local Abbreviation allowed w t := (Forall (permitted cfg (files w)) t).

(** The enrollment loads the regular files of the directory and calls
    the detector, the encoder and the log. *)
Lemma load_permitted w :
  allowed w (trace_of (PresenceGuard.load_known_encodings (files w) (ENROLL_DIR cfg))).
Proof.
  pose proof (load_known_encodings_footprint (files w) (ENROLL_DIR cfg)) as Hfoot.
  pose proof (load_known_encodings_reads (files w) (ENROLL_DIR cfg)) as Hreads.
  eapply Forall_impl; [apply Forall_and; split; [exact Hfoot | exact Hreads]|].
  by intros [] [Hev Hfile].
Qed.

(** The probing touches the devices of the configuration. *)
Lemma open_permitted w :
  allowed w (trace_of (open_camera (opened w) (VIDEO_DEVICE cfg)
                         (FRAME_WIDTH cfg) (FRAME_HEIGHT cfg))).
Proof. eapply Forall_impl; [apply probe_footprint|]. by intros []. Qed.

(** C5. The guard does what it announces and nothing else: on every
    path of [main], whatever the environment answers, the commands it
    runs are the four lock commands and, only when the gate is switched
    on, the Bluetooth query with its timeout; the images it loads are
    the regular files of the enrollment directory; the captures it
    opens, reads and releases are those of the devices of the
    configuration; it sleeps for the cooldown or the poll interval; it
    never writes but to the log.  No command unlocks. *)
Theorem main_only_permitted w :
  Forall (permitted cfg (files w)) (trace_of (main lock_session cfg w)).
Proof.
  rewrite (main_cases lock_session). pose proof (load_permitted w) as Hload.
  pose proof (open_permitted w) as Hopen.
  assert (allowed w (probing cfg w)) as Hprobe by (apply Forall_app; by split).
  destruct (startup cfg w) as [|e| | |known cam_idx] eqn:Hs; cbn [trace_of fst].
  - by repeat constructor.
  - done.
  - apply Forall_app. split; [done | by repeat constructor].
  - apply Forall_app. split; [done | by repeat constructor].
  - apply startup_Ready in Hs as (_ & _ & Hfind%find_some). destruct Hfind as [Hin _].
    rewrite trace_prepend. apply Forall_app. split; [done|].
    unfold run_guard. apply trace_bind_Forall; [by repeat constructor|]. intros _ _.
    apply guarded_loop_permitted; [done|]. by apply list_elem_of_In.
Qed.
End Main.

(** ** Witness *)

Lemma main_only_permitted_witness :
  Forall (permitted (H := album_vision) album_config album)
    (trace_of (main (H := album_vision) PresenceGuard.lock_session album_config ready_world)).
Proof.
  apply (main_only_permitted (H := album_vision) PresenceGuard.lock_session album_config
           ready_world).
Defined.

(** A command that unlocks is not permitted, nor is the Bluetooth query
    under the default configuration, whose gate is off. *)
Example unlock_not_permitted :
  ~ permitted (H := album_vision) default_config album
      (EvRun ["loginctl"; "unlock-sessions"]%string 5) /\
  ~ permitted (H := album_vision) default_config album
      (EvRun (bluetoothctl_info (PHONE_MAC default_config)) 6).
Proof. split; by apply (bool_decide_unpack _). Qed.
