(* ===== verification/FaceDetectLoop.v ===== *)
(** * The decision loop and [main] of src/face_detect.py

    The first version of the guard, src/face_detect.py:77-146.  A turn
    reads a frame, halves it, finds and encodes the faces, and locks
    unless exactly one face was encoded and its best distance to the
    enrolled encodings is within the tolerance.  There is no absence
    timeout, no sampling and no Bluetooth gate.

    The definitions are in the module [FaceDetect].  A turn takes the
    same observation [Obs] as a turn of src/presence_guard.py and uses
    its fields [read], [now], [run], [cooldown] and [interval].  The
    state is the variable [last_lock_time].  [cv2.resize] is a parameter
    of the model, a function of the frame.

    [strict_lock] is the rule of the loop; the theorems relate it to the
    rules of the presence state machine, show the cooldown after every
    lock, and bound what [main] raises and leaves open. *)

From S2P Require Import Prelude Effects LockActuator Vision Gate Camera Enrollment.
From S2P Require Import PresenceLoop Scenarios PresenceTurn PresenceRun.

Module FaceDetect.

(** ** Configuration: src/face_detect.py:20-25 *)

Record Params : Type := {
  ENROLL_DIR : string;
  ALLOWED_TOLERANCE : Q;
  CHECK_INTERVAL : Q;
  LOCK_COOLDOWN : Q;
  VIDEO_DEVICE : Z
}.

Definition defaults : Params := {|
  ENROLL_DIR := "~/.face_enroll";
  ALLOWED_TOLERANCE := 45 # 100;
  CHECK_INTERVAL := 2;
  LOCK_COOLDOWN := 5;
  VIDEO_DEVICE := 0
|}.

Section Loop.
Context `{Vision}.
Context (resize : Image -> Image).
Context (lock_session : (Cmd -> outcome unit) -> Prog bool).
Context (cfg : Params) (known : list Encoding).

(** [lock_session(); last_lock_time = datetime.now();
    time.sleep(LOCK_COOLDOWN); continue], lines 119-122 and 134-137. *)
Definition lock_and_wait (o : Obs) : Prog (option Time) :=
  lock_session (run o);;
  let last_lock_time := Some (now o) in
  sleep (LOCK_COOLDOWN cfg) (cooldown o);;
  mret last_lock_time.

(** Lines 107-108: the frame halved, its channels reversed. *)
Definition small_rgb (frame : Image) : Image :=
  let small_frame := resize frame in
  reverse_channels small_frame.

(** [face_recognition.face_distance(known, enc)]. *)
Definition face_distance (known : list Encoding) (enc : Encoding) : list Q :=
  distances known enc.

(** One turn of [while True], lines 101-139. *)
Definition turn (last_lock_time : option Time) (o : Obs) : Prog (option Time) :=
  frame ← call (EvRead (VIDEO_DEVICE cfg)) (read (capture o));
  match frame with
  | None =>
      log MReadFailed;;
      sleep (CHECK_INTERVAL cfg) (interval o);;
      mret last_lock_time
  | Some frame =>
      let rgb_frame := small_rgb frame in
      locations ← call (EvFaceLocations HOG 1) (face_locations rgb_frame 1 HOG);
      encodings ← call EvFaceEncodings (face_encodings rgb_frame locations);
      let n_faces := length encodings in
      log (MDetected n_faces);;
      if bool_decide (n_faces <> 1%nat) then
        log MNotExactlyOne;;
        lock_and_wait o
      else
        enc ← eval (first encodings);
        best ← eval (np_min (face_distance known enc));
        log (MBestDistance best);;
        if (best <=? ALLOWED_TOLERANCE cfg)%Q then
          log MAuthorizedOnly;;
          sleep (CHECK_INTERVAL cfg) (interval o);;
          mret last_lock_time
        else
          log MUnknownFace;;
          lock_and_wait o
  end.

(** The turns of the loop over the observations [os]. *)
Fixpoint frames (last_lock_time : option Time) (os : list Obs) : Prog (option Time) :=
  match os with
  | [] => mret last_lock_time
  | o :: os =>
      last_lock_time ← turn last_lock_time o;
      frames last_lock_time os
  end.

(** Lines 96-146: the loop inside its [try] statement. *)
Definition guarded (os : list Obs) : Prog unit :=
  let last_lock_time := None in
  finally
    (try_except (frames last_lock_time os;; mret tt) on_exit)
    (emit (EvRelease (VIDEO_DEVICE cfg))).

End Loop.

Section Main.
Context `{Vision}.
Context (resize : Image -> Image).
Context (lock_session : (Cmd -> outcome unit) -> Prog bool).
Context (cfg : Params).

(** [main()], lines 77-146. *)
Definition main (fs : Files) (opened : Z -> bool) (os : list Obs) : Prog unit :=
  if negb (isdir fs (ENROLL_DIR cfg)) then
    log (MEnrollDirMissing (ENROLL_DIR cfg));;
    sys_exit 1
  else
    known_encodings ← FaceDetect.load_known_encodings fs (ENROLL_DIR cfg);
    if bool_decide (known_encodings = []) then
      log MNoKnownEncodings;;
      sys_exit 1
    else
      log MStarting;;
      emit (EvOpen (VIDEO_DEVICE cfg));;
      ok ← call (EvIsOpened (VIDEO_DEVICE cfg)) (Returns (opened (VIDEO_DEVICE cfg)));
      if negb ok then
        log MCannotOpenWebcam;;
        sys_exit 1
      else
        guarded resize lock_session cfg known_encodings os.

(** Lines 77-94: the startup of [main], which ends the process or
    hands the enrolled encodings to the guard. *)
Definition starting (fs : Files) (opened : Z -> bool) : Prog (list Encoding) :=
  if negb (isdir fs (ENROLL_DIR cfg)) then
    log (MEnrollDirMissing (ENROLL_DIR cfg));;
    sys_exit 1
  else
    known_encodings ← FaceDetect.load_known_encodings fs (ENROLL_DIR cfg);
    if bool_decide (known_encodings = []) then
      log MNoKnownEncodings;;
      sys_exit 1
    else
      log MStarting;;
      emit (EvOpen (VIDEO_DEVICE cfg));;
      ok ← call (EvIsOpened (VIDEO_DEVICE cfg)) (Returns (opened (VIDEO_DEVICE cfg)));
      if negb ok then
        log MCannotOpenWebcam;;
        sys_exit 1
      else
        mret known_encodings.

(** [if __name__ == "__main__": main()], lines 148-149: the events of
    the process and the status it exits with. *)
Definition script (fs : Files) (opened : Z -> bool) (os : list Obs) : trace * Z :=
  (trace_of (main fs opened os), exit_status (result_of (main fs opened os))).

End Main.

(** ** The rule of the loop *)

(** Lock unless exactly one face is seen and it is authorized. *)
Definition strict_lock (s : Sample) : bool :=
  negb (bool_decide (face_count s = 1%nat) && authorized s).

Section Machine.
Context `{Vision}.
Context (resize : Image -> Image).
Context (lock_session : (Cmd -> outcome unit) -> Prog bool).
Context (cfg : Params) (known : list Encoding).

(** The sensing statements of a turn, lines 101-114 and 125-127. *)
Definition perceive (o : Obs) : Prog (option Sample) :=
  frame ← call (EvRead (VIDEO_DEVICE cfg)) (read (capture o));
  match frame with
  | None => mret None
  | Some frame =>
      locations ← call (EvFaceLocations HOG 1) (face_locations (small_rgb resize frame) 1 HOG);
      encodings ← call EvFaceEncodings (face_encodings (small_rgb resize frame) locations);
      log (MDetected (length encodings));;
      if bool_decide (length encodings <> 1%nat) then
        mret (Some {| companion := true; face_count := length encodings;
                      authorized := false; at_time := now o |})
      else
        enc ← eval (first encodings);
        best ← eval (np_min (face_distance known enc));
        log (MBestDistance best);;
        mret (Some {| companion := true; face_count := 1;
                      authorized := (best <=? ALLOWED_TOLERANCE cfg)%Q; at_time := now o |})
  end.

(** The line a turn logs for its decision. *)
Definition verdict_line (s : Sample) : Msg :=
  if bool_decide (face_count s = 1%nat) then
    if authorized s then MAuthorizedOnly else MUnknownFace
  else MNotExactlyOne.

(** The deciding statements of a turn, lines 103-105, 117-122 and
    129-139. *)
Definition respond (last_lock_time : option Time) (o : Obs) (s : option Sample)
    : Prog (option Time) :=
  match s with
  | None =>
      log MReadFailed;;
      sleep (CHECK_INTERVAL cfg) (interval o);;
      mret last_lock_time
  | Some s =>
      log (verdict_line s);;
      if strict_lock s then
        lock_and_wait lock_session cfg o
      else
        sleep (CHECK_INTERVAL cfg) (interval o);;
        mret last_lock_time
  end.

End Machine.
End FaceDetect.

(** ** The rule of [FaceDetect] and the rules of the state machine *)

Section Rules.
Implicit Types (s : Sample) (last : Time) (pcfg : Config).

(** Once the absence timeout has passed, the rules of the presence
    state machine are the rule of src/face_detect.py. *)
Lemma strict_lock_spec pcfg last s :
  companion s = true ->
  (ABSENCE_TIMEOUT pcfg <= elapsed last s)%Q ->
  spec_lock pcfg last s = FaceDetect.strict_lock s.
Proof.
  intros Hc Ht%Qle_bool_true. unfold spec_lock, FaceDetect.strict_lock, phase.
  rewrite Hc, Ht. by destruct (face_count s) as [|[|n]], (authorized s).
Qed.

(** Whenever the rules of the state machine lock, the rule of
    src/face_detect.py locks. *)
Lemma strict_lock_stricter pcfg last s :
  companion s = true -> spec_lock pcfg last s = true -> FaceDetect.strict_lock s = true.
Proof.
  intros Hc. unfold spec_lock, FaceDetect.strict_lock, phase. rewrite Hc.
  by destruct (face_count s) as [|[|n]], (authorized s).
Qed.
End Rules.

(** ** A turn *)

(** [calm_event ev]: [ev] is no event of the lock actuator, no sleep and
    no creation or release of a capture. *)
Definition calm_event (ev : Event) : bool :=
  negb (lock_event ev) && negb (is_sleep ev) && negb (is_lifecycle ev).

Section Turn.
Context `{Vision}.
Context (resize : Image -> Image).
Context (lock_session : (Cmd -> outcome unit) -> Prog bool) `{!LockActuator lock_session}.
Context (cfg : FaceDetect.Params) (known : list Encoding).
Implicit Types (st : option Time) (o : Obs) (os : list Obs) (s : Sample).

Local Abbreviation turn := (FaceDetect.turn resize lock_session cfg known).
Local Abbreviation frames := (FaceDetect.frames resize lock_session cfg known).
Local Abbreviation guarded := (FaceDetect.guarded resize lock_session cfg known).
Local Abbreviation perceive := (FaceDetect.perceive resize cfg known).
Local Abbreviation respond := (FaceDetect.respond lock_session cfg).
Local Abbreviation lock_and_wait := (FaceDetect.lock_and_wait lock_session cfg).
Local Abbreviation cool := (settled (FaceDetect.LOCK_COOLDOWN cfg)).

(** A turn is sensing followed by the decision of the rule. *)
Lemma turn_perceive_respond st o : turn st o = (perceive o ≫= respond st o).
Proof.
  unfold FaceDetect.turn, FaceDetect.perceive. bind_step. destruct a as [frame|]; [|by rewrite bind_ret_l].
  bind_step. bind_step. bind_step. case_bool_decide as Hn.
  - rewrite bind_ret_l. unfold FaceDetect.respond, FaceDetect.verdict_line, FaceDetect.strict_lock.
    cbn [face_count authorized]. by rewrite bool_decide_eq_false_2.
  - bind_step. bind_step. bind_step. rewrite bind_ret_l.
    unfold FaceDetect.respond, FaceDetect.verdict_line, FaceDetect.strict_lock.
    cbn [face_count authorized bool_decide decide_rel]. rewrite bool_decide_eq_true_2 by done.
    by destruct (_ <=? _)%Q.
Qed.

(** Sensing reads the capture, calls the detector and the encoder and
    logs what it found. *)
Lemma perceive_percept o :
  Forall (fun ev => percept_event (FaceDetect.VIDEO_DEVICE cfg) ev = true)
    (trace_of (perceive o)).
Proof.
  unfold FaceDetect.perceive.
  apply trace_bind_Forall; [constructor; [by apply bool_decide_eq_true_2 | constructor]|].
  intros [frame|] _; [|constructor].
  apply trace_bind_Forall; [by repeat constructor|]. intros locs _.
  apply trace_bind_Forall; [by repeat constructor|]. intros encs _.
  apply trace_bind_Forall; [by repeat constructor|]. intros _ _.
  case_bool_decide; [constructor|].
  apply trace_bind_Forall; [constructor|]. intros enc _.
  apply trace_bind_Forall; [constructor|]. intros best _. by repeat constructor.
Qed.

(** Sensing locks nothing, does not sleep and keeps the capture. *)
Lemma perceive_calm o : Forall (fun ev => calm_event ev = true) (trace_of (perceive o)).
Proof. eapply Forall_impl; [apply perceive_percept|]. by intros [[]| | | | | | | | | | | | |[]]. Qed.

Lemma calm_not_locked (t : trace) :
  Forall (fun ev => calm_event ev = true) t -> Forall (fun ev => lock_event ev = false) t.
Proof.
  intros Hc. eapply Forall_impl; [exact Hc|]. unfold calm_event.
  intros ev. by destruct (lock_event ev).
Qed.

Lemma lock_and_wait_locked o : locked (trace_of (lock_and_wait o)) = true.
Proof.
  unfold FaceDetect.lock_and_wait. rewrite trace_bind, locked_app.
  destruct (lock_attempts (run o)) as (c & t & -> & Hc). simpl.
  by rewrite bool_decide_eq_true_2.
Qed.

Lemma lock_and_wait_settled o : cool (trace_of (lock_and_wait o)).
Proof.
  unfold FaceDetect.lock_and_wait. rewrite trace_bind, trace_bind_mret.
  destruct (result_of (lock_session (run o))) as [b|e] eqn:Hr.
  - destruct (lock_ends (run o) b Hr) as (t & ev & -> & Hev & Ht).
    rewrite trace_sleep, <- app_assoc. by apply settled_cascade.
  - rewrite app_nil_r. apply settled_quiet. by apply (lock_interrupted (run o) e).
Qed.

Lemma lock_and_wait_no_lifecycle o :
  Forall (fun ev => is_lifecycle ev = false) (trace_of (lock_and_wait o)).
Proof.
  unfold FaceDetect.lock_and_wait. apply trace_bind_Forall.
  - eapply Forall_impl; [apply lock_footprint|]. by intros [].
  - intros _ _. destruct (cooldown o); by repeat constructor.
Qed.

Lemma verdict_line_not_lock s :
  Forall (fun ev => lock_event ev = false) (logs (FaceDetect.verdict_line s)).
Proof. unfold FaceDetect.verdict_line. repeat case_match; by repeat constructor. Qed.

(** The deciding half locks exactly when the rule says so. *)
Lemma respond_locked st o s :
  locked (trace_of (respond st o (Some s))) = FaceDetect.strict_lock s.
Proof.
  unfold FaceDetect.respond. rewrite trace_bind, locked_app, trace_log, result_log.
  rewrite (proj2 (locked_false _) (verdict_line_not_lock s)), orb_false_l.
  destruct (FaceDetect.strict_lock s); [apply lock_and_wait_locked|].
  by destruct (interval o).
Qed.

Lemma respond_settled st o (r : option Sample) : cool (trace_of (respond st o r)).
Proof.
  destruct r as [s|]; unfold FaceDetect.respond.
  - apply settled_bind.
    { apply settled_quiet, not_lock_event_not_done, verdict_line_not_lock. }
    intros _ _. destruct (FaceDetect.strict_lock s); [apply lock_and_wait_settled|].
    apply settled_quiet. destruct (interval o); by repeat constructor.
  - apply settled_quiet. destruct (interval o); by repeat constructor.
Qed.

Lemma respond_no_lifecycle st o (r : option Sample) :
  Forall (fun ev => is_lifecycle ev = false) (trace_of (respond st o r)).
Proof.
  destruct r as [s|]; unfold FaceDetect.respond.
  - apply trace_bind_Forall; [by repeat constructor|]. intros _ _.
    destruct (FaceDetect.strict_lock s); [apply lock_and_wait_no_lifecycle|].
    destruct (interval o); by repeat constructor.
  - destruct (interval o); by repeat constructor.
Qed.

Lemma turn_settled st o : cool (trace_of (turn st o)).
Proof.
  rewrite turn_perceive_respond. apply settled_bind; [|intros; apply respond_settled].
  apply settled_quiet, not_lock_event_not_done, calm_not_locked, perceive_calm.
Qed.

Lemma turn_no_lifecycle st o :
  Forall (fun ev => is_lifecycle ev = false) (trace_of (turn st o)).
Proof.
  rewrite turn_perceive_respond. apply trace_bind_Forall; [|intros; apply respond_no_lifecycle].
  eapply Forall_impl; [apply perceive_calm|]. unfold calm_event. intros ev.
  by destruct (is_lifecycle ev); rewrite ?andb_false_r.
Qed.

(** The loop is the loop of its turn. *)
Lemma frames_for_each st os : frames st os = for_each turn st os.
Proof. revert st. induction os as [|o os IH]; intros st; cbn; [done | by apply bind_ext]. Qed.

Lemma frames_settled os st : cool (trace_of (frames st os)).
Proof. rewrite frames_for_each. apply for_each_settled, turn_settled. Qed.

Lemma frames_no_lifecycle os st :
  Forall (fun ev => is_lifecycle ev = false) (trace_of (frames st os)).
Proof. rewrite frames_for_each. apply for_each_Forall, turn_no_lifecycle. Qed.

(** A sample is taken at the clock of its turn, and src/face_detect.py
    has no gate: the companion counts as present. *)
Lemma perceive_sample o s :
  result_of (perceive o) = Returns (Some s) -> companion s = true /\ at_time s = now o.
Proof.
  unfold FaceDetect.perceive, call, eval. rewrite log_eq. cbv beta.
  destruct (read (capture o)) as [[frame|]|e]; [|done..]. rewrite bind_returns, result_prepend.
  destruct (face_locations _ 1 HOG) as [locs|e]; [|done]. rewrite bind_returns, result_prepend.
  destruct (face_encodings _ locs) as [encs|e]; [|done].
  rewrite !bind_returns, !result_prepend. case_bool_decide; [by intros [= <-]|].
  destruct (first encs) as [enc|e]; [|done]. rewrite bind_returns, result_prepend.
  destruct (np_min _) as [best|e]; [|done]. by intros [= <-].
Qed.

Lemma perceive_companion o s : result_of (perceive o) = Returns (Some s) -> companion s = true.
Proof. by intros [? _]%perceive_sample. Qed.

(** What the deciding half returns. *)
Lemma respond_result st o s :
  result_of (respond st o (Some s)) =
  if FaceDetect.strict_lock s then
    match result_of (lock_session (run o)) with
    | Returns _ => match cooldown o with Returns _ => Returns (Some (now o)) | Raises e => Raises e end
    | Raises e => Raises e
    end
  else match interval o with Returns _ => Returns st | Raises e => Raises e end.
Proof.
  unfold FaceDetect.respond, FaceDetect.lock_and_wait. rewrite result_bind, result_log.
  destruct (FaceDetect.strict_lock s).
  - rewrite result_bind. destruct (result_of (lock_session (run o))); [|done].
    by destruct (cooldown o).
  - by destruct (interval o).
Qed.

(** The trace of a turn does not depend on [last_lock_time]. *)
Lemma turn_trace_state st st' o : trace_of (turn st o) = trace_of (turn st' o).
Proof.
  rewrite !turn_perceive_respond, !trace_bind. f_equal.
  destruct (result_of (perceive o)) as [[s|]|e]; [| |done]; unfold FaceDetect.respond.
  - rewrite !trace_bind, !result_log. f_equal.
    destruct (FaceDetect.strict_lock s); [done|]. by rewrite !trace_bind_mret.
  - rewrite !trace_bind, result_log, result_sleep. by destruct (interval o).
Qed.

Lemma turn_returned_state st st' o :
  returned (result_of (turn st o)) = returned (result_of (turn st' o)).
Proof.
  rewrite !turn_perceive_respond, !result_bind.
  destruct (result_of (perceive o)) as [[s|]|e]; [| |done].
  - rewrite !respond_result. destruct (FaceDetect.strict_lock s); [done|]. by destruct (interval o).
  - unfold FaceDetect.respond. rewrite !result_bind, result_log, result_sleep.
    by destruct (interval o).
Qed.

(** The trace of the guarded loop. *)
Lemma guarded_trace os :
  trace_of (guarded os)
  = trace_of (frames None os)
    ++ match result_of (frames None os) with
       | Returns _ => []
       | Raises e => exit_lines e
       end ++ [EvRelease (FaceDetect.VIDEO_DEVICE cfg)].
Proof.
  unfold FaceDetect.guarded. rewrite finally_emit. cbn [trace_of fst].
  rewrite try_except_trace, trace_bind_mret, result_bind, <- app_assoc.
  do 2 f_equal. destruct (result_of _) as [|e]; [done|]. by destruct e.
Qed.

Lemma guarded_result os :
  result_of (guarded os)
  = match result_of (frames None os) with
    | Raises (SystemExit c) => Raises (SystemExit c)
    | _ => Returns tt
    end.
Proof.
  unfold FaceDetect.guarded. rewrite finally_emit. cbn [result_of snd].
  rewrite try_except_result, result_bind.
  destruct (result_of _) as [|e]; [done|]. by destruct e.
Qed.

Lemma exit_lines_quiet e :
  Forall (fun ev => lock_done ev = false /\ is_lifecycle ev = false) (exit_lines e).
Proof. destruct e; by repeat constructor. Qed.

(** A turn of src/face_detect.py locks exactly when its rule says
    so: unless exactly one face was encoded and its best distance to the
    enrolled encodings is within the tolerance.  The rule is the one of
    the presence state machine once the absence timeout has passed.  A
    turn that locks sets [last_lock_time]; a turn returns unless the
    lock or its sleep is interrupted. *)
Theorem face_detect_turn_refines_rules st o s :
  result_of (perceive o) = Returns (Some s) ->
  locked (trace_of (turn st o)) = FaceDetect.strict_lock s /\
  (forall pcfg last, (ABSENCE_TIMEOUT pcfg <= elapsed last s)%Q ->
     spec_lock pcfg last s = FaceDetect.strict_lock s) /\
  (forall st', result_of (turn st o) = Returns st' ->
     st' = if FaceDetect.strict_lock s then Some (now o) else st) /\
  (returned (result_of (lock_session (run o))) = true ->
   cooldown o = Returns tt -> interval o = Returns tt ->
   returned (result_of (turn st o)) = true).
Proof.
  intros Hs. rewrite turn_perceive_respond, trace_bind, result_bind, Hs, locked_app, respond_locked.
  rewrite (proj2 (locked_false _) (calm_not_locked _ (perceive_calm o))), respond_result.
  split_and!; [done | | |].
  - intros pcfg last. apply strict_lock_spec. by eapply perceive_companion.
  - intros st'. destruct (FaceDetect.strict_lock s).
    + destruct (result_of (lock_session _)); [|done]. destruct (cooldown o); by intros [= <-].
    + destruct (interval o); by intros [= <-].
  - intros Hl -> ->. destruct (result_of (lock_session _)); [|done].
    by destruct (FaceDetect.strict_lock s).
Qed.

(** Cooldown in src/face_detect.py: in every run of the guarded loop
    each line that closes a lock cascade, once it is written, is
    followed at once by [time.sleep(LOCK_COOLDOWN)]. *)
Theorem face_detect_cooldown_follows_every_lock os :
  cooled (FaceDetect.LOCK_COOLDOWN cfg) (trace_of (guarded os)).
Proof.
  rewrite guarded_trace. apply cooled_app; [apply frames_settled|].
  apply cooled_quiet, Forall_app. split; [|by repeat constructor].
  destruct (result_of _) as [|e]; [constructor|].
  eapply Forall_impl; [apply exit_lines_quiet | by intros ? [? _]].
Qed.

(** A turn of src/face_detect.py that locks sleeps once: its events
    are the sensing, the line of the decision, the cascade and the
    cooldown, and the poll interval is not slept. *)
Theorem face_detect_locking_turn_sleeps_once st o s b :
  result_of (perceive o) = Returns (Some s) ->
  FaceDetect.strict_lock s = true ->
  result_of (lock_session (run o)) = Returns b ->
  trace_of (turn st o)
  = trace_of (perceive o) ++ logs (FaceDetect.verdict_line s)
    ++ trace_of (lock_session (run o)) ++ [EvSleep (FaceDetect.LOCK_COOLDOWN cfg)] /\
  count_b is_sleep (trace_of (turn st o)) = 1%nat.
Proof.
  intros Hs Hl Hb.
  assert (trace_of (turn st o)
          = trace_of (perceive o) ++ logs (FaceDetect.verdict_line s)
            ++ trace_of (lock_session (run o)) ++ [EvSleep (FaceDetect.LOCK_COOLDOWN cfg)]) as ->.
  { rewrite turn_perceive_respond, trace_bind, Hs. unfold FaceDetect.respond, FaceDetect.lock_and_wait.
    by rewrite Hl, trace_bind, trace_log, result_log, trace_bind, Hb, trace_bind_mret. }
  split; [done|]. rewrite !count_b_app.
  rewrite (proj2 (count_b_zero is_sleep (trace_of (perceive o)))).
  - rewrite (proj2 (count_b_zero is_sleep (trace_of (lock_session _)))).
    + unfold FaceDetect.verdict_line. by repeat case_match.
    + eapply Forall_impl; [apply lock_footprint|]. by intros [].
  - eapply Forall_impl; [apply perceive_calm|]. unfold calm_event. intros ev.
    destruct (is_sleep ev); [|done]. by rewrite andb_false_r.
Qed.

(** [last_lock_time] is written and never read: two runs of the loop
    on the same observations from different values of it perform the
    same events, and one returns exactly when the other does. *)
Theorem face_detect_last_lock_time_unused os st st' :
  trace_of (frames st os) = trace_of (frames st' os) /\
  returned (result_of (frames st os)) = returned (result_of (frames st' os)).
Proof.
  revert st st'. induction os as [|o os IH]; intros st st'; [done|].
  cbn [FaceDetect.frames]. rewrite !trace_bind, !result_bind, (turn_trace_state st st').
  pose proof (turn_returned_state st st' o) as Hr.
  destruct (result_of (turn st o)) as [st1|e], (result_of (turn st' o)) as [st1'|e']; try done.
  destruct (IH st1 st1') as [-> ->]. done.
Qed.
End Turn.

(** ** [main] *)

Section MainFacts.
Context `{Vision}.
Context (resize : Image -> Image).
Context (lock_session : (Cmd -> outcome unit) -> Prog bool) `{!LockActuator lock_session}.
Context (cfg : FaceDetect.Params).
Implicit Types (fs : Files) (opened : Z -> bool) (os : list Obs) (i : Z) (e : exn).

Local Abbreviation main := (FaceDetect.main resize lock_session cfg).
Local Abbreviation guarded := (FaceDetect.guarded resize lock_session cfg).
Local Abbreviation dir := (FaceDetect.ENROLL_DIR cfg).
Local Abbreviation dev := (FaceDetect.VIDEO_DEVICE cfg).
Local Abbreviation load fs := (FaceDetect.load_known_encodings fs dir).

(** [main] is its startup followed by the guard. *)
Lemma face_detect_main_starting fs opened os :
  main fs opened os = FaceDetect.starting cfg fs opened ≫= fun known => guarded known os.
Proof.
  unfold FaceDetect.main, FaceDetect.starting. destruct (isdir _ _); cbn [negb]; [|done].
  rewrite bind_assoc. apply bind_ext. intros known _. case_bool_decide; [done|].
  rewrite !bind_assoc. do 3 (apply bind_ext; intros ? _). by destruct (negb _).
Qed.

(** [main] by the cases of the startup. *)
Lemma face_detect_main_cases fs opened os :
  main fs opened os =
  if isdir fs dir then
    match enrolled fs (glob fs dir) with
    | Raises e => (trace_of (load fs), Raises e)
    | Returns [] => (trace_of (load fs) ++ logs MNoKnownEncodings, Raises (SystemExit 1))
    | Returns known =>
        if opened dev then
          prepend (trace_of (load fs) ++ logs MStarting ++ [EvOpen dev; EvIsOpened dev])
            (guarded known os)
        else
          (trace_of (load fs)
             ++ logs MStarting ++ [EvOpen dev; EvIsOpened dev] ++ logs MCannotOpenWebcam,
           Raises (SystemExit 1))
    end
  else (logs (MEnrollDirMissing dir), Raises (SystemExit 1)).
Proof.
  unfold FaceDetect.main. destruct (isdir fs dir); [cbn [negb]|done].
  pose proof (face_detect_load_known_encodings_result fs dir) as Hr.
  destruct (load fs) as [t r]. cbn [result_of snd trace_of fst] in *. subst r.
  destruct (enrolled _ _) as [[|k known]|e]; [done| |done].
  rewrite bind_returns, bool_decide_eq_false_2 by done.
  unfold emit, call, sys_exit, raise. rewrite log_eq. cbv beta.
  rewrite !bind_returns, !prepend_prepend.
  rewrite <- !app_assoc. destruct (opened dev); cbn [negb]; [done|].
  unfold prepend. cbn [trace_of result_of fst snd]. by rewrite <- !app_assoc.
Qed.

Lemma face_detect_load_held fs i : held i (trace_of (load fs)) = 0.
Proof.
  apply held_quiet. eapply Forall_impl; [apply (for_files_footprint fs _)|].
  by intros [[]| | | | | | | | | | | | |[]].
Qed.

Lemma guarded_held known os i :
  held i (trace_of (guarded known os)) = if bool_decide (dev = i) then -1 else 0.
Proof.
  rewrite (guarded_trace resize lock_session), !held_app, held_release.
  rewrite (held_quiet _ (trace_of _)) by apply (frames_no_lifecycle resize lock_session).
  rewrite (held_quiet _ (match _ with Returns _ => _ | Raises _ => _ end)); [done|].
  destruct (result_of _) as [|e]; [constructor|].
  eapply Forall_impl; [apply exit_lines_quiet | by intros ? [_ ?]].
Qed.

(** The exit of src/face_detect.py: [main] creates at most one
    capture, of the configured device; it is released on every path on
    which it opened, and left unreleased when it did not open, where
    [main] exits with status 1.  No [Exception] leaves [main]: what it
    raises is [SystemExit] or the interrupt of the enrollment. *)
Theorem face_detect_main_exit fs opened os :
  (forall i, held i (trace_of (main fs opened os)) = 0 \/
     (held i (trace_of (main fs opened os)) = 1 /\ i = dev /\ opened dev = false /\
      result_of (main fs opened os) = Raises (SystemExit 1))) /\
  (forall e, result_of (main fs opened os) = Raises e -> is_Exception e = false).
Proof.
  rewrite face_detect_main_cases. destruct (isdir fs dir); [|split; [by left | by intros ? [= <-]]].
  destruct (enrolled _ _) as [[|k known]|e'] eqn:Hl; cbn [trace_of result_of fst snd].
  - split; [intros i; left | by intros ? [= <-]]. by rewrite held_app, face_detect_load_held.
  - destruct (opened dev) eqn:Ho; cbn [trace_of result_of fst snd]; split.
    + intros i. left. rewrite trace_prepend, !held_app, face_detect_load_held, guarded_held.
      unfold held; simpl. case_bool_decide; done.
    + intros e. rewrite result_prepend, (guarded_result resize lock_session).
      repeat case_match; by intros [= <-].
    + intros i. rewrite held_app, face_detect_load_held.
      unfold held; simpl. case_bool_decide; [right | left]; done.
    + by intros ? [= <-].
  - split; [intros i; left; apply face_detect_load_held|].
    intros ? [= <-]. by eapply enrolled_raises.
Qed.

(** The status of the process of src/face_detect.py, by the cases of
    the startup: 1 without the directory, without an enrolled face and
    without the camera; 0 once the loop runs, however it ends, unless a
    [SystemExit] ended it; the status of the exception when the
    enrollment was interrupted. *)
Theorem face_detect_script_exit_status fs opened os :
  snd (FaceDetect.script resize lock_session cfg fs opened os) =
  if isdir fs dir then
    match enrolled fs (glob fs dir) with
    | Raises e => exit_status (Raises e)
    | Returns [] => 1
    | Returns known =>
        if opened dev then
          match result_of (FaceDetect.frames resize lock_session cfg known None os) with
          | Raises (SystemExit code) => code
          | _ => 0
          end
        else 1
    end
  else 1.
Proof.
  unfold FaceDetect.script. cbn [snd]. rewrite face_detect_main_cases.
  destruct (isdir fs dir); [|done]. destruct (enrolled _ _) as [[|k known]|e]; [done| |done].
  destruct (opened dev); [|done]. rewrite result_prepend, (guarded_result resize lock_session).
  destruct (result_of _) as [|e]; [done|]. by destruct e.
Qed.
End MainFacts.

(** ** Witnesses *)

(** A quiet turn at time [t] on which [cap.read()] delivers a frame. *)
Definition seen (t : Time) : Obs := {|
  bt := bt (calm t);
  capture := {| retrieve := Returns None; read := Returns (Some frame0) |};
  now := t;
  run := run (calm t);
  cooldown := Returns tt;
  interval := Returns tt
|}.

(** A [cv2.resize] that keeps every second row and every second pixel
    of a row. *)
Fixpoint every_second {A} (l : list A) : list A :=
  match l with
  | x :: _ :: l => x :: every_second l
  | l => l
  end.

Definition halve (img : Image) : Image := every_second (map every_second img).

(** The turns of src/face_detect.py compute: the enrolled user, then
    two people. *)
Example face_detect_scenario_authorized :
  FaceDetect.turn (H := stub_vision [face] [] [near_me]) halve PresenceGuard.lock_session
    FaceDetect.defaults [me] None (seen 1000000)
  = ([EvRead 0; EvFaceLocations HOG 1; EvFaceEncodings;
      EvLog (MDetected 1); EvAppend (MDetected 1);
      EvLog (MBestDistance (3 # 10)); EvAppend (MBestDistance (3 # 10));
      EvLog MAuthorizedOnly; EvAppend MAuthorizedOnly; EvSleep 2],
     Returns None).
Proof. vm_compute. reflexivity. Qed.

Example face_detect_scenario_two_faces :
  FaceDetect.turn (H := stub_vision [face; face] [] [near_me; stranger]) halve
    PresenceGuard.lock_session FaceDetect.defaults [me] None (seen 1000000)
  = ([EvRead 0; EvFaceLocations HOG 1; EvFaceEncodings;
      EvLog (MDetected 2); EvAppend (MDetected 2);
      EvLog MNotExactlyOne; EvAppend MNotExactlyOne;
      EvRun ["loginctl"; "lock-sessions"]%string 5;
      EvLog (MLockedVia ["loginctl"; "lock-sessions"]%string);
      EvAppend (MLockedVia ["loginctl"; "lock-sessions"]%string);
      EvSleep 5],
     Returns (Some 1000000)).
Proof. vm_compute. reflexivity. Qed.

Lemma face_detect_turn_refines_rules_witness :
  let V := stub_vision [face] [] [stranger] in
  let s := {| companion := true; face_count := 1; authorized := false; at_time := 1000000 |} in
  let turn := FaceDetect.turn (H := V) halve PresenceGuard.lock_session
                FaceDetect.defaults [me] None (seen 1000000) in
  locked (trace_of turn) = FaceDetect.strict_lock s /\
  (forall pcfg last, (ABSENCE_TIMEOUT pcfg <= elapsed last s)%Q ->
     spec_lock pcfg last s = FaceDetect.strict_lock s) /\
  (forall st', result_of turn = Returns st' ->
     st' = if FaceDetect.strict_lock s then Some 1000000 else None) /\
  (returned (result_of (PresenceGuard.lock_session (run (seen 1000000)))) = true ->
   cooldown (seen 1000000) = Returns tt -> interval (seen 1000000) = Returns tt ->
   returned (result_of turn) = true).
Proof.
  intros V s turn.
  apply (face_detect_turn_refines_rules (H := V) halve PresenceGuard.lock_session
           FaceDetect.defaults [me] None (seen 1000000) s).
  vm_compute. reflexivity.
Defined.

Lemma face_detect_locking_turn_sleeps_once_witness :
  let V := stub_vision [face; face] [] [near_me; stranger] in
  let s := {| companion := true; face_count := 2; authorized := false; at_time := 1000000 |} in
  let turn := FaceDetect.turn (H := V) halve PresenceGuard.lock_session
                FaceDetect.defaults [me] None (seen 1000000) in
  trace_of turn
  = trace_of (FaceDetect.perceive (H := V) halve FaceDetect.defaults [me] (seen 1000000))
    ++ logs (FaceDetect.verdict_line s)
    ++ trace_of (PresenceGuard.lock_session (run (seen 1000000))) ++ [EvSleep 5] /\
  count_b is_sleep (trace_of turn) = 1%nat.
Proof.
  intros V s turn.
  apply (face_detect_locking_turn_sleeps_once (H := V) halve PresenceGuard.lock_session
           FaceDetect.defaults [me] None (seen 1000000) s true); vm_compute; reflexivity.
Defined.

(** The camera of the example directory does not open. *)
Lemma face_detect_main_exit_witness :
  let cfg := {| FaceDetect.ENROLL_DIR := "enroll";
                FaceDetect.ALLOWED_TOLERANCE := 45 # 100;
                FaceDetect.CHECK_INTERVAL := 2;
                FaceDetect.LOCK_COOLDOWN := 5;
                FaceDetect.VIDEO_DEVICE := 0 |} in
  let m := FaceDetect.main (H := album_vision) halve PresenceGuard.lock_session cfg
             album (fun _ => false) [] in
  (forall i, held i (trace_of m) = 0 \/
     (held i (trace_of m) = 1 /\ i = 0 /\ false = false /\
      result_of m = Raises (SystemExit 1))) /\
  (forall e, result_of m = Raises e -> is_Exception e = false).
Proof.
  intros cfg m.
  apply (face_detect_main_exit (H := album_vision) halve PresenceGuard.lock_session cfg
           album (fun _ => false) []).
Defined.

Lemma face_detect_cooldown_follows_every_lock_witness :
  cooled 5 (trace_of (FaceDetect.guarded (H := stub_vision [face; face] [] [near_me; stranger])
                        halve PresenceGuard.lock_session FaceDetect.defaults [me]
                        [seen 1000000; seen 8000000])).
Proof.
  apply (face_detect_cooldown_follows_every_lock
           (H := stub_vision [face; face] [] [near_me; stranger])
           halve PresenceGuard.lock_session FaceDetect.defaults [me]).
Defined.
