(* ===== verification/FaceDetectRun.v ===== *)
(** * The runs of src/face_detect.py

    The loop of src/face_detect.py over a run: [samples] is what its
    turns sensed, and the theorems say that a run that returns has
    announced the decision of the rule [FaceDetect.strict_lock] on
    every sample, in order, has carried out one lock cascade for each
    sample on which the rule locks, and leaves in [last_lock_time] the
    time of the last of them; that the lines of the standard output
    read back give these decisions. *)

From S2P Require Import Prelude Effects Logger LockActuator Vision Gate Camera Enrollment.
From S2P Require Import PresenceLoop Scenarios PresenceTurn PresenceRun FaceDetectLoop.

(** ** The decisions of a trace *)

(** The lines by which a turn of src/face_detect.py announces its
    decision, lines 118, 130 and 133. *)
Definition strict_decisions : list Msg := [MNotExactlyOne; MAuthorizedOnly; MUnknownFace].

Definition strict_decision (m : Msg) : option Msg :=
  match m with
  | MNotExactlyOne | MAuthorizedOnly | MUnknownFace => Some m
  | _ => None
  end.

Definition strict_decided (ev : Event) : option Msg :=
  match ev with
  | EvLog m => strict_decision m
  | _ => None
  end.

(** The decisions a trace announces, in order. *)
Definition strict_verdicts (t : trace) : list Msg := omap strict_decided t.

(** The decisions the lines of a log announce, in order. *)
Definition read_strict_log (lines : list string) : list Msg :=
  omap (read_line_among strict_decisions) lines.

(** [last_lock_time] after the samples [ss]: the time of the last one
    on which the rule locks. *)
Definition strict_last (last : option Time) (ss : list Sample) : option Time :=
  foldl (fun last s => if FaceDetect.strict_lock s then Some (at_time s) else last) last ss.

Lemma strict_verdicts_app t t' :
  strict_verdicts (t ++ t') = strict_verdicts t ++ strict_verdicts t'.
Proof. apply omap_app. Qed.

Lemma strict_verdicts_none t :
  Forall (fun ev => strict_decided ev = None) t -> strict_verdicts t = [].
Proof.
  induction 1 as [|ev t Hev _ IH]; [done|]. unfold strict_verdicts in *. simpl. by rewrite Hev.
Qed.

Lemma strict_verdicts_logged t : strict_verdicts t = omap strict_decision (logged t).
Proof.
  unfold strict_verdicts, logged. induction t as [|ev t IH]; [done|].
  destruct ev as [m| | | | | | | | | | | | |]; cbn [omap list_omap strict_decided];
    by rewrite IH.
Qed.

Lemma strict_decision_verdict_line s :
  strict_decision (FaceDetect.verdict_line s) = Some (FaceDetect.verdict_line s).
Proof. unfold FaceDetect.verdict_line. by repeat case_match. Qed.

(** The text of a message announces the decision the message is. *)
Lemma read_strict_render str m :
  read_among strict_decisions (render str m) = strict_decision m.
Proof. destruct m; try done; by apply read_among_app. Qed.

Lemma read_strict_log_stdout str clock t :
  (forall k, wf_datetime (clock k)) -> read_strict_log (stdout str clock t) = strict_verdicts t.
Proof.
  intros Hclock. unfold read_strict_log.
  by rewrite (read_among_stdout str _ strict_decision), strict_verdicts_logged
    by (done || apply read_strict_render).
Qed.

Section Run.
Context `{Vision}.
Context (resize : Image -> Image).
Context (lock_session : (Cmd -> outcome unit) -> Prog bool) `{!LockActuator lock_session}.
Context (cfg : FaceDetect.Params) (known : list Encoding).
Implicit Types (st : option Time) (o : Obs) (os : list Obs) (s : Sample).

Local Abbreviation turn := (FaceDetect.turn resize lock_session cfg known).
Local Abbreviation frames := (FaceDetect.frames resize lock_session cfg known).
Local Abbreviation perceive := (FaceDetect.perceive resize cfg known).
Local Abbreviation respond := (FaceDetect.respond lock_session cfg).
Local Abbreviation lock_and_wait := (FaceDetect.lock_and_wait lock_session cfg).

(** What a turn senses on the observation [o]. *)
Definition percept (o : Obs) : option Sample :=
  match result_of (perceive o) with
  | Returns s => s
  | Raises _ => None
  end.

(** What the turns of a run sense. *)
Definition samples (os : list Obs) : list Sample := omap percept os.

Lemma perceive_strict o : strict_verdicts (trace_of (perceive o)) = [].
Proof.
  apply strict_verdicts_none. eapply Forall_impl; [apply perceive_percept|].
  by intros [[]| | | | | | | | | | | | |[]].
Qed.

Lemma lock_and_wait_quiet o :
  Forall (fun ev => strict_decided ev = None) (trace_of (lock_and_wait o)).
Proof.
  unfold FaceDetect.lock_and_wait. apply trace_bind_Forall.
  - eapply Forall_impl; [apply lock_footprint|]. by intros [[]| | | | | | | | | | | | |[]].
  - intros _ _. destruct (cooldown o); by repeat constructor.
Qed.

(** The deciding half announces the decision of the rule. *)
Lemma respond_strict st o r :
  strict_verdicts (trace_of (respond st o r)) = option_list (FaceDetect.verdict_line <$> r).
Proof.
  destruct r as [s|]; unfold FaceDetect.respond.
  - rewrite trace_bind, strict_verdicts_app, trace_log, result_log.
    unfold strict_verdicts at 1. cbn. rewrite strict_decision_verdict_line. f_equal.
    apply strict_verdicts_none. destruct (FaceDetect.strict_lock s); [apply lock_and_wait_quiet|].
    destruct (interval o); by repeat constructor.
  - destruct (interval o); by repeat constructor.
Qed.

Lemma turn_strict st o :
  strict_verdicts (trace_of (turn st o)) = option_list (FaceDetect.verdict_line <$> percept o).
Proof.
  rewrite turn_perceive_respond, trace_bind, strict_verdicts_app, perceive_strict. unfold percept.
  destruct (result_of (perceive o)) as [r|e]; [apply respond_strict | done].
Qed.

Lemma perceive_cascades o : cascades (trace_of (perceive o)) = 0%nat.
Proof. apply cascades_none, not_lock_event_not_done, calm_not_locked, perceive_calm. Qed.

(** A deciding half that returns brought one cascade to its end if the
    rule locks, none otherwise. *)
Lemma respond_cascades st o r st' :
  result_of (respond st o r) = Returns st' ->
  cascades (trace_of (respond st o r)) = count_b FaceDetect.strict_lock (option_list r).
Proof.
  destruct r as [s|]; unfold FaceDetect.respond, FaceDetect.lock_and_wait.
  - rewrite result_bind, result_log, trace_bind, cascades_app, trace_log, result_log.
    rewrite (cascades_none [_; _])
      by (unfold FaceDetect.verdict_line; repeat case_match; by repeat constructor).
    simpl (count_b _ _). destruct (FaceDetect.strict_lock s).
    + rewrite result_bind, trace_bind.
      destruct (result_of (lock_session (run o))) as [b|] eqn:Hb; [|done].
      destruct (lock_ends (run o) b Hb) as (t & ev & -> & Hev & Ht). intros _.
      rewrite trace_bind_mret, !cascades_app, (cascades_none t Ht), trace_sleep.
      unfold cascades. simpl. by rewrite Hev.
    + intros _. by destruct (interval o).
  - intros _. by destruct (interval o).
Qed.

(** One turn that returns. *)
Lemma turn_run st o st' :
  result_of (turn st o) = Returns st' ->
  cascades (trace_of (turn st o)) = count_b FaceDetect.strict_lock (option_list (percept o)) /\
  st' = strict_last st (option_list (percept o)).
Proof.
  rewrite turn_perceive_respond, trace_bind, result_bind, cascades_app, perceive_cascades.
  unfold percept. destruct (result_of (perceive o)) as [r|e] eqn:Hr; [|done].
  intros Hst. split; [by eapply respond_cascades|].
  destruct r as [s|].
  - rewrite respond_result in Hst. apply perceive_sample in Hr as [_ Ht].
    cbn. rewrite Ht. destruct (FaceDetect.strict_lock s).
    + destruct (result_of (lock_session _)); [|done]. destruct (cooldown o); congruence.
    + destruct (interval o); congruence.
  - unfold FaceDetect.respond in Hst. rewrite !result_bind, result_log, result_sleep in Hst.
    destruct (interval o); cbn in *; congruence.
Qed.

(** The loop of src/face_detect.py implements its rule: a run that
    returns has announced, in order, the decision of the rule on every
    sample its turns sensed, has carried out one lock cascade for each
    sample on which the rule locks, that is unless exactly one face
    was seen and it is authorized, and leaves in [last_lock_time] the
    time of the last of them. *)
Theorem frames_simulate_rules os st st' :
  result_of (frames st os) = Returns st' ->
  strict_verdicts (trace_of (frames st os)) = FaceDetect.verdict_line <$> samples os /\
  cascades (trace_of (frames st os)) = count_b FaceDetect.strict_lock (samples os) /\
  st' = strict_last st (samples os).
Proof.
  revert st. induction os as [|o os IH]; intros st; [by intros [= <-]|].
  cbn [FaceDetect.frames]. intros (st1 & H1 & H2)%bind_returns_inv.
  rewrite trace_bind, H1, strict_verdicts_app, cascades_app, turn_strict.
  destruct (turn_run _ _ _ H1) as [-> ->]. destruct (IH _ H2) as (-> & -> & ->).
  unfold samples. cbn [omap list_omap]. destruct (percept o) as [s|]; [|done].
  split_and!; [done| |done]. simpl. destruct (FaceDetect.strict_lock s); lia.
Qed.
End Run.

(** ** [main] *)

Section Main.
Context `{Vision}.
Context (resize : Image -> Image).
Context (lock_session : (Cmd -> outcome unit) -> Prog bool) `{!LockActuator lock_session}.
Context (cfg : FaceDetect.Params).
Context (str : exn -> string) (clock : nat -> DateTime).
Implicit Types (fs : Files) (opened : Z -> bool) (os : list Obs).

Local Abbreviation main := (FaceDetect.main resize lock_session cfg).

(** The startup announces no decision and locks nothing. *)
Lemma starting_quiet fs opened :
  Forall (fun ev => strict_decided ev = None /\ lock_done ev = false)
    (trace_of (FaceDetect.starting cfg fs opened)).
Proof.
  unfold FaceDetect.starting. destruct (isdir _ _); cbn [negb]; [|by repeat constructor].
  apply trace_bind_Forall.
  - eapply Forall_impl; [apply (for_files_footprint fs _)|].
    by intros [[]| | | | | | | | | | | | |[]].
  - intros known _. case_bool_decide; [by repeat constructor|].
    destruct (opened _); by repeat constructor.
Qed.

(** A run of [main] that passes the startup and completes its turns:
    the startup, the turns and the release. *)
Lemma face_detect_main_ready fs opened os known st' :
  result_of (FaceDetect.starting cfg fs opened) = Returns known ->
  result_of (FaceDetect.frames resize lock_session cfg known None os) = Returns st' ->
  main fs opened os
  = (trace_of (FaceDetect.starting cfg fs opened)
       ++ trace_of (FaceDetect.frames resize lock_session cfg known None os)
       ++ [EvRelease (FaceDetect.VIDEO_DEVICE cfg)],
     Returns tt).
Proof.
  intros Hs Hr. rewrite (face_detect_main_starting resize lock_session).
  apply injective_projections; cbn [fst snd].
  - change (fst ?m) with (trace_of m).
    by rewrite trace_bind, Hs, (guarded_trace resize lock_session), Hr.
  - change (snd ?m) with (result_of m).
    by rewrite result_bind, Hs, (guarded_result resize lock_session), Hr.
Qed.

(** C29. src/face_detect.py implements its rule, and its log tells so: in
    a run of [main] that passes the startup and whose turns all
    complete, the lines of the standard output read back, whatever the
    clock of each line and the texts of the exceptions, give the
    decision of the rule on every sample the turns sensed, in order;
    the number of lock cascades carried out is the number of samples
    on which the rule locks, that is of those that are not one
    authorized face; and [main] returns when the observations end. *)
Theorem face_detect_main_implements_rule fs opened os known st' :
  (forall k, wf_datetime (clock k)) ->
  result_of (FaceDetect.starting cfg fs opened) = Returns known ->
  result_of (FaceDetect.frames resize lock_session cfg known None os) = Returns st' ->
  result_of (main fs opened os) = Returns tt /\
  read_strict_log (stdout str clock (trace_of (main fs opened os)))
  = FaceDetect.verdict_line <$> samples resize cfg known os /\
  cascades (trace_of (main fs opened os))
  = count_b FaceDetect.strict_lock (samples resize cfg known os).
Proof.
  intros Hclock Hs Hr. rewrite (face_detect_main_ready fs opened os known st') by done.
  destruct (frames_simulate_rules resize lock_session cfg known os None st' Hr) as (Hv & Hc & _).
  pose proof (starting_quiet fs opened) as Hq. apply Forall_and in Hq as [Hqv Hqc].
  split; [done|]. cbn [trace_of fst].
  rewrite read_strict_log_stdout, !strict_verdicts_app, !cascades_app by done.
  rewrite (strict_verdicts_none _ Hqv), (cascades_none _ Hqc), Hv, Hc.
  cbn. by rewrite app_nil_r, Nat.add_0_r.
Qed.
End Main.

(** ** Witness and examples *)

(** The configuration of src/face_detect.py with the album as its
    enrollment directory. *)
Definition album_params : FaceDetect.Params := {|
  FaceDetect.ENROLL_DIR := "enroll";
  FaceDetect.ALLOWED_TOLERANCE := FaceDetect.ALLOWED_TOLERANCE FaceDetect.defaults;
  FaceDetect.CHECK_INTERVAL := FaceDetect.CHECK_INTERVAL FaceDetect.defaults;
  FaceDetect.LOCK_COOLDOWN := FaceDetect.LOCK_COOLDOWN FaceDetect.defaults;
  FaceDetect.VIDEO_DEVICE := FaceDetect.VIDEO_DEVICE FaceDetect.defaults
|}.

(** A quiet turn at time [t] on which the camera shows an empty
    room. *)
Definition vacant (t : Time) : Obs := {|
  bt := bt (seen t);
  capture := {| retrieve := Returns None; read := Returns (Some []) |};
  now := t;
  run := run (seen t);
  cooldown := Returns tt;
  interval := Returns tt
|}.

Lemma face_detect_main_implements_rule_witness :
  let V := album_vision in
  let os := [seen 1000000; vacant 3000000] in
  let m := FaceDetect.main (H := V) halve PresenceGuard.lock_session album_params album
             (fun _ => true) os in
  result_of m = Returns tt /\
  read_strict_log (stdout (fun _ => "error") (fun _ => noon) (trace_of m))
  = FaceDetect.verdict_line <$> samples (H := V) halve album_params [[1]; [2]]%Q os /\
  cascades (trace_of m)
  = count_b FaceDetect.strict_lock (samples (H := V) halve album_params [[1]; [2]]%Q os).
Proof.
  intros V os m.
  apply (face_detect_main_implements_rule (H := V) halve PresenceGuard.lock_session
           album_params (fun _ => "error") (fun _ => noon) album (fun _ => true) os
           [[1]; [2]]%Q (Some 3000000)).
  - intros _. by vm_compute.
  - vm_compute. reflexivity.
  - vm_compute. reflexivity.
Defined.

(** A frame with the enrolled face, then an empty room: the log read
    back says all good, then locking, and one cascade was carried
    out. *)
Example face_detect_vacant_run :
  let m := FaceDetect.main (H := album_vision) halve PresenceGuard.lock_session album_params
             album (fun _ => true) [seen 1000000; vacant 3000000] in
  read_strict_log (stdout (fun _ => "error") (fun _ => noon) (trace_of m))
  = [MAuthorizedOnly; MNotExactlyOne] /\
  cascades (trace_of m) = 1%nat /\
  strict_last None (samples (H := album_vision) halve album_params [[1]; [2]]%Q
                      [seen 1000000; vacant 3000000]) = Some 3000000.
Proof. by vm_compute. Qed.

Lemma frames_simulate_rules_witness :
  let V := album_vision in
  let os := [seen 1000000; vacant 3000000] in
  let t := trace_of (FaceDetect.frames (H := V) halve PresenceGuard.lock_session album_params
                       [[1]; [2]]%Q None os) in
  strict_verdicts t = FaceDetect.verdict_line <$> samples (H := V) halve album_params
                                                     [[1]; [2]]%Q os /\
  cascades t = count_b FaceDetect.strict_lock (samples (H := V) halve album_params
                                                  [[1]; [2]]%Q os) /\
  Some 3000000 = strict_last None (samples (H := V) halve album_params [[1]; [2]]%Q os).
Proof.
  intros V os t.
  apply (frames_simulate_rules (H := V) halve PresenceGuard.lock_session album_params
           [[1]; [2]]%Q os None (Some 3000000)).
  vm_compute. reflexivity.
Defined.
