(* ===== verification/Versions.v ===== *)
(** * The two versions side by side

    src/face_detect.py is the first version of the guard and
    src/presence_guard.py the second.  The two look at different
    images (the half-size frame in RGB, the frame as the camera gives
    it), so what the detector answers to one says nothing of what it
    answers to the other: the versions are compared on the samples
    they sense.  On the same samples, with the companion present, the
    second version locks only where the first locks; it differs on the
    turns of the grace period alone, where nobody is seen and the
    absence timeout has not passed ([spec_lock_grace]), and so the two
    agree on every run in which somebody is in every frame.
    [guard_locks_where_strict_locks] states it of the runs of the two
    loops. *)

From S2P Require Import Prelude Effects Logger LockActuator Vision Gate Camera Enrollment.
From S2P Require Import PresenceLoop Scenarios PresenceTurn PresenceRun PresenceTime.
From S2P Require Import FaceDetectLoop FaceDetectRun.

(** ** The rules *)

(** [grace cfg last s]: nobody is seen and the absence timeout has
    not passed, rule 3 below its threshold. *)
Definition grace (cfg : Config) (last : Time) (s : Sample) : bool :=
  bool_decide (face_count s = 0%nat) && negb (overdue cfg last s).

Section Rules.
Context (cfg : Config).
Implicit Types (last : Time) (s : Sample) (ss : list Sample).

(** The rules of the second version are the rule of the first but for
    the grace period. *)
Lemma spec_lock_grace last s :
  companion s = true ->
  spec_lock cfg last s = FaceDetect.strict_lock s && negb (grace cfg last s).
Proof.
  intros Hc. unfold spec_lock, FaceDetect.strict_lock, grace, overdue, phase. rewrite Hc.
  destruct (face_count s) as [|[|n]], (authorized s); cbn; try done;
    by destruct (_ <=? _)%Q.
Qed.

(** On a run the second version locks at most as often as the first. *)
Lemma spec_locks_le last ss :
  Forall (fun s => companion s = true) ss ->
  (count_b id (spec_locks cfg last ss) <= count_b FaceDetect.strict_lock ss)%nat.
Proof.
  intros Hss. revert last. induction Hss as [|s ss Hs _ IH]; intros last; [done|].
  cbn [spec_locks count_b]. specialize (IH (spec_seen last s)).
  rewrite (spec_lock_grace _ _ Hs). unfold id at 1.
  destruct (FaceDetect.strict_lock s), (grace cfg last s); cbn; lia.
Qed.

(** With somebody in every frame the two versions decide alike. *)
Lemma spec_locks_present last ss :
  Forall (fun s => companion s = true /\ face_count s <> 0%nat) ss ->
  spec_locks cfg last ss = FaceDetect.strict_lock <$> ss.
Proof.
  intros Hss. revert last. induction Hss as [|s ss [Hc Hn] _ IH]; intros last; [done|].
  cbn [spec_locks fmap list_fmap]. rewrite IH, (spec_lock_grace _ _ Hc). f_equal.
  unfold grace. by rewrite bool_decide_eq_false_2, andb_true_r.
Qed.
End Rules.

(** ** The loops *)

Section Loops.
Context `{Vision}.
Context (resize : Image -> Image).
Context (lock_session : (Cmd -> outcome unit) -> Prog bool) `{!LockActuator lock_session}.
Context (cfg : Config) (params : FaceDetect.Params) (cap : Z).
Implicit Types (known : list Encoding) (os : list Obs) (ss : list Sample).

(** On runs that sense the same samples, the companion present, the
    loop of src/presence_guard.py carries out at most as many lock
    cascades as the loop of src/face_detect.py, and as many when
    somebody is in every frame. *)
Theorem guard_locks_where_strict_locks known known' st os st' os' last ss :
  senses lock_session cfg cap known st os ss st' ->
  result_of (FaceDetect.frames resize lock_session params known' None os') = Returns last ->
  samples resize params known' os' = ss ->
  Forall (fun s => companion s = true) ss ->
  let guard := cascades (trace_of (loop lock_session cfg cap known st os)) in
  let strict :=
    cascades (trace_of (FaceDetect.frames resize lock_session params known' None os')) in
  (guard <= strict)%nat /\
  (Forall (fun s => face_count s <> 0%nat) ss -> guard = strict).
Proof.
  intros Hrun Hframes Hss Hc guard strict. unfold guard, strict.
  rewrite (senses_cascades lock_session cfg cap known _ _ _ _ Hrun).
  destruct (frames_simulate_rules resize lock_session params known' os' None last Hframes)
    as (_ & -> & _).
  rewrite Hss. split; [by apply spec_locks_le|]. intros Hn.
  rewrite spec_locks_present by (apply Forall_and; by split). clear.
  induction ss as [|s ss IH]; [done|]. cbn. rewrite IH. by destruct (FaceDetect.strict_lock s).
Qed.
End Loops.

(** ** Witness *)

(** An empty room one second after the start: the second version
    waits, the first locks. *)
Lemma guard_locks_where_strict_locks_witness :
  let V := stub_vision [] [] [] in
  let guard := cascades (trace_of (loop (H := V) PresenceGuard.lock_session default_config 0
                                     [me] st0 [calm 1000000])) in
  let strict := cascades (trace_of (FaceDetect.frames (H := V) id PresenceGuard.lock_session
                                      FaceDetect.defaults [me] None [seen 1000000])) in
  (guard <= strict)%nat /\
  (Forall (fun s => face_count s <> 0%nat)
     [{| companion := true; face_count := 0; authorized := false; at_time := 1000000 |}] ->
   guard = strict).
Proof.
  intros V.
  apply (guard_locks_where_strict_locks (H := V) id PresenceGuard.lock_session default_config
           FaceDetect.defaults 0 [me] [me] st0 [calm 1000000] st0 [seen 1000000]
           (Some 1000000)).
  - eapply senses_sample; [vm_compute; reflexivity.. | apply senses_nil].
  - vm_compute. reflexivity.
  - vm_compute. reflexivity.
  - by repeat constructor.
Defined.

Example empty_room_versions :
  cascades (trace_of (loop (H := stub_vision [] [] []) PresenceGuard.lock_session
                        default_config 0 [me] st0 [calm 1000000])) = 0%nat /\
  cascades (trace_of (FaceDetect.frames (H := stub_vision [] [] []) id
                        PresenceGuard.lock_session FaceDetect.defaults [me] None
                        [seen 1000000])) = 1%nat.
Proof. by vm_compute. Qed.
