(* ===== verification/FaceDetectTime.v ===== *)
(** * Time and the endless loop of src/face_detect.py

    The loop of src/face_detect.py, lines 99-139, is a loop around
    [FaceDetect.turn].  This file shows its turn is a [Turn]: it keeps
    the cooldown after every lock cascade, blocks for at most
    [frame_budget], four lock commands and the cooldown or else the poll
    interval, and leaves the capture as it is.  The theorems on the runs
    of a [Turn] and on its endless tree then hold of [FaceDetect.frames]
    and of [frames_tree], [while True:] of line 99.
    [guarded_frames_tree] is the [try] statement of lines 98-146 around
    that tree: it runs as [FaceDetect.guarded] and releases the capture
    when it ends and not before. *)

From Stdlib Require Import Lqa.
From ITree Require Import ITree.
From S2P Require Import Prelude Effects LockActuator Vision Gate Camera Enrollment.
From S2P Require Import PresenceLoop Scenarios PresenceTurn PresenceRun PresenceTime Turns.
From S2P Require Import GuardTree TreeRuns GuardedTree FaceDetectLoop.

(** The longest a turn blocks: a turn sleeps once, the cooldown after
    the four lock commands or the poll interval. *)
Definition frame_budget (cfg : FaceDetect.Params) : Q :=
  Qmax (20 + FaceDetect.LOCK_COOLDOWN cfg) (FaceDetect.CHECK_INTERVAL cfg).

(** The durations of the configuration are not negative. *)
Class FrameDurations (cfg : FaceDetect.Params) : Prop := {
  frame_cooldown_nonneg : (0 <= FaceDetect.LOCK_COOLDOWN cfg)%Q;
  frame_interval_nonneg : (0 <= FaceDetect.CHECK_INTERVAL cfg)%Q
}.

#[export] Instance defaults_durations : FrameDurations FaceDetect.defaults.
Proof. by split. Qed.

Section Tree.
Context `{Vision}.
Context (resize : Image -> Image).
Context (lock_session : (Cmd -> outcome unit) -> Prog bool).
Context (cfg : FaceDetect.Params) (known : list Encoding).

(** [while True:], line 99. *)
Definition frames_tree : option Time -> itree guardE void :=
  loop_tree (FaceDetect.turn resize lock_session cfg known).

(** Lines 96-146: the endless loop inside its [try] statement. *)
Definition guarded_frames_tree : itree guardE unit :=
  let last_lock_time := None in
  guarded_by (FaceDetect.VIDEO_DEVICE cfg) (frames_tree last_lock_time).

End Tree.

Section Turn.
Context `{Vision}.
Context (resize : Image -> Image).
Context (lock_session : (Cmd -> outcome unit) -> Prog bool) `{!LockActuator lock_session}.
Context (cfg : FaceDetect.Params) `{!FrameDurations cfg} (known : list Encoding).
Implicit Types (st : option Time) (o : Obs) (os : list Obs).

Local Abbreviation turn := (FaceDetect.turn resize lock_session cfg known).
Local Abbreviation frames := (FaceDetect.frames resize lock_session cfg known).
Local Abbreviation cooldown_of := (FaceDetect.LOCK_COOLDOWN cfg).
Local Abbreviation interval_of := (FaceDetect.CHECK_INTERVAL cfg).

(** What a turn may do after sensing: the events of the lock actuator,
    one of the two sleeps, a line of the log. *)
Definition respond_event (ev : Event) : Prop :=
  lock_event ev = true \/ ev = EvSleep cooldown_of \/ ev = EvSleep interval_of \/
  exists m, (ev = EvLog m \/ ev = EvAppend m) /\ lock_event ev = false.

Lemma respond_footprint st o (r : option Sample) :
  Forall respond_event (trace_of (FaceDetect.respond lock_session cfg st o r)).
Proof.
  assert (forall m, Forall (fun ev => lock_event ev = false) (logs m) ->
                    Forall respond_event (trace_of (log m))) as Hlog.
  { intros m Hm. inversion Hm as [|? ? ? Ha]; subst. inversion Ha; subst.
    apply Forall_log; do 3 right; eauto. }
  assert (forall a, Forall respond_event (trace_of (sleep interval_of a ≫= fun _ => mret st)))
    as Hnap.
  { intros a. rewrite trace_bind_mret, trace_sleep. constructor; [|constructor].
    right. by right; left. }
  destruct r as [s|]; unfold FaceDetect.respond.
  - apply trace_bind_Forall.
    { apply Hlog, verdict_line_not_lock. }
    intros _ _. destruct (FaceDetect.strict_lock s); [|apply Hnap].
    unfold FaceDetect.lock_and_wait. apply trace_bind_Forall.
    + eapply Forall_impl; [apply lock_footprint|]. intros ev Hev. by left.
    + intros _ _. rewrite trace_bind_mret, trace_sleep. constructor; [|constructor].
      right. by left.
  - apply trace_bind_Forall; [|intros _ _; apply Hnap].
    apply Hlog. by repeat constructor.
Qed.

Lemma lock_and_wait_blocking o :
  (blocking (trace_of (FaceDetect.lock_and_wait lock_session cfg o)) <= 20 + cooldown_of)%Q.
Proof.
  unfold FaceDetect.lock_and_wait. rewrite trace_bind, blocking_app, trace_bind_mret.
  pose proof (lock_budget (run o)). pose proof frame_cooldown_nonneg.
  destruct (result_of _); cbn [trace_of sleep call fst blocking foldr budget]; lra.
Qed.

Lemma respond_blocking st o (r : option Sample) :
  (blocking (trace_of (FaceDetect.respond lock_session cfg st o r)) <= frame_budget cfg)%Q.
Proof.
  pose proof (Q.le_max_l (20 + cooldown_of) interval_of) as Hl.
  pose proof (Q.le_max_r (20 + cooldown_of) interval_of) as Hr.
  fold (frame_budget cfg) in Hl, Hr.
  assert (blocking (trace_of (sleep interval_of (interval o) ≫= fun _ => mret st))
          <= frame_budget cfg)%Q as Hnap.
  { rewrite trace_bind_mret, trace_sleep. cbn. lra. }
  destruct r as [s|]; unfold FaceDetect.respond;
    rewrite trace_bind, trace_log, result_log, blocking_app;
    change (blocking [EvLog ?m; EvAppend ?m]) with (0 + (0 + 0))%Q; rewrite !Qplus_0_l; [|done].
  destruct (FaceDetect.strict_lock s); [|done].
  pose proof (lock_and_wait_blocking o). lra.
Qed.

Lemma turn_blocking st o : (blocking (trace_of (turn st o)) <= frame_budget cfg)%Q.
Proof.
  rewrite (turn_perceive_respond resize lock_session), trace_bind, blocking_app.
  rewrite (blocking_quiet (trace_of (FaceDetect.perceive _ _ _ _))), Qplus_0_l.
  - destruct (result_of _) as [r|e]; [apply respond_blocking|].
    pose proof (Q.le_max_r (20 + cooldown_of) interval_of). pose proof frame_interval_nonneg.
    unfold frame_budget. cbn. lra.
  - eapply Forall_impl; [apply perceive_percept | apply percept_budget].
Qed.

Lemma turn_naps st o : Forall (fun ev => 0 <= nap ev)%Q (trace_of (turn st o)).
Proof.
  pose proof frame_cooldown_nonneg. pose proof frame_interval_nonneg.
  rewrite (turn_perceive_respond resize lock_session). apply trace_bind_Forall.
  - eapply Forall_impl; [apply perceive_percept|]. by intros [].
  - intros r _. eapply Forall_impl; [apply respond_footprint|].
    intros ev [Hev|[->|[->|(m & [->| ->] & _)]]]; try done. by destruct ev.
Qed.

#[export] Instance frame_turn : Turn cooldown_of (frame_budget cfg) turn.
Proof.
  pose proof frame_cooldown_nonneg as Hc. pose proof frame_interval_nonneg as Hi.
  split; [done| |].
  - pose proof (Q.le_max_r (20 + cooldown_of) interval_of). unfold frame_budget. lra.
  - intros st o. split_and!.
    + apply (turn_settled resize lock_session).
    + apply turn_blocking.
    + apply turn_naps.
    + apply (turn_no_lifecycle resize lock_session).
Qed.

(** The loop of src/face_detect.py keeps what a loop of the guard
    has to keep: with durations that are not negative, on every run and
    whatever the environment answers, each lock cascade is followed at
    once by the cooldown, a run of [n] turns blocks on commands and
    sleeps for at most [n] times [frame_budget], the cascades times the
    cooldown are at most the time the run slept, and the loop neither
    opens nor releases the capture. *)
Theorem frames_kept st os :
  let t := trace_of (frames st os) in
  settled cooldown_of t /\
  (blocking t <= inject_Z (Z.of_nat (length os)) * frame_budget cfg)%Q /\
  (inject_Z (Z.of_nat (cascades t)) * cooldown_of <= slept t)%Q /\
  Forall (fun ev => is_lifecycle ev = false) t.
Proof. rewrite (frames_for_each resize lock_session). apply (for_each_kept turn). Qed.

(** The run of the endless loop on a list of observations is the run
    of [FaceDetect.frames]. *)
Theorem frames_tree_runs os st fuel :
  (3 * length os + 1 <= fuel)%nat ->
  run_tree fuel (frames_tree resize lock_session cfg known st) os
  = Some (trace_of (frames st os), ending (result_of (frames st os))).
Proof. intros Hfuel. rewrite (frames_for_each resize lock_session). by apply loop_tree_runs. Qed.

(** Every turn of the endless loop keeps what a turn keeps. *)
Theorem frames_tree_every_turn st :
  always_performs (kept cooldown_of (frame_budget cfg))
    (frames_tree resize lock_session cfg known st).
Proof. apply loop_tree_kept, frame_turn. Qed.

Lemma guarded_guarded_run os :
  FaceDetect.guarded resize lock_session cfg known os
  = guarded_run turn (FaceDetect.VIDEO_DEVICE cfg) None os.
Proof. unfold FaceDetect.guarded, guarded_run. by rewrite (frames_for_each resize lock_session). Qed.

(** The guard of src/face_detect.py as a tree: run on the
    observations [os] with twelve steps of fuel for each observation and
    fourteen more, the tree of lines 96-146 either has performed the
    events of the turns and waits for the next frame, when no turn
    raises, or ends with the events and the outcome of
    [FaceDetect.guarded], leaving the observations after the turn that
    raised. *)
Theorem guarded_frames_tree_runs os fuel :
  (12 * length os + 14 <= fuel)%nat ->
  exec fuel (guarded_frames_tree resize lock_session cfg known) os
  = Some match result_of (frames None os) with
         | Returns _ => (trace_of (frames None os), [], None)
         | Raises _ =>
             (trace_of (FaceDetect.guarded resize lock_session cfg known os),
              remaining turn None os,
              Some (result_of (FaceDetect.guarded resize lock_session cfg known os)))
         end.
Proof.
  intros Hfuel. rewrite guarded_guarded_run, (frames_for_each resize lock_session).
  by apply guarded_by_exec.
Qed.

(** The guard of src/face_detect.py ends only on an exception and
    holds the capture until then: whatever the fuel, a run of the tree
    of the guard that has come to its end has seen a turn raise and has
    released the capture once, as its last event, and a run that waits
    for a frame has seen every turn return and has not released it. *)
Theorem guarded_frames_tree_release os fuel tr rest x :
  exec fuel (guarded_frames_tree resize lock_session cfg known) os = Some (tr, rest, x) ->
  match x with
  | Some _ =>
      (exists e, result_of (frames None os) = Raises e) /\
      exists t, tr = t ++ [EvRelease (FaceDetect.VIDEO_DEVICE cfg)] /\
                Forall (fun ev => is_release ev = false) t
  | None =>
      (exists st', result_of (frames None os) = Returns st') /\
      Forall (fun ev => is_release ev = false) tr
  end.
Proof.
  rewrite (frames_for_each resize lock_session). apply guarded_by_release. intros st o.
  eapply Forall_impl; [apply (turn_no_lifecycle resize lock_session)|]. by intros [].
Qed.
End Turn.

(** ** Examples *)

(** The budget of the default configuration: 25 seconds. *)
Example frame_budget_defaults : (frame_budget FaceDetect.defaults == 25)%Q.
Proof. by vm_compute. Qed.

Lemma frames_kept_witness :
  let V := stub_vision [] [] [] in
  let t := trace_of (FaceDetect.frames (H := V) id PresenceGuard.lock_session
                       FaceDetect.defaults [me] None [seen 1000000; seen 7000000]) in
  settled (FaceDetect.LOCK_COOLDOWN FaceDetect.defaults) t /\
  (blocking t <= inject_Z (Z.of_nat 2) * frame_budget FaceDetect.defaults)%Q /\
  (inject_Z (Z.of_nat (cascades t)) * FaceDetect.LOCK_COOLDOWN FaceDetect.defaults
   <= slept t)%Q /\
  Forall (fun ev => is_lifecycle ev = false) t.
Proof.
  intros V.
  apply (frames_kept (H := V) id PresenceGuard.lock_session FaceDetect.defaults [me] None
           [seen 1000000; seen 7000000]).
Defined.

Lemma guarded_frames_tree_runs_witness :
  let V := stub_vision [face] [] [near_me] in
  exec 50 (guarded_frames_tree (H := V) id PresenceGuard.lock_session FaceDetect.defaults [me])
    interrupted_run
  = Some match result_of (FaceDetect.frames (H := V) id PresenceGuard.lock_session
                            FaceDetect.defaults [me] None interrupted_run) with
         | Returns _ =>
             (trace_of (FaceDetect.frames (H := V) id PresenceGuard.lock_session
                          FaceDetect.defaults [me] None interrupted_run), [], None)
         | Raises _ =>
             (trace_of (FaceDetect.guarded (H := V) id PresenceGuard.lock_session
                          FaceDetect.defaults [me] interrupted_run),
              remaining (FaceDetect.turn (H := V) id PresenceGuard.lock_session
                           FaceDetect.defaults [me]) None interrupted_run,
              Some (result_of (FaceDetect.guarded (H := V) id PresenceGuard.lock_session
                                 FaceDetect.defaults [me] interrupted_run)))
         end.
Proof.
  intros V.
  apply (guarded_frames_tree_runs (H := V) id PresenceGuard.lock_session FaceDetect.defaults
           [me] interrupted_run 50).
  simpl. lia.
Defined.

Lemma guarded_frames_tree_release_witness :
  (exists e, result_of (FaceDetect.frames (H := stub_vision [face] [] [near_me]) id
                          PresenceGuard.lock_session FaceDetect.defaults [me] None
                          interrupted_run) = Raises e) /\
  exists t,
    [EvRead 0; EvLog MReadFailed; EvAppend MReadFailed; EvSleep 2;
     EvRead 0; EvLog MReadFailed; EvAppend MReadFailed; EvSleep 2;
     EvLog MStopped; EvAppend MStopped; EvRelease 0]
    = t ++ [EvRelease (FaceDetect.VIDEO_DEVICE FaceDetect.defaults)] /\
    Forall (fun ev => is_release ev = false) t.
Proof.
  apply (guarded_frames_tree_release (H := stub_vision [face] [] [near_me]) id
           PresenceGuard.lock_session FaceDetect.defaults [me] interrupted_run 40 _
           [calm 3000000] (Some (Returns tt))).
  vm_compute. reflexivity.
Defined.

(** Two frames that cannot be read and an interrupt of the second
    pause: "stopped by user", the release, and the frame after the
    interrupt is not read. *)
Example guarded_frames_tree_interrupted :
  exec 40 (guarded_frames_tree (H := stub_vision [face] [] [near_me]) id
             PresenceGuard.lock_session FaceDetect.defaults [me]) interrupted_run
  = Some ([EvRead 0; EvLog MReadFailed; EvAppend MReadFailed; EvSleep 2;
           EvRead 0; EvLog MReadFailed; EvAppend MReadFailed; EvSleep 2;
           EvLog MStopped; EvAppend MStopped; EvRelease 0],
          [calm 3000000], Some (Returns tt)).
Proof. vm_compute. reflexivity. Qed.
