(* ===== verification/MainTree.v ===== *)
(** * The scripts as interaction trees

    [main] of src/presence_guard.py, lines 129-224, and [main] of
    src/face_detect.py, lines 77-146, as interaction trees: the startup,
    which ends, followed by the guard around the loop that does not.
    [main_tree_runs] and [face_detect_main_tree_runs] state their runs
    on a list of observations: a startup that fails ends the tree as it
    ends [main] and reads no observation; after a startup that
    succeeds the tree performs the events of the turns and waits for
    the next frame, and the turn that raises ends it with the events
    and the outcome of [main]. *)

From ITree Require Import ITree Events.Exception.
From S2P Require Import Prelude Effects LockActuator Vision Gate Camera Enrollment.
From S2P Require Import PresenceLoop Scenarios PresenceTurn PresenceRun PresenceTime Turns.
From S2P Require Import PresenceMain GuardTree TreeRuns GuardedTree.
From S2P Require Import FaceDetectLoop FaceDetectTime.
Import PresenceMain.PresenceGuard.

(** ** src/presence_guard.py *)

Section Presence.
Context `{Vision}.
Context (lock_session : (Cmd -> outcome unit) -> Prog bool) `{!LockActuator lock_session}.
Context (cfg : Config).
Implicit Types (w : World).

(** [main()], lines 129-224: the clock of line 148 is read from the
    world. *)
Definition main_tree w : itree guardE unit :=
  ITree.bind (embed (PresenceGuard.starting cfg w)) (fun p =>
  guarded_tree lock_session cfg p.2 p.1 (start w)).

Local Abbreviation main := (PresenceGuard.main lock_session cfg).

(** The run of the tree of [main], in the terms of its startup. *)
Lemma main_tree_exec w fuel :
  (12 * length (turns w) + 18 <= fuel)%nat ->
  exec fuel (main_tree w) (turns w)
  = Some match PresenceGuard.starting cfg w with
         | (t, Returns (known, cam_idx)) =>
             let st := {| last_seen_someone := start w; frame_i := 0 |} in
             match result_of (loop lock_session cfg cam_idx known st (turns w)) with
             | Returns _ =>
                 (t ++ logs MStarting
                    ++ trace_of (loop lock_session cfg cam_idx known st (turns w)),
                  [], None)
             | Raises _ =>
                 (trace_of (main w),
                  remaining (iteration lock_session cfg cam_idx known) st (turns w),
                  Some (result_of (main w)))
             end
         | (t, Raises _) => (trace_of (main w), turns w, Some (result_of (main w)))
         end.
Proof.
  intros Hfuel. eapply exec_mono; [|exact Hfuel].
  replace (12 * length (turns w) + 18)%nat with (2 + (12 * length (turns w) + 16))%nat by lia.
  apply exec_bind. rewrite (embed_runs (PresenceGuard.starting cfg w)).
  rewrite (main_starting lock_session).
  destruct (PresenceGuard.starting cfg w) as [t [[known cam_idx]|e]]; [|done].
  cbn [result_of snd trace_of fst continue].
  rewrite guarded_tree_exec by done.
  rewrite bind_returns, trace_prepend, result_prepend, guarded_loop_guarded_run.
  rewrite loop_for_each, trace_bind, result_bind.
  by destruct (result_of (for_each _ _ _)).
Qed.

(** The whole program as a tree: run on the observations of the
    world with twelve steps of fuel for each observation and eighteen
    more, the tree of [main], lines 129-224 of src/presence_guard.py,
    ends as [main] ends and reads no observation when the startup
    fails; after a startup that succeeds it has performed the events of
    the startup, the two lines of the start and the events of the turns
    and waits for the next frame, when no turn raises, and otherwise
    ends with the events and the outcome of [main], leaving the
    observations after the turn that raised. *)
Theorem main_tree_runs w fuel :
  (12 * length (turns w) + 18 <= fuel)%nat ->
  exec fuel (main_tree w) (turns w)
  = Some match startup cfg w with
         | Ready known cam_idx =>
             let st := {| last_seen_someone := start w; frame_i := 0 |} in
             match result_of (loop lock_session cfg cam_idx known st (turns w)) with
             | Returns _ =>
                 (probing cfg w
                    ++ logs (MOpenedCamera cam_idx (FRAME_WIDTH cfg) (FRAME_HEIGHT cfg))
                    ++ logs MStarting
                    ++ trace_of (loop lock_session cfg cam_idx known st (turns w)),
                  [], None)
             | Raises _ =>
                 (trace_of (main w),
                  remaining (iteration lock_session cfg cam_idx known) st (turns w),
                  Some (result_of (main w)))
             end
         | _ => (trace_of (main w), turns w, Some (result_of (main w)))
         end.
Proof.
  intros Hfuel. rewrite main_tree_exec, starting_cases by done.
  destruct (startup cfg w) as [|e| | |known cam_idx]; try done.
  cbv zeta. by rewrite <- app_assoc.
Qed.

(** Whatever the fuel, a run of the tree of [main] that has come to its
    end is the run of [main]: the events and the outcome are those of
    [main], so that what is proved of [main] holds of the tree that has
    ended. *)
Theorem main_tree_ends w fuel tr rest r :
  exec fuel (main_tree w) (turns w) = Some (tr, rest, Some r) -> main w = (tr, r).
Proof.
  intros Hex. pose proof (main_tree_exec w _ (Nat.le_refl _)) as Hrun.
  pose proof (exec_deterministic _ _ _ _ _ _ Hex Hrun) as Heq. clear Hex Hrun.
  destruct (main w) as [t x].
  destruct (PresenceGuard.starting cfg w) as [t' [[known cam_idx]|e]];
    [|by injection Heq as -> _ ->].
  cbv zeta in Heq. by destruct (result_of (loop _ _ _ _ _ _)); [|injection Heq as -> _ ->].
Qed.
End Presence.

(** ** src/face_detect.py *)

Section FaceDetect.
Context `{Vision}.
Context (resize : Image -> Image).
Context (lock_session : (Cmd -> outcome unit) -> Prog bool) `{!LockActuator lock_session}.
Context (cfg : FaceDetect.Params).
Implicit Types (fs : Files) (opened : Z -> bool) (os : list Obs).

(** [main()], lines 77-146. *)
Definition face_detect_main_tree fs opened : itree guardE unit :=
  ITree.bind (embed (FaceDetect.starting cfg fs opened)) (fun known_encodings =>
  guarded_frames_tree resize lock_session cfg known_encodings).

Local Abbreviation main := (FaceDetect.main resize lock_session cfg).

(** The whole of src/face_detect.py as a tree: run with twelve steps of
    fuel for each observation and sixteen more, the tree of [main] ends
    as [main] ends and reads no observation when the startup fails;
    after a startup that succeeds it has performed the events of the
    startup and of the turns and waits for the next frame, when no turn
    raises, and otherwise ends with the events and the outcome of
    [main], leaving the observations after the turn that raised. *)
Theorem face_detect_main_tree_runs fs opened os fuel :
  (12 * length os + 16 <= fuel)%nat ->
  exec fuel (face_detect_main_tree fs opened) os
  = Some match result_of (FaceDetect.starting cfg fs opened) with
         | Returns known =>
             match result_of (FaceDetect.frames resize lock_session cfg known None os) with
             | Returns _ =>
                 (trace_of (FaceDetect.starting cfg fs opened)
                    ++ trace_of (FaceDetect.frames resize lock_session cfg known None os),
                  [], None)
             | Raises _ =>
                 (trace_of (main fs opened os),
                  remaining (FaceDetect.turn resize lock_session cfg known) None os,
                  Some (result_of (main fs opened os)))
             end
         | Raises _ => (trace_of (main fs opened os), os, Some (result_of (main fs opened os)))
         end.
Proof.
  intros Hfuel. eapply exec_mono; [|exact Hfuel].
  replace (12 * length os + 16)%nat with (2 + (12 * length os + 14))%nat by lia.
  apply exec_bind. rewrite (embed_runs (FaceDetect.starting cfg fs opened)).
  rewrite (face_detect_main_starting resize lock_session).
  destruct (FaceDetect.starting cfg fs opened) as [t [known|e]]; [|done].
  cbn [result_of snd trace_of fst continue].
  rewrite guarded_frames_tree_runs by done.
  rewrite bind_returns, trace_prepend, result_prepend.
  by destruct (result_of (FaceDetect.frames _ _ _ _ _ _)).
Qed.

(** Whatever the fuel, a run of the tree that has come to its end is
    the run of [main]. *)
Theorem face_detect_main_tree_ends fs opened os fuel tr rest r :
  exec fuel (face_detect_main_tree fs opened) os = Some (tr, rest, Some r) ->
  main fs opened os = (tr, r).
Proof.
  intros Hex. pose proof (face_detect_main_tree_runs fs opened os _ (Nat.le_refl _)) as Hrun.
  pose proof (exec_deterministic _ _ _ _ _ _ Hex Hrun) as Heq. clear Hex Hrun.
  destruct (main fs opened os) as [t x].
  destruct (result_of (FaceDetect.starting _ _ _)); [|by injection Heq as -> _ ->].
  by destruct (result_of (FaceDetect.frames _ _ _ _ _ _)); [|injection Heq as -> _ ->].
Qed.
End FaceDetect.

(** ** Witnesses *)

Lemma main_tree_runs_witness :
  let V := album_vision in
  let w := ready_world in
  let st := {| last_seen_someone := 0; frame_i := 0 |} in
  exec 30 (main_tree (H := V) PresenceGuard.lock_session album_config w) (turns w)
  = Some match startup (H := V) album_config w with
         | Ready known cam_idx =>
             match result_of (loop (H := V) PresenceGuard.lock_session album_config
                                cam_idx known st (turns w)) with
             | Returns _ =>
                 (probing (H := V) album_config w
                    ++ logs (MOpenedCamera cam_idx 640 480) ++ logs MStarting
                    ++ trace_of (loop (H := V) PresenceGuard.lock_session album_config
                                   cam_idx known st (turns w)),
                  [], None)
             | Raises _ =>
                 (trace_of (main (H := V) PresenceGuard.lock_session album_config w),
                  remaining (iteration (H := V) PresenceGuard.lock_session album_config
                               cam_idx known) st (turns w),
                  Some (result_of (main (H := V) PresenceGuard.lock_session album_config w)))
             end
         | _ => (trace_of (main (H := V) PresenceGuard.lock_session album_config w), turns w,
                 Some (result_of (main (H := V) PresenceGuard.lock_session album_config w)))
         end.
Proof.
  intros V w st.
  apply (main_tree_runs (H := V) PresenceGuard.lock_session album_config w 30).
  simpl. lia.
Defined.

(** ** Examples *)

(** On a machine without a camera the tree ends with the exit of the
    startup and reads no observation. *)
Example main_tree_no_camera :
  exec 30 (main_tree (H := album_vision) PresenceGuard.lock_session album_config
             no_camera_world) [calm 1000000]
  = Some (trace_of (main (H := album_vision) PresenceGuard.lock_session album_config
                      no_camera_world),
          [calm 1000000], Some (Raises (SystemExit 1))).
Proof. vm_compute. reflexivity. Qed.

(** With a camera and a user who does not interrupt, the tree waits for
    the next frame, the capture held. *)
Example main_tree_waits :
  exec 30 (main_tree (H := album_vision) PresenceGuard.lock_session album_config quiet_world)
    (turns quiet_world)
  = Some (probing (H := album_vision) album_config quiet_world
            ++ [EvLog (MOpenedCamera 2 640 480); EvAppend (MOpenedCamera 2 640 480);
                EvLog MStarting; EvAppend MStarting;
                EvGrab 2; EvGrab 2; EvGrab 2; EvRetrieve 2; EvFaceLocations HOG 1;
                EvLog (MDetected 1); EvAppend (MDetected 1); EvFaceEncodings;
                EvLog (MBestDistance 0); EvAppend (MBestDistance 0);
                EvLog MAuthorized; EvAppend MAuthorized; EvSleep (35 # 100)],
          [], None).
Proof. vm_compute. reflexivity. Qed.

(** The interrupt of the first poll interval ends the tree as it ends
    [main]. *)
Example main_tree_interrupted :
  exec 30 (main_tree (H := album_vision) PresenceGuard.lock_session album_config ready_world)
    (turns ready_world)
  = Some (trace_of (main (H := album_vision) PresenceGuard.lock_session album_config
                      ready_world), [], Some (Returns tt)).
Proof. vm_compute. reflexivity. Qed.

Lemma face_detect_main_tree_runs_witness :
  let V := album_vision in
  let cfg := {| FaceDetect.ENROLL_DIR := "enroll";
                FaceDetect.ALLOWED_TOLERANCE := 45 # 100;
                FaceDetect.CHECK_INTERVAL := 2;
                FaceDetect.LOCK_COOLDOWN := 5;
                FaceDetect.VIDEO_DEVICE := 0 |} in
  let os := [interrupted 1000000] in
  exec 28 (face_detect_main_tree (H := V) halve PresenceGuard.lock_session cfg album
             (fun _ => true)) os
  = Some (trace_of (FaceDetect.main (H := V) halve PresenceGuard.lock_session cfg album
                      (fun _ => true) os),
          [], Some (Returns tt)).
Proof.
  intros V cfg os.
  pose proof (face_detect_main_tree_runs (H := V) halve PresenceGuard.lock_session cfg album
                (fun _ => true) os 28) as Hrun.
  rewrite Hrun by (simpl; lia). vm_compute. reflexivity.
Defined.
