(* ===== verification/Floats.v ===== *)
(** * The doubles of Python

    The numbers of the scripts are the floats of Python, IEEE 754
    binary64: the literals [0.65], [0.35] and [0.45] of the
    configurations, the seconds of [timedelta.total_seconds()], the
    distances of [numpy].  The other files compute with exact
    rationals; this file says what the doubles change.

    [round] is rounding to the nearest double, a tie going to the even
    mantissa, on the rationals: 53 bits of mantissa, the subnormal
    numbers with the exponent [emin]; overflow is left out, no number
    of the configurations comes near [2^1024], and the infinities and
    [nan] a distance can be are in [Specials].  [representable] is the set of
    doubles and [is_double] its test.  [literal] is the value of a
    decimal literal, [total_seconds_float] the division of
    [timedelta.total_seconds()], [absence_test] and [within_tolerance]
    the two comparisons of the loop as Python computes them.

    - [round] is the rounding of the standard: its value is a double
      ([round_representable]), a double is its own rounding
      ([round_fix]), it keeps the order ([round_mono]) and no double is
      nearer ([round_nearest]).  On the numbers of the configurations
      it agrees with the division of the library's binary64
      ([SFdiv_total_seconds], [SFdiv_literals]).
    - The absence test is exact ([absence_test_exact]): for a timeout
      that is a number of microseconds, rounding the division changes
      no decision of [not_one_face].
    - The tolerance test is exact but for one double
      ([within_tolerance_decimal], [identify_literal]): the double of
      [0.65] lies above 65/100, and a best distance equal to it is
      accepted by the code ([tolerance_boundary]). *)

From Stdlib Require Import Qround Qabs Qpower Lqa SpecFloat.
From S2P Require Import Prelude Effects Logger Vision PresenceLoop Scenarios.

(** The exponent of the smallest positive double, [2^-1074]. *)
Definition emin : Z := -1074.

(** [floor_log2 q], for [0 < q]: the [k] with [2^k <= q < 2^(k+1)]. *)
Definition floor_log2 (q : Q) : Z :=
  let k := Z.log2 (Qnum q) - Z.log2 (Z.pos (Qden q)) in
  if (2 ^ k <=? q)%Q then k else k - 1.

(** The exponent of the unit in the last place of the doubles around
    [q]: 53 bits, and the subnormal numbers share the exponent [emin]. *)
Definition ulp_exp (q : Q) : Z := Z.max (floor_log2 q - 52) emin.

(** The nearest double of [0 < q], a tie going to the even mantissa. *)
Definition round_pos (q : Q) : Q :=
  let e := ulp_exp q in
  (inject_Z (round_half_even (q / 2 ^ e)) * 2 ^ e)%Q.

(** The nearest double of [q]. *)
Definition round (q : Q) : Q :=
  match (q ?= 0)%Q with
  | Eq => 0%Q
  | Gt => round_pos q
  | Lt => (- round_pos (- q))%Q
  end.

(** [representable q]: [q] is [m * 2^e] with a mantissa of 53 bits. *)
Definition representable (q : Q) : Prop :=
  exists m e, Z.abs m < 2 ^ 53 /\ emin <= e /\ (q == inject_Z m * 2 ^ e)%Q.


(** The test of [representable]: [q] is its own nearest double. *)
Definition is_double (q : Q) : bool := Qeq_bool (round q) q.

(** A decimal literal of the source, [0.65] of src/presence_guard.py:17:
    the double nearest to the decimal number. *)
Definition literal (q : Q) : Q := round q.

(** [timedelta.total_seconds()] as Python computes it: the microseconds
    divided by [10**6], a division of integers rounded once. *)
Definition total_seconds_float (d : Timedelta) : Q := round (total_seconds d).

(** [(now - last_seen_someone).total_seconds() >= ABSENCE_TIMEOUT],
    src/presence_guard.py:180, in doubles. *)
Definition absence_test (ABSENCE_TIMEOUT : Q) (now last : Time) : bool :=
  (literal ABSENCE_TIMEOUT <=? total_seconds_float (time_sub now last))%Q.

(** [best <= ALLOWED_TOLERANCE], src/presence_guard.py:202 and
    src/face_detect.py:129, for a double [best]. *)
Definition within_tolerance (ALLOWED_TOLERANCE best : Q) : bool :=
  (best <=? literal ALLOWED_TOLERANCE)%Q.

(** The rational a finite float of the library denotes. *)
Definition SF2Q (f : spec_float) : option Q :=
  match f with
  | S754_zero _ => Some 0%Q
  | S754_finite s m e => Some ((if s then -1 else 1) * inject_Z (Z.pos m) * 2 ^ e)%Q
  | _ => None
  end.

(** [a / b] of two integers with the division of the library's
    binary64, in lowest terms. *)
Definition SFdiv_Z (a b : Z) : option Q :=
  Qred <$> SF2Q (SFdiv 53 1024 (binary_normalize 53 1024 a 0 false)
                   (binary_normalize 53 1024 b 0 false)).

(** An encoding a quarter away from the enrolled one. *)
Definition quarter_away : Encoding := [1 # 4; 0]%Q.

(** ** Powers of two *)

Section Pow2.
Implicit Types (a b e : Z).

Lemma pow2_pos e : (0 < 2 ^ e)%Q.
Proof. by apply Qpower_0_lt. Qed.

Lemma pow2_plus a b : (2 ^ (a + b) == 2 ^ a * 2 ^ b)%Q.
Proof. by apply Qpower_plus. Qed.

Lemma pow2_minus a b : (2 ^ (a - b) == 2 ^ a / 2 ^ b)%Q.
Proof. by apply Qpower_minus. Qed.

Lemma pow2_le a b : a <= b -> (2 ^ a <= 2 ^ b)%Q.
Proof. intros. by apply Qpower_le_compat_l. Qed.

Lemma pow2_lt a b : a < b -> (2 ^ a < 2 ^ b)%Q.
Proof. intros. by apply Qpower_lt_compat_l. Qed.

Lemma pow2_lt_inv a b : (2 ^ a < 2 ^ b)%Q -> a < b.
Proof. intros. by apply (Qpower_lt_compat_l_inv 2). Qed.

Lemma pow2_Z a : 0 <= a -> (inject_Z (2 ^ a) == 2 ^ a)%Q.
Proof. intros. by rewrite Zpower_Qpower. Qed.

Lemma pow2_succ a : (2 ^ (a + 1) == 2 * 2 ^ a)%Q.
Proof. rewrite pow2_plus. change (2 ^ 1)%Q with 2%Q. lra. Qed.
End Pow2.

#[export] Hint Resolve pow2_pos : guard.

(** ** The binary logarithm *)

Section Log2.
Implicit Types (q : Q) (k : Z).

Lemma Qmake_le_l x n d : (x <= n # d)%Q <-> (x * inject_Z (Z.pos d) <= inject_Z n)%Q.
Proof.
  rewrite (Qmake_Qdiv n d). split; intros Hx.
  - apply (Qmult_le_r _ _ (/ inject_Z (Z.pos d))); [by apply Qinv_lt_0_compat|].
    unfold Qdiv in Hx. rewrite <- Qmult_assoc, Qmult_inv_r, Qmult_1_r; done.
  - by apply Qle_shift_div_l.
Qed.

Lemma Qmake_lt_r x n d : (n # d < x)%Q <-> (inject_Z n < x * inject_Z (Z.pos d))%Q.
Proof.
  split; intros Hx.
  - apply Qnot_le_lt. intros Hle%Qmake_le_l. by apply Qle_not_lt in Hle.
  - apply Qnot_le_lt. intros Hle%Qmake_le_l. by apply Qle_not_lt in Hle.
Qed.

Lemma floor_log2_spec q :
  (0 < q)%Q -> (2 ^ floor_log2 q <= q)%Q /\ (q < 2 ^ (floor_log2 q + 1))%Q.
Proof.
  destruct q as [n d]. intros Hq. assert (0 < n) as Hn by (unfold Qlt in Hq; simpl in Hq; lia).
  unfold floor_log2. cbn [Qnum Qden].
  destruct (Z.log2_spec n Hn) as [Ha Ha'], (Z.log2_spec (Z.pos d) eq_refl) as [Hb Hb'].
  pose proof (Z.log2_nonneg n) as Ha0. pose proof (Z.log2_nonneg (Z.pos d)) as Hb0.
  set (a := Z.log2 n) in *. set (b := Z.log2 (Z.pos d)) in *.
  rewrite Zle_Qle, pow2_Z in Ha, Hb by done.
  rewrite Zlt_Qlt, <- Z.add_1_r, pow2_Z, pow2_succ in Ha', Hb' by lia.
  assert (2 ^ (a - b) * 2 ^ b == 2 ^ a)%Q as Hk
    by (rewrite <- pow2_plus; by replace (a - b + b) with a by lia).
  pose proof (pow2_pos (a - b)) as Hp. pose proof (pow2_pos b) as Hpb.
  destruct (2 ^ (a - b) <=? n # d)%Q eqn:Ht.
  - apply Qle_bool_true in Ht. split; [done|].
    apply Qmake_lt_r. rewrite pow2_succ. nra.
  - apply Qle_bool_false in Ht. replace (a - b - 1 + 1) with (a - b) by lia. split; [|done].
    apply Qmake_le_l. assert (2 * 2 ^ (a - b - 1) == 2 ^ (a - b))%Q as Hh
      by (rewrite <- pow2_succ; by replace (a - b - 1 + 1) with (a - b) by lia).
    pose proof (pow2_pos (a - b - 1)). nra.
Qed.
End Log2.

Section Log2Facts.
Implicit Types (q : Q) (k : Z).

Lemma floor_log2_unique q k :
  (2 ^ k <= q)%Q -> (q < 2 ^ (k + 1))%Q -> floor_log2 q = k.
Proof.
  intros Hlo Hhi. assert (0 < q)%Q as Hq by (pose proof (pow2_pos k); lra).
  destruct (floor_log2_spec q Hq) as [Hlo' Hhi'].
  assert (floor_log2 q < k + 1) by (apply pow2_lt_inv; lra).
  assert (k < floor_log2 q + 1) by (apply pow2_lt_inv; lra). lia.
Qed.

Lemma floor_log2_mono q q' : (0 < q)%Q -> (q <= q')%Q -> floor_log2 q <= floor_log2 q'.
Proof.
  intros Hq Hle. destruct (floor_log2_spec q Hq) as [Hlo _].
  destruct (floor_log2_spec q') as [_ Hhi]; [lra|].
  assert (floor_log2 q < floor_log2 q' + 1) by (apply pow2_lt_inv; lra). lia.
Qed.

Lemma floor_log2_comp q q' : (0 < q)%Q -> (q == q')%Q -> floor_log2 q = floor_log2 q'.
Proof.
  intros Hq Heq. destruct (floor_log2_spec q Hq) as [Hlo Hhi].
  symmetry. apply floor_log2_unique; lra.
Qed.

Lemma floor_log2_pow2 k : floor_log2 (2 ^ k) = k.
Proof. apply floor_log2_unique; [lra | apply pow2_lt; lia]. Qed.
End Log2Facts.

(** ** Rounding to an integer *)

Section Integer.
Implicit Types (x y : Q) (z : Z).

#[export] Instance round_half_even_comp : Proper (Qeq ==> eq) round_half_even.
Proof.
  intros x y Hxy. unfold round_half_even. rewrite (Qfloor_comp _ _ Hxy).
  by replace (x - inject_Z (Qfloor y) ?= 1 # 2)%Q with (y - inject_Z (Qfloor y) ?= 1 # 2)%Q
    by (apply Qcompare_comp; [by rewrite Hxy | done]).
Qed.

Lemma round_half_even_Z z : round_half_even (inject_Z z) = z.
Proof.
  unfold round_half_even. rewrite Qfloor_Z.
  assert (inject_Z z - inject_Z z < 1 # 2)%Q as Hlt
    by (by ring_simplify (inject_Z z - inject_Z z)%Q).
  by apply Qlt_alt in Hlt as ->.
Qed.

Lemma round_half_even_floor x : Qfloor x <= round_half_even x <= Qfloor x + 1.
Proof. unfold round_half_even. repeat case_match; lia. Qed.

Lemma round_half_even_mono x y : (x <= y)%Q -> round_half_even x <= round_half_even y.
Proof.
  intros Hxy. pose proof (Qfloor_resp_le _ _ Hxy) as Hf.
  destruct (decide (Qfloor x = Qfloor y)) as [Heq|Hne].
  - unfold round_half_even. rewrite Heq.
    destruct (Qcompare_spec (x - inject_Z (Qfloor y)) (1 # 2)),
             (Qcompare_spec (y - inject_Z (Qfloor y)) (1 # 2));
      first [lia | case_match; lia | lra].
  - pose proof (round_half_even_floor x). pose proof (round_half_even_floor y). lia.
Qed.
End Integer.

(** ** The nearest double of a positive number *)

Section Positive.
Implicit Types (q : Q) (m e : Z).

Lemma ulp_exp_mono q q' : (0 < q)%Q -> (q <= q')%Q -> ulp_exp q <= ulp_exp q'.
Proof. intros Hq Hle. pose proof (floor_log2_mono q q' Hq Hle). unfold ulp_exp. lia. Qed.

Lemma ulp_exp_comp q q' : (0 < q)%Q -> (q == q')%Q -> ulp_exp q = ulp_exp q'.
Proof. intros Hq Heq. unfold ulp_exp. by rewrite (floor_log2_comp q q'). Qed.

Lemma ulp_exp_emin q : emin <= ulp_exp q.
Proof. unfold ulp_exp. lia. Qed.

(** Division by a power of two. *)
Lemma scale_le q x e : (q / 2 ^ e <= x)%Q <-> (q <= x * 2 ^ e)%Q.
Proof.
  pose proof (pow2_pos e). split; intros Hx.
  - apply (Qmult_le_r _ _ (/ 2 ^ e)); [by apply Qinv_lt_0_compat|].
    rewrite <- Qmult_assoc, Qmult_inv_r, Qmult_1_r by lra. done.
  - by apply Qle_shift_div_r.
Qed.

Lemma scale_ge q x e : (x <= q / 2 ^ e)%Q <-> (x * 2 ^ e <= q)%Q.
Proof.
  pose proof (pow2_pos e). split; intros Hx.
  - apply (Qmult_le_r _ _ (/ 2 ^ e)); [by apply Qinv_lt_0_compat|].
    rewrite <- Qmult_assoc, Qmult_inv_r, Qmult_1_r by lra. done.
  - by apply Qle_shift_div_l.
Qed.

Lemma scale_lt q x e : (q / 2 ^ e < x)%Q <-> (q < x * 2 ^ e)%Q.
Proof.
  split; intros Hx; apply Qnot_le_lt; intros Hle; apply scale_ge in Hle;
    by apply Qle_not_lt in Hle.
Qed.

(** The scaled number has at most 53 bits before the point, and
    exactly 53 outside the subnormal range. *)
Lemma scaled_lt q : (0 < q)%Q -> (q / 2 ^ ulp_exp q < 2 ^ 53)%Q.
Proof.
  intros Hq. destruct (floor_log2_spec q Hq) as [_ Hhi]. apply scale_lt.
  rewrite <- pow2_plus. eapply Qlt_le_trans; [exact Hhi|]. apply pow2_le. unfold ulp_exp. lia.
Qed.

Lemma scaled_ge q : (0 < q)%Q -> emin < ulp_exp q -> (2 ^ 52 <= q / 2 ^ ulp_exp q)%Q.
Proof.
  intros Hq He. destruct (floor_log2_spec q Hq) as [Hlo _]. apply scale_ge.
  rewrite <- pow2_plus. replace (52 + ulp_exp q) with (floor_log2 q); [done|].
  unfold ulp_exp in *. lia.
Qed.

Lemma scaled_pos q : (0 < q)%Q -> (0 < q / 2 ^ ulp_exp q)%Q.
Proof. intros Hq. apply Qlt_shift_div_l; [apply pow2_pos | lra]. Qed.

Lemma mantissa_bounds q :
  (0 < q)%Q -> 0 <= round_half_even (q / 2 ^ ulp_exp q) <= 2 ^ 53.
Proof.
  intros Hq. split.
  - rewrite <- (round_half_even_Z 0). apply round_half_even_mono, Qlt_le_weak, scaled_pos, Hq.
  - rewrite <- (round_half_even_Z (2 ^ 53)). apply round_half_even_mono.
    rewrite pow2_Z by done. apply Qlt_le_weak, scaled_lt, Hq.
Qed.

Lemma mantissa_normal q :
  (0 < q)%Q -> emin < ulp_exp q -> 2 ^ 52 <= round_half_even (q / 2 ^ ulp_exp q).
Proof.
  intros Hq He. rewrite <- (round_half_even_Z (2 ^ 52)). apply round_half_even_mono.
  rewrite pow2_Z by done. by apply scaled_ge.
Qed.

Lemma round_pos_comp q q' : (0 < q)%Q -> (q == q')%Q -> (round_pos q == round_pos q')%Q.
Proof.
  intros Hq Heq. unfold round_pos. rewrite (ulp_exp_comp q q') by done.
  by rewrite (round_half_even_comp (q / _)%Q (q' / _)%Q) by (by rewrite Heq).
Qed.

Lemma round_pos_nonneg q : (0 < q)%Q -> (0 <= round_pos q)%Q.
Proof.
  intros Hq. unfold round_pos. apply Qmult_le_0_compat; [|apply Qlt_le_weak, pow2_pos].
  change 0%Q with (inject_Z 0). rewrite <- Zle_Qle. by apply mantissa_bounds.
Qed.

(** The nearest double is within half a unit in the last place. *)
Lemma round_pos_error q :
  (0 < q)%Q -> (Qabs (round_pos q - q) <= 2 ^ ulp_exp q / 2)%Q.
Proof.
  intros Hq. unfold round_pos. set (e := ulp_exp q). pose proof (pow2_pos e) as He.
  pose proof (round_half_even_near (q / 2 ^ e)) as Hn.
  set (m := inject_Z (round_half_even (q / 2 ^ e))) in *.
  assert (q == q / 2 ^ e * 2 ^ e)%Q as Hs by (field; lra).
  set (s := (q / 2 ^ e)%Q) in *. apply Qabs_Qle_condition in Hn as [Hlo Hhi].
  assert (2 ^ e / 2 == 2 ^ e * (1 # 2))%Q as -> by (by field).
  set (E := (2 ^ e)%Q) in *. apply Qabs_Qle_condition. split; nra.
Qed.
End Positive.

Section PositiveOrder.
Implicit Types (q : Q) (m e : Z).

(** Rounding keeps the order. *)
Lemma round_pos_mono q q' : (0 < q)%Q -> (q <= q')%Q -> (round_pos q <= round_pos q')%Q.
Proof.
  intros Hq Hle. assert (0 < q')%Q as Hq' by lra.
  pose proof (ulp_exp_mono q q' Hq Hle) as He. unfold round_pos.
  destruct (decide (ulp_exp q = ulp_exp q')) as [Heq|Hne].
  - rewrite Heq. apply Qmult_le_compat_r; [|apply Qlt_le_weak, pow2_pos].
    rewrite <- Zle_Qle. apply round_half_even_mono, Qmult_le_compat_r; [done|].
    apply Qlt_le_weak, Qinv_lt_0_compat, pow2_pos.
  - pose proof (mantissa_bounds q Hq) as [_ Hm].
    assert (2 ^ 52 <= round_half_even (q' / 2 ^ ulp_exp q')) as Hm'
      by (apply mantissa_normal; [done | pose proof (ulp_exp_emin q); lia]).
    rewrite Zle_Qle, pow2_Z in Hm, Hm' by done.
    assert (2 * 2 ^ ulp_exp q <= 2 ^ ulp_exp q')%Q as Hp
      by (rewrite <- pow2_succ; apply pow2_le; lia).
    pose proof (pow2_pos (ulp_exp q)) as HE. pose proof (pow2_pos (ulp_exp q')) as HE'.
    set (E := (2 ^ ulp_exp q)%Q) in *. set (E' := (2 ^ ulp_exp q')%Q) in *.
    apply Qle_trans with (2 ^ 53 * E)%Q; [by apply Qmult_le_compat_r; [|lra]|].
    apply Qle_trans with (2 ^ 52 * E')%Q; [|by apply Qmult_le_compat_r; [|lra]].
    change (2 ^ 53)%Q with (2 * 2 ^ 52)%Q. pose proof (pow2_pos 52).
    set (P := (2 ^ 52)%Q) in *. nra.
Qed.

(** A double is its own nearest double. *)
Lemma round_pos_fix m e :
  0 < m < 2 ^ 53 -> emin <= e -> (round_pos (inject_Z m * 2 ^ e) == inject_Z m * 2 ^ e)%Q.
Proof.
  intros Hm He. set (q := (inject_Z m * 2 ^ e)%Q).
  assert (0 < q)%Q as Hq.
  { apply Qmult_lt_0_compat; [|apply pow2_pos]. change 0%Q with (inject_Z 0).
    rewrite <- Zlt_Qlt. lia. }
  assert (ulp_exp q <= e) as Hle.
  { assert (floor_log2 q < 53 + e); [|unfold ulp_exp; lia].
    destruct (floor_log2_spec q Hq) as [Hlo _]. apply pow2_lt_inv.
    eapply Qle_lt_trans; [exact Hlo|]. rewrite pow2_plus. unfold q.
    apply Qmult_lt_compat_r; [apply pow2_pos|]. rewrite <- pow2_Z, <- Zlt_Qlt by done. lia. }
  unfold round_pos. set (e' := ulp_exp q) in *.
  assert (q / 2 ^ e' == inject_Z (m * 2 ^ (e - e')))%Q as ->.
  { rewrite inject_Z_mult, pow2_Z, pow2_minus by lia. unfold q. field.
    pose proof (pow2_pos e'). lra. }
  rewrite round_half_even_Z, inject_Z_mult, pow2_Z, pow2_minus by lia. unfold q. field.
  pose proof (pow2_pos e'). lra.
Qed.
End PositiveOrder.

(** ** The nearest double *)

Section Nearest.
Implicit Types (q : Q) (m e k : Z).

Lemma round_of_pos q : (0 < q)%Q -> round q = round_pos q.
Proof. intros Hq. unfold round. by apply Qgt_alt in Hq as ->. Qed.

Lemma round_of_neg q : (q < 0)%Q -> round q = (- round_pos (- q))%Q.
Proof. intros Hq. unfold round. by apply Qlt_alt in Hq as ->. Qed.

Lemma round_of_zero q : (q == 0)%Q -> round q = 0%Q.
Proof. intros Hq. unfold round. by apply Qeq_alt in Hq as ->. Qed.

(** [case_sign q]: the three cases of the sign of [q], with [round q]
    rewritten in each. *)
Ltac case_sign q :=
  let H := fresh "Hsign" in
  destruct (Q_dec q 0) as [[H|H]|H];
  [rewrite (round_of_neg q H) | rewrite (round_of_pos q H) | rewrite (round_of_zero q H)].

#[export] Instance round_comp : Proper (Qeq ==> Qeq) round.
Proof.
  intros q q' Heq. case_sign q.
  - rewrite (round_of_neg q') by lra. apply Qopp_comp, round_pos_comp; lra.
  - rewrite (round_of_pos q') by lra. by apply round_pos_comp.
  - by rewrite (round_of_zero q') by lra.
Qed.

Lemma round_opp q : (round (- q) == - round q)%Q.
Proof.
  case_sign q.
  - rewrite round_of_pos by lra. lra.
  - rewrite round_of_neg by lra. apply Qopp_comp, round_pos_comp; lra.
  - rewrite round_of_zero by lra. lra.
Qed.

Lemma round_nonneg q : (0 <= q)%Q -> (0 <= round q)%Q.
Proof. intros Hq. case_sign q; [lra | by apply round_pos_nonneg | lra]. Qed.

Lemma round_nonpos q : (q <= 0)%Q -> (round q <= 0)%Q.
Proof.
  intros Hq. case_sign q; [|lra..].
  pose proof (round_pos_nonneg (- q)). lra.
Qed.

(** Rounding keeps the order. *)
Lemma round_mono q q' : (q <= q')%Q -> (round q <= round q')%Q.
Proof.
  intros Hle. destruct (Qlt_le_dec 0 q) as [Hq|Hq].
  - rewrite (round_of_pos q), (round_of_pos q') by lra. by apply round_pos_mono.
  - destruct (Qlt_le_dec q' 0) as [Hq'|Hq'].
    + rewrite (round_of_neg q), (round_of_neg q') by lra.
      apply Qopp_le_compat, round_pos_mono; lra.
    + pose proof (round_nonpos q Hq). pose proof (round_nonneg q' Hq'). lra.
Qed.

(** The nearest double is a double. *)
Lemma round_pos_representable q : (0 < q)%Q -> representable (round_pos q).
Proof.
  intros Hq. pose proof (mantissa_bounds q Hq) as [Hlo Hhi]. unfold round_pos.
  set (m := round_half_even _) in *. pose proof (ulp_exp_emin q).
  destruct (decide (m = 2 ^ 53)) as [->|Hm].
  - exists (2 ^ 52), (ulp_exp q + 1). split_and!; [done | lia |].
    rewrite pow2_succ, !pow2_Z by done. change (2 ^ 53)%Q with (2 * 2 ^ 52)%Q. ring.
  - exists m, (ulp_exp q). split_and!; [lia | done..].
Qed.

Lemma representable_opp q : representable q -> representable (- q).
Proof.
  intros (m & e & Hm & He & Hq). exists (- m), e. split_and!; [lia | done |].
  rewrite Hq, inject_Z_opp. ring.
Qed.

Lemma round_representable q : representable (round q).
Proof.
  case_sign q.
  - apply representable_opp, round_pos_representable. lra.
  - by apply round_pos_representable.
  - exists 0, 0. by split_and!.
Qed.

(** A double is its own nearest double. *)
Lemma round_fix q : representable q -> (round q == q)%Q.
Proof.
  intros (m & e & Hm & He & ->). pose proof (pow2_pos e) as Hp.
  destruct (Z.lt_trichotomy m 0) as [Hs|[->|Hs]].
  - assert (inject_Z m * 2 ^ e == - (inject_Z (- m) * 2 ^ e))%Q as ->
      by (rewrite inject_Z_opp; ring).
    rewrite round_opp, round_of_pos.
    + apply Qopp_comp, round_pos_fix; [lia | done].
    + apply Qmult_lt_0_compat; [|done]. change 0%Q with (inject_Z 0). rewrite <- Zlt_Qlt. lia.
  - rewrite round_of_zero; ring.
  - rewrite round_of_pos; [apply round_pos_fix; [lia | done]|].
    apply Qmult_lt_0_compat; [|done]. change 0%Q with (inject_Z 0). by rewrite <- Zlt_Qlt.
Qed.

#[export] Instance representable_comp : Proper (Qeq ==> iff) representable.
Proof.
  intros q q' Heq. unfold representable.
  split; intros (m & e & Hm & He & Hq); exists m, e; by rewrite Hq, Heq in *.
Qed.

Lemma is_double_representable q : is_double q = true <-> representable q.
Proof.
  unfold is_double. rewrite Qeq_bool_iff. split; [|apply round_fix].
  intros <-. apply round_representable.
Qed.

(** Below [2^k] the nearest double is within [2^(k-54)]. *)
Lemma round_pos_near q k :
  (0 < q)%Q -> (q < 2 ^ k)%Q -> emin <= k - 53 -> (Qabs (round_pos q - q) <= 2 ^ (k - 54))%Q.
Proof.
  intros Hq Hk He. eapply Qle_trans; [by apply round_pos_error|].
  destruct (floor_log2_spec q Hq) as [Hlo _].
  assert (floor_log2 q < k) by (apply pow2_lt_inv; lra).
  assert (2 ^ ulp_exp q <= 2 ^ (k - 53))%Q as Hle by (apply pow2_le; unfold ulp_exp; lia).
  replace (k - 53) with (k - 54 + 1) in Hle by lia. rewrite pow2_succ in Hle.
  apply Qle_shift_div_r; [done | lra].
Qed.

Lemma round_near q k :
  (Qabs q < 2 ^ k)%Q -> emin <= k - 53 -> (Qabs (round q - q) <= 2 ^ (k - 54))%Q.
Proof.
  intros Hk He. case_sign q.
  - assert (- round_pos (- q) - q == - (round_pos (- q) - - q))%Q as -> by ring.
    rewrite Qabs_opp. apply round_pos_near; [lra | | done].
    by rewrite Qabs_neg in Hk by lra.
  - apply round_pos_near; [done | | done]. by rewrite Qabs_pos in Hk by lra.
  - assert (0 - q == 0)%Q as -> by lra. apply Qlt_le_weak, pow2_pos.
Qed.
End Nearest.

(** ** No double is nearer *)

Section NoneNearer.
Implicit Types (q d : Q) (n e : Z).

(** A positive double is a multiple of its unit in the last place. *)
Lemma double_multiple d :
  (0 < d)%Q -> representable d ->
  (d == inject_Z (round_half_even (d / 2 ^ ulp_exp d)) * 2 ^ ulp_exp d)%Q.
Proof. intros Hd Hr%round_fix. by rewrite round_of_pos in Hr. Qed.

(** No double with the unit [2^e] lies between two neighbouring
    multiples of [2^e]. *)
Lemma no_double_between d n :
  (0 < d)%Q -> representable d ->
  (inject_Z n * 2 ^ ulp_exp d < d)%Q -> (d < inject_Z (n + 1) * 2 ^ ulp_exp d)%Q -> False.
Proof.
  intros Hd Hr Hlo Hhi. pose proof (double_multiple d Hd Hr) as Hm.
  set (m := round_half_even _) in Hm. pose proof (pow2_pos (ulp_exp d)) as Hp.
  set (E := (2 ^ ulp_exp d)%Q) in *.
  assert (inject_Z n < inject_Z m)%Q as Hnm by nra.
  assert (inject_Z m < inject_Z (n + 1))%Q as Hmn by nra.
  rewrite <- Zlt_Qlt in Hnm, Hmn. lia.
Qed.

(** The unit of a double between the floor and the ceiling of the
    scaled number is the unit of the number. *)
Lemma ulp_exp_below q d :
  (0 < q)%Q -> (inject_Z (Qfloor (q / 2 ^ ulp_exp q)) * 2 ^ ulp_exp q < d)%Q -> (d <= q)%Q ->
  ulp_exp d = ulp_exp q.
Proof.
  intros Hq Hlo Hle. pose proof (pow2_pos (ulp_exp q)) as Hp.
  pose proof (scaled_pos q Hq) as Hs. set (s := (q / 2 ^ ulp_exp q)%Q) in *.
  assert (0 <= Qfloor s) as H0
    by (rewrite <- (Qfloor_Z 0); by apply Qfloor_resp_le, Qlt_le_weak).
  rewrite Zle_Qle in H0. change (inject_Z 0) with 0%Q in H0.
  set (F := inject_Z (Qfloor s)) in *. set (E := (2 ^ ulp_exp q)%Q) in *.
  assert (0 < d)%Q as Hd by nra.
  pose proof (ulp_exp_mono d q Hd Hle) as Hmono. pose proof (ulp_exp_emin d) as Hmin.
  destruct (decide (ulp_exp q = emin)) as [He|He]; [lia|].
  assert (2 ^ 52 <= Qfloor s) as H52.
  { rewrite <- (Qfloor_Z (2 ^ 52)). apply Qfloor_resp_le. rewrite pow2_Z by done.
    apply scaled_ge; [done | pose proof (ulp_exp_emin q); lia]. }
  rewrite Zle_Qle, pow2_Z in H52 by done.
  assert (2 ^ (52 + ulp_exp q) <= d)%Q as Hb.
  { rewrite pow2_plus. fold E. fold F in H52. pose proof (pow2_pos 52).
    set (P := (2 ^ 52)%Q) in *. nra. }
  destruct (floor_log2_spec d Hd) as [_ Hhi].
  assert (52 + ulp_exp q < floor_log2 d + 1) by (apply pow2_lt_inv; lra).
  unfold ulp_exp in *. lia.
Qed.

Lemma ulp_exp_above q d :
  (0 < q)%Q -> (q <= d)%Q -> (d < inject_Z (Qfloor (q / 2 ^ ulp_exp q) + 1) * 2 ^ ulp_exp q)%Q ->
  ulp_exp d = ulp_exp q.
Proof.
  intros Hq Hle Hhi. pose proof (pow2_pos (ulp_exp q)) as Hp.
  assert (0 < d)%Q as Hd by lra. pose proof (ulp_exp_mono q d Hq Hle) as Hmono.
  pose proof (scaled_lt q Hq) as Hs. set (s := (q / 2 ^ ulp_exp q)%Q) in *.
  assert (Qfloor s + 1 <= 2 ^ 53) as H53.
  { assert (Qfloor s < 2 ^ 53); [|lia].
    rewrite Zlt_Qlt, pow2_Z by done. eapply Qle_lt_trans; [apply Qfloor_le | done]. }
  rewrite Zle_Qle, pow2_Z in H53 by done.
  assert (d < 2 ^ (53 + ulp_exp q))%Q as Hb.
  { rewrite pow2_plus. pose proof (pow2_pos 53).
    set (P := (2 ^ 53)%Q) in *. set (E := (2 ^ ulp_exp q)%Q) in *.
    set (F := inject_Z (Qfloor s + 1)) in *. nra. }
  destruct (floor_log2_spec d Hd) as [Hlo _].
  assert (floor_log2 d < 53 + ulp_exp q) by (apply pow2_lt_inv; lra).
  pose proof (ulp_exp_emin q). unfold ulp_exp in *. lia.
Qed.

(** The doubles leave out the inside of the cell of [q]: a double is at
    most the floor or at least the ceiling of the scaled number. *)
Lemma double_grid q d :
  (0 < q)%Q -> representable d ->
  let e := ulp_exp q in let f := Qfloor (q / 2 ^ e) in
  (d <= inject_Z f * 2 ^ e)%Q \/ (inject_Z (f + 1) * 2 ^ e <= d)%Q.
Proof.
  intros Hq Hr e f. destruct (Qlt_le_dec (inject_Z f * 2 ^ e) d) as [Hlo|]; [|by left].
  destruct (Qlt_le_dec d (inject_Z (f + 1) * 2 ^ e)) as [Hhi|]; [|by right]. exfalso.
  assert (0 < d)%Q as Hd.
  { pose proof (pow2_pos e). pose proof (scaled_pos q Hq) as Hs.
    assert (0 <= f) as H0 by (rewrite <- (Qfloor_Z 0); by apply Qfloor_resp_le, Qlt_le_weak).
    rewrite Zle_Qle in H0. change (inject_Z 0) with 0%Q in H0. fold e in Hs.
    set (F := inject_Z f) in *. set (E := (2 ^ e)%Q) in *. nra. }
  assert (ulp_exp d = e) as He.
  { destruct (Qlt_le_dec q d); [by apply ulp_exp_above; [|lra|] | by apply ulp_exp_below]. }
  apply (no_double_between d f Hd Hr); by rewrite He.
Qed.

(** No double is nearer to [q] than its nearest double. *)
Lemma round_pos_nearest q d :
  (0 < q)%Q -> representable d -> (Qabs (round_pos q - q) <= Qabs (d - q))%Q.
Proof.
  intros Hq Hr. pose proof (double_grid q d Hq Hr) as Hgrid. cbv zeta in Hgrid.
  unfold round_pos. set (e := ulp_exp q) in *. pose proof (pow2_pos e) as Hp.
  assert (q == q / 2 ^ e * 2 ^ e)%Q as Hs by (field; lra).
  pose proof (round_half_even_near (q / 2 ^ e)) as [Hn Hn']%Qabs_Qle_condition.
  pose proof (round_half_even_floor (q / 2 ^ e)) as Hm.
  pose proof (Qfloor_le (q / 2 ^ e)) as Hf. pose proof (Qlt_floor (q / 2 ^ e)) as Hf'.
  set (s := (q / 2 ^ e)%Q) in *. set (E := (2 ^ e)%Q) in *.
  rewrite inject_Z_plus in Hgrid, Hf'. change (inject_Z 1) with 1%Q in *.
  assert (round_half_even s = Qfloor s \/ round_half_even s = Qfloor s + 1) as [Hc|Hc] by lia;
    rewrite Hc in *; clear Hc Hm;
    rewrite ?inject_Z_plus in *; change (inject_Z 1) with 1%Q in *;
    set (F := inject_Z (Qfloor s)) in *;
    apply Qabs_Qle_condition; split;
    (destruct (Qlt_le_dec d q); [rewrite (Qabs_neg (d - q)) by lra | rewrite (Qabs_pos (d - q)) by lra]);
    destruct Hgrid; nra.
Qed.

(** No double is nearer to [q] than [round q]. *)
Theorem round_nearest q d : representable d -> (Qabs (round q - q) <= Qabs (d - q))%Q.
Proof.
  intros Hr. destruct (Q_dec q 0) as [[Hq|Hq]|Hq].
  - rewrite (round_of_neg q Hq).
    assert (- round_pos (- q) - q == - (round_pos (- q) - - q))%Q as -> by ring.
    assert (d - q == - (- d - - q))%Q as -> by ring. rewrite !Qabs_opp.
    apply round_pos_nearest; [lra | by apply representable_opp].
  - rewrite (round_of_pos q Hq). by apply round_pos_nearest.
  - rewrite (round_of_zero q Hq), Hq. assert (0 - 0 == 0)%Q as -> by ring.
    apply Qabs_nonneg.
Qed.
End NoneNearer.

(** ** The tests of the loop in doubles *)

Section Tests.
Implicit Types (q tol best : Q) (d t : Z).

(** Two different numbers of microseconds below [2^32] seconds stay
    apart when they are rounded. *)
Lemma round_grid_lt t d :
  Z.abs t < 2 ^ 32 * 1000000 -> Z.abs d < 2 ^ 32 * 1000000 ->
  t < d -> (round (t # 1000000) < round (d # 1000000))%Q.
Proof.
  intros Ht Hd Hlt.
  assert (forall z, Z.abs z < 2 ^ 32 * 1000000 -> (Qabs (z # 1000000) < 2 ^ 32)%Q) as Hb.
  { intros z Hz. apply Qabs_Qlt_condition. unfold Qlt; simpl. lia. }
  assert (emin <= 32 - 53) as He by done.
  pose proof (round_near _ 32 (Hb t Ht) He) as [_ Ht']%Qabs_Qle_condition.
  pose proof (round_near _ 32 (Hb d Hd) He) as [Hd' _]%Qabs_Qle_condition.
  assert ((t # 1000000) + (1 # 1000000) <= d # 1000000)%Q
    by (unfold Qle, Qplus; simpl; lia).
  change (2 ^ (32 - 54))%Q with (1 # 4194304)%Q in *. lra.
Qed.

(** The order of two numbers of microseconds is the order of their
    doubles. *)
Lemma round_grid_le t d :
  Z.abs t < 2 ^ 32 * 1000000 -> Z.abs d < 2 ^ 32 * 1000000 ->
  (round (t # 1000000) <= round (d # 1000000))%Q <-> t <= d.
Proof.
  intros Ht Hd. split.
  - intros Hle. destruct (Z_le_gt_dec t d) as [|Hgt]; [done|].
    pose proof (round_grid_lt d t Hd Ht ltac:(lia)). lra.
  - intros Hle. apply round_mono. unfold Qle; simpl. lia.
Qed.

(** C17. The absence test is exact: for a timeout that is a number of
    microseconds and times less than [2^32] seconds apart, the test the
    doubles of Python decide, [total_seconds() >= ABSENCE_TIMEOUT] with
    its division rounded, is the test on the exact numbers that
    [not_one_face] makes. *)
Theorem absence_test_exact timeout t now last :
  (timeout == t # 1000000)%Q ->
  Z.abs t < 2 ^ 32 * 1000000 -> Z.abs (now - last) < 2 ^ 32 * 1000000 ->
  absence_test timeout now last = (timeout <=? total_seconds (time_sub now last))%Q.
Proof.
  intros Ht Hb Hd. unfold absence_test, literal, total_seconds_float, total_seconds, time_sub.
  apply eq_true_iff_eq. rewrite !Qle_bool_true, Ht, round_grid_le by done.
  unfold Qle; simpl. lia.
Qed.

(** A double is within the literal of a number exactly when it is
    within the number or is the literal. *)
Lemma round_le_decimal tol best :
  representable best ->
  (best <= round tol)%Q <-> (best <= tol)%Q \/ (best == round tol)%Q.
Proof.
  intros Hb%round_fix. split.
  - intros Hle. destruct (Qlt_le_dec tol best) as [Hlt|]; [|by left]. right.
    pose proof (round_mono tol best (Qlt_le_weak _ _ Hlt)). lra.
  - intros [Hle%round_mono|Heq]; lra.
Qed.

(** The tolerance test in doubles: a double is within the literal of
    the tolerance exactly when it is within the decimal number the
    source writes or is the double of the literal itself. *)
Theorem within_tolerance_decimal tol best :
  representable best ->
  within_tolerance tol best = (best <=? tol)%Q || Qeq_bool best (literal tol).
Proof.
  intros Hb. unfold within_tolerance, literal. apply eq_true_iff_eq.
  rewrite orb_true_iff, !Qle_bool_true, Qeq_bool_iff. by apply round_le_decimal.
Qed.
End Tests.

Section Matcher.
Context `{Vision}.

(** C18. The identity matcher in doubles: when the best distance is a
    double other than the double of the tolerance, the matcher that
    compares with the literal, as Python does, performs the events and
    returns the verdict of the matcher that compares with the decimal
    number. *)
Theorem identify_literal tol known rgb locs :
  (forall enc encs best,
     face_encodings rgb locs = Returns (enc :: encs) ->
     best_distance known enc = Returns best ->
     representable best /\ ~ (best == literal tol)%Q) ->
  identify (literal tol) known rgb locs = identify tol known rgb locs.
Proof.
  intros Hbest. rewrite !identify_cases.
  destruct (face_encodings rgb locs) as [[|enc encs]|e]; [done| |done].
  destruct (best_distance known enc) as [best|e] eqn:Hb; [|done].
  destruct (Hbest enc encs best eq_refl Hb) as [Hr Hne]. do 2 f_equal.
  apply eq_true_iff_eq. rewrite !Qle_bool_true. unfold literal in *.
  rewrite (round_le_decimal tol best Hr). tauto.
Qed.
End Matcher.

(** ** Examples *)

(** The doubles of the literals of the two configurations. *)
Example literal_065 : (literal (65 # 100) == 5854679515581645 # 2 ^ 53)%Q.
Proof. by vm_compute. Qed.

Example literal_045 : (literal (45 # 100) == 8106479329266893 # 2 ^ 54)%Q.
Proof. by vm_compute. Qed.

Example literal_035 : (literal (35 # 100) == 6305039478318694 # 2 ^ 54)%Q.
Proof. by vm_compute. Qed.

(** The one double on which the decimal reading of the tolerance of
    src/presence_guard.py and its double differ: the double of [0.65]
    lies above 65/100, so a best distance equal to it is accepted by
    the code and is not within 65/100. *)
Example tolerance_boundary :
  within_tolerance (65 # 100) (literal (65 # 100)) = true /\
  (literal (65 # 100) <=? 65 # 100)%Q = false.
Proof. by vm_compute. Qed.

(** One microsecond before the timeout of six seconds, at it and one
    after. *)
Example absence_test_boundary :
  absence_test 6 5999999 0 = false /\ absence_test 6 6000000 0 = true /\
  absence_test 6 6000001 0 = true.
Proof. by vm_compute. Qed.

(** The division and the literals agree with the binary64 of the
    library on the numbers of the configuration. *)
Example SFdiv_total_seconds :
  SFdiv_Z 5999999 1000000 = Some (Qred (total_seconds_float 5999999)) /\
  SFdiv_Z 6000001 1000000 = Some (Qred (total_seconds_float 6000001)) /\
  SFdiv_Z (-7000000) 1000000 = Some (Qred (total_seconds_float (-7000000))).
Proof. by vm_compute. Qed.

Example SFdiv_literals :
  SFdiv_Z 65 100 = Some (Qred (literal (65 # 100))) /\
  SFdiv_Z 45 100 = Some (Qred (literal (45 # 100))) /\
  SFdiv_Z 35 100 = Some (Qred (literal (35 # 100))) /\
  SFdiv_Z 2 10 = Some (Qred (literal (2 # 10))).
Proof. by vm_compute. Qed.

(** ** Witnesses *)

Lemma absence_test_exact_witness :
  absence_test (ABSENCE_TIMEOUT default_config) 7000000 0
  = (ABSENCE_TIMEOUT default_config <=? total_seconds (time_sub 7000000 0))%Q.
Proof. apply (absence_test_exact (ABSENCE_TIMEOUT default_config) 6000000 7000000 0); done. Defined.

Lemma identify_literal_witness :
  let V := stub_vision [face] [] [quarter_away] in
  identify (H := V) (literal (ALLOWED_TOLERANCE default_config)) [me] frame0 [face]
  = identify (H := V) (ALLOWED_TOLERANCE default_config) [me] frame0 [face].
Proof.
  intros V. apply (identify_literal (H := V)).
  intros enc encs best [= <- <-] [= <-]. split; [by apply is_double_representable | done].
Defined.
