(* ===== verification/Specials.v ===== *)
(** * The special values of the doubles

    The files of the guard compute with the rationals the finite
    doubles denote.  [np.linalg.norm] also returns [inf], when a sum of
    squares overflows, and [nan], when an encoding holds one.  This file
    gives lines 200-202 of src/presence_guard.py on all the doubles:
    [np_min_d] is [np.min], which hands on a [nan], [dle] the [<=] of
    floats, false on a [nan], [format_3f_d] the format [.3f], and
    [judge] the three lines: the text logged and the decision.

    The theorems say that the special values fail closed: no [nan] and
    no overflow is ever accepted, whatever the tolerance, and that on
    finite distances [judge] is the rational model of the other files.
    [dle] is cross-checked against the comparison of the library's
    floats. *)

From Stdlib Require Import Lqa SpecFloat.
From S2P Require Import Prelude Effects Logger Vision Floats.

(** ** The doubles *)

(** A double of Python: a finite one is the rational it denotes. *)
Inductive Double : Type :=
| Finite (q : Q)
| Infinity (negative : bool)
| NaN.

(** [x <= y] on floats, src/presence_guard.py:202: false when either
    is a [nan]. *)
Definition dle (x y : Double) : bool :=
  match x, y with
  | NaN, _ | _, NaN => false
  | Infinity true, _ | _, Infinity false => true
  | Infinity false, _ | _, Infinity true => false
  | Finite p, Finite q => (p <=? q)%Q
  end.

(** [np.minimum]: the smaller of two doubles, a [nan] if one of them
    is. *)
Definition dmin (x y : Double) : Double :=
  match x, y with
  | NaN, _ | _, NaN => NaN
  | Finite p, Finite q => Finite (Qmin p q)
  | _, _ => if dle x y then x else y
  end.

(** [np.min], src/presence_guard.py:200: raises [ValueError] on an
    empty array. *)
Definition np_min_d (l : list Double) : outcome Double :=
  match l with
  | [] => Raises ValueError
  | x :: l => Returns (fold_left dmin l x)
  end.

(** [f"{best:.3f}"], src/presence_guard.py:201. *)
Definition format_3f_d (x : Double) : string :=
  match x with
  | Finite q => format_3f q
  | Infinity negative => (if negative then "-inf" else "inf")%string
  | NaN => "nan"%string
  end.

(** Lines 200-202 on the distances [dists]: the text of the line
    logged and the decision. *)
Definition judge (ALLOWED_TOLERANCE : Q) (dists : list Double) : outcome (string * bool) :=
  match np_min_d dists with
  | Returns best =>
      Returns (("Best face distance: " +:+ format_3f_d best)%string,
               dle best (Finite (literal ALLOWED_TOLERANCE)))
  | Raises e => Raises e
  end.

(** The double a float of the library denotes. *)
Definition of_SF (f : spec_float) : Double :=
  match f with
  | S754_nan => NaN
  | S754_infinity s => Infinity s
  | _ => Finite (default 0%Q (SF2Q f))
  end.

(** ** The minimum *)

Lemma fold_dmin_finite l x :
  fold_left dmin (Finite <$> l) (Finite x) = Finite (fold_left Qmin l x).
Proof. revert x. induction l as [|y l IH]; intros x; [done | apply IH]. Qed.

Lemma dmin_nan_r x : dmin x NaN = NaN.
Proof. by destruct x as [|[]|]. Qed.

Lemma fold_dmin_from_nan l : fold_left dmin l NaN = NaN.
Proof. induction l as [|y l IH]; [done | apply IH]. Qed.

(** One [nan] among the distances makes the minimum a [nan]. *)
Lemma fold_dmin_nan l x : NaN ∈ x :: l -> fold_left dmin l x = NaN.
Proof.
  revert x. induction l as [|y l IH]; intros x.
  - by intros <-%list_elem_of_singleton.
  - intros [<-|[<-|Hin]%elem_of_cons]%elem_of_cons; cbn [fold_left].
    + apply fold_dmin_from_nan.
    + rewrite dmin_nan_r. apply fold_dmin_from_nan.
    + apply IH. destruct (dmin x y) eqn:Hm; [by right..|by left].
Qed.

Lemma fold_dmin_overflow l :
  Forall (fun d => d = Infinity false) l -> fold_left dmin l (Infinity false) = Infinity false.
Proof. induction 1 as [|y l -> _ IH]; [done | apply IH]. Qed.

(** ** The order *)

Lemma dle_refl x : x <> NaN -> dle x x = true.
Proof. destruct x as [q|[]|]; try done. intros _. apply Qle_bool_iff, Qle_refl. Qed.

Lemma dle_trans x y z : dle x y = true -> dle y z = true -> dle x z = true.
Proof.
  destruct x as [p|[]|], y as [q|[]|], z as [r|[]|]; try done. cbn.
  rewrite !Qle_bool_iff. apply Qle_trans.
Qed.

Lemma dle_total x y : x <> NaN -> y <> NaN -> dle x y = true \/ dle y x = true.
Proof.
  destruct x as [p|[]|], y as [q|[]|]; try done; try (by left); try (by right).
  intros _ _. cbn. rewrite !Qle_bool_iff. destruct (Qlt_le_dec p q) as [?%Qlt_le_weak|?]; auto.
Qed.

Lemma Qmin_cases p q : (Qmin p q = p /\ (p <= q)%Q) \/ (Qmin p q = q /\ (q <= p)%Q).
Proof.
  unfold Qmin, GenericMinMax.gmin. destruct (Qcompare_spec p q) as [Heq|Hlt|Hgt].
  - left. split; [done|]. rewrite Heq. apply Qle_refl.
  - left. split; [done|]. by apply Qlt_le_weak.
  - right. split; [done|]. by apply Qlt_le_weak.
Qed.

(** The minimum of two doubles that are no [nan] is one of them, below
    the other. *)
Lemma dmin_cases x y :
  x <> NaN -> y <> NaN ->
  (dmin x y = x /\ dle x y = true) \/ (dmin x y = y /\ dle y x = true).
Proof.
  intros Hx Hy. destruct x as [p|[]|], y as [q|[]|]; try done; try (by left); try (by right).
  cbn. destruct (Qmin_cases p q) as [[-> ?%Qle_bool_iff]|[-> ?%Qle_bool_iff]]; auto.
Qed.

Lemma no_nan_cons x l : NaN ∉ x :: l <-> x <> NaN /\ NaN ∉ l.
Proof. rewrite not_elem_of_cons. by split; intros [? ?]. Qed.

(** What [np.min] returns when no distance is a [nan]: one of the
    distances, below all of them. *)
Lemma fold_dmin_spec l x :
  NaN ∉ x :: l ->
  fold_left dmin l x ∈ x :: l /\ Forall (fun d => dle (fold_left dmin l x) d = true) (x :: l).
Proof.
  revert x. induction l as [|y l IH]; intros x [Hx Hl]%no_nan_cons.
  - split; [by left|]. repeat constructor. by apply dle_refl.
  - apply no_nan_cons in Hl as [Hy Hl]. cbn [fold_left].
    destruct (dmin_cases x y Hx Hy) as [[-> Hle]|[-> Hle]].
    + destruct (IH x) as [Hin [Hm Hall]%Forall_cons]; [by apply no_nan_cons|].
      split; [apply elem_of_cons in Hin as [->|?]; [by left | by right; right]|].
      constructor; [done|]. constructor; [by eapply dle_trans | done].
    + destruct (IH y) as [Hin [Hm Hall]%Forall_cons]; [by apply no_nan_cons|].
      split; [by right|]. constructor; [by eapply dle_trans | by constructor].
Qed.

(** ** The decision *)

Section Judge.
Context (tol : Q).
Implicit Types (dists : list Double) (qs : list Q).

(** On finite distances [judge] is the rational model: the line of
    [MBestDistance] and the test of [within_tolerance]. *)
Lemma judge_finite str qs :
  judge tol (Finite <$> qs)
  = match np_min qs with
    | Returns best => Returns (render str (MBestDistance best), within_tolerance tol best)
    | Raises e => Raises e
    end.
Proof. destruct qs as [|q qs]; [done|]. unfold judge. cbn. by rewrite fold_dmin_finite. Qed.

(** A [nan] among the distances is logged and rejected. *)
Lemma judge_nan dists :
  NaN ∈ dists -> judge tol dists = Returns ("Best face distance: nan"%string, false).
Proof.
  destruct dists as [|d dists]; [by intros ?%elem_of_nil|]. intros Hin.
  unfold judge. cbn. by rewrite fold_dmin_nan.
Qed.

(** Distances that all overflowed are logged and rejected. *)
Lemma judge_overflow dists :
  dists <> [] -> Forall (fun d => d = Infinity false) dists ->
  judge tol dists = Returns ("Best face distance: inf"%string, false).
Proof.
  destruct dists as [|d dists]; [done|]. intros _ [-> Hall]%Forall_cons.
  unfold judge. cbn. by rewrite fold_dmin_overflow.
Qed.

(** What is accepted: no distance is a [nan], and one of them is
    within the tolerance. *)
Lemma judge_accepts dists :
  (exists txt, judge tol dists = Returns (txt, true)) <->
  (NaN ∉ dists) /\ exists d, d ∈ dists /\ dle d (Finite (literal tol)) = true.
Proof.
  destruct dists as [|x l]; [split; [by intros [? ?] | by intros [_ (? & ?%elem_of_nil & _)]]|].
  unfold judge. cbn [np_min_d]. split.
  - intros [txt [= _ Hle]].
    assert (NaN ∉ x :: l) as Hnan by (intros Hin; by rewrite fold_dmin_nan in Hle).
    split; [done|]. exists (fold_left dmin l x). split; [apply fold_dmin_spec|]; done.
  - intros [Hnan (d & Hd & Hle)]. destruct (fold_dmin_spec l x Hnan) as [_ Hall].
    rewrite Forall_forall in Hall. eexists. by rewrite (dle_trans _ d _ (Hall d Hd) Hle).
Qed.

(** C19. The special values fail closed: a [nan] among the distances is
    logged as [nan] and rejected whatever the tolerance; a face is
    accepted exactly when no distance is a [nan] and one of them is
    within the double of the tolerance, so that distances that
    overflowed are rejected too; and on finite distances the three
    lines log and decide as the rational model of the matcher does. *)
Theorem special_distances_fail_closed dists :
  (NaN ∈ dists -> judge tol dists = Returns ("Best face distance: nan"%string, false)) /\
  ((exists txt, judge tol dists = Returns (txt, true)) <->
   (NaN ∉ dists) /\ exists d, d ∈ dists /\ dle d (Finite (literal tol)) = true) /\
  (forall str qs, dists = Finite <$> qs ->
     judge tol dists
     = match np_min qs with
       | Returns best => Returns (render str (MBestDistance best), within_tolerance tol best)
       | Raises e => Raises e
       end).
Proof.
  split_and!; [apply judge_nan | apply judge_accepts |]. intros str qs ->. apply judge_finite.
Qed.
End Judge.

(** ** The matcher *)

Section Matcher.
Context `{Vision}.

(** The matcher of [Vision], with the tolerance of the source, is
    [judge] on the distances it computes: its verdict and the text of
    the line it logs. *)
Theorem identify_judge str tol known rgb locs enc encs :
  face_encodings rgb locs = Returns (enc :: encs) ->
  match judge tol (Finite <$> distances known enc) with
  | Returns (txt, ok) =>
      result_of (identify (literal tol) known rgb locs) = Returns ok /\
      exists best,
        trace_of (identify (literal tol) known rgb locs)
        = EvFaceEncodings :: logs (MBestDistance best) /\
        render str (MBestDistance best) = txt
  | Raises e => result_of (identify (literal tol) known rgb locs) = Raises e
  end.
Proof.
  intros Henc. rewrite (judge_finite tol str), identify_cases, Henc. unfold best_distance.
  destruct (np_min (distances known enc)) as [best|e]; [|done]. split; [done|]. by exists best.
Qed.
End Matcher.

(** ** The comparison of the library's floats

    [dle] is the comparison [SFleb] of the binary64 of the standard
    library on every pair of valid floats. *)

Section Library.
Implicit Types (m : positive) (e : Z) (x y : spec_float).

(** The magnitude of a finite float. *)
Definition mag m e : Q := (inject_Z (Z.pos m) * 2 ^ e)%Q.

Lemma digits2_pos_spec m :
  2 ^ (Z.pos (digits2_pos m) - 1) <= Z.pos m < 2 ^ Z.pos (digits2_pos m).
Proof.
  induction m as [m IH|m IH|]; cbn [digits2_pos]; [| |done];
    rewrite Pos2Z.inj_succ, <- Z.add_1_r, Z.add_simpl_r, Z.pow_add_r by lia;
    replace (2 ^ Z.pos (digits2_pos m)) with (2 * 2 ^ (Z.pos (digits2_pos m) - 1)) in *
      by (rewrite <- Z.pow_succ_r by lia; f_equal; lia); lia.
Qed.

(** A valid mantissa has at most 53 bits, and exactly 53 above the
    least exponent. *)
Lemma bounded_mantissa m e :
  bounded 53 1024 m e = true ->
  -1074 <= e /\ Z.pos m < 2 ^ 53 /\ (-1074 < e -> 2 ^ 52 <= Z.pos m).
Proof.
  unfold bounded, canonical_mantissa, fexp, SpecFloat.emin.
  intros [Hc%Z.eqb_eq _]%andb_prop. pose proof (digits2_pos_spec m) as [Hlo Hhi].
  assert (Z.pos (digits2_pos m) <= 53) as Hd by lia.
  split_and!; [lia| |].
  - eapply Z.lt_le_trans; [exact Hhi|]. by apply Z.pow_le_mono_r.
  - intros He. by replace (Z.pos (digits2_pos m)) with 53 in Hlo by lia.
Qed.

Lemma mag_pos m e : (0 < mag m e)%Q.
Proof. apply Qmult_lt_0_compat; [done | apply pow2_pos]. Qed.

(** A smaller exponent is a smaller float. *)
Lemma mag_lt m1 e1 m2 e2 :
  bounded 53 1024 m1 e1 = true -> bounded 53 1024 m2 e2 = true ->
  e1 < e2 -> (mag m1 e1 < mag m2 e2)%Q.
Proof.
  intros (H1 & Hm1 & _)%bounded_mantissa (_ & _ & Hm2)%bounded_mantissa He.
  specialize (Hm2 ltac:(lia)). unfold mag.
  rewrite Zlt_Qlt in Hm1. rewrite Zle_Qle in Hm2.
  assert (2 ^ e2 == 2 ^ (e2 - e1 - 1) * (2 * 2 ^ e1))%Q as ->
    by (rewrite <- pow2_succ, <- pow2_plus; by replace (e2 - e1 - 1 + (e1 + 1)) with e2 by lia).
  pose proof (pow2_le 0 (e2 - e1 - 1) ltac:(lia)) as Hk. change (2 ^ 0)%Q with 1%Q in Hk.
  pose proof (pow2_pos e1) as Hp.
  change (inject_Z (2 ^ 53)) with (2 * inject_Z (2 ^ 52))%Q in Hm1.
  set (M1 := inject_Z (Z.pos m1)) in *. set (M2 := inject_Z (Z.pos m2)) in *.
  set (T := inject_Z (2 ^ 52)) in *. set (E := (2 ^ e1)%Q) in *.
  set (K := (2 ^ (e2 - e1 - 1))%Q) in *.
  assert (0 < T)%Q by done.
  assert (M1 * E < 2 * T * E)%Q by nra. assert (2 * T * E <= M2 * (2 * E))%Q by nra.
  assert (0 < M2 * (2 * E))%Q by nra.
  set (P := (M2 * (2 * E))%Q) in *. assert (P <= K * P)%Q by nra.
  assert (M2 * (K * (2 * E)) == K * P)%Q as -> by (unfold P; ring). lra.
Qed.

(** The comparison of two finite floats of one sign compares their
    magnitudes. *)
Lemma mag_compare m1 e1 m2 e2 :
  bounded 53 1024 m1 e1 = true -> bounded 53 1024 m2 e2 = true ->
  match match e1 ?= e2 with
        | Lt => Lt
        | Gt => Gt
        | Eq => Pos.compare_cont Eq m1 m2
        end with
  | Lt => (mag m1 e1 < mag m2 e2)%Q
  | Eq => (mag m1 e1 == mag m2 e2)%Q
  | Gt => (mag m2 e2 < mag m1 e1)%Q
  end.
Proof.
  intros H1 H2. destruct (Z.compare_spec e1 e2) as [->|He|He]; [|by apply mag_lt..].
  change (Pos.compare_cont Eq m1 m2) with (m1 ?= m2)%positive. unfold mag.
  pose proof (pow2_pos e2).
  destruct (Pos.compare_spec m1 m2) as [->|Hm|Hm]; [done|..];
    apply Qmult_lt_compat_r; try done; by rewrite <- Zlt_Qlt.
Qed.

Lemma Qle_bool_lt (p q : Q) : (q < p)%Q -> Qle_bool p q = false.
Proof. intros Hlt. apply not_true_is_false. intros Hle%Qle_bool_iff. by apply Qlt_not_le in Hlt. Qed.

Lemma Qle_bool_le (p q : Q) : (p <= q)%Q -> Qle_bool p q = true.
Proof. apply Qle_bool_iff. Qed.

(** [dle] is [SFleb] on the valid floats. *)
Theorem dle_SFleb x y :
  valid_binary 53 1024 x = true -> valid_binary 53 1024 y = true ->
  SFleb x y = dle (of_SF x) (of_SF y).
Proof.
  destruct x as [s1|s1| |s1 m1 e1], y as [s2|s2| |s2 m2 e2]; cbn [valid_binary];
    intros Hx Hy; try done; try (by destruct s1); try (by destruct s2);
    try (by destruct s1, s2); unfold SFleb, SFcompare, of_SF, SF2Q, dle, default; cbn [Datatypes.id].
  - pose proof (mag_pos m2 e2). symmetry.
    destruct s2; [apply Qle_bool_lt | apply Qle_bool_le]; unfold mag in *; lra.
  - pose proof (mag_pos m1 e1). symmetry.
    destruct s1; [apply Qle_bool_le | apply Qle_bool_lt]; unfold mag in *; lra.
  - pose proof (mag_pos m1 e1). pose proof (mag_pos m2 e2).
    pose proof (mag_compare m1 e1 m2 e2 Hx Hy) as Hc. symmetry. revert Hc.
    destruct s1, s2; (destruct (e1 ?= e2); [destruct (Pos.compare_cont Eq m1 m2)| |]);
      cbn [CompOpp]; intros Hc; (apply Qle_bool_le || apply Qle_bool_lt);
      unfold mag in *; lra.
Qed.
End Library.

(** ** Examples *)

(** The lines logged and the decisions on an enrolled face, on a
    [nan], on an overflow, and on no enrolled encoding. *)
Example judge_values :
  judge (65 # 100) [Finite (7 # 10); Finite (3 # 10)]
  = Returns ("Best face distance: 0.300"%string, true) /\
  judge (65 # 100) [Finite (3 # 10); NaN; Finite (1 # 10)]
  = Returns ("Best face distance: nan"%string, false) /\
  judge (65 # 100) [Infinity false; Infinity false]
  = Returns ("Best face distance: inf"%string, false) /\
  judge (65 # 100) [] = Raises ValueError.
Proof. by vm_compute. Qed.

(** The floats 0.3 and 0.65 of the library, as the division computes
    them. *)
Definition SF_of_ratio (a b : Z) : spec_float :=
  SFdiv 53 1024 (binary_normalize 53 1024 a 0 false) (binary_normalize 53 1024 b 0 false).

Lemma dle_SFleb_witness :
  SFleb (SF_of_ratio 3 10) (SF_of_ratio 65 100)
  = dle (of_SF (SF_of_ratio 3 10)) (of_SF (SF_of_ratio 65 100)).
Proof. apply dle_SFleb; by vm_compute. Defined.

(** The comparison of the library on the special values. *)
Example SFleb_special_values :
  SFleb S754_nan (SF_of_ratio 65 100) = false /\
  SFleb (S754_infinity false) (SF_of_ratio 65 100) = false /\
  SFleb (SF_of_ratio 3 10) (SF_of_ratio 65 100) = true /\
  of_SF (SF_of_ratio 65 100) = Finite (5854679515581645 * 2 ^ (-53))%Q.
Proof. by vm_compute. Qed.
