(* ===== verification/Metric.v ===== *)
(** * The distance of the identity matcher

    [np.linalg.norm(known - enc, axis=1)], src/presence_guard.py:199,
    is the distance of the specification, "Euclidean (or equivalent)".
    The norm is a capability of [Vision]; [Metric] states what the
    matcher relies on: the norm depends on the values of the numbers
    only, is not negative, is zero on the zero row, does not change
    with the sign and obeys the triangle inequality.

    Against this interface: an enrolled encoding is at distance zero of
    itself and is accepted under every tolerance that is not negative
    ([enrolled_accepted]); the distance is symmetric and obeys the
    triangle inequality on rows of one length; and the best distance
    changes by at most the distance between two encodings
    ([best_distance_stable]), so a face accepted with a margin stays
    accepted, and a face rejected with a margin stays rejected, when the
    encoding moves by less than the margin ([identify_stable]).
    [stub_metric] discharges the interface for the norm of the
    witnesses, the sum of the absolute values. *)

From Stdlib Require Import Qabs Lqa.
From S2P Require Import Prelude Effects Vision PresenceLoop Scenarios.

(** What the matcher relies on of [np.linalg.norm]. *)
Class Metric `{Vision} : Prop := {
  norm_comp : forall v w, Forall2 Qeq v w -> (norm v == norm w)%Q;
  norm_nonneg : forall v, (0 <= norm v)%Q;
  norm_zero : forall v, Forall (fun x => x == 0)%Q v -> (norm v == 0)%Q;
  norm_opp : forall v, (norm (map Qopp v) == norm v)%Q;
  norm_triangle : forall v w,
    length v = length w -> (norm (zip_with Qplus v w) <= norm v + norm w)%Q
}.

(** ** Rows *)

Section Rows.
Implicit Types (a b c k enc : Encoding).

Lemma row_sub_self k : Forall (fun x => x == 0)%Q (row_sub k k).
Proof. induction k as [|x k IH]; constructor; [ring | done]. Qed.

Lemma row_sub_opp a b : Forall2 Qeq (map Qopp (row_sub a b)) (row_sub b a).
Proof.
  revert b. induction a as [|x a IH]; intros [|y b]; try constructor; [ring | apply IH].
Qed.

Lemma row_sub_plus a b c :
  length a = length b -> length b = length c ->
  Forall2 Qeq (row_sub a c) (zip_with Qplus (row_sub a b) (row_sub b c)).
Proof.
  revert b c. induction a as [|x a IH]; intros [|y b] [|z c] Hab Hbc; try done.
  constructor; [ring | apply IH; by simplify_eq/=].
Qed.
End Rows.

(** ** The distance *)

Section Distance.
Context `{Metric}.
Implicit Types (a b c k enc : Encoding) (known : list Encoding) (tol : Q).

(** An encoding is at distance zero of itself. *)
Lemma distance_self k : (norm (row_sub k k) == 0)%Q.
Proof. apply norm_zero, row_sub_self. Qed.

(** The distance is symmetric. *)
Lemma distance_sym a b : (norm (row_sub a b) == norm (row_sub b a))%Q.
Proof. rewrite <- (norm_opp (row_sub a b)). apply norm_comp, row_sub_opp. Qed.

(** The triangle inequality of the distance, on rows of one length. *)
Lemma distance_triangle a b c :
  length a = length b -> length b = length c ->
  (norm (row_sub a c) <= norm (row_sub a b) + norm (row_sub b c))%Q.
Proof.
  intros Hab Hbc. rewrite (norm_comp _ _ (row_sub_plus a b c Hab Hbc)).
  apply norm_triangle. rewrite !row_sub_length. lia.
Qed.

(** The best distance is the distance to an enrolled encoding and is
    at most the distance to each. *)
Lemma best_distance_spec known enc best :
  best_distance known enc = Returns best ->
  (exists k, k ∈ known /\ best = norm (row_sub k enc)) /\
  (forall k, k ∈ known -> (best <= norm (row_sub k enc))%Q).
Proof.
  intros [Hin Hlow]%np_min_spec. unfold distances in *. split.
  - apply list_elem_of_fmap in Hin as (k & -> & Hk). eauto.
  - intros k Hk. rewrite Forall_forall in Hlow. apply Hlow.
    by apply (list_elem_of_fmap_2 (fun k => norm (row_sub k enc))).
Qed.

(** The best distance moves by at most the distance between the two
    encodings. *)
Lemma best_distance_le_near d known enc enc' best best' :
  shaped d known -> length enc = d -> length enc' = d ->
  best_distance known enc = Returns best ->
  best_distance known enc' = Returns best' ->
  (best <= best' + norm (row_sub enc' enc))%Q.
Proof.
  intros Hk He He' [_ Hlow]%best_distance_spec [(k & Hin & ->) _]%best_distance_spec.
  pose proof (proj1 (Forall_forall _ _) Hk k Hin) as Hl. simpl in Hl.
  eapply Qle_trans; [by apply Hlow|]. apply distance_triangle; congruence.
Qed.
End Distance.

(** ** The matcher *)

Section Matcher.
Context `{Metric}.
Implicit Types (k enc : Encoding) (known : list Encoding) (tol : Q).

(** The best distance is stable: against an enrolled matrix of [d]
    columns, the best distances of two encodings of [d] numbers differ
    by at most the distance between the two encodings. *)
Theorem best_distance_stable d known enc enc' best best' :
  shaped d known -> length enc = d -> length enc' = d ->
  best_distance known enc = Returns best ->
  best_distance known enc' = Returns best' ->
  (Qabs (best - best') <= norm (row_sub enc enc'))%Q.
Proof.
  intros Hk He He' Hb Hb'.
  pose proof (best_distance_le_near d known enc enc' best best' Hk He He' Hb Hb') as Hle.
  pose proof (best_distance_le_near d known enc' enc best' best Hk He' He Hb' Hb) as Hle'.
  rewrite (distance_sym enc' enc) in Hle. apply Qabs_Qle_condition. split; lra.
Qed.

(** An enrolled face is accepted: when the encoder returns an enrolled
    encoding, the matcher accepts under every tolerance that is not
    negative. *)
Theorem enrolled_accepted tol known rgb locs k encs :
  k ∈ known -> face_encodings rgb locs = Returns (k :: encs) -> (0 <= tol)%Q ->
  result_of (identify tol known rgb locs) = Returns true.
Proof.
  intros Hin He Htol. apply identify_true_iff; [by intros ->; apply not_elem_of_nil in Hin|].
  exists k, encs, k. split_and!; [done..|]. by rewrite distance_self.
Qed.

(** A face accepted with a margin stays accepted: when the matcher
    accepts the first encoding of one frame under [tol], it accepts the
    first encoding of another frame under [tol] plus the distance
    between the two encodings. *)
Theorem identify_stable d tol known rgb locs rgb' locs' enc encs enc' encs' :
  shaped d known -> length enc = d -> length enc' = d ->
  face_encodings rgb locs = Returns (enc :: encs) ->
  face_encodings rgb' locs' = Returns (enc' :: encs') ->
  result_of (identify tol known rgb locs) = Returns true ->
  result_of (identify (tol + norm (row_sub enc enc')) known rgb' locs') = Returns true.
Proof.
  intros Hk He He' Hf Hf' Hacc.
  assert (known <> []) as Hne by (intros ->; by rewrite identify_cases, Hf in Hacc).
  apply identify_true_iff in Hacc as (? & ? & k & Hf0 & Hin & Hle); [|done].
  rewrite Hf in Hf0. injection Hf0 as <- <-.
  apply identify_true_iff; [done|]. exists enc', encs', k. split_and!; [done..|].
  pose proof (proj1 (Forall_forall _ _) Hk k Hin) as Hl. simpl in Hl.
  pose proof (distance_triangle k enc enc' ltac:(congruence) ltac:(congruence)). lra.
Qed.
End Matcher.

(** ** The norm of the witnesses *)

Section Stub.
Context (hog cnn : list Location) (encs : list Encoding).

Local Abbreviation sum_abs := (fold_right (fun x acc => Qabs x + acc)%Q 0%Q).

Lemma sum_abs_nonneg v : (0 <= sum_abs v)%Q.
Proof. induction v as [|x v IH]; simpl; [done|]. pose proof (Qabs_nonneg x). lra. Qed.

#[export] Instance stub_metric : @Metric (stub_vision hog cnn encs).
Proof.
  split; simpl.
  - induction 1 as [|x y v w Hxy _ IH]; simpl; [done|]. by rewrite Hxy, IH.
  - apply sum_abs_nonneg.
  - induction 1 as [|x v Hx _ IH]; simpl; [done|]. rewrite Hx, IH. by vm_compute.
  - induction v as [|x v IH]; simpl; [done|]. pose proof (Qabs_opp x) as Hx. by rewrite Hx, IH.
  - induction v as [|x v IH]; intros [|y w] Hl; try done. cbn [zip_with foldr].
    pose proof (Qabs_triangle x y). pose proof (IH w ltac:(by simplify_eq/=)). lra.
Qed.
End Stub.

(** ** Witnesses *)

Lemma best_distance_stable_witness :
  let V := stub_vision [face] [] [near_me] in
  (Qabs ((3 # 10) - (9 # 10)) <= norm (Vision := V) (row_sub near_me stranger))%Q.
Proof.
  intros V.
  apply (best_distance_stable (H := V) 2 [me] near_me stranger (3 # 10) (9 # 10));
    by repeat constructor.
Defined.
