(* ===== verification/Cascades.v ===== *)
(** * The lock actuator inside the loops

    The loops call [lock_session] from their locking branches.  This
    file composes the two components: what the lock actuator does in a
    run of a loop.

    [lock_events] is the part of a trace that belongs to the lock
    actuator, [lockers] the observations of the turns of a run that
    attempt a lock.  In a run of either loop the events of the lock
    actuator are, in order, one whole cascade for each turn that locks,
    run from the first command on with the answers of that turn, and
    nothing else ([loop_lock_events], [frames_lock_events]); with
    [lock_session] of src/presence_guard.py the commands of a run are
    the commands [attempted] of these turns
    ([loop_runs_cascades]).  Two turns that lock on the same answers of
    the commands perform the same attempts, whatever the state of the
    loop and whatever came before ([lock_attempts_idempotent]). *)

From S2P Require Import Prelude Effects LockActuator Vision Gate Camera Enrollment.
From S2P Require Import PresenceLoop Scenarios PresenceTurn PresenceRun FaceDetectLoop.

(** The events of the lock actuator in a trace, in order. *)
Definition lock_events (t : trace) : trace := List.filter lock_event t.

(** The observations of the turns of a run that attempt a lock. *)
Fixpoint lockers {S} (step : S -> Obs -> Prog S) (st : S) (os : list Obs) : list Obs :=
  match os with
  | [] => []
  | o :: os =>
      let rest :=
        match result_of (step st o) with
        | Returns st' => lockers step st' os
        | Raises _ => []
        end in
      if locked (trace_of (step st o)) then o :: rest else rest
  end.

(** ** The events of the lock actuator *)

Section LockEvents.
Implicit Types (t : trace).

Lemma lock_events_app t t' : lock_events (t ++ t') = lock_events t ++ lock_events t'.
Proof. apply List.filter_app. Qed.

Lemma lock_events_none t : locked t = false -> lock_events t = [].
Proof.
  intros Hf%locked_false. unfold lock_events. induction Hf as [|ev t Hev _ IH]; [done|].
  cbn. by rewrite Hev.
Qed.

Lemma lock_events_all t : Forall (fun ev => lock_event ev = true) t -> lock_events t = t.
Proof.
  unfold lock_events. induction 1 as [|ev t Hev _ IH]; [done|]. cbn. by rewrite Hev, IH.
Qed.

Lemma lock_events_locked t : lock_events t = [] -> locked t = false.
Proof.
  unfold lock_events. intros Hn. apply locked_false. induction t as [|ev t IH]; [constructor|].
  cbn in Hn. destruct (lock_event ev) eqn:Hev; [done|]. constructor; auto.
Qed.
End LockEvents.

(** ** A loop whose locking turns run one cascade *)

Section Loop.
Context {S : Type} (step : S -> Obs -> Prog S).
Context (lock_session : (Cmd -> outcome unit) -> Prog bool).
Context (Hstep : forall st o,
  lock_events (trace_of (step st o))
  = if locked (trace_of (step st o)) then trace_of (lock_session (run o)) else []).

Lemma for_each_lock_events os st :
  lock_events (trace_of (for_each step st os))
  = lockers step st os ≫= fun o => trace_of (lock_session (run o)).
Proof.
  revert st. induction os as [|o os IH]; intros st; [done|].
  cbn [for_each lockers]. rewrite trace_bind, lock_events_app, Hstep.
  destruct (result_of (step st o)) as [st'|e]; rewrite ?IH;
    destruct (locked (trace_of (step st o))); cbn; by rewrite ?app_nil_r.
Qed.

Lemma lockers_sublist os st : lockers step st os `sublist_of` os.
Proof.
  revert st. induction os as [|o os IH]; intros st; [constructor|]. cbn [lockers].
  assert (match result_of (step st o) with
          | Returns st' => lockers step st' os
          | Raises _ => []
          end `sublist_of` os) by (destruct (result_of (step st o)); [apply IH | apply sublist_nil_l]).
  destruct (locked _); by constructor.
Qed.
End Loop.

(** ** The loop of src/presence_guard.py *)

Section Presence.
Context `{Vision}.
Context (lock_session : (Cmd -> outcome unit) -> Prog bool) `{!LockActuator lock_session}.
Context (cfg : Config) (cap : Z) (known : list Encoding).
Implicit Types (st : State) (o : Obs) (os : list Obs).

Local Abbreviation iteration := (iteration lock_session cfg cap known).
Local Abbreviation loop := (loop lock_session cfg cap known).

Lemma lock_session_lock_events o :
  lock_events (trace_of (lock_session (run o))) = trace_of (lock_session (run o)).
Proof. apply lock_events_all, lock_footprint. Qed.

Lemma lock_and_cool_lock_events o :
  lock_events (trace_of (lock_and_cool lock_session cfg o)) = trace_of (lock_session (run o)).
Proof.
  unfold lock_and_cool. rewrite trace_bind, lock_events_app, lock_session_lock_events.
  destruct (result_of (lock_session (run o))); by rewrite ?app_nil_r.
Qed.

(** The deciding half of a turn runs one cascade when it locks and no
    event of the lock actuator otherwise. *)
Lemma react_lock_events st o (r : option Sample) :
  lock_events (trace_of (react lock_session cfg st o r))
  = if locked (trace_of (react lock_session cfg st o r))
    then trace_of (lock_session (run o)) else [].
Proof.
  destruct r as [s|]; [|by rewrite react_unread_quiet, lock_events_none by apply react_unread_quiet].
  rewrite (react_locked lock_session cfg st o s). unfold react.
  rewrite trace_bind, lock_events_app, trace_log, result_log.
  rewrite (lock_events_none [_; _]) by apply locked_false, announce_not_lock.
  rewrite trace_bind, lock_events_app. destruct (spec_lock _ _ _).
  - rewrite lock_and_cool_lock_events.
    destruct (result_of (lock_and_cool _ _ _)); [|by rewrite app_nil_r].
    rewrite lock_events_none; [by rewrite app_nil_r|].
    rewrite trace_bind. by destruct (companion s), (interval o).
  - rewrite trace_mret, result_mret. apply lock_events_none.
    rewrite trace_bind. by destruct (companion s), (interval o).
Qed.

Lemma iteration_lock_events st o :
  lock_events (trace_of (iteration st o))
  = if locked (trace_of (iteration st o)) then trace_of (lock_session (run o)) else [].
Proof.
  rewrite iteration_trace, lock_events_app, locked_app, sense_not_locked.
  rewrite (lock_events_none (trace_of (sense _ _ _ _ _))) by apply sense_not_locked.
  destruct (result_of (sense cfg cap known st o)) as [r|e]; [apply react_lock_events | done].
Qed.

(** The events of the lock actuator in a run: one whole cascade for
    each turn that locks, with the answers of that turn. *)
Lemma loop_lock_events st os :
  lock_events (trace_of (loop st os))
  = lockers iteration st os ≫= fun o => trace_of (lock_session (run o)).
Proof. rewrite loop_for_each. apply for_each_lock_events, iteration_lock_events. Qed.

(** Idempotence of the lock attempts: two turns that lock on the same
    answers of the commands perform the same events of the lock
    actuator, whatever the states of the loop and the rest of the two
    observations are. *)
Theorem lock_attempts_idempotent st st' o o' :
  run o = run o' ->
  locked (trace_of (iteration st o)) = true ->
  locked (trace_of (iteration st' o')) = true ->
  lock_events (trace_of (iteration st o)) = lock_events (trace_of (iteration st' o')).
Proof. intros Hrun Hl Hl'. by rewrite !iteration_lock_events, Hl, Hl', Hrun. Qed.
End Presence.

(** ** The loop of src/face_detect.py *)

Section FaceDetect.
Context `{Vision}.
Context (resize : Image -> Image).
Context (lock_session : (Cmd -> outcome unit) -> Prog bool) `{!LockActuator lock_session}.
Context (cfg : FaceDetect.Params) (known : list Encoding).
Implicit Types (st : option Time) (o : Obs) (os : list Obs).

Local Abbreviation turn := (FaceDetect.turn resize lock_session cfg known).
Local Abbreviation frames := (FaceDetect.frames resize lock_session cfg known).

Lemma lock_and_wait_lock_events o :
  lock_events (trace_of (FaceDetect.lock_and_wait lock_session cfg o))
  = trace_of (lock_session (run o)).
Proof.
  unfold FaceDetect.lock_and_wait.
  rewrite trace_bind, lock_events_app, (lock_session_lock_events lock_session).
  destruct (result_of (lock_session (run o))); [|by rewrite app_nil_r].
  rewrite trace_bind, trace_sleep, result_sleep.
  by destruct (cooldown o); rewrite app_nil_r.
Qed.

Lemma respond_lock_events st o (r : option Sample) :
  lock_events (trace_of (FaceDetect.respond lock_session cfg st o r))
  = if locked (trace_of (FaceDetect.respond lock_session cfg st o r))
    then trace_of (lock_session (run o)) else [].
Proof.
  destruct r as [s|].
  - rewrite (respond_locked lock_session cfg st o s). unfold FaceDetect.respond.
    rewrite trace_bind, lock_events_app, trace_log, result_log.
    rewrite (lock_events_none [_; _]) by apply locked_false, verdict_line_not_lock.
    destruct (FaceDetect.strict_lock s); [apply lock_and_wait_lock_events|].
    by destruct (interval o).
  - unfold FaceDetect.respond. by destruct (interval o).
Qed.

Lemma turn_lock_events st o :
  lock_events (trace_of (turn st o))
  = if locked (trace_of (turn st o)) then trace_of (lock_session (run o)) else [].
Proof.
  rewrite turn_perceive_respond, trace_bind, lock_events_app, locked_app.
  assert (locked (trace_of (FaceDetect.perceive resize cfg known o)) = false) as Hp
    by apply locked_false, calm_not_locked, perceive_calm.
  rewrite Hp, (lock_events_none _ Hp).
  destruct (result_of (FaceDetect.perceive resize cfg known o)) as [r|e];
    [apply respond_lock_events | done].
Qed.

(** The events of the lock actuator in a run of src/face_detect.py. *)
Lemma frames_lock_events st os :
  lock_events (trace_of (frames st os))
  = lockers turn st os ≫= fun o => trace_of (lock_session (run o)).
Proof.
  rewrite (frames_for_each resize lock_session). apply for_each_lock_events, turn_lock_events.
Qed.
End FaceDetect.

(** ** The cascades of a run *)

Section Cascades.
Context `{Vision}.
Context (cfg : Config) (cap : Z) (known : list Encoding).
Implicit Types (st : State) (os : list Obs).

Local Abbreviation iteration := (iteration PresenceGuard.lock_session cfg cap known).
Local Abbreviation loop := (loop PresenceGuard.lock_session cfg cap known).

Lemma runs_of_bind (os : list Obs) (f : Obs -> trace) :
  runs_of (os ≫= f) = os ≫= fun o => runs_of (f o).
Proof. induction os as [|o os IH]; [done|]. cbn. by rewrite runs_of_app, IH. Qed.

(** C12. The lock actuator in a run of the loop: in every run of the
    loop of src/presence_guard.py, whatever the environment answers, the
    events of the lock actuator are, in order, the cascade of the
    specification for each turn that attempts a lock, run from the
    first command on with the answers that turn received; the commands
    run are those the cascade attempts; and the turns that lock are
    turns of the run in their order.  No attempt depends on an attempt
    before it. *)
Theorem loop_runs_cascades st os :
  let lock_turns := lockers iteration st os in
  lock_events (trace_of (loop st os))
  = (lock_turns ≫= fun o => cascade_trace (fun _ _ => []) (run o) cmds) /\
  runs_of (lock_events (trace_of (loop st os)))
  = (lock_turns ≫= fun o => attempted (run o) cmds) /\
  lock_turns `sublist_of` os.
Proof.
  intros lock_turns. rewrite (loop_lock_events PresenceGuard.lock_session).
  fold lock_turns. split_and!.
  - apply list_bind_ext; [|done]. intros o. by rewrite lock_session_eq.
  - rewrite runs_of_bind. apply list_bind_ext; [|done]. intros o.
    rewrite lock_session_eq. apply cascade_trace_runs. by intros.
  - apply lockers_sublist.
Qed.
End Cascades.

(** ** Examples *)

(** The empty room of the default configuration: the turns at seconds
    7 and 12 lock, each with the first command. *)
Example empty_room_cascades :
  let V := stub_vision [] [] [] in
  let run := loop (H := V) PresenceGuard.lock_session default_config 0 [me] st0 empty_room in
  lockers (iteration (H := V) PresenceGuard.lock_session default_config 0 [me]) st0 empty_room
  = [calm 7000000; calm 12000000] /\
  runs_of (lock_events (trace_of run))
  = [["loginctl"; "lock-sessions"]; ["loginctl"; "lock-sessions"]]%string.
Proof. by vm_compute. Qed.
